(* ===== verification/_CoqProject ===== *)
-Q . S2P
Prelude.v
QtCore.v
Regex.v
Variant.v
NetworkUtilities.v
IpAddress.v
SecureSettings.v
SplitTunnel.v
AppSettings.v
SplitController.v
ConnectionHealth.v
Containers.v
ServerConfig.v
ServersRepository.v
VpnProtocol.v
VpnConfig.v
DnsParser.v
DnsObserver.v
DnsResolvers.v
QrCodes.v
Effects.v
InterfaceConfig.v
Daemon.v
DaemonSafety.v
LocalSocket.v
PacketFilter.v
Firewall.v
MacFirewall.v
KillSwitch.v
KillSwitchCommands.v
WireguardMac.v
RouteMonitor.v
RouterMac.v
RouterSafety.v
VpnConnection.v
ConnectionSafety.v
Ifw.v
ControlScript.v
ComponentScript.v
