(* ===== verification/Prelude.v ===== *)
(** * Verification of AlzheimerVPN

    AlzheimerVPN is a VPN client for desktops.  A graphical client
    ([src/client]) talks to a service that runs as root ([src/service], [src/ipc])
    and to a daemon inside it that drives WireGuard ([src/client/daemon]); an
    installer ([src/deploy/installer/qif]) puts both on the machine.  This library
    models the parts that decide whether traffic can leave outside the tunnel, whether
    settings are kept, and what the installer does with the rights it has, and proves
    what makes them correct.

    ** The parts and how they interact

    The user's choices are kept by the settings store ([SecureSettings]) and read
    through two repositories ([AppSettings], [ServersRepository]).  The site controller
    ([SplitController]) edits the list of split tunnelling rules ([SplitTunnel]).  When
    the user connects, the connection ([VpnConnection]) builds the configuration
    ([VpnConfig]), asks the service to arm the kill switch ([KillSwitch]), which loads
    rules into the packet filter ([MacFirewall], [PacketFilter]), and starts a protocol
    object ([VpnProtocol]).  The one for WireGuard sends the configuration over a local
    socket ([LocalSocket], [InterfaceConfig]) to the daemon ([Daemon]), which brings the
    tunnel up and keeps routes for the addresses outside of it.  On macOS its requests
    are carried out by [WireguardMac], which configures a backend process and sets the
    rules of the firewall that come with an interface, and a DNS proxy ([DnsObserver])
    forwards queries, reads the answers with a parser ([DnsParser]) and tells the
    daemon which addresses the hosts of the rules have.  [DnsResolvers] points the
    system's resolvers at the tunnel or at the proxy and restores them, the route
    monitor ([RouteMonitor]) keeps the routes of excluded addresses on the default
    route, and the router of the service ([RouterMac]) does the same for the addresses
    it learns and asks the kill switch to permit them ([RouterSafety]).  Servers are
    handed to other devices as series of QR codes ([QrCodes]).

    ** Files

    Each file opens with what it models; definitions have the names of the source.

    - [Prelude]: tactics, the hint database [vpn], lists without repetition.
    - [QtCore], [Regex], [Variant]: what the code uses of Qt: strings, lists and maps,
      patterns, [QJsonValue] and [QVariant].
    - [NetworkUtilities] ([client/core/utils/networkUtilities.cpp]), [IpAddress]
      ([client/mozilla/shared/ipaddress.cpp]): formats of addresses, ranges.
    - [SecureSettings] ([client/secureQSettings.cpp]), [AppSettings]
      ([client/core/repositories/secureAppSettingsRepository.cpp]), [ServerConfig]
      ([client/core/utils/serverConfigUtils.cpp], [client/core/models]),
      [ServersRepository] ([client/core/repositories/secureServersRepository.cpp]):
      what is stored.  [SettingsStore] and [ServersStore] are the interfaces between
      the store and the repositories.
    - [SplitTunnel] ([client/core/utils/splitTunnelRule.cpp],
      [splitTunnelRoutePlanner.cpp]), [SplitController]
      ([client/core/controllers/ipSplitTunnelingController.cpp]): rules and their list.
    - [ConnectionHealth], [Containers], [VpnProtocol], [VpnConfig], [VpnConnection]
      ([client/vpnConnection.cpp]) and [ConnectionSafety]: the connection and what
      holds in all its runs.
    - [DnsParser] ([client/core/utils/dnsMessageParser.cpp]), [DnsObserver]
      ([client/platforms/macos/daemon/dnssplitrouteobserver.cpp]), [DnsResolvers]
      ([client/platforms/macos/daemon/dnsutilsmacos.cpp]): DNS messages, the proxy and
      the system's resolvers.
    - [QrCodes] ([client/core/utils/qrCodeUtils.cpp],
      [client/core/controllers/selfhosted/importController.cpp]): series of QR codes and
      the decoder that scans them.
    - [Effects]: programs that make requests, their runs, and the program logics that
      the other files use.
    - [InterfaceConfig], [Daemon] and [DaemonSafety] ([client/daemon/daemon.cpp]),
      [LocalSocket] ([client/mozilla/localsocketcontroller.cpp],
      [client/core/protocols/wireGuardProtocol.cpp],
      [client/daemon/daemonlocalserverconnection.cpp]): the daemon and both ends of
      its socket.
    - [PacketFilter] ([deploy/data/macos/pf]), [Firewall], [MacFirewall]
      ([client/platforms/macos/daemon/macosfirewall.cpp]), [KillSwitch] and
      [KillSwitchCommands] ([service/server/killswitch.cpp]).  [FirewallLaws] is the
      interface between the firewall and the kill switch.
    - [WireguardMac] ([client/platforms/macos/daemon/wireguardutilsmacos.cpp]):
      interfaces, peers and routes, over the kill switch and a backend ([Backend]).
    - [RouteMonitor] ([client/platforms/macos/daemon/macosroutemonitor.cpp]): the
      messages on the routing socket, default routes and exclusion routes.
    - [RouterMac] ([service/server/router_mac.cpp]) and [RouterSafety]: the routes of
      the service, learned addresses, and the router together with the kill switch.
    - [Ifw], [ControlScript], [ComponentScript] ([deploy/installer/qif]): the scripts of
      the installer.

    ** How the code is modelled

    Pure functions are functions.  Objects are records, and a method returns the new
    record with the signals it emits, in order.  Code that waits for answers of its
    surroundings is a program ([Effects.prog]) and is run against an oracle that may
    answer anything and may look at the history; a theorem about all oracles holds
    for every behaviour of the service, the system and the user.  A step of the source
    with undefined behaviour (a null dereference, the first element of an empty list, a
    read outside a buffer) is [Throw], [None] or [Undefined].  Machine integers are kept at their
    width where the code depends on it: 16 bits in [DnsParser] and [DnsObserver], 32 bits
    in [IpAddress], 64 bits in [VpnProtocol] and [WireguardMac], doubles in
    [LocalSocket], the bytes of messages in [RouteMonitor] and [QrCodes].

    Code outside the repository is a parameter with its documented behaviour as laws:
    the text form of addresses ([HostAddressText]), of JSON ([ArrayText], [JsonText])
    and of dates, Base64 and numbers ([Base64Text], [Base64Url], [DoubleText]), the cipher and the
    keychain ([SettingsCodec], [Keychain]), [pfctl] ([PfctlLaws]), the WireGuard backend
    ([Backend]) and the installer framework.  Every theorem with such a parameter or
    with hypotheses has a witness at concrete values.  [RouteMonitor.kernel] says that a
    route that is not there can be added.  The reader of a scanned configuration and the
    encoding of a text in UTF-8 are arguments of [QrCodes.parseQrCodeChunk], and its
    theorem holds for all of them.

    The build is the one for macOS desktops.  A slot runs to its end before the next
    event is handled: nested event loops are not modelled.  Strings are over Latin-1.

    ** What the theorems show

    - No leak: a confirmed protection lets no packet out but the stated exceptions
      ([protection_no_leak]), its rules decide as the policy says
      ([protection_policy]), releasing it leads to the right state
      ([release_policy]), and no text of a request to the kill switch reaches a root
      shell unchecked ([commands_safe]).
    - WireGuard on macOS: bringing interfaces up and down keeps the protection
      ([daemon_keeps_protection]), an interface that is up leaks no IPv6
      ([interface_blocks_ipv6]), and the backend's report is read back
      ([peers_recognized]).  Its exceptions, ranges and DNS servers are the only texts
      of a configuration that reach the root shell ([service_commands_safe]); the code
      does not validate them, and [excluded_address_reaches_shell] shows one that is
      run as a command.
    - The DNS proxy answers queries ([query_answered]), never more often than it was
      asked ([answers_bounded]), and announces only hosts that a rule matches
      ([resolved_by_rule]); it stops answering when all identifiers are in flight
      ([nextQueryId_ends], [unanswered_queries_hang]).
    - The system's resolvers are set to those of the tunnel
      ([resolvers_taken_over]) and restored to exactly what they would have been
      ([resolvers_restored]).
    - Routes outside the tunnel: the router leaves none behind
      ([no_route_outlives]), loses none that it learned ([learned_routes_kept]), looks
      every host up ([prewarm_progress]) and keeps the protection
      ([router_keeps_protection]); the route monitor keeps the excluded prefixes on the
      default route ([exclusions_follow_default]), tells whether there is one
      ([readiness_signalled]) and writes messages that can be read
      ([sent_route_parsed]).
    - A scanned series of codes gives the configuration back
      ([qr_series_roundtrip]).
    - The connection starts protocols only under protection
      ([protocols_start_protected]), keeps its invariant and never dereferences null
      ([connection_invariant]) and always shows its status ([status_is_shown]).
    - The daemon's routes are the ones it counts ([exclusion_routes_tracked]),
      deactivation is final ([deactivation_final]), failures are reported
      ([activation_reported]).
    - Across the socket: messages arrive as they were sent ([messages_received]), an
      activation is carried out as asked ([activation_delivered],
      [activate_received]), the client shows a connection only after a handshake
      ([shown_after_handshake]), traffic counters arrive exactly
      ([status_delivered]), and an unreachable daemon is given up
      ([unreachable_gives_up]).
    - What was stored is found again ([settings_survive_restart],
      [servers_survive_restart]), secrets are encrypted ([secrets_encrypted]), and the
      lists are consistent ([servers_invariant], [controller_mirrors_settings]).
    - Parsers are total and exact ([parser_total], [query_roundtrip],
      [response_roundtrip], [ipAddressWithSubnet_accepts_exactly],
      [excludeAddresses_exact]).
    - The installer removes an old installation only with consent
      ([uninstaller_needs_consent]), ends ([Controller_ends]) and starts only the
      service manager with administrator rights
      ([installationFinished_privileges]).

    ** Bounds

    Loops without a structural measure take fuel, and the theorems show that it is
    enough.  [IpAddress.excludeLoop] has 129 rounds, one more than an address has bits.
    [ServersRepository.nameLoop] has one round more than there are servers.
    [Daemon.activateLoop] has two, since a deactivation leaves no connection.
    [LocalSocket.readLoop] has one more than the buffer has bytes.  The loops of
    [DnsParser] are bounded by the message.  [DnsObserver.nextQueryIdLoop] has 65535
    rounds, one for each identifier; when it has not ended by then it never does, and
    the result is [Hangs].  [WireguardMac.endMessage] has two rounds.
    [RouteMonitor.messageLoop] has one round more than the buffer has bytes, which is
    enough unless a message has the length zero; [parseAddrLoop] and [dumpLoop] take at
    least one byte in every round.  [QrCodes.seriesLoop] has one round more than there
    are bytes.  The two loops of [ControlScript] that
    wait for the user and the clock take any fuel: safety holds for all of it, and
    [Controller_ends] gives an amount that is enough when the clock advances and the
    user gives up.  The [int] counters of the daemon are not bounded to 32 bits: they
    grow by one per event.

    ** Not modelled

    - States of connections in the packet filter: every rule says [no state] but the
      one for the loopback interface.
    - Linux and Windows: their firewalls, routers and branches.
    - The network watchers and the helper that changes routes for the service, which
      are system calls; the daemon, the connection, [WireguardMac] and the routers take
      the answers of the system as arbitrary.
    - The formats of imported configurations, and the forwarding of remote calls to the
      objects of the service.
    - OpenVPN and Xray, which run programs that are not in the repository; SSH and
      the scripts that run on servers; the controllers that talk to web services.
    - The parsed configurations of containers, of which only the kinds are kept.
    - The user interface, translations, the mobile clients and the build. *)

From stdpp Require Export sorting pretty numbers base tactics list gmap strings.
From stdpp Require Import options.

(** ** Automation *)

(** Hint database with the membership and freshness facts that the component
    files use to close their routine goals. *)
Create HintDb vpn.

(** Splits every boolean conditional of the goal or of a hypothesis, and closes
    the branches that contradict each other. *)
Ltac split_ifs :=
  repeat match goal with
  | |- context [if ?b then _ else _] => destruct b eqn:?
  | H : context [if ?b then _ else _] |- _ => destruct b eqn:?
  end; simplify_eq/=.

(** Turns boolean connectives and [bool_decide] in hypotheses into logical
    facts. *)
Ltac reflect_bools :=
  repeat match goal with
  | H : _ && _ = true |- _ => apply andb_true_iff in H as [??]
  | H : _ || _ = false |- _ => apply orb_false_iff in H as [??]
  | H : negb _ = true |- _ => apply negb_true_iff in H
  | H : negb _ = false |- _ => apply negb_false_iff in H
  | H : bool_decide _ = true |- _ => apply bool_decide_eq_true_1 in H
  | H : bool_decide _ = false |- _ => apply bool_decide_eq_false_1 in H
  | H : Is_true _ |- _ => apply Is_true_true_1 in H
  end.

(** Evaluates a closed goal. *)
Ltac by_compute := vm_compute; (reflexivity || discriminate || done).

(** Decides a closed proposition by evaluation. *)
Ltac decide_closed := refine (bool_decide_unpack _ _); vm_compute; exact I.

(** ** Lists that grow by elements they do not hold yet

    The loop [for (x : xs) if (!l.contains(x)) l.append(x)] occurs in many
    places of the code; it is [merge_new]. *)
Section append_new.
Context {A : Type} `{EqDecision A}.
Implicit Types (x : A) (l xs : list A).

Definition append_new l x : list A := if decide (x ∈ l) then l else l ++ [x].

Definition merge_new l xs : list A := foldl append_new l xs.

(** [QStringList::removeDuplicates]: the first occurrence of each element
    stays. *)
Definition dedup xs : list A := merge_new [] xs.

Lemma elem_of_append_new l x y : y ∈ append_new l x ↔ y ∈ l ∨ y = x.
Proof. unfold append_new. case_decide; set_solver. Qed.

Lemma elem_of_merge_new l xs y : y ∈ merge_new l xs ↔ y ∈ l ∨ y ∈ xs.
Proof.
  revert l. induction xs as [|x xs IH]; intros l; simpl; [set_solver|].
  rewrite IH, elem_of_append_new. set_solver.
Qed.

Lemma NoDup_append_new l x : NoDup l → NoDup (append_new l x).
Proof.
  unfold append_new. case_decide; [done|]. intros Hl.
  apply NoDup_app. split_and!; [done|set_solver|apply NoDup_singleton].
Qed.

Lemma NoDup_merge_new l xs : NoDup l → NoDup (merge_new l xs).
Proof.
  revert l. induction xs as [|x xs IH]; intros l Hl; simpl; [done|].
  by apply IH, NoDup_append_new.
Qed.

Lemma append_new_elem l x : x ∈ l → append_new l x = l.
Proof. intros. unfold append_new. by rewrite decide_True. Qed.

Lemma append_new_fresh l x : x ∉ l → append_new l x = l ++ [x].
Proof. intros. unfold append_new. by rewrite decide_False. Qed.

Lemma merge_new_subset l xs : xs ⊆ l → merge_new l xs = l.
Proof.
  induction xs as [|x xs IH]; intros Hs; simpl; [done|].
  rewrite append_new_elem by set_solver. apply IH. set_solver.
Qed.

Lemma merge_new_prefix l xs : l `prefix_of` merge_new l xs.
Proof.
  revert l. induction xs as [|x xs IH]; intros l; simpl; [done|].
  etrans; [|apply IH]. unfold append_new. case_decide; [done|].
  by apply prefix_app_r.
Qed.

Lemma merge_new_idemp l xs : merge_new (merge_new l xs) xs = merge_new l xs.
Proof. apply merge_new_subset. intros y Hy. apply elem_of_merge_new. by right. Qed.

Lemma merge_new_app l xs ys : merge_new l (xs ++ ys) = merge_new (merge_new l xs) ys.
Proof. unfold merge_new. by rewrite foldl_app. Qed.

Lemma merge_new_NoDup l xs :
  NoDup xs → (∀ x, x ∈ xs → x ∉ l) → merge_new l xs = l ++ xs.
Proof.
  revert l. induction xs as [|x xs IH]; intros l Hnd Hl; simpl;
    [by rewrite (right_id_L [] (++))|].
  apply NoDup_cons in Hnd as [Hx Hnd]. rewrite append_new_fresh by set_solver.
  rewrite IH; [by rewrite <-(assoc_L (++))|done|set_solver].
Qed.

Lemma elem_of_dedup xs y : y ∈ dedup xs ↔ y ∈ xs.
Proof. unfold dedup. rewrite elem_of_merge_new. set_solver. Qed.

Lemma NoDup_dedup xs : NoDup (dedup xs).
Proof. apply NoDup_merge_new, NoDup_nil_2. Qed.

Lemma dedup_NoDup xs : NoDup xs → dedup xs = xs.
Proof. intros. unfold dedup. rewrite merge_new_NoDup; set_solver. Qed.

Lemma dedup_idemp xs : dedup (dedup xs) = dedup xs.
Proof. apply dedup_NoDup, NoDup_dedup. Qed.

Lemma dedup_nil xs : dedup xs = [] ↔ xs = [].
Proof.
  split; [|by intros ->]. intros H. destruct xs as [|x xs]; [done|exfalso].
  assert (x ∈ dedup (x :: xs)) as Hx by (apply elem_of_dedup; set_solver).
  rewrite H in Hx. set_solver.
Qed.
End append_new.

#[export] Hint Resolve NoDup_merge_new NoDup_dedup NoDup_append_new merge_new_prefix : vpn.
#[export] Hint Rewrite @elem_of_merge_new @elem_of_dedup @elem_of_append_new : vpn.
