(* ===== verification/QtCore.v ===== *)
(** * The Qt value classes the code computes with

    The client and the service use Qt's value classes as their standard library.
    This file models what the source uses of them, from their documentation.

    - [QString] is [string]: a sequence of 8-bit code points.  The model covers
      strings over Latin-1 (U+0000 to U+00FF), on which Qt's case folding, white
      space and code-unit order are the ones written here.
    - [QStringList] is [list string].
    - [QMap<QString, V>] and [QVariantMap] are [gmap string V]; iteration is in
      ascending key order ([qitems]).

    Classes that talk to the network, the disk or the system are not here: they
    are parameters of the components that use them. *)

From Stdlib Require Import Ascii.
From S2P Require Import Prelude.
From stdpp Require Import options.

(** ** Characters *)

Definition code (c : ascii) : N := N_of_ascii c.

(** [QChar::isSpace] on Latin-1. *)
Definition isSpace (c : ascii) : bool :=
  let n := code c in
  ((9 <=? n) && (n <=? 13) || (n =? 32) || (n =? 133) || (n =? 160))%N.

(** [QChar::toLower] on Latin-1. *)
Definition toLowerChar (c : ascii) : ascii :=
  let n := code c in
  if ((65 <=? n) && (n <=? 90) || (192 <=? n) && (n <=? 222) && negb (n =? 215))%N
  then ascii_of_N (n + 32) else c.

Definition isDigit (c : ascii) : bool :=
  let n := code c in ((48 <=? n) && (n <=? 57))%N.

Definition isLowerLetter (c : ascii) : bool :=
  let n := code c in ((97 <=? n) && (n <=? 122))%N.

Definition eqChar (c d : ascii) : bool := Ascii.eqb c d.

(** ** Strings *)

Fixpoint allChars (P : ascii → bool) (s : string) : bool :=
  match s with
  | EmptyString => true
  | String c s => P c && allChars P s
  end.

Fixpoint mapString (f : ascii → ascii) (s : string) : string :=
  match s with
  | EmptyString => ""
  | String c s => String (f c) (mapString f s)
  end.

Definition isEmpty (s : string) : bool :=
  match s with EmptyString => true | _ => false end.

Fixpoint trimLeft (s : string) : string :=
  match s with
  | EmptyString => ""
  | String c s' => if isSpace c then trimLeft s' else s
  end.

Fixpoint trimRight (s : string) : string :=
  match s with
  | EmptyString => ""
  | String c s' =>
      match trimRight s' with
      | EmptyString => if isSpace c then "" else String c ""
      | t => String c t
      end
  end.

(** [QString::trimmed]. *)
Definition trimmed (s : string) : string := trimRight (trimLeft s).

(** [QString::toLower]. *)
Definition toLower (s : string) : string := mapString toLowerChar s.

(** [QString::startsWith], [QString::mid(n)] and [QString::left(n)]. *)
Definition startsWith (s p : string) : bool := String.prefix p s.

Fixpoint midFrom (n : nat) (s : string) : string :=
  match n, s with
  | 0, _ => s
  | S n, String _ s => midFrom n s
  | S _, EmptyString => ""
  end.

Fixpoint leftPart (n : nat) (s : string) : string :=
  match n, s with
  | S n, String c s => String c (leftPart n s)
  | _, _ => ""
  end.

(** [QString::contains] and [QString::indexOf] for a substring. *)
Fixpoint contains (s sub : string) : bool :=
  String.prefix sub s ||
  match s with EmptyString => false | String _ s => contains s sub end.

Fixpoint containsChar (c : ascii) (s : string) : bool :=
  match s with EmptyString => false | String d s => eqChar d c || containsChar c s end.

Fixpoint indexOfFirst (s sub : string) : option nat :=
  if String.prefix sub s then Some 0
  else match s with EmptyString => None | String _ s => S <$> indexOfFirst s sub end.

Fixpoint indexOf (s sub : string) (from : nat) : option nat :=
  match from with
  | S from => match s with
              | EmptyString => None
              | String _ s => S <$> indexOf s sub from
              end
  | 0 => indexOfFirst s sub
  end.

(** [QString::count] for a character. *)
Fixpoint countChar (c : ascii) (s : string) : nat :=
  match s with
  | EmptyString => 0
  | String d s => (if eqChar d c then 1 else 0) + countChar c s
  end.

(** [QString::replace(before, after)] for a non-empty [before]: non-overlapping
    occurrences from the left.  [skip] counts the characters of the current
    occurrence that are still to be dropped. *)
Fixpoint replaceGo (before after : string) (skip : nat) (s : string) : string :=
  match s with
  | EmptyString => ""
  | String c s' =>
      match skip with
      | S k => replaceGo before after k s'
      | 0 => if String.prefix before s
             then after +:+ replaceGo before after (pred (String.length before)) s'
             else String c (replaceGo before after 0 s')
      end
  end.

Definition replace (s before after : string) : string := replaceGo before after 0 s.

(** [QString::split] on one character, keeping empty parts. *)
Fixpoint splitChar (sep : ascii) (s : string) : list string :=
  match s with
  | EmptyString => [""]
  | String c s =>
      match splitChar sep s with
      | [] => []
      | p :: ps => if eqChar c sep then "" :: p :: ps else String c p :: ps
      end
  end.

(** [Qt::SkipEmptyParts]. *)
Definition skipEmpty (ps : list string) : list string := filter (λ p, p ≠ "") ps.

(** [QStringList::join]. *)
Fixpoint join (sep : string) (ps : list string) : string :=
  match ps with
  | [] => ""
  | [p] => p
  | p :: ps => p +:+ sep +:+ join sep ps
  end.

(** ** Numbers in strings *)

Fixpoint digitsValue (acc : Z) (s : string) : option Z :=
  match s with
  | EmptyString => Some acc
  | String c s =>
      if isDigit c then digitsValue (acc * 10 + (Z.of_N (code c) - 48)) s else None
  end.

Definition intMin : Z := (-2147483648)%Z.
Definition intMax : Z := 2147483647%Z.

Definition inInt (z : Z) : bool := ((intMin <=? z) && (z <=? intMax))%Z.

(** [QString::toInt(&ok)]: [None] when [ok] is set to false.  White space around
    the number is ignored; the value has to fit an [int]. *)
Definition toInt (s : string) : option Z :=
  let parse (sign : Z) (digits : string) : option Z :=
    match digits with
    | EmptyString => None
    | _ => match digitsValue 0 digits with
           | Some v => if inInt (sign * v) then Some (sign * v)%Z else None
           | None => None
           end
    end in
  match trimmed s with
  | EmptyString => None
  | String c t =>
      if eqChar c "-" then parse (-1)%Z t
      else if eqChar c "+" then parse 1%Z t
      else parse 1%Z (String c t)
  end.

(** ["%1.%2.%3.%4"] with four numbers. *)
Definition dotted (a b c d : Z) : string :=
  pretty a +:+ "." +:+ pretty b +:+ "." +:+ pretty c +:+ "." +:+ pretty d.

(** ** String lists *)

Definition listContains (l : list string) (s : string) : bool := bool_decide (s ∈ l).

Definition removeAll (s : string) (l : list string) : list string := filter (λ x, x ≠ s) l.

(** ** QMap *)

Section qmap.
Context {V : Type}.

Definition key_le : relation (string * V) := λ a b, String.le a.1 b.1.

#[global] Instance key_le_dec : RelDecision key_le.
Proof. intros a b. unfold key_le. apply _. Defined.

#[global] Instance key_le_total : Total key_le.
Proof. intros a b. apply String.le_total. Qed.

#[global] Instance key_le_trans : Transitive key_le.
Proof. intros a b c. unfold key_le. by etrans. Qed.

(** The entries of a map in the order of [constBegin() .. constEnd()]. *)
Definition qitems (m : gmap string V) : list (string * V) := merge_sort key_le (map_to_list m).

Definition qkeys (m : gmap string V) : list string := (qitems m).*1.

(** [QMap::value(key, default)] and [QMap::contains]. *)
Definition qvalue (d : V) (m : gmap string V) (k : string) : V := default d (m !! k).

Definition qcontains (m : gmap string V) (k : string) : bool := bool_decide (is_Some (m !! k)).

Lemma elem_of_qitems m k v : (k, v) ∈ qitems m ↔ m !! k = Some v.
Proof. unfold qitems. by rewrite merge_sort_Permutation, elem_of_map_to_list. Qed.

Lemma NoDup_qkeys m : NoDup (qkeys m).
Proof.
  unfold qkeys, qitems. rewrite merge_sort_Permutation. apply NoDup_fst_map_to_list.
Qed.

Lemma elem_of_qkeys m k : k ∈ qkeys m ↔ is_Some (m !! k).
Proof.
  unfold qkeys. rewrite list_elem_of_fmap. split.
  - intros [[k' v] [-> Hin]]. apply elem_of_qitems in Hin. eauto.
  - intros [v Hv]. exists (k, v). by rewrite elem_of_qitems.
Qed.

Lemma qitems_sorted m : Sorted key_le (qitems m).
Proof. apply Sorted_merge_sort, _. Qed.

Lemma qitems_empty : qitems ∅ = [].
Proof. unfold qitems. by rewrite map_to_list_empty. Qed.

Lemma qitems_list_to_map m : list_to_map (qitems m) = m.
Proof.
  transitivity (list_to_map (map_to_list m) : gmap string V); [|apply list_to_map_to_list].
  apply list_to_map_proper; [apply NoDup_qkeys|]. apply merge_sort_Permutation.
Qed.
End qmap.

#[export] Hint Rewrite @elem_of_qitems @elem_of_qkeys : vpn.
#[export] Hint Resolve NoDup_qkeys : vpn.

(** ** Facts about strings *)

Lemma scons_app c s t : String c s +:+ t = String c (s +:+ t).
Proof. done. Qed.

Lemma snil_app t : "" +:+ t = t.
Proof. done. Qed.

Lemma sapp_assoc s t u : (s +:+ t) +:+ u = s +:+ (t +:+ u).
Proof. induction s as [|c s IH]; [done|]. by rewrite !scons_app, IH. Qed.

Lemma sapp_nil_r s : s +:+ "" = s.
Proof. induction s as [|c s IH]; [done|]. by rewrite scons_app, IH. Qed.

Lemma slength_app s t : String.length (s +:+ t) = String.length s + String.length t.
Proof. induction s as [|c s IH]; [by rewrite snil_app|]. rewrite scons_app. simpl. by rewrite IH. Qed.

Lemma prefix_spec p s : String.prefix p s = true ↔ ∃ t, s = p +:+ t.
Proof.
  revert s. induction p as [|c p IH]; intros s; simpl.
  - split; [exists s; by rewrite snil_app | destruct s; done].
  - destruct s as [|d s]; [split; [done|intros [t Ht]; rewrite scons_app in Ht; done]|].
    cbn [String.prefix]. destruct (ascii_dec c d) as [->|Hne].
    + rewrite IH. split; intros [t Ht]; exists t; [by rewrite Ht, scons_app|].
      rewrite scons_app in Ht. by simplify_eq.
    + split; [done|]. intros [t Ht]. rewrite scons_app in Ht. by simplify_eq.
Qed.

Section index.
#[local] Arguments String.prefix : simpl never.

(** The occurrence [indexOf] finds. *)
Lemma indexOfFirst_Some s sub i :
  indexOfFirst s sub = Some i → ∃ p t, s = p +:+ sub +:+ t ∧ i = String.length p.
Proof.
  revert i. induction s as [|c s IH]; intros i; simpl.
  - destruct sub; [|done]. intros [= <-]. by exists "", "".
  - case_match eqn:Hp.
    + intros [= <-]. apply prefix_spec in Hp as [t ->]. exists "", t. by rewrite snil_app.
    + intros Hf. apply fmap_Some in Hf as (j & Hf & ->).
      destruct (IH _ Hf) as (p & t & -> & ->). by exists (String c p), t.
Qed.

Lemma indexOf_Some s sub n i :
  indexOf s sub n = Some i → ∃ p t, s = p +:+ sub +:+ t ∧ n ≤ String.length p ∧ i = String.length p.
Proof.
  revert s i. induction n as [|n IH]; intros s i.
  - destruct s; cbn [indexOf]; intros (p & t & -> & ->)%indexOfFirst_Some; exists p, t;
      split_and!; auto with lia.
  - destruct s as [|c s]; [done|]. intros Hf. apply fmap_Some in Hf as (j & Hf & ->).
    destruct (IH _ _ Hf) as (p & t & -> & Hle & ->). exists (String c p), t.
    rewrite scons_app. simpl. split_and!; [done|lia|done].
Qed.

Lemma indexOf_at s sub p t : s = p +:+ sub +:+ t → is_Some (indexOf s sub (String.length p)).
Proof.
  intros ->. induction p as [|c p IH].
  - rewrite snil_app. cbn [String.length].
    assert (Hp : String.prefix sub (sub +:+ t) = true) by (apply prefix_spec; eauto).
    destruct (sub +:+ t); cbn [indexOf indexOfFirst]; rewrite Hp; eauto.
  - rewrite scons_app. cbn [indexOf String.length]. destruct IH as [i ->]. eauto.
Qed.

End index.

Lemma prefix_app p s : String.prefix p (p +:+ s) = true.
Proof. apply prefix_spec. eauto. Qed.

Lemma midFrom_app p s : midFrom (String.length p) (p +:+ s) = s.
Proof. induction p as [|c p IH]; [done|]. rewrite scons_app. exact IH. Qed.

Lemma leftPart_app s t : leftPart (String.length s) (s +:+ t) = s.
Proof. induction s as [|c s IH]; [by destruct t|]. rewrite scons_app. cbn. by rewrite IH. Qed.

Lemma allChars_impl (P Q : ascii → bool) s :
  (∀ c, P c = true → Q c = true) → allChars P s = true → allChars Q s = true.
Proof.
  intros HPQ. induction s as [|c s IH]; simpl; [done|].
  intros [Hc Hs]%andb_true_iff. by rewrite HPQ, IH.
Qed.

Lemma allChars_app P s t : allChars P (s +:+ t) = allChars P s && allChars P t.
Proof.
  induction s as [|c s IH]; [done|]. rewrite scons_app. cbn [allChars].
  by rewrite IH, andb_assoc.
Qed.

Lemma eqChar_true c d : eqChar c d = true ↔ c = d.
Proof. apply Ascii.eqb_eq. Qed.

Lemma eqChar_false c d : eqChar c d = false ↔ c ≠ d.
Proof. apply Ascii.eqb_neq. Qed.

Lemma containsChar_allChars c s :
  containsChar c s = false ↔ allChars (λ d, negb (eqChar d c)) s = true.
Proof.
  induction s as [|d s IH]; simpl; [done|].
  rewrite orb_false_iff, andb_true_iff, negb_true_iff, IH. done.
Qed.

Lemma containsChar_app c s t : containsChar c (s +:+ t) = containsChar c s || containsChar c t.
Proof.
  induction s as [|d s IH]; [done|]. rewrite scons_app. cbn [containsChar].
  by rewrite IH, orb_assoc.
Qed.

Lemma trimLeft_id s : allChars (λ c, negb (isSpace c)) s = true → trimLeft s = s.
Proof.
  destruct s as [|c s]; simpl; [done|].
  intros [Hc%negb_true_iff _]%andb_true_iff. by rewrite Hc.
Qed.

Lemma trimRight_id s : allChars (λ c, negb (isSpace c)) s = true → trimRight s = s.
Proof.
  induction s as [|c s IH]; simpl; [done|].
  intros [Hc%negb_true_iff Hs]%andb_true_iff. rewrite IH by done.
  destruct s; [by rewrite Hc|done].
Qed.

Lemma trimmed_id s : allChars (λ c, negb (isSpace c)) s = true → trimmed s = s.
Proof. intros Hs. unfold trimmed. rewrite trimLeft_id by done. by apply trimRight_id. Qed.

Lemma trimRight_trimRight s : trimRight (trimRight s) = trimRight s.
Proof.
  induction s as [|c s IH]; [done|]. simpl. destruct (trimRight s) as [|c' t] eqn:Ht.
  - destruct (isSpace c) eqn:Hc; [done|]. simpl. by rewrite Hc.
  - cbn [trimRight] in *. by rewrite IH.
Qed.

Lemma trimLeft_trimRight s : trimLeft s = s → trimLeft (trimRight s) = trimRight s.
Proof.
  destruct s as [|c s]; [done|]. simpl. destruct (isSpace c) eqn:Hc.
  - intros Heq. exfalso. assert (String.length (trimLeft s) ≤ String.length s)%nat as Hlen.
    { clear. induction s as [|c s IH]; simpl; [done|]. destruct (isSpace c); simpl; lia. }
    rewrite Heq in Hlen. simpl in Hlen. lia.
  - intros _. destruct (trimRight s); simpl; by rewrite Hc.
Qed.

Lemma trimLeft_trimLeft s : trimLeft (trimLeft s) = trimLeft s.
Proof. induction s as [|c s IH]; [done|]. simpl. destruct (isSpace c) eqn:Hc; [done|]. simpl. by rewrite Hc. Qed.

Lemma trimmed_trimmed s : trimmed (trimmed s) = trimmed s.
Proof. unfold trimmed. rewrite (trimLeft_trimRight (trimLeft s)) by apply trimLeft_trimLeft. apply trimRight_trimRight. Qed.

Lemma allChars_trimLeft P s : allChars P s = true → allChars P (trimLeft s) = true.
Proof.
  induction s as [|c s IH]; simpl; [done|].
  intros [Hc Hs]%andb_true_iff. destruct (isSpace c); [by apply IH|].
  simpl. by rewrite Hc, Hs.
Qed.

Lemma allChars_trimRight P s : allChars P s = true → allChars P (trimRight s) = true.
Proof.
  induction s as [|c s IH]; simpl; [done|].
  intros [Hc Hs]%andb_true_iff. specialize (IH Hs).
  destruct (trimRight s); [destruct (isSpace c); [done|simpl; by rewrite Hc]|].
  cbn in *. by rewrite Hc.
Qed.

Lemma allChars_trimmed P s : allChars P s = true → allChars P (trimmed s) = true.
Proof. intros. by apply allChars_trimRight, allChars_trimLeft. Qed.

Lemma toLowerChar_idemp c : toLowerChar (toLowerChar c) = toLowerChar c.
Proof. destruct c as [[] [] [] [] [] [] [] []]; reflexivity. Qed.

Lemma toLower_idemp s : toLower (toLower s) = toLower s.
Proof.
  induction s as [|c s IH]; [done|]. unfold toLower in *. cbn.
  by rewrite toLowerChar_idemp, IH.
Qed.

Lemma mapString_id f s :
  allChars (λ c, eqChar (f c) c) s = true → mapString f s = s.
Proof.
  induction s as [|c s IH]; simpl; [done|].
  intros [Hc%eqChar_true Hs]%andb_true_iff. by rewrite Hc, IH.
Qed.

Lemma prefix_containsChar c before s :
  String.prefix before s = true → containsChar c before = true → containsChar c s = true.
Proof.
  revert s. induction before as [|b before IH]; intros [|d s]; cbn; try done.
  destruct (ascii_dec b d) as [->|]; [|done]. intros Hp.
  rewrite !orb_true_iff. intros [?|?]; [by left|right; eauto].
Qed.

(** A replacement changes nothing when the string lacks a character of the text
    searched for. *)
Lemma replace_absent c before after s :
  containsChar c before = true → containsChar c s = false → replace s before after = s.
Proof.
  intros Hb. unfold replace. induction s as [|d s IH]; [done|].
  intros Hs. cbn [replaceGo].
  destruct (String.prefix before (String d s)) eqn:Hp.
  - pose proof (prefix_containsChar c _ _ Hp Hb). congruence.
  - cbn in Hs. apply orb_false_iff in Hs as [_ Hs]. by rewrite IH.
Qed.

Lemma splitChar_not_nil sep s : splitChar sep s ≠ [].
Proof.
  induction s as [|c s IH]; cbn; [done|].
  destruct (splitChar sep s); [done|]. by destruct (eqChar c sep).
Qed.

Lemma splitChar_absent sep s : containsChar sep s = false → splitChar sep s = [s].
Proof.
  induction s as [|c s IH]; cbn; [done|].
  intros [Hc Hs]%orb_false_iff. by rewrite IH, Hc.
Qed.

Lemma splitChar_parts sep s p : p ∈ splitChar sep s → containsChar sep p = false.
Proof.
  revert p. induction s as [|c s IH]; intros p; cbn.
  - by intros ->%list_elem_of_singleton.
  - destruct (splitChar sep s) as [|q qs] eqn:E; [by intros ?%not_elem_of_nil|].
    destruct (eqChar c sep) eqn:Ec.
    + intros [->|Hp]%elem_of_cons; [done|by apply IH].
    + intros [->|Hp]%elem_of_cons; [|apply IH; set_solver].
      cbn. rewrite Ec. apply IH. set_solver.
Qed.

Lemma splitChar_allChars P sep s p :
  allChars P s = true → p ∈ splitChar sep s → allChars P p = true.
Proof.
  revert p. induction s as [|c s IH]; intros p; cbn.
  - by intros _ ->%list_elem_of_singleton.
  - intros [Hc Hs]%andb_true_iff.
    destruct (splitChar sep s) as [|q qs] eqn:E; [by intros ?%not_elem_of_nil|].
    destruct (eqChar c sep) eqn:Ec; intros [->|Hp]%elem_of_cons; [done|by apply IH| |].
    + cbn. rewrite Hc. apply IH; [done|set_solver].
    + apply IH; [done|set_solver].
Qed.

Lemma splitChar_app sep s t :
  containsChar sep s = false →
  splitChar sep (s +:+ String sep t) = s :: splitChar sep t.
Proof.
  induction s as [|c s IH]; rewrite ?scons_app, ?snil_app; cbn [splitChar containsChar].
  - intros _. destruct (splitChar sep t) as [|p ps] eqn:E; [by apply splitChar_not_nil in E|].
    by rewrite (proj2 (eqChar_true sep sep) eq_refl).
  - intros [Hc Hs]%orb_false_iff. rewrite IH by done. by rewrite Hc.
Qed.

Lemma splitChar_sep sep s t :
  containsChar sep s = false →
  splitChar sep (s +:+ String sep "" +:+ t) = s :: splitChar sep t.
Proof. apply splitChar_app. Qed.

(** Splitting and joining on the same character is the identity. *)
Lemma join_splitChar sep s : join (String sep "") (splitChar sep s) = s.
Proof.
  induction s as [|c s IH]; [done|]. cbn.
  destruct (splitChar sep s) as [|p ps] eqn:E; [by apply splitChar_not_nil in E|].
  destruct (eqChar c sep) eqn:Ec.
  - apply eqChar_true in Ec as ->. rewrite <-IH. done.
  - rewrite <-IH. by destruct ps.
Qed.

(** ** Facts about numbers *)

Lemma pretty_N_char_digit x :
  (x < 10)%N → isDigit (pretty_N_char x) = true ∧ Z.of_N (code (pretty_N_char x)) = (48 + Z.of_N x)%Z.
Proof.
  intros Hx. assert (x ∈ [0;1;2;3;4;5;6;7;8;9]%N) as Hin.
  { apply list_elem_of_In. cbn. lia. }
  repeat (apply elem_of_cons in Hin as [->|Hin]; [by vm_compute|]). by apply not_elem_of_nil in Hin.
Qed.

Lemma digitsValue_go x s :
  (0 < x)%N → ∃ k, (0 < k)%Z ∧ ∀ acc,
    digitsValue acc (pretty_N_go x s) = digitsValue (acc * k + Z.of_N x) s.
Proof.
  revert s. induction (N.lt_wf_0 x) as [x _ IH]; intros s Hx.
  rewrite pretty_N_go_step by done.
  assert (x `mod` 10 < 10)%N as Hm by (apply N.mod_lt; done).
  destruct (pretty_N_char_digit _ Hm) as [Hd Hc].
  destruct (decide (x `div` 10 = 0)%N) as [Hz|Hz].
  - exists 10%Z. split; [lia|]. intros acc. rewrite Hz, pretty_N_go_0. cbn.
    rewrite Hd, Hc. f_equal.
    pose proof (N.div_mod x 10 ltac:(done)). lia.
  - destruct (IH (x `div` 10)%N) with (s := String (pretty_N_char (x `mod` 10)) s) as (k & Hk & Hgo).
    + apply N.div_lt; lia.
    + by apply N.neq_0_lt_0.
    + exists (k * 10)%Z. split; [lia|]. intros acc. rewrite Hgo. cbn [digitsValue].
      rewrite Hd, Hc. f_equal.
      pose proof (N.div_mod x 10 ltac:(done)). lia.
Qed.

Lemma digitsValue_pretty n : digitsValue 0 (pretty n) = Some (Z.of_N n).
Proof.
  unfold pretty, pretty_N. case_decide as Hn; [by subst|].
  destruct (digitsValue_go n "") as (k & _ & Hgo); [lia|]. by rewrite Hgo.
Qed.

Lemma isDigit_digits acc s v : digitsValue acc s = Some v → allChars isDigit s = true.
Proof.
  revert acc. induction s as [|c s IH]; intros acc; cbn; [done|].
  destruct (isDigit c); [apply IH|done].
Qed.

Lemma pretty_Z_digits z : (0 ≤ z)%Z → pretty z = pretty (Z.to_N z).
Proof. destruct z; [done|done|lia]. Qed.

Lemma isDigit_pretty z : (0 ≤ z)%Z → allChars isDigit (pretty z) = true.
Proof.
  intros Hz. rewrite pretty_Z_digits by done. eapply isDigit_digits, digitsValue_pretty.
Qed.

Lemma isDigit_not_space c : isDigit c = true → isSpace c = false.
Proof. destruct c as [[] [] [] [] [] [] [] []]; vm_compute; congruence. Qed.

Lemma isDigit_neq c d : isDigit c = true → isDigit d = false → eqChar c d = false.
Proof. intros Hc Hd. apply eqChar_false. intros ->. congruence. Qed.

Lemma allChars_not_contains (P : ascii → bool) c s :
  allChars P s = true → P c = false → containsChar c s = false.
Proof.
  intros Hs Hc. apply containsChar_allChars. revert Hs. apply allChars_impl.
  intros d Hd. apply negb_true_iff, eqChar_false. intros ->. congruence.
Qed.

Lemma pretty_not_nil (z : Z) : pretty z ≠ "".
Proof.
  destruct z as [|p|p]; [done| |done]. intros H.
  pose proof (digitsValue_pretty (N.pos p)) as Hv.
  change (pretty (N.pos p)) with (pretty (Z.pos p)) in Hv. rewrite H in Hv. by simplify_eq.
Qed.

(** [QString::number] followed by [QString::toInt] is the identity on the
    non-negative [int]s. *)
Lemma toInt_pretty z : (0 ≤ z ≤ intMax)%Z → toInt (pretty z) = Some z.
Proof.
  intros Hz. assert (allChars isDigit (pretty z) = true) as Hd by (apply isDigit_pretty; lia).
  unfold toInt. rewrite trimmed_id; cycle 1.
  { revert Hd. apply allChars_impl. intros c Hc. by rewrite isDigit_not_space. }
  pose proof (digitsValue_pretty (Z.to_N z)) as Hv.
  rewrite <-pretty_Z_digits in Hv by lia. rewrite Z2N.id in Hv by lia.
  pose proof (pretty_not_nil z). destruct (pretty z) as [|c t]; [done|].
  cbn [allChars] in Hd. apply andb_true_iff in Hd as [Hc Ht].
  rewrite (isDigit_neq c "-"), (isDigit_neq c "+") by done. rewrite Hv.
  replace (1 * z)%Z with z by lia. unfold inInt, intMin, intMax in *.
  rewrite (proj2 (Z.leb_le _ _)), (proj2 (Z.leb_le _ _)); [done|lia|lia].
Qed.

(** ** Numbers as texts

    Concrete texts for parameters of the model: a code in binary. *)

Fixpoint binary (p : positive) : string :=
  match p with
  | xH => ""
  | xO p => String "0" (binary p)
  | xI p => String "1" (binary p)
  end.

Fixpoint unbinary (s : string) : positive :=
  match s with
  | EmptyString => xH
  | String c s => if bool_decide (c = "0"%char) then xO (unbinary s) else xI (unbinary s)
  end.

Lemma unbinary_binary p : unbinary (binary p) = p.
Proof. by induction p as [p IH|p IH|]; cbn; [rewrite IH|rewrite IH|]. Qed.
