(* ===== verification/Regex.v ===== *)
(** * Regular expressions

    The code writes its formats as [QRegExp] and [QRegularExpression] patterns.
    A pattern is a term of [regex] here.  [rems] computes the parts of the
    subject that may remain after a match; [sem] says the same declaratively and
    [rems_sem] relates the two.  [exactMatch] is [QRegExp::exactMatch].  A
    pattern without repetition has a finite language, listed by [lang]. *)

From Stdlib Require Import Ascii.
From S2P Require Import Prelude.
From S2P Require Import QtCore.
From stdpp Require Import options.

Inductive regex :=
  | Eps
  | Chr (P : ascii → bool)
  | Cat (r1 r2 : regex)
  | Alt (r1 r2 : regex)
  | Star (r : regex)
  | NotAhead (r : regex)     (* negative lookahead *)
  | End                      (* end of the subject *)
  | EndLine.                 (* PCRE dollar: end, or before a final newline *)

Declare Scope regex_scope.
Delimit Scope regex_scope with re.
Bind Scope regex_scope with regex.
Infix "∙" := Cat (at level 59, right associativity) : regex_scope.
Infix "⊕" := Alt (at level 60, right associativity) : regex_scope.

(** ** Derived forms *)

Definition lit (c : ascii) : regex := Chr (λ d, eqChar d c).
Definition digit : regex := Chr isDigit.

Definition inRange (lo hi : N) (c : ascii) : bool := ((lo <=? code c) && (code c <=? hi))%N.

(** [digits lo hi] is the class of the digits from [lo] to [hi]. *)
Definition digits (lo hi : N) : regex := Chr (inRange (48 + lo) (48 + hi)).

Fixpoint word (s : string) : regex :=
  match s with EmptyString => Eps | String c s => Cat (lit c) (word s) end.

Definition opt (r : regex) : regex := Alt r Eps.

Fixpoint times (n : nat) (r : regex) : regex :=
  match n with 0 => Eps | S n => Cat r (times n r) end.

Fixpoint upTo (n : nat) (r : regex) : regex :=
  match n with 0 => Eps | S n => opt (Cat r (upTo n r)) end.

(** [{m,n}] and [{m,}]. *)
Definition between (m n : nat) (r : regex) : regex := Cat (times m r) (upTo (n - m) r).
Definition atLeast (m : nat) (r : regex) : regex := Cat (times m r) (Star r).

Definition newline : ascii := "010"%char.

(** The PCRE dot without the option that makes it match a newline. *)
Definition dot : regex := Chr (λ c, negb (eqChar c newline)).

(** ** Matching *)

Fixpoint starGo (step : string → list string) (fuel : nat) (s : string) : list string :=
  match fuel with
  | 0 => [s]
  | S fuel =>
      s :: (t ← filter (λ t, String.length t < String.length s) (step s); starGo step fuel t)
  end.

Fixpoint rems (r : regex) (s : string) : list string :=
  match r with
  | Eps => [s]
  | Chr P => match s with
             | EmptyString => []
             | String c s => if P c then [s] else []
             end
  | Cat r1 r2 => t ← rems r1 s; rems r2 t
  | Alt r1 r2 => rems r1 s ++ rems r2 s
  | Star r => starGo (rems r) (String.length s) s
  | NotAhead r => match rems r s with [] => [s] | _ => [] end
  | End => if isEmpty s then [s] else []
  | EndLine => if isEmpty s || bool_decide (s = String newline "") then [s] else []
  end.

Definition exactMatch (r : regex) (s : string) : bool := existsb isEmpty (rems r s).

(** [QRegularExpression::match(..).hasMatch()] for a pattern that begins with
    [^]: some prefix of the subject matches. *)
Definition matchAtStart (r : regex) (s : string) : bool :=
  match rems r s with [] => false | _ => true end.

(** ** Declarative reading *)

Fixpoint sem (r : regex) : string → string → Prop :=
  match r with
  | Eps => λ s t, s = t
  | Chr P => λ s t, ∃ c, s = String c t ∧ P c = true
  | Cat r1 r2 => λ s t, ∃ u, sem r1 s u ∧ sem r2 u t
  | Alt r1 r2 => λ s t, sem r1 s t ∨ sem r2 s t
  | Star r => rtc (sem r)
  | NotAhead r => λ s t, s = t ∧ ∀ u, ¬ sem r s u
  | End => λ s t, s = t ∧ s = ""
  | EndLine => λ s t, s = t ∧ (s = "" ∨ s = String newline "")
  end.

(** The characters a match can consume. *)
Fixpoint alphabet (r : regex) (c : ascii) : bool :=
  match r with
  | Chr P => P c
  | Cat r1 r2 | Alt r1 r2 => alphabet r1 c || alphabet r2 c
  | Star r => alphabet r c
  | _ => false
  end.

(** A match consumes a prefix made of characters of the pattern. *)
Lemma sem_prefix r s t :
  sem r s t → ∃ w, s = w +:+ t ∧ allChars (alphabet r) w = true.
Proof.
  revert s t. induction r as [|P|r1 IH1 r2 IH2|r1 IH1 r2 IH2|r IH|r IH| |]; intros s t; cbn [sem].
  - intros ->. by exists "".
  - intros (c & -> & Hc). exists (String c ""). cbn. by rewrite Hc.
  - intros (u & (w1 & -> & H1)%IH1 & (w2 & -> & H2)%IH2). exists (w1 +:+ w2).
    rewrite sapp_assoc, allChars_app. split; [done|]. apply andb_true_iff; split;
      [revert H1|revert H2]; apply allChars_impl; intros c Hc; cbn; rewrite Hc; [done|apply orb_true_r].
  - intros [(w & -> & H)%IH1|(w & -> & H)%IH2]; exists w; (split; [done|]); revert H;
      apply allChars_impl; intros c Hc; cbn; rewrite Hc; [done|apply orb_true_r].
  - induction 1 as [s|s u t (w & -> & Hw)%IH _ (w' & -> & Hw')]; [by exists ""|].
    exists (w +:+ w'). rewrite sapp_assoc, allChars_app. split; [done|].
    by apply andb_true_iff.
  - intros [-> _]. by exists "".
  - intros [-> _]. by exists "".
  - intros [-> _]. by exists "".
Qed.

Lemma sem_length r s t : sem r s t → String.length t ≤ String.length s.
Proof. intros (w & -> & _)%sem_prefix. rewrite slength_app. lia. Qed.

Lemma sem_same_length r s t : sem r s t → String.length s ≤ String.length t → t = s.
Proof.
  intros (w & -> & _)%sem_prefix. rewrite slength_app. destruct w; [done|cbn; lia].
Qed.

(** Iterating a matcher that follows a pattern gives the matches of its
    repetition, with as many rounds as the subject has characters. *)
Lemma starGo_sem r step fuel s t :
  (∀ s t, t ∈ step s ↔ sem r s t) → String.length s ≤ fuel →
  t ∈ starGo step fuel s ↔ rtc (sem r) s t.
Proof.
  intros Hstep. revert s. induction fuel as [|fuel IH]; intros s Hs; cbn.
  - rewrite list_elem_of_singleton. split; [by intros ->|].
    induction 1 as [|s u t Hu _ IHu]; [done|].
    rewrite IHu by (apply sem_length in Hu; lia). apply (sem_same_length r); [done|lia].
  - rewrite elem_of_cons, list_elem_of_bind. split.
    + intros [->|(u & Ht & Hu)]; [done|].
      apply list_elem_of_filter in Hu as [Hlen Hu]. apply Hstep in Hu.
      apply IH in Ht; [|lia]. by eapply rtc_l.
    + induction 1 as [|s u t Hu Hrtc IHu]; [by left|].
      destruct (decide (String.length u < String.length s)) as [Hlt|Hge].
      * right. exists u. rewrite IH by lia. split; [done|].
        apply list_elem_of_filter. by rewrite Hstep.
      * assert (u = s) as -> by (apply (sem_same_length r); [done|lia]). by apply IHu.
Qed.

(** The executable matcher computes exactly the declared matches. *)
Lemma rems_sem r s t : t ∈ rems r s ↔ sem r s t.
Proof.
  revert s t. induction r as [|P|r1 IH1 r2 IH2|r1 IH1 r2 IH2|r IH|r IH| |]; intros s t; cbn [rems sem].
  - rewrite list_elem_of_singleton. naive_solver.
  - destruct s as [|c s]; [split; [by intros ?%not_elem_of_nil|naive_solver]|].
    destruct (P c) eqn:Hc.
    + rewrite list_elem_of_singleton. split; [intros ->; eauto|]. by intros (d & [= <- <-] & _).
    + split; [by intros ?%not_elem_of_nil|]. intros (d & [= <- <-] & ?). congruence.
  - rewrite list_elem_of_bind. setoid_rewrite IH1. setoid_rewrite IH2. naive_solver.
  - by rewrite elem_of_app, IH1, IH2.
  - apply (starGo_sem r); [exact IH|done].
  - destruct (rems r s) as [|u us] eqn:E.
    + rewrite list_elem_of_singleton. split.
      * intros ->. split; [done|]. intros u Hu%IH. rewrite E in Hu. by apply not_elem_of_nil in Hu.
      * by intros [-> _].
    + split; [by intros ?%not_elem_of_nil|]. intros [-> Hn]. destruct (Hn u).
      apply IH. rewrite E. by left.
  - destruct s as [|c s]; cbn; [rewrite list_elem_of_singleton; naive_solver|].
    split; [by intros ?%not_elem_of_nil|naive_solver].
  - destruct (isEmpty s || bool_decide (s = String newline "")) eqn:E.
    + rewrite list_elem_of_singleton. apply orb_true_iff in E as [E|E%bool_decide_eq_true_1].
      * destruct s; [naive_solver|done].
      * naive_solver.
    + split; [by intros ?%not_elem_of_nil|]. intros [-> [-> | ->]]; by vm_compute in E.
Qed.

Lemma exactMatch_sem r s : exactMatch r s = true ↔ sem r s "".
Proof.
  unfold exactMatch. rewrite existsb_exists, <-rems_sem. setoid_rewrite <-list_elem_of_In. split.
  - intros ([|c t] & Ht & He); [done|done].
  - intros H. by exists "".
Qed.

Lemma matchAtStart_sem r s : matchAtStart r s = true ↔ ∃ t, sem r s t.
Proof.
  unfold matchAtStart. setoid_rewrite <-rems_sem. destruct (rems r s) as [|t ts].
  - split; [done|]. intros [t Ht]. by apply not_elem_of_nil in Ht.
  - split; [|done]. intros _. exists t. by left.
Qed.

Lemma exactMatch_alphabet r s : exactMatch r s = true → allChars (alphabet r) s = true.
Proof. intros (w & -> & Hw)%exactMatch_sem%sem_prefix. by rewrite sapp_nil_r. Qed.

(** ** Finite languages *)

Definition allAscii : list ascii := ascii_of_nat <$> seq 0 256.

Lemma elem_of_allAscii c : c ∈ allAscii.
Proof.
  unfold allAscii. apply list_elem_of_fmap. exists (nat_of_ascii c).
  rewrite ascii_nat_embedding, elem_of_seq. pose proof (nat_ascii_bounded c). split; [done|lia].
Qed.

Fixpoint repetitionFree (r : regex) : bool :=
  match r with
  | Eps | Chr _ => true
  | Cat r1 r2 | Alt r1 r2 => repetitionFree r1 && repetitionFree r2
  | _ => false
  end.

Fixpoint lang (r : regex) : list string :=
  match r with
  | Eps => [""]
  | Chr P => (λ c, String c "") <$> filter (λ c, P c = true) allAscii
  | Cat r1 r2 => u ← lang r1; v ← lang r2; [u +:+ v]
  | Alt r1 r2 => lang r1 ++ lang r2
  | _ => []
  end.

Lemma sem_lang r s t :
  repetitionFree r = true → sem r s t ↔ ∃ w, w ∈ lang r ∧ s = w +:+ t.
Proof.
  revert s t. induction r as [|P|r1 IH1 r2 IH2|r1 IH1 r2 IH2| | | |]; intros s t Hr; cbn [sem lang];
    try done.
  - split; [intros ->; exists ""; set_solver|].
    by intros (w & ->%list_elem_of_singleton & ->).
  - split.
    + intros (c & -> & Hc). exists (String c ""). split; [|done].
      apply list_elem_of_fmap. exists c. split; [done|].
      apply list_elem_of_filter. split; [done|apply elem_of_allAscii].
    + intros (w & (c & -> & [Hc _]%list_elem_of_filter)%list_elem_of_fmap & ->). by exists c.
  - cbn in Hr. apply andb_true_iff in Hr as [Hr1 Hr2].
    setoid_rewrite IH1; [|done]. setoid_rewrite IH2; [|done].
    setoid_rewrite list_elem_of_bind. setoid_rewrite list_elem_of_bind.
    setoid_rewrite list_elem_of_singleton. split.
    + intros (u & (w1 & H1 & ->) & (w2 & H2 & ->)). exists (w1 +:+ w2).
      rewrite sapp_assoc. naive_solver.
    + intros (w & (w1 & (w2 & -> & H2) & H1) & ->). exists (w2 +:+ t). rewrite sapp_assoc.
      naive_solver.
  - cbn in Hr. apply andb_true_iff in Hr as [Hr1 Hr2].
    rewrite IH1, IH2 by done. setoid_rewrite elem_of_app. naive_solver.
Qed.

Lemma exactMatch_lang r s : repetitionFree r = true → exactMatch r s = true ↔ s ∈ lang r.
Proof.
  intros Hr. rewrite exactMatch_sem, sem_lang by done. setoid_rewrite sapp_nil_r. naive_solver.
Qed.

(** Two lists with the same elements, decided. *)
Definition sameElements (l k : list string) : bool :=
  forallb (λ x, existsb (String.eqb x) k) l && forallb (λ x, existsb (String.eqb x) l) k.

Lemma sameElements_elem l k : sameElements l k = true → ∀ x, x ∈ l ↔ x ∈ k.
Proof.
  unfold sameElements. rewrite andb_true_iff, !forallb_forall. setoid_rewrite existsb_exists.
  setoid_rewrite String.eqb_eq. setoid_rewrite list_elem_of_In. naive_solver.
Qed.
