(* ===== verification/Variant.v ===== *)
(** * Dynamic values

    [QJsonValue] and [QVariant] as far as the settings and the controllers use
    them: the constructors and the conversions. *)

From Stdlib Require Import Ascii.
From S2P Require Import Prelude QtCore.
From stdpp Require Import options.

(** ** JSON *)

(** [QJsonValue].  Numbers are integers: the code stores no others. *)
Inductive json :=
  | JUndefined
  | JNull
  | JBool (b : bool)
  | JNumber (z : Z)
  | JString (s : string)
  | JArray (l : list json)
  | JObject (m : gmap string json).

Notation QJsonObject := (gmap string json).

(** [QJsonObject::value]. *)
Definition jvalue (o : QJsonObject) (k : string) : json := qvalue JUndefined o k.

(** [toString(default)], [toArray], [toObject], [toInt], [toBool] and the type tests. *)
Definition toStringJ (d : string) (j : json) : string := match j with JString s => s | _ => d end.
Definition toArrayJ (j : json) : list json := match j with JArray l => l | _ => [] end.
Definition toObjectJ (j : json) : QJsonObject := match j with JObject m => m | _ => ∅ end.
Definition toIntOrJ (d : Z) (j : json) : Z := match j with JNumber z => if inInt z then z else d | _ => d end.
Definition toIntJ (j : json) : Z := toIntOrJ 0 j.
Definition toBoolJ (j : json) : bool := match j with JBool b => b | _ => false end.
Definition isArrayJ (j : json) : bool := match j with JArray _ => true | _ => false end.
Definition isStringJ (j : json) : bool := match j with JString _ => true | _ => false end.
Definition isUndefinedJ (j : json) : bool := match j with JUndefined => true | _ => false end.

Definition isObjectJ (j : json) : bool := match j with JObject _ => true | _ => false end.
Definition isDoubleJ (j : json) : bool := match j with JNumber _ => true | _ => false end.
Definition isBoolJ (j : json) : bool := match j with JBool _ => true | _ => false end.

(** [toString()] without a default: the null string for what is not a string. *)
Definition toStringN (j : json) : option string := match j with JString s => Some s | _ => None end.

(** [QJsonObject::insert]: inserting an undefined value removes the key. *)
Definition jinsert (k : string) (v : json) (o : QJsonObject) : QJsonObject :=
  match v with JUndefined => delete k o | _ => <[k := v]> o end.

(** [QJsonArray::contains] for a string. *)
Definition arrayContains (l : list json) (s : string) : bool :=
  existsb (λ j, match j with JString t => bool_decide (t = s) | _ => false end) l.

(** ** Variants *)

(** [QVariant]: invalid, or one of the types the code stores. *)
Inductive variant :=
  | VInvalid
  | VBool (b : bool)
  | VInt (z : Z)
  | VString (s : string)
  | VStringList (l : list string)
  | VByteArray (s : string)
  | VMap (m : gmap string variant)
  | VList (l : list variant)
  | VJson (j : json).

Notation QVariantMap := (gmap string variant).

Definition isValidVariant (v : variant) : bool :=
  match v with VInvalid => false | _ => true end.

(** [QVariant::toString]. *)
Definition toStringV (v : variant) : string :=
  match v with
  | VBool b => if b then "true" else "false"
  | VInt z => pretty z
  | VString s => s
  | VStringList [s] => s
  | VByteArray s => s
  | VJson (JString s) => s
  | _ => ""
  end.

(** [QVariant::toStringList]. *)
Definition toStringListV (v : variant) : list string :=
  match v with
  | VString s => [s]
  | VStringList l => l
  | VList l => toStringV <$> l
  | _ => []
  end.

(** [QVariant::toBool]: a string is false when it is empty, "0" or "false". *)
Definition textToBool (s : string) : bool :=
  negb (isEmpty s || bool_decide (toLower s = "false") || bool_decide (s = "0")).

Definition toBoolV (v : variant) : bool :=
  match v with
  | VBool b => b
  | VInt z => negb (z =? 0)%Z
  | VString s | VByteArray s => textToBool s
  | _ => false
  end.

(** [QVariant::toInt]: zero when the conversion fails. *)
Definition toIntV (v : variant) : Z :=
  match v with
  | VBool b => if b then 1 else 0
  | VInt z => z
  | VString s | VByteArray s => default 0%Z (toInt s)
  | _ => 0
  end%Z.

(** [QVariant::toMap]. *)
Definition toMapV (v : variant) : QVariantMap :=
  match v with VMap m => m | _ => ∅ end.

(** [QVariant::toByteArray]. *)
Definition toByteArrayV (v : variant) : string :=
  match v with
  | VBool b => if b then "true" else "false"
  | VInt z => pretty z
  | VString s | VByteArray s => s
  | _ => ""
  end.

(** [QJsonValue::fromVariant]. *)
Fixpoint fromVariant (v : variant) : json :=
  match v with
  | VInvalid => JNull
  | VBool b => JBool b
  | VInt z => JNumber z
  | VString s | VByteArray s => JString s
  | VStringList l => JArray (JString <$> l)
  | VMap m => JObject (fromVariant <$> m)
  | VList l => JArray (fromVariant <$> l)
  | VJson j => j
  end.

(** [QJsonValue::toVariant]. *)
Fixpoint toVariant (j : json) : variant :=
  match j with
  | JUndefined | JNull => VInvalid
  | JBool b => VBool b
  | JNumber z => VInt z
  | JString s => VString s
  | JArray l => VList (toVariant <$> l)
  | JObject m => VMap (toVariant <$> m)
  end.

(** [QVariant::toJsonArray]. *)
Definition toJsonArrayV (v : variant) : list json :=
  match v with
  | VStringList l => JString <$> l
  | VList l => fromVariant <$> l
  | VJson (JArray l) => l
  | _ => []
  end.
