(* ===== verification/NetworkUtilities.v ===== *)
(** * NetworkUtilities

    [client/core/utils/networkUtilities.cpp]: the address and host formats the
    client and the service accept, and the helpers that take an address with a
    prefix length apart.  [QHostAddress] is a data type ([hostAddress]); its
    reading and printing of text are an interface ([HostAddressText]) with the
    documented behaviour on dotted quads as laws. *)

From Stdlib Require Import Ascii.
From S2P Require Import Prelude.
From S2P Require Import QtCore.
From S2P Require Import Regex.
From stdpp Require Import options.

Open Scope Z_scope.

(** ** QHostAddress *)

(** An IPv4 address is a 32-bit number, an IPv6 address a [Q_IPV6ADDR]: sixteen
    bytes, the most significant first. *)
Inductive hostAddress :=
  | HNull
  | HIPv4 (addr : Z)
  | HIPv6 (bytes : list Z).

#[export] Instance hostAddress_eq_dec : EqDecision hostAddress.
Proof. solve_decision. Defined.

Inductive NetworkLayerProtocol := IPv4Protocol | IPv6Protocol | UnknownNetworkLayerProtocol.

#[export] Instance protocol_eq_dec : EqDecision NetworkLayerProtocol.
Proof. solve_decision. Defined.

Definition protocol (a : hostAddress) : NetworkLayerProtocol :=
  match a with
  | HNull => UnknownNetworkLayerProtocol
  | HIPv4 _ => IPv4Protocol
  | HIPv6 _ => IPv6Protocol
  end.

Definition isIPv4 (a : hostAddress) : bool := bool_decide (protocol a = IPv4Protocol).

Definition isOctet (z : Z) : Prop := 0 ≤ z ≤ 255.

Definition ofOctets (a b c d : Z) : Z := a * 2 ^ 24 + b * 2 ^ 16 + c * 2 ^ 8 + d.

(** What the code relies on of [QHostAddress]'s text conversions. *)
Class HostAddressText := {
  parseHost : string → hostAddress;
  printHost : hostAddress → string;
  parseHost_dotted : ∀ a b c d, isOctet a → isOctet b → isOctet c → isOctet d →
    parseHost (dotted a b c d) = HIPv4 (ofOctets a b c d);
  printHost_IPv4 : ∀ a b c d, isOctet a → isOctet b → isOctet c → isOctet d →
    printHost (HIPv4 (ofOctets a b c d)) = dotted a b c d
}.

(** ** Formats *)

Section formats.
Open Scope regex_scope.

(** [25[0-5]|2[0-4][0-9]|1[0-9][0-9]|[1-9][0-9]|[0-9]] *)
Definition octetRegExp : regex :=
  (word "25" ∙ digits 0 5) ⊕ (word "2" ∙ digits 0 4 ∙ digits 0 9) ⊕
  (word "1" ∙ digits 0 9 ∙ digits 0 9) ⊕ (digits 1 9 ∙ digits 0 9) ⊕ digits 0 9.

(** [25[0-5]|(2[0-4]|1[0-9]|[1-9]|)[0-9]] *)
Definition octetRegExp' : regex :=
  (word "25" ∙ digits 0 5) ⊕
  (((word "2" ∙ digits 0 4) ⊕ (word "1" ∙ digits 0 9) ⊕ digits 1 9 ⊕ Eps) ∙ digits 0 9).

Definition ipAddressRegExp : regex :=
  times 4 (octetRegExp' ∙ ((word "." ∙ NotAhead EndLine) ⊕ EndLine)) ∙ EndLine.

Definition ipAddressWithSubnetRegExp : regex :=
  times 3 (octetRegExp ∙ word ".") ∙ octetRegExp ∙
  opt (word "/" ∙ (digits 0 9 ⊕ (digits 1 2 ∙ digits 0 9) ⊕ (word "3" ∙ digits 0 2))).

Definition ipNetwork24RegExp : regex :=
  times 3 (octetRegExp ∙ word ".") ∙ word "0".

Definition ipPortRegExp : regex :=
  digits 1 9 ⊕ (opt (digits 1 5) ∙ between 2 4 (digits 0 9)) ⊕
  (word "6" ∙ digits 1 4 ∙ times 3 (digits 0 9)) ⊕
  (word "65" ∙ digits 1 4 ∙ times 2 (digits 0 9)) ⊕
  (word "655" ∙ digits 1 2 ∙ digits 0 9) ⊕ (word "6553" ∙ digits 1 5).

Definition lowerDigit (c : ascii) : bool := isLowerLetter c || isDigit c.
Definition lowerDigitDash (c : ascii) : bool := lowerDigit c || eqChar c "-".
Definition labelChar (c : ascii) : bool := lowerDigitDash c || eqChar c "_".

Definition domainRegExp : regex :=
  Star (NotAhead (word "-") ∙ opt (word "xn--") ∙ between 0 61 (Chr labelChar) ∙
        Chr lowerDigit ∙ word ".") ∙
  opt (word "xn--") ∙
  (between 1 61 (Chr lowerDigitDash) ⊕ between 1 30 (Chr lowerDigitDash)) ∙
  word "." ∙ atLeast 2 (Chr isLowerLetter).
End formats.

(** ** Helpers *)

Definition u32 (z : Z) : Z := Z.land z 0xFFFFFFFF.

Definition netMaskFromIpWithSubnet (ip : string) : string :=
  if negb (containsChar "/" ip) then "255.255.255.255"
  else
    let parts := splitChar "/" ip in
    if (length parts <? 2)%nat then "255.255.255.255"
    else match parts !! 1%nat with
         | None => "255.255.255.255"
         | Some part =>
             match toInt part with
             | None => "255.255.255.255"
             | Some prefix =>
                 if (prefix <? 0) || (32 <? prefix) then "255.255.255.255"
                 else
                   let mask := if prefix =? 0 then 0 else u32 (Z.shiftl 0xFFFFFFFF (32 - prefix)) in
                   dotted (Z.shiftr mask 24) (Z.land (Z.shiftr mask 16) 0xFF)
                          (Z.land (Z.shiftr mask 8) 0xFF) (Z.land mask 0xFF)
             end
         end.

Definition ipAddressFromIpWithSubnet (ip : string) : string :=
  if negb (countChar "." ip =? 3)%nat then ""
  else match splitChar "/" ip with [] => "" | p :: _ => p end.

Definition summarizeRoutes (ips : list string) (cidr : string) : list string := [].

Definition getStringBetween (s a b : string) : string :=
  let ap := indexOf s a 0 in
  let from := match ap with
              | Some i => (i + String.length a)%nat
              | None => pred (String.length a)
              end in
  match ap, indexOf s b from with
  | Some i, Some bp =>
      let ap := (i + String.length a)%nat in
      if (bp <=? ap)%nat then "" else trimmed (leftPart (bp - ap) (midFrom ap s))
  | _, _ => ""
  end.

Record networkInterface := {
  ifaceValid : bool;
  ifaceUp : bool;
  ifaceLoopBack : bool;
  ifacePointToPoint : bool;
  ifaceName : string
}.

Definition isPhysicalDefaultInterface (iface : networkInterface) : bool :=
  if negb (ifaceValid iface) then false
  else if negb (ifaceUp iface) || ifaceLoopBack iface || ifacePointToPoint iface then false
  else
    let name := ifaceName iface in
    negb (startsWith name "utun" || startsWith name "awdl" || startsWith name "llw" ||
          startsWith name "bridge" || startsWith name "gif" || startsWith name "stf" ||
          startsWith name "ipsec").

Section host.
Context `{HostAddressText}.

(** [fromName] is [QHostInfo::fromName(host).addresses()]. *)
Definition getIPAddress (fromName : string → list hostAddress) (host : string) : string :=
  match protocol (parseHost host) with
  | IPv4Protocol => host
  | IPv6Protocol => host
  | UnknownNetworkLayerProtocol =>
      match fromName host with
      | a :: _ => printHost a
      | [] => ""
      end
  end.

Definition checkIPv4Format (ip : string) : bool :=
  if isEmpty ip then false
  else if negb (countChar "." ip =? 3)%nat then false
  else isIPv4 (parseHost ip).

Definition checkIpSubnetFormat (ip : string) : bool :=
  if negb (containsChar "/" ip) then checkIPv4Format ip
  else match splitChar "/" ip with
       | [p0; p1] =>
           match toInt p1 with
           | Some subnet => if (0 <=? subnet) && (subnet <=? 32) then checkIPv4Format p0 else false
           | None => false
           end
       | _ => false
       end.
End host.

(** ** Dotted quads *)

Lemma octet_digits z : isOctet z → allChars isDigit (pretty z) = true.
Proof. intros []. by apply isDigit_pretty. Qed.

Lemma octet_no_char c z : isDigit c = false → isOctet z → containsChar c (pretty z) = false.
Proof. intros Hc Hz. eapply allChars_not_contains; [by apply octet_digits|done]. Qed.

Lemma octet_toInt z : isOctet z → toInt (pretty z) = Some z.
Proof. intros []. apply toInt_pretty. unfold intMax. lia. Qed.

Lemma splitChar_dotted a b c d :
  isOctet a → isOctet b → isOctet c → isOctet d →
  splitChar "." (dotted a b c d) = [pretty a; pretty b; pretty c; pretty d].
Proof.
  intros. unfold dotted. rewrite !splitChar_sep, splitChar_absent by (by apply octet_no_char).
  done.
Qed.

Lemma countChar_app c s t : countChar c (s +:+ t) = (countChar c s + countChar c t)%nat.
Proof.
  induction s as [|d s IH]; [done|]. rewrite scons_app. cbn [countChar]. rewrite IH. lia.
Qed.

Lemma countChar_absent c s : containsChar c s = false → countChar c s = 0%nat.
Proof.
  induction s as [|d s IH]; cbn; [done|].
  intros [Hd Hs]%orb_false_iff. by rewrite Hd, IH.
Qed.

Lemma countChar_dotted a b c d :
  isOctet a → isOctet b → isOctet c → isOctet d → countChar "." (dotted a b c d) = 3%nat.
Proof.
  intros. unfold dotted. rewrite !countChar_app.
  by rewrite !(countChar_absent "." (pretty _)) by (by apply octet_no_char).
Qed.

Lemma containsChar_dotted x a b c d :
  isDigit x = false → x ≠ "."%char → isOctet a → isOctet b → isOctet c → isOctet d →
  containsChar x (dotted a b c d) = false.
Proof.
  intros Hx Hdot. intros. unfold dotted. rewrite !containsChar_app.
  rewrite !octet_no_char by done. cbn [containsChar].
  by rewrite (proj2 (eqChar_false "."%char x)) by done.
Qed.

Lemma dotted_not_empty a b c d : isEmpty (dotted a b c d) = false.
Proof.
  unfold dotted. pose proof (pretty_not_nil a). by destruct (pretty a).
Qed.

(** ** What the formats accept *)

Definition octetTexts : list string := pretty <$> seqZ 0 256.

Lemma elem_of_octetTexts s : s ∈ octetTexts ↔ ∃ z, isOctet z ∧ s = pretty z.
Proof.
  unfold octetTexts, isOctet. rewrite list_elem_of_fmap. setoid_rewrite elem_of_seqZ.
  naive_solver lia.
Qed.

Lemma sem_octet s t : sem octetRegExp s t ↔ ∃ z, isOctet z ∧ s = pretty z +:+ t.
Proof.
  rewrite sem_lang by done.
  setoid_rewrite (sameElements_elem (lang octetRegExp) octetTexts); [|by vm_compute].
  setoid_rewrite elem_of_octetTexts. naive_solver.
Qed.

Lemma sem_octet' s t : sem octetRegExp' s t ↔ ∃ z, isOctet z ∧ s = pretty z +:+ t.
Proof.
  rewrite sem_lang by done.
  setoid_rewrite (sameElements_elem (lang octetRegExp') octetTexts); [|by vm_compute].
  setoid_rewrite elem_of_octetTexts. naive_solver.
Qed.

Lemma sem_word w s t : sem (word w) s t ↔ s = w +:+ t.
Proof.
  revert s. induction w as [|c w IH]; intros s; cbn [word sem]; [by rewrite snil_app|].
  setoid_rewrite IH. unfold lit. cbn [sem]. setoid_rewrite eqChar_true. rewrite scons_app. naive_solver.
Qed.

Definition prefixTexts : list string := (λ p, "/" +:+ pretty p) <$> seqZ 0 33.

Lemma sem_prefixLength s :
  sem (opt (Cat (word "/") (Alt (digits 0 9) (Alt (Cat (digits 1 2) (digits 0 9))
                                                  (Cat (word "3") (digits 0 2)))))) s "" ↔
  s = "" ∨ ∃ p, 0 ≤ p ≤ 32 ∧ s = "/" +:+ pretty p.
Proof.
  rewrite sem_lang by done.
  setoid_rewrite (sameElements_elem _ ("" :: prefixTexts)); [|by vm_compute].
  setoid_rewrite elem_of_cons. unfold prefixTexts. setoid_rewrite list_elem_of_fmap.
  setoid_rewrite elem_of_seqZ. setoid_rewrite sapp_nil_r. naive_solver lia.
Qed.

(** Texts of the form of an address, with or without a prefix length. *)
Definition isAddressText (s : string) : Prop :=
  ∃ a b c d, isOctet a ∧ isOctet b ∧ isOctet c ∧ isOctet d ∧ s = dotted a b c d.

Definition isSubnetText (s : string) : Prop :=
  ∃ a b c d p, isOctet a ∧ isOctet b ∧ isOctet c ∧ isOctet d ∧ 0 ≤ p ≤ 32 ∧
               s = dotted a b c d +:+ "/" +:+ pretty p.

Lemma sem_quad r s t :
  sem (Cat (times 3 (Cat octetRegExp (word "."))) r) s t ↔
  ∃ a b c u, isOctet a ∧ isOctet b ∧ isOctet c ∧ sem r u t ∧
    s = pretty a +:+ "." +:+ pretty b +:+ "." +:+ pretty c +:+ "." +:+ u.
Proof.
  cbn [times sem]. setoid_rewrite sem_octet. setoid_rewrite sem_word. split.
  - intros (u & (u1 & (v1 & (a & Ha & ->) & ->) & u2 & (v2 & (b & Hb & ->) & ->) &
                 u3 & (v3 & (c & Hc & ->) & ->) & ->) & Hr).
    by exists a, b, c, u.
  - intros (a & b & c & u & Ha & Hb & Hc & Hr & ->). exists u. split; [|done].
    eexists. split; [eexists; split; [by exists a|done]|].
    eexists. split; [eexists; split; [by exists b|done]|].
    eexists. split; [eexists; split; [by exists c|done]|]. done.
Qed.


Lemma ipAddressWithSubnetRegExp_sem s :
  exactMatch ipAddressWithSubnetRegExp s = true ↔ isAddressText s ∨ isSubnetText s.
Proof.
  rewrite exactMatch_sem. unfold ipAddressWithSubnetRegExp. rewrite sem_quad. cbn [sem].
  setoid_rewrite sem_octet. unfold isAddressText, isSubnetText. split.
  - intros (a & b & c & u & Ha & Hb & Hc & (v & (d & Hd & ->) & [->|(p & Hp & ->)]%sem_prefixLength) & ->).
    + left. exists a, b, c, d. by rewrite sapp_nil_r.
    + right. exists a, b, c, d, p. unfold dotted. by rewrite !sapp_assoc.
  - intros [(a & b & c & d & Ha & Hb & Hc & Hd & ->)|(a & b & c & d & p & Ha & Hb & Hc & Hd & Hp & ->)];
      exists a, b, c; eexists; (split_and!; [done..|eexists; split; [by exists d|]|]).
    + apply sem_prefixLength. by left.
    + by rewrite sapp_nil_r.
    + apply sem_prefixLength. right. by exists p.
    + unfold dotted. by rewrite !sapp_assoc.
Qed.

Lemma times_EndLine_dead r s t :
  (∀ u v, sem r u v → ∃ z, isOctet z ∧ u = pretty z +:+ v) →
  sem EndLine s t → ¬ ∃ v, sem r t v.
Proof.
  intros Hr [<- Hs] [v (z & Hz & ->)%Hr].
  pose proof (octet_digits z Hz) as Hd. pose proof (pretty_not_nil z) as Hn.
  destruct (pretty z) as [|c w]; [done|]. rewrite scons_app in Hs.
  cbn in Hd. apply andb_true_iff in Hd as [Hd _].
  destruct Hs as [Hs|Hs]; [done|]. injection Hs as -> _. by vm_compute in Hd.
Qed.

(** One octet of [ipAddressRegExp] that is followed by another one ends in a
    dot. *)
Lemma sem_octet_dot s t :
  sem (Cat octetRegExp' (Alt (Cat (word ".") (NotAhead EndLine)) EndLine)) s t →
  (∃ v, sem octetRegExp' t v) → ∃ z, isOctet z ∧ s = pretty z +:+ "." +:+ t.
Proof.
  intros (u & (z & Hz & ->)%sem_octet' & Hu) Ht. destruct Hu as [(v & ->%sem_word & [-> _])|He].
  - by exists z.
  - exfalso. eapply (times_EndLine_dead octetRegExp'); [|done|done].
    intros ?? ?%sem_octet'. done.
Qed.

Lemma sem_octet_last s t :
  sem (Cat octetRegExp' (Alt (Cat (word ".") (NotAhead EndLine)) EndLine)) s t →
  (t = "" ∨ t = String newline "") → ∃ z, isOctet z ∧ s = pretty z +:+ t.
Proof.
  intros (u & (z & Hz & ->)%sem_octet' & [(v & ->%sem_word & [-> Hn])|[-> _]]) Ht.
  - exfalso. apply (Hn t). by split.
  - by exists z.
Qed.

Lemma sem_octet_group s t :
  sem (Cat octetRegExp' (Alt (Cat (word ".") (NotAhead EndLine)) EndLine)) s t →
  ∃ v, sem octetRegExp' s v.
Proof. intros (u & Hu & _). eauto. Qed.

Lemma sem_octet_dot_intro z t :
  isOctet z → t ≠ "" → t ≠ String newline "" →
  sem (Cat octetRegExp' (Alt (Cat (word ".") (NotAhead EndLine)) EndLine))
      (pretty z +:+ "." +:+ t) t.
Proof.
  intros Hz H1 H2. exists ("." +:+ t). split; [apply sem_octet'; by exists z|]. left.
  exists t. split; [by apply sem_word|]. split; [done|].
  intros u [-> [-> | ->]]; [by apply H1|by apply H2].
Qed.

Lemma pretty_app_shape z t :
  isOctet z → pretty z +:+ t ≠ "" ∧ pretty z +:+ t ≠ String newline "".
Proof.
  intros Hz. pose proof (octet_digits z Hz) as Hd. pose proof (pretty_not_nil z) as Hn.
  destruct (pretty z) as [|c w]; [done|]. rewrite scons_app. split; [done|].
  intros [= -> _]. cbn in Hd. done.
Qed.

Lemma ipAddressRegExp_quad s :
  matchAtStart ipAddressRegExp s = true →
  ∃ a b c d t, isOctet a ∧ isOctet b ∧ isOctet c ∧ isOctet d ∧ (t = "" ∨ t = String newline "") ∧
    s = dotted a b c d +:+ t.
Proof.
  intros (t & u & (s1 & H1 & s2 & H2 & s3 & H3 & s4 & H4 & <-) & <- & Ht)%matchAtStart_sem.
  pose proof (sem_octet_group _ _ H2) as G2. pose proof (sem_octet_group _ _ H3) as G3.
  pose proof (sem_octet_group _ _ H4) as G4.
  apply sem_octet_last in H4 as (d & Hd & ->); [|done].
  apply sem_octet_dot in H3 as (c & Hc & ->); [|done].
  apply sem_octet_dot in H2 as (b & Hb & ->); [|done].
  apply sem_octet_dot in H1 as (a & Ha & ->); [|done].
  exists a, b, c, d, s4. unfold dotted. by rewrite !sapp_assoc.
Qed.

Lemma ipAddressRegExp_accepts a b c d t :
  isOctet a → isOctet b → isOctet c → isOctet d → (t = "" ∨ t = String newline "") →
  matchAtStart ipAddressRegExp (dotted a b c d +:+ t) = true.
Proof.
  intros Ha Hb Hc Hd Ht. apply matchAtStart_sem. exists t, t. split; [|by split].
  unfold dotted. rewrite !sapp_assoc. unfold ipAddressRegExp. cbn [times].
  assert (sem (Cat octetRegExp' (Alt (Cat (word ".") (NotAhead EndLine)) EndLine)) (pretty d +:+ t) t).
  { exists t. split; [apply sem_octet'; by exists d|]. right. by split. }
  pose proof (pretty_app_shape d t Hd) as [].
  pose proof (pretty_app_shape c ("." +:+ pretty d +:+ t) Hc) as [].
  pose proof (pretty_app_shape b ("." +:+ pretty c +:+ "." +:+ pretty d +:+ t) Hb) as [].
  eexists. split; [by apply sem_octet_dot_intro|].
  eexists. split; [by apply sem_octet_dot_intro|].
  eexists. split; [by apply sem_octet_dot_intro|].
  by exists t.
Qed.

Section host_facts.
Context `{HostAddressText}.

Lemma checkIPv4Format_dotted a b c d :
  isOctet a → isOctet b → isOctet c → isOctet d → checkIPv4Format (dotted a b c d) = true.
Proof.
  intros. unfold checkIPv4Format. rewrite dotted_not_empty, countChar_dotted by done. cbn [Nat.eqb negb].
  by rewrite parseHost_dotted.
Qed.

Lemma checkIpSubnetFormat_address s :
  isAddressText s ∨ isSubnetText s → checkIpSubnetFormat s = true.
Proof.
  unfold checkIpSubnetFormat.
  intros [(a & b & c & d & Ha & Hb & Hc & Hd & ->)|(a & b & c & d & p & Ha & Hb & Hc & Hd & Hp & ->)].
  - rewrite containsChar_dotted by done. by apply checkIPv4Format_dotted.
  - rewrite splitChar_sep by (by apply containsChar_dotted).
    rewrite splitChar_absent by (apply octet_no_char; [done|unfold isOctet; lia]).
    rewrite containsChar_app, orb_true_r.
    rewrite toInt_pretty by (unfold intMax; lia).
    replace ((0 <=? p) && (p <=? 32)) with true by lia. by apply checkIPv4Format_dotted.
Qed.
End host_facts.

Lemma domain_alphabet s :
  exactMatch domainRegExp s = true → allChars (λ c, labelChar c || eqChar c ".") s = true.
Proof.
  intros Hs%exactMatch_alphabet. revert Hs. apply allChars_impl. intros c.
  destruct c as [[] [] [] [] [] [] [] []]; vm_compute; congruence.
Qed.

Lemma domain_not_empty s : exactMatch domainRegExp s = true → s ≠ "".
Proof. intros H ->. by vm_compute in H. Qed.

Lemma subnetText_alphabet s :
  isAddressText s ∨ isSubnetText s →
  allChars (λ c, isDigit c || eqChar c "." || eqChar c "/") s = true.
Proof.
  assert (∀ z, isOctet z → allChars (λ c, isDigit c || eqChar c "." || eqChar c "/") (pretty z) = true) as Hz.
  { intros z Hz. generalize (octet_digits z Hz). apply allChars_impl. intros c ->. done. }
  intros [(a & b & c & d & Ha & Hb & Hc & Hd & ->)|(a & b & c & d & p & Ha & Hb & Hc & Hd & Hp & ->)];
    unfold dotted; rewrite !allChars_app, !Hz by (done || (unfold isOctet; lia)); done.
Qed.

(** ** The mask of a prefix length *)

Lemma forallb_seqZ (f : Z → bool) lo n z :
  forallb f (seqZ lo n) = true → lo ≤ z < lo + n → f z = true.
Proof.
  rewrite forallb_forall. intros Hf Hz. apply Hf, list_elem_of_In, elem_of_seqZ. done.
Qed.

Lemma mask_value p :
  0 ≤ p ≤ 32 → (if p =? 0 then 0 else u32 (Z.shiftl 0xFFFFFFFF (32 - p))) = 2 ^ 32 - 2 ^ (32 - p).
Proof.
  intros Hp. apply Z.eqb_eq.
  refine (forallb_seqZ (λ p, (if p =? 0 then 0 else u32 (Z.shiftl 0xFFFFFFFF (32 - p))) =?
                             2 ^ 32 - 2 ^ (32 - p)) 0 33 p _ _); [by vm_compute|lia].
Qed.

Definition octetsText (z : Z) : string :=
  dotted (z / 2 ^ 24) (z / 2 ^ 16 mod 256) (z / 2 ^ 8 mod 256) (z mod 256).

Lemma octetsText_bits z :
  octetsText z = dotted (Z.shiftr z 24) (Z.land (Z.shiftr z 16) 0xFF)
                        (Z.land (Z.shiftr z 8) 0xFF) (Z.land z 0xFF).
Proof.
  unfold octetsText. change 255 with (Z.ones 8). rewrite !Z.land_ones by lia.
  by rewrite !Z.shiftr_div_pow2 by lia.
Qed.

(** The address format with an optional prefix length accepts exactly the
    four decimal octets without leading zeros, alone or followed by a slash and
    a number from 0 to 32. *)
Lemma ipAddressWithSubnet_accepts_exactly s :
  exactMatch ipAddressWithSubnetRegExp s = true ↔
  (∃ a b c d, isOctet a ∧ isOctet b ∧ isOctet c ∧ isOctet d ∧
     (s = dotted a b c d ∨ ∃ p, 0 ≤ p ≤ 32 ∧ s = dotted a b c d +:+ "/" +:+ pretty p)).
Proof.
  rewrite ipAddressWithSubnetRegExp_sem. split.
  - intros [(a & b & c & d & ? & ? & ? & ? & ->)|(a & b & c & d & p & ? & ? & ? & ? & Hp & ->)];
      exists a, b, c, d; eauto 8.
  - intros (a & b & c & d & ? & ? & ? & ? & [-> | (p & Hp & ->)]); [left|right].
    + by exists a, b, c, d.
    + by exists a, b, c, d, p.
Qed.

(** The format used for DNS servers accepts exactly the dotted quads, and
    also a dotted quad followed by one newline, because the dollar sign of the
    pattern matches before a final newline. *)
Lemma ipAddressRegExp_accepts_exactly s :
  matchAtStart ipAddressRegExp s = true ↔
  isAddressText s ∨ ∃ q, isAddressText q ∧ s = q +:+ String newline "".
Proof.
  split.
  - intros (a & b & c & d & t & Ha & Hb & Hc & Hd & [-> | ->] & ->)%ipAddressRegExp_quad.
    + left. exists a, b, c, d. by rewrite sapp_nil_r.
    + right. exists (dotted a b c d). split; [by exists a, b, c, d|done].
  - intros [(a & b & c & d & Ha & Hb & Hc & Hd & ->)|(q & (a & b & c & d & Ha & Hb & Hc & Hd & ->) & ->)].
    + rewrite <-(sapp_nil_r (dotted a b c d)). apply ipAddressRegExp_accepts; auto.
    + apply ipAddressRegExp_accepts; auto.
Qed.

Definition portGap (p : Z) : bool :=
  (60000 <=? p) && (p <=? 60999) || (65000 <=? p) && (p <=? 65099) ||
  (65500 <=? p) && (p <=? 65509) || (p =? 65530).

(** The port format is not the set of ports: of the numbers 1 to 65535 it
    rejects exactly 60000-60999, 65000-65099, 65500-65509 and 65530. *)
Lemma ipPortRegExp_gaps p :
  1 ≤ p ≤ 65535 → exactMatch ipPortRegExp (pretty p) = negb (portGap p).
Proof.
  intros Hp. apply eqb_prop.
  set (ok := λ p, (p =? 0) || Bool.eqb (exactMatch ipPortRegExp (pretty p)) (negb (portGap p))).
  assert (forallb (λ q, forallb (λ r, ok (256 * q + r)) (seqZ 0 256)) (seqZ 0 256) = true) as Hall
    by (vm_compute; reflexivity).
  assert (0 ≤ p / 256 < 0 + 256) as Hdiv by (split; [apply Z.div_pos|apply Z.div_lt_upper_bound]; lia).
  pose proof (forallb_seqZ _ _ _ _ Hall Hdiv) as Hq. cbv beta in Hq.
  pose proof (forallb_seqZ _ _ _ _ Hq (Z.mod_pos_bound p 256 eq_refl)) as Hr. cbv beta in Hr.
  rewrite <-Z.div_mod in Hr by lia. unfold ok in Hr.
  apply orb_true_iff in Hr as [Hr|Hr]; [lia|done].
Qed.

(** Every text the address format accepts passes the check that the kill
    switch and the route planner apply to addresses. *)
Lemma ipAddressWithSubnet_checked `{HostAddressText} s :
  exactMatch ipAddressWithSubnetRegExp s = true → checkIpSubnetFormat s = true.
Proof. intros Hs%ipAddressWithSubnetRegExp_sem. by apply checkIpSubnetFormat_address. Qed.

(** For an address with prefix length [p], the computed mask is the
    32-bit number with [p] leading ones, written as four octets. *)
Lemma netMask_of_prefix ip p :
  containsChar "/" ip = false → 0 ≤ p ≤ 32 →
  netMaskFromIpWithSubnet (ip +:+ "/" +:+ pretty p) = octetsText (2 ^ 32 - 2 ^ (32 - p)).
Proof.
  intros Hip Hp. unfold netMaskFromIpWithSubnet.
  rewrite containsChar_app, Hip. cbn [containsChar orb negb].
  rewrite splitChar_sep by done.
  rewrite splitChar_absent by (apply octet_no_char; [done|unfold isOctet; lia]).
  cbn [length Nat.ltb Nat.leb]. cbn [lookup list_lookup].
  rewrite toInt_pretty by (unfold intMax; lia).
  replace ((p <? 0) || (32 <? p)) with false by lia.
  cbv zeta. rewrite mask_value by done. by rewrite octetsText_bits.
Qed.

(** ** A concrete reading of addresses

    Four decimal octets and nothing else; it satisfies the laws of
    [HostAddressText] and serves to evaluate the definitions. *)

Definition parseQuad (s : string) : hostAddress :=
  match toInt <$> splitChar "." s with
  | [Some a; Some b; Some c; Some d] =>
      if forallb (λ z, (0 <=? z) && (z <=? 255)) [a; b; c; d]
      then HIPv4 (ofOctets a b c d) else HNull
  | _ => HNull
  end.

Definition printQuad (a : hostAddress) : string :=
  match a with HIPv4 z => octetsText z | _ => "" end.

Lemma parseQuad_dotted a b c d :
  isOctet a → isOctet b → isOctet c → isOctet d →
  parseQuad (dotted a b c d) = HIPv4 (ofOctets a b c d).
Proof.
  intros. unfold parseQuad. rewrite splitChar_dotted by done. cbn [fmap list_fmap].
  rewrite !octet_toInt by done. unfold isOctet in *. cbn [forallb].
  by replace (_ && _) with true by lia.
Qed.

Lemma octetsText_ofOctets a b c d :
  isOctet a → isOctet b → isOctet c → isOctet d →
  octetsText (ofOctets a b c d) = dotted a b c d.
Proof.
  unfold isOctet, octetsText, ofOctets. intros.
  change (2 ^ 24) with 16777216. change (2 ^ 16) with 65536. change (2 ^ 8) with 256.
  f_equal; Z.to_euclidean_division_equations; lia.
Qed.

Definition quadText : HostAddressText := {|
  parseHost := parseQuad;
  printHost := printQuad;
  parseHost_dotted := parseQuad_dotted;
  printHost_IPv4 := octetsText_ofOctets
|}.

Lemma ipAddressWithSubnet_checked_example :
  @checkIpSubnetFormat quadText "10.8.0.0/16" = true.
Proof. apply (@ipAddressWithSubnet_checked quadText). vm_compute. reflexivity. Defined.

Lemma netMask_of_prefix_example :
  netMaskFromIpWithSubnet "10.8.0.0/20" = "255.255.240.0".
Proof. apply (netMask_of_prefix "10.8.0.0" 20); [reflexivity|lia]. Defined.
