(* ===== verification/IpAddress.v ===== *)
(** * Address ranges

    [client/mozilla/shared/ipaddress.cpp]: a range is an address and the length of
    its prefix.  The code works on 32-bit numbers for IPv4 and on sixteen bytes for
    IPv6; both are read as a sequence of bits, the most significant first
    ([bitAt]), and the operations are characterised by it.  The main result is that
    the subtraction of ranges covers exactly the addresses it should, and ends. *)

From S2P Require Import Prelude QtCore NetworkUtilities.
From stdpp Require Import options.

#[local] Set Default Proof Using "Type*".

Record IPAddress := IPRange { address : hostAddress; prefixLength : Z }.

#[export] Instance IPAddress_eq_dec : EqDecision IPAddress.
Proof. solve_decision. Defined.

#[export] Instance IPAddress_countable : Countable IPAddress.
Proof.
  refine (inj_countable'
    (λ r, (match address r with HNull => None | HIPv4 z => Some (inl z) | HIPv6 bytes => Some (inr bytes) end,
           prefixLength r))
    (λ c, IPRange (match c.1 with None => HNull | Some (inl z) => HIPv4 z | Some (inr bytes) => HIPv6 bytes end) c.2) _).
  by intros [[] ?].
Defined.

(** [QHostAddress::parseSubnet]. *)
Class SubnetText := parseSubnet : string → hostAddress * Z.

(** ** Construction *)

Section construction.
Context `{HostAddressText, SubnetText}.

Definition clampPrefix (a : hostAddress) (p : Z) : Z :=
  match protocol a with
  | IPv4Protocol => if 32 <=? p then 32 else p
  | IPv6Protocol => if 128 <=? p then 128 else p
  | UnknownNetworkLayerProtocol => p
  end.

(** [IPAddress(const QString &)]. *)
Definition ofText (ip : string) : IPAddress :=
  let '(a, p) := if contains ip "/" then parseSubnet ip else (parseHost ip, 999999) in
  IPRange a (clampPrefix a p).
End construction.

(** [IPAddress(const QHostAddress &)]. *)
Definition ofHost (a : hostAddress) : IPAddress :=
  IPRange a (match protocol a with IPv4Protocol => 32 | _ => 128 end).

(** ** Masks *)

Definition memset (value : Z) (from count : nat) (bytes : list Z) : list Z :=
  take from bytes ++ replicate count value ++ drop (from + count) bytes.

Definition zeroBytes : list Z := replicate 16 0.

Definition netmask (r : IPAddress) : hostAddress :=
  let p := prefixLength r in
  match address r with
  | HIPv6 _ =>
      let raw := memset 255 0 (Z.to_nat (p / 8)) zeroBytes in
      HIPv6 (if p mod 8 =? 0 then raw
             else <[Z.to_nat (p / 8) := Z.lxor 255 (Z.shiftr 255 (p mod 8))]> raw)
  | HIPv4 _ => HIPv4 (if p <? 32 then Z.lxor 4294967295 (Z.shiftr 4294967295 p) else 4294967295)
  | HNull => HNull
  end.

Definition hostmask (r : IPAddress) : hostAddress :=
  let p := prefixLength r in
  match address r with
  | HIPv6 _ =>
      let offset := Z.to_nat ((p + 7) / 8) in
      let raw := memset 255 offset (16 - offset) zeroBytes in
      HIPv6 (if p mod 8 =? 0 then raw else <[Z.to_nat (p / 8) := Z.shiftr 255 (p mod 8)]> raw)
  | HIPv4 _ => HIPv4 (if p <? 32 then Z.shiftr 4294967295 p else 0)
  | HNull => HNull
  end.

Definition broadcastAddress (r : IPAddress) : hostAddress :=
  let p := prefixLength r in
  match address r with
  | HIPv6 bytes =>
      let offset := Z.to_nat ((p + 7) / 8) in
      let raw := memset 255 offset (16 - offset) bytes in
      HIPv6 (if p mod 8 =? 0 then raw
             else <[Z.to_nat (p / 8) := Z.lor (raw !!! Z.to_nat (p / 8)) (Z.shiftr 255 (p mod 8))]> raw)
  | HIPv4 raw => HIPv4 (if p <? 32 then Z.lor raw (Z.shiftr 4294967295 p) else raw)
  | HNull => HNull
  end.

(** ** Comparison *)

Definition containsHost (r : IPAddress) (a : hostAddress) : bool :=
  let p := prefixLength r in
  if negb (bool_decide (protocol a = protocol (address r))) then false
  else if p =? 0 then true
  else match address r, a with
       | HIPv6 x, HIPv6 y =>
           let bytes := Z.to_nat (p / 8) in
           if negb (bool_decide (take bytes x = take bytes y)) then false
           else if negb (p mod 8 =? 0) then
             Z.shiftr (Z.lxor (x !!! bytes) (y !!! bytes)) (8 - p mod 8) =? 0
           else true
       | HIPv4 x, HIPv4 y =>
           let diff := Z.lxor x y in
           (if p <? 32 then Z.shiftr diff (32 - p) else diff) =? 0
       | _, _ => false
       end.

Definition overlaps (r other : IPAddress) : bool :=
  if prefixLength r <? prefixLength other then containsHost r (address other)
  else containsHost other (address r).

Definition subnetOf (r other : IPAddress) : bool :=
  if negb (bool_decide (protocol (address other) = protocol (address r))) then false
  else if prefixLength r <? prefixLength other then false
  else containsHost other (address r).

(** ** Subtraction *)

Definition subnets (r : IPAddress) : list IPAddress :=
  let p := prefixLength r in
  match address r with
  | HIPv4 raw =>
      if 32 <=? p then [r]
      else [IPRange (HIPv4 raw) (p + 1); IPRange (HIPv4 (Z.lor raw (Z.shiftr 2147483648 p))) (p + 1)]
  | HIPv6 raw =>
      if 128 <=? p then [r]
      else [IPRange (HIPv6 raw) (p + 1);
            IPRange (HIPv6 (<[Z.to_nat (p / 8) := Z.lor (raw !!! Z.to_nat (p / 8)) (Z.shiftr 128 (p mod 8))]> raw)) (p + 1)]
  | HNull => [r]
  end.

(** The loop of [excludeAddresses(ip)].  [None]: an element that is not there is
    read, or the fuel is used up; an iteration that changes nothing repeats for
    ever. *)
Fixpoint excludeLoop (fuel : nat) (sn : list IPAddress) (ip : IPAddress) (result : list IPAddress) :
    option (list IPAddress) :=
  match fuel, sn with
  | S fuel, sn0 :: sn1 :: _ =>
      if bool_decide (sn0 ≠ ip) && bool_decide (sn1 ≠ ip) then
        if subnetOf ip sn0 then excludeLoop fuel (subnets sn0) ip (result ++ [sn1])
        else if subnetOf ip sn1 then excludeLoop fuel (subnets sn1) ip (result ++ [sn0])
        else excludeLoop fuel sn ip result
      else if bool_decide (sn0 = ip) then Some (result ++ [sn1])
      else Some (result ++ [sn0])
  | _, _ => None
  end.

(** Every iteration that goes on makes the prefixes longer by one. *)
Definition excludeFuel : nat := 129.

Definition excludeAddress (r ip : IPAddress) : option (list IPAddress) :=
  excludeLoop excludeFuel (subnets r) ip [].

(** One range to exclude. *)
Definition excludeStep (exclude : IPAddress) (ip : IPAddress) : option (list IPAddress) :=
  if negb (overlaps ip exclude) then Some [ip]
  else if subnetOf exclude ip && bool_decide (exclude ≠ ip) then excludeAddress ip exclude
  else Some [].

Definition excludeAddresses (sourceList excludeList : list IPAddress) : option (list IPAddress) :=
  foldl (λ results exclude,
           results ← results; parts ← mapM (excludeStep exclude) results; Some (concat parts))
    (Some sourceList) excludeList.

(** ** Addresses as bits *)

Definition width (a : hostAddress) : Z :=
  match a with HIPv4 _ => 32 | HIPv6 _ => 128 | HNull => 0 end.

Definition bitAt (a : hostAddress) (i : Z) : bool :=
  match a with
  | HIPv4 z => Z.testbit z (31 - i)
  | HIPv6 bytes => Z.testbit (bytes !!! Z.to_nat (i / 8)) (7 - i mod 8)
  | HNull => false
  end.

Definition validHost (a : hostAddress) : Prop :=
  match a with
  | HIPv4 z => 0 ≤ z < 2 ^ 32
  | HIPv6 bytes => length bytes = 16%nat ∧ Forall (λ b, 0 ≤ b < 2 ^ 8) bytes
  | HNull => False
  end.

Definition validRange (r : IPAddress) : Prop :=
  validHost (address r) ∧ 0 ≤ prefixLength r ≤ width (address r).

(** The address of the range has no bits after the prefix. *)
Definition aligned (r : IPAddress) : Prop :=
  ∀ i, prefixLength r ≤ i < width (address r) → bitAt (address r) i = false.

(** An address has the prefix of the range. *)
Definition within (r : IPAddress) (a : hostAddress) : Prop :=
  protocol a = protocol (address r) ∧ ∀ i, 0 ≤ i < prefixLength r → bitAt a i = bitAt (address r) i.

(** ** Bits of numbers and bytes *)

Lemma testbit_high z n j : 0 ≤ z < 2 ^ n → n ≤ j → Z.testbit z j = false.
Proof.
  intros Hz Hj. destruct (decide (z = 0)) as [->|]; [apply Z.bits_0|].
  apply Z.bits_above_log2; [lia|]. apply Z.lt_le_trans with n; [|done]. apply Z.log2_lt_pow2; lia.
Qed.

(** A number is determined by the bits below its width. *)
Lemma bits_equal x y n :
  0 ≤ x < 2 ^ n → 0 ≤ y < 2 ^ n → (∀ j, 0 ≤ j < n → Z.testbit x j = Z.testbit y j) → x = y.
Proof.
  intros Hx Hy Hbits. apply Z.bits_inj'. intros j Hj. destruct (decide (j < n)); [auto|].
  by rewrite !(testbit_high _ n) by lia.
Qed.

(** The shifted difference is zero exactly when the upper bits agree. *)
Lemma shiftr_lxor_zero x y n k :
  0 ≤ x < 2 ^ n → 0 ≤ y < 2 ^ n → 0 ≤ k →
  Z.shiftr (Z.lxor x y) k = 0 ↔ ∀ j, k ≤ j < n → Z.testbit x j = Z.testbit y j.
Proof.
  intros Hx Hy Hk. split.
  - intros Hz j Hj. assert (Z.testbit (Z.shiftr (Z.lxor x y) k) (j - k) = false) as Hbit by (rewrite Hz; apply Z.bits_0).
    rewrite Z.shiftr_spec, Z.lxor_spec in Hbit by lia. replace (j - k + k) with j in Hbit by lia.
    by destruct (Z.testbit x j), (Z.testbit y j).
  - intros Hbits. apply Z.bits_inj'. intros j Hj. rewrite Z.bits_0, Z.shiftr_spec, Z.lxor_spec by lia.
    destruct (decide (j + k < n)).
    + rewrite Hbits by lia. apply xorb_nilpotent.
    + by rewrite !(testbit_high _ n) by lia.
Qed.

Lemma byte_bounds (bytes : list Z) k :
  Forall (λ b, 0 ≤ b < 2 ^ 8) bytes → 0 ≤ bytes !!! k < 2 ^ 8.
Proof.
  intros Hb. destruct (bytes !! k) as [b|] eqn:Hk.
  - rewrite (list_lookup_total_correct _ _ _ Hk). by eapply Forall_lookup_1 in Hb.
  - rewrite list_lookup_total_alt, Hk. cbn. lia.
Qed.

Lemma take_equal (x y : list Z) q :
  length x = length y → take q x = take q y ↔ ∀ k, (k < q)%nat → x !!! k = y !!! k.
Proof.
  intros Hlen. split.
  - intros Htake k Hk. rewrite !list_lookup_total_alt, <-(lookup_take_lt x q), <-(lookup_take_lt y q) by done.
    by rewrite Htake.
  - intros Hk. apply list_eq. intros k. destruct (decide (k < q)%nat).
    + rewrite !lookup_take_lt by done. specialize (Hk k ltac:(done)). rewrite !list_lookup_total_alt in Hk.
      destruct (x !! k) eqn:Hx, (y !! k) eqn:Hy; cbn in *; [by f_equal|..|done].
      * apply lookup_lt_Some in Hx. apply lookup_ge_None in Hy. lia.
      * apply lookup_lt_Some in Hy. apply lookup_ge_None in Hx. lia.
    + by rewrite !lookup_take_ge by lia.
Qed.

(** ** Ranges *)

Lemma containsHost_v4 x p y :
  0 ≤ x < 2 ^ 32 → 0 ≤ y < 2 ^ 32 → 0 ≤ p ≤ 32 →
  containsHost (IPRange (HIPv4 x) p) (HIPv4 y) = true ↔
  ∀ i, 0 ≤ i < p → bitAt (HIPv4 y) i = bitAt (HIPv4 x) i.
Proof.
  intros Hx Hy Hp. unfold containsHost. cbn [prefixLength address protocol bitAt].
  rewrite bool_decide_eq_true_2 by done. cbn [negb]. destruct (p =? 0) eqn:Hp0.
  { split; [|done]. intros _ i Hi. lia. }
  replace (if p <? 32 then Z.shiftr (Z.lxor x y) (32 - p) else Z.lxor x y)
    with (Z.shiftr (Z.lxor x y) (32 - p)).
  2:{ destruct (p <? 32) eqn:Hp32; [done|]. replace (32 - p) with 0 by lia. apply Z.shiftr_0_r. }
  rewrite Z.eqb_eq, (shiftr_lxor_zero x y 32) by lia. split.
  - intros Hbits i Hi. symmetry. apply Hbits. lia.
  - intros Hbits j Hj. specialize (Hbits (31 - j)). replace (31 - (31 - j)) with j in Hbits by lia.
    symmetry. apply Hbits. lia.
Qed.

Lemma containsHost_v6 x p y :
  validHost (HIPv6 x) → validHost (HIPv6 y) → 0 ≤ p ≤ 128 →
  containsHost (IPRange (HIPv6 x) p) (HIPv6 y) = true ↔
  ∀ i, 0 ≤ i < p → bitAt (HIPv6 y) i = bitAt (HIPv6 x) i.
Proof.
  intros [Hlx Hx] [Hly Hy] Hp. unfold containsHost. cbn [prefixLength address protocol bitAt].
  rewrite bool_decide_eq_true_2 by done. cbn [negb]. destruct (p =? 0) eqn:Hp0.
  { split; [|done]. intros _ i Hi. lia. }
  pose proof (λ k, byte_bounds x k Hx) as Bx. pose proof (λ k, byte_bounds y k Hy) as By.
  assert (take (Z.to_nat (p / 8)) x = take (Z.to_nat (p / 8)) y ↔
    ∀ i, 0 ≤ i < 8 * (p / 8) → Z.testbit (y !!! Z.to_nat (i / 8)) (7 - i mod 8) =
      Z.testbit (x !!! Z.to_nat (i / 8)) (7 - i mod 8)) as Hwhole.
  { rewrite take_equal by lia. split.
    - intros Hk i Hi. rewrite Hk; [done|]. apply Z2Nat.inj_lt; [Z.to_euclidean_division_equations; lia..].
    - intros Hbits k Hk. apply (bits_equal _ _ 8); [done..|]. intros j Hj.
      specialize (Hbits (8 * Z.of_nat k + (7 - j))).
      replace ((8 * Z.of_nat k + (7 - j)) / 8) with (Z.of_nat k) in Hbits by (Z.to_euclidean_division_equations; lia).
      replace (7 - (8 * Z.of_nat k + (7 - j)) mod 8) with j in Hbits by (Z.to_euclidean_division_equations; lia).
      rewrite Nat2Z.id in Hbits. symmetry. apply Hbits. lia. }
  destruct (bool_decide (take (Z.to_nat (p / 8)) x = take (Z.to_nat (p / 8)) y)) eqn:Htake; cbn [negb].
  2:{ split; [done|]. intros Hbits. apply bool_decide_eq_false_1 in Htake. exfalso. apply Htake, Hwhole.
      intros i Hi. apply Hbits. Z.to_euclidean_division_equations; lia. }
  apply bool_decide_eq_true_1 in Htake. rewrite Hwhole in Htake.
  destruct (p mod 8 =? 0) eqn:Hmod; cbn [negb].
  { split; [|done]. intros _ i Hi. apply Htake. Z.to_euclidean_division_equations; lia. }
  rewrite Z.eqb_eq, (shiftr_lxor_zero _ _ 8); [|done..|Z.to_euclidean_division_equations; lia]. split.
  - intros Hbits i Hi. destruct (decide (i < 8 * (p / 8))); [apply Htake; lia|].
    replace (i / 8) with (p / 8) by (Z.to_euclidean_division_equations; lia).
    symmetry. apply Hbits. Z.to_euclidean_division_equations; lia.
  - intros Hbits j Hj. specialize (Hbits (8 * (p / 8) + (7 - j))).
    replace ((8 * (p / 8) + (7 - j)) / 8) with (p / 8) in Hbits by (Z.to_euclidean_division_equations; lia).
    replace (7 - (8 * (p / 8) + (7 - j)) mod 8) with j in Hbits by (Z.to_euclidean_division_equations; lia).
    symmetry. apply Hbits. Z.to_euclidean_division_equations; lia.
Qed.

Lemma containsHost_within r a :
  validRange r → validHost a → containsHost r a = true ↔ within r a.
Proof.
  intros [Hr Hp] Ha. unfold within. destruct r as [[|x|x] p], a as [|y|y]; try done; cbn [address prefixLength] in *.
  - rewrite containsHost_v4; [|done..]. naive_solver.
  - split; [done|by intros [? _]].
  - split; [done|by intros [? _]].
  - rewrite containsHost_v6; [|done..]. naive_solver.
Qed.

(** *** Halving *)

Lemma testbit_power k j : 0 ≤ k → Z.testbit (2 ^ k) j = bool_decide (j = k).
Proof.
  intros Hk. case_bool_decide; subst; [by apply Z.pow2_bits_true|].
  destruct (decide (0 ≤ j)); [by apply Z.pow2_bits_false|]. apply Z.testbit_neg_r. lia.
Qed.

Lemma shiftr_top n p : 0 ≤ p < n → Z.shiftr (2 ^ (n - 1)) p = 2 ^ (n - 1 - p).
Proof.
  intros Hp. rewrite Z.shiftr_div_pow2 by lia. replace (n - 1) with ((n - 1 - p) + p) at 1 by lia.
  rewrite Z.pow_add_r by lia. apply Z.div_mul. lia.
Qed.

Lemma lor_power_bound n x k : 0 ≤ x < 2 ^ n → 0 ≤ k < n → 0 ≤ Z.lor x (2 ^ k) < 2 ^ n.
Proof.
  intros Hx Hk. assert (0 < 2 ^ k) by lia.
  assert (0 ≤ Z.lor x (2 ^ k)) by (apply Z.lor_nonneg; lia). split; [done|].
  destruct (decide (Z.lor x (2 ^ k) = 0)) as [->|]; [lia|]. apply Z.log2_lt_pow2; [lia|].
  rewrite Z.log2_lor by lia. apply Z.max_lub_lt; [|rewrite Z.log2_pow2; lia].
  destruct (decide (x = 0)) as [->|]; [cbn; lia|]. apply Z.log2_lt_pow2; lia.
Qed.

(** The two halves of a range: the address with the next bit as it is, and with the
    bit set. *)
Lemma subnets_spec r :
  validRange r → prefixLength r < width (address r) →
  ∃ a, subnets r = [IPRange (address r) (prefixLength r + 1); IPRange a (prefixLength r + 1)] ∧
    validHost a ∧ protocol a = protocol (address r) ∧ width a = width (address r) ∧
    ∀ i, 0 ≤ i < width a → bitAt a i = bool_decide (i = prefixLength r) || bitAt (address r) i.
Proof.
  intros [Hr Hp] Hlt. unfold subnets.
  destruct r as [[|x|x] p]; [done|..]; cbn [address prefixLength width validHost bitAt protocol] in *.
  - replace (32 <=? p) with false by lia. change 2147483648 with (2 ^ (32 - 1)). rewrite shiftr_top by lia.
    eexists. split_and!; [done|apply lor_power_bound; lia..|done|done|]. cbn [width bitAt].
    intros i Hi. rewrite Z.lor_spec, testbit_power, orb_comm by lia. f_equal. apply bool_decide_ext. lia.
  - replace (128 <=? p) with false by lia. destruct Hr as [Hlen Hx].
    set (q := Z.to_nat (p / 8)). assert (q < length x)%nat by (subst q; Z.to_euclidean_division_equations; lia).
    assert (0 ≤ p mod 8 < 8) by (apply Z.mod_pos_bound; lia).
    assert (Z.shiftr 128 (p mod 8) = 2 ^ (8 - 1 - p mod 8)) as -> by (by apply (shiftr_top 8)).
    eexists. split_and!; [done| |done|done|].
    + split; [by rewrite length_insert|]. apply Forall_insert; [done|]. apply lor_power_bound; [by apply byte_bounds|lia].
    + cbn [width bitAt]. intros i Hi. destruct (decide (i / 8 = p / 8)) as [Hq|Hq].
      * rewrite Hq, list_lookup_total_insert_eq, Z.lor_spec, testbit_power, orb_comm by (done || lia).
        f_equal. apply bool_decide_ext. Z.to_euclidean_division_equations; lia.
      * rewrite list_lookup_total_insert_ne by (subst q; Z.to_euclidean_division_equations; lia).
        rewrite bool_decide_eq_false_2; [done|]. by intros ->.
Qed.

Lemma width_protocol a b : protocol a = protocol b → width a = width b.
Proof. by destruct a, b. Qed.

(** Addresses of one family with the same bits are equal. *)
Lemma host_equal a b :
  validHost a → validHost b → protocol a = protocol b →
  (∀ i, 0 ≤ i < width a → bitAt a i = bitAt b i) → a = b.
Proof.
  destruct a as [|x|x], b as [|y|y]; try done; cbn [validHost protocol width bitAt].
  - intros Hx Hy _ Hbits. f_equal. apply (bits_equal _ _ 32); [done..|]. intros j Hj.
    specialize (Hbits (31 - j)). replace (31 - (31 - j)) with j in Hbits by lia. apply Hbits. lia.
  - intros [Hlx Hx] [Hly Hy] _ Hbits. f_equal.
    rewrite <-(take_ge x 16), <-(take_ge y 16) by lia. apply take_equal; [lia|]. intros k Hk.
    apply (bits_equal _ _ 8); [by apply byte_bounds..|]. intros j Hj. specialize (Hbits (8 * Z.of_nat k + (7 - j))).
    replace ((8 * Z.of_nat k + (7 - j)) / 8) with (Z.of_nat k) in Hbits by (Z.to_euclidean_division_equations; lia).
    replace (7 - (8 * Z.of_nat k + (7 - j)) mod 8) with j in Hbits by (Z.to_euclidean_division_equations; lia).
    rewrite Nat2Z.id in Hbits. apply Hbits. lia.
Qed.

Lemma range_equal r s :
  validRange r → validRange s → aligned r → aligned s →
  prefixLength r = prefixLength s → within r (address s) → r = s.
Proof.
  intros [Hr Hpr] [Hs Hps] Ar As Hp [Hproto Hbits]. destruct r as [a p], s as [b p']. cbn [address prefixLength] in *.
  subst p'. f_equal. apply host_equal; [done..|]. intros i Hi.
  assert (width a = width b) as Hw by by apply width_protocol.
  destruct (decide (i < p)); [symmetry; apply Hbits; cbn; lia|].
  unfold aligned in Ar, As. cbn [address prefixLength] in *. rewrite Ar, As by lia. done.
Qed.

Lemma subnetOf_spec r other :
  validRange r → validRange other →
  subnetOf r other = true ↔ prefixLength other ≤ prefixLength r ∧ within other (address r).
Proof.
  intros Hr Ho. unfold subnetOf. case_bool_decide as Hproto; cbn [negb].
  - destruct (prefixLength r <? prefixLength other) eqn:Hp; [naive_solver lia|].
    rewrite containsHost_within by (done || apply Hr). naive_solver lia.
  - split; [done|]. intros [_ [Heq _]]. congruence.
Qed.

Definition covered (l : list IPAddress) (a : hostAddress) : Prop := ∃ r, r ∈ l ∧ within r a.

Definition wellFormed (r : IPAddress) : Prop := validRange r ∧ aligned r.

(** The halves of an aligned range split it on the next bit. *)
Lemma halves r :
  wellFormed r → prefixLength r < width (address r) →
  ∃ lo hi, subnets r = [lo; hi] ∧ wellFormed lo ∧ wellFormed hi ∧
    prefixLength lo = prefixLength r + 1 ∧ prefixLength hi = prefixLength r + 1 ∧
    width (address lo) = width (address r) ∧ width (address hi) = width (address r) ∧
    (∀ a, within lo a ↔ within r a ∧ bitAt a (prefixLength r) = false) ∧
    (∀ a, within hi a ↔ within r a ∧ bitAt a (prefixLength r) = true).
Proof.
  intros [[Hr Hp] Ar] Hlt. destruct (subnets_spec r ltac:(done) Hlt) as (b & Hsub & Hb & Hproto & Hw & Hbits).
  eexists _, _. split; [done|]. unfold wellFormed, validRange, aligned, within. cbn [address prefixLength].
  unfold aligned in Ar. split_and!; try done; try lia.
  - intros i Hi. apply Ar. lia.
  - intros i Hi. rewrite Hbits by lia. rewrite Ar, bool_decide_eq_false_2 by lia. done.
  - intros a. split.
    + intros [Ha Hi]. split; [split; [done|]|].
      * intros i ?. apply Hi. lia.
      * rewrite Hi by lia. apply Ar. lia.
    + intros [[Ha Hi] Hbit]. split; [done|]. intros i ?. destruct (decide (i = prefixLength r)) as [->|]; [|apply Hi; lia].
      rewrite Hbit. symmetry. apply Ar. lia.
  - intros a. rewrite Hproto. split.
    + intros [Ha Hi]. split; [split; [done|]|].
      * intros i ?. rewrite Hi, Hbits, bool_decide_eq_false_2 by lia. done.
      * rewrite Hi, Hbits, bool_decide_eq_true_2 by lia. done.
    + intros [[Ha Hi] Hbit]. split; [done|]. intros i ?. rewrite Hbits by lia.
      destruct (decide (i = prefixLength r)) as [->|].
      * by rewrite Hbit, bool_decide_eq_true_2.
      * rewrite bool_decide_eq_false_2 by done. apply Hi. lia.
Qed.

Lemma within_longer r x a : prefixLength r ≤ prefixLength x → within r (address x) → within x a → within r a.
Proof.
  intros Hp [Hproto Hbits] [Ha Hi]. split; [congruence|]. intros i Hr. rewrite Hi by lia. apply Hbits. lia.
Qed.

Lemma covered_cons r l a : covered (r :: l) a ↔ within r a ∨ covered l a.
Proof. unfold covered. setoid_rewrite elem_of_cons. naive_solver. Qed.

Lemma covered_app l1 l2 a : covered (l1 ++ l2) a ↔ covered l1 a ∨ covered l2 a.
Proof. unfold covered. setoid_rewrite elem_of_app. naive_solver. Qed.

Lemma covered_nil a : covered [] a ↔ False.
Proof. unfold covered. set_solver. Qed.

Lemma within_self r : within r (address r).
Proof. done. Qed.

(** A range inside another one of the same prefix length is that one. *)
Lemma inside_cases r x :
  wellFormed r → wellFormed x → within r (address x) → prefixLength r ≤ prefixLength x →
  r = x ∨ r ≠ x ∧ prefixLength r < prefixLength x.
Proof.
  intros [Vr Ar] [Vx Ax] Hin Hle. destruct (decide (prefixLength r = prefixLength x)); [left; by apply range_equal|].
  right. split; [by intros ->|lia].
Qed.

(** The loop removes a part from a range that holds it. *)
Lemma excludeLoop_spec fuel r x result :
  wellFormed r → wellFormed x → within r (address x) → prefixLength r < prefixLength x →
  prefixLength x - prefixLength r < Z.of_nat fuel →
  ∃ parts, excludeLoop fuel (subnets r) x result = Some (result ++ parts) ∧ Forall wellFormed parts ∧
    ∀ a, covered parts a ↔ within r a ∧ ¬ within x a.
Proof.
  revert r result. induction fuel as [|fuel IH]; intros r result Hr Hx Hin Hlt Hfuel; [lia|].
  assert (width (address r) = width (address x)) as Hw by (symmetry; apply width_protocol, Hin).
  destruct (halves r Hr) as (lo & hi & -> & Hlo & Hhi & Plo & Phi & Wlo & Whi & Ilo & Ihi).
  { destruct Hx as [[_ ?] _]. lia. }
  cbn [excludeLoop]. destruct (bitAt (address x) (prefixLength r)) eqn:Hbit.
  - assert (within hi (address x)) as Hxhi by by apply Ihi.
    assert (¬ within lo (address x)) as Hxlo by (rewrite Ilo, Hbit; by intros [_ ?]).
    assert (lo ≠ x) as Hne by (intros ->; apply Hxlo, within_self).
    rewrite (bool_decide_eq_true_2 _ Hne), (bool_decide_eq_false_2 _ Hne). cbn [andb].
    destruct (inside_cases hi x) as [->|[Hne' Hp]]; [done..|lia| |].
    + rewrite bool_decide_eq_false_2 by auto. exists [lo]. split_and!; [done|by apply Forall_singleton|].
      intros a. rewrite covered_cons, covered_nil. specialize (Ilo a). specialize (Ihi a). clear - Ilo Ihi.
      destruct (bitAt a (prefixLength r)); intuition congruence.
    + rewrite (bool_decide_eq_true_2 _ Hne').
      assert (subnetOf x lo = false) as ->.
      { apply not_true_iff_false. rewrite subnetOf_spec by (apply Hx || apply Hlo). by intros [_ ?]. }
      rewrite (proj2 (subnetOf_spec x hi (proj1 Hx) (proj1 Hhi))) by (split; [lia|done]).
      destruct (IH hi (result ++ [lo])) as (parts & -> & Hparts & Hcov); [done..|lia|].
      exists (lo :: parts). rewrite <-app_assoc. split_and!; [done|by constructor|]. intros a.
      rewrite covered_cons, Hcov. pose proof (within_longer hi x a ltac:(lia) Hxhi) as Hback.
      specialize (Ilo a). specialize (Ihi a). clear - Ilo Ihi Hback.
      destruct (bitAt a (prefixLength r)); intuition congruence.
  - assert (within lo (address x)) as Hxlo by by apply Ilo.
    assert (¬ within hi (address x)) as Hxhi by (rewrite Ihi, Hbit; by intros [_ ?]).
    assert (hi ≠ x) as Hne by (intros ->; apply Hxhi, within_self).
    rewrite (bool_decide_eq_true_2 _ Hne), andb_true_r.
    destruct (inside_cases lo x) as [->|[Hne' Hp]]; [done..|lia| |].
    + rewrite bool_decide_eq_false_2, bool_decide_eq_true_2 by auto. exists [hi].
      split_and!; [done|by apply Forall_singleton|].
      intros a. rewrite covered_cons, covered_nil. specialize (Ilo a). specialize (Ihi a). clear - Ilo Ihi.
      destruct (bitAt a (prefixLength r)); intuition congruence.
    + rewrite (bool_decide_eq_true_2 _ Hne').
      rewrite (proj2 (subnetOf_spec x lo (proj1 Hx) (proj1 Hlo))) by (split; [lia|done]).
      destruct (IH lo (result ++ [hi])) as (parts & -> & Hparts & Hcov); [done..|lia|].
      exists (hi :: parts). rewrite <-app_assoc. split_and!; [done|by constructor|]. intros a.
      rewrite covered_cons, Hcov. pose proof (within_longer lo x a ltac:(lia) Hxlo) as Hback.
      specialize (Ilo a). specialize (Ihi a). clear - Ilo Ihi Hback.
      destruct (bitAt a (prefixLength r)); intuition congruence.
Qed.

(** Two ranges share an address only when the one with the shorter prefix holds the other. *)
Lemma within_both r s a :
  prefixLength r ≤ prefixLength s → within r a → within s a → within r (address s).
Proof.
  intros Hp [Hr Hbr] [Hs Hbs]. split; [congruence|]. intros i Hi. rewrite <-Hbr, Hbs by lia. done.
Qed.

Lemma overlaps_spec r s :
  validRange r → validRange s →
  overlaps r s = true ↔ ∃ a, within r a ∧ within s a.
Proof.
  intros Hr Hs. unfold overlaps. destruct (Z.ltb_spec (prefixLength r) (prefixLength s)).
  - rewrite containsHost_within by (done || apply Hs). split.
    + intros Hin. exists (address s). by split.
    + intros (a & ? & ?). apply (within_both _ _ a); [lia|done..].
  - rewrite containsHost_within by (done || apply Hr). split.
    + intros Hin. exists (address r). by split.
    + intros (a & ? & ?). apply (within_both _ _ a); [lia|done..].
Qed.

Lemma excludeStep_spec exclude r :
  wellFormed exclude → wellFormed r →
  ∃ parts, excludeStep exclude r = Some parts ∧ Forall wellFormed parts ∧
    ∀ a, covered parts a ↔ within r a ∧ ¬ within exclude a.
Proof.
  intros He Hr. unfold excludeStep. destruct (overlaps r exclude) eqn:Hover; cbn [negb].
  - apply overlaps_spec in Hover as (b & Hbr & Hbe); [|apply Hr|apply He].
    destruct (subnetOf exclude r) eqn:Hsub; cbn [andb].
    + apply subnetOf_spec in Hsub as [Hle Hin]; [|apply He|apply Hr].
      destruct (inside_cases r exclude) as [->|[Hne Hlt]]; [done..| |].
      * rewrite bool_decide_eq_false_2 by auto. exists []. split_and!; [done|constructor|].
        intros a. rewrite covered_nil. tauto.
      * rewrite bool_decide_eq_true_2 by congruence. unfold excludeAddress.
        destruct (excludeLoop_spec excludeFuel r exclude []) as (parts & -> & ? & ?); [done..| |by exists parts].
        destruct He as [[_ ?] _], Hr as [[_ ?] _]. assert (width (address exclude) ≤ 128) by by destruct (address exclude).
        unfold excludeFuel. lia.
    + exists []. split_and!; [done|constructor|]. intros a. rewrite covered_nil. split; [done|]. intros [Ha []].
      destruct (decide (prefixLength r ≤ prefixLength exclude)) as [Hle|].
      * rewrite (proj2 (subnetOf_spec _ _ (proj1 He) (proj1 Hr))) in Hsub; [done|].
        split; [done|by apply (within_both _ _ b)].
      * apply (within_longer exclude r); [lia|apply (within_both _ _ b); [lia|done..]|done].
  - exists [r]. split_and!; [done|by apply Forall_singleton|]. intros a. rewrite covered_cons, covered_nil.
    assert (¬ (within r a ∧ within exclude a)); [|tauto].
    intros Hboth. assert (overlaps r exclude = true); [|congruence]. apply overlaps_spec; [apply Hr|apply He|by exists a].
Qed.

Lemma excludeSteps_spec exclude sources :
  wellFormed exclude → Forall wellFormed sources →
  ∃ parts, mapM (excludeStep exclude) sources = Some parts ∧ Forall wellFormed (concat parts) ∧
    ∀ a, covered (concat parts) a ↔ covered sources a ∧ ¬ within exclude a.
Proof.
  intros He. induction 1 as [|r sources Hr _ (parts & Hmap & Hwf & Hcov)].
  { exists []. split_and!; [done|constructor|]. intros a. cbn. rewrite covered_nil. tauto. }
  destruct (excludeStep_spec exclude r He Hr) as (new & Hstep & Hnew & Hcovn).
  exists (new :: parts). cbn. rewrite Hstep. cbn. rewrite Hmap. split_and!; [done|by apply Forall_app|].
  intros a. rewrite covered_app, covered_cons, Hcov, Hcovn. tauto.
Qed.

(** C33: taking a list of ranges out of another list always ends, and the
    ranges it returns hold exactly the addresses that are in a range of the
    first list and in no range of the second one, provided that the ranges are
    written without host bits, which the split into halves relies on. The
    result has that form too, so it can be cut again. *)
Theorem excludeAddresses_exact sources excludes :
  Forall wellFormed sources → Forall wellFormed excludes →
  ∃ result, excludeAddresses sources excludes = Some result ∧ Forall wellFormed result ∧
    ∀ a, covered result a ↔ covered sources a ∧ ¬ covered excludes a.
Proof.
  intros Hs He. revert sources Hs. unfold excludeAddresses.
  induction He as [|x excludes Hx _ IH]; intros sources Hs; cbn [foldl].
  { exists sources. split_and!; [done..|]. intros a. rewrite covered_nil. tauto. }
  destruct (excludeSteps_spec x sources Hx Hs) as (parts & Hmap & Hwf & Hcov).
  cbn [mbind option_bind]. rewrite Hmap. cbn [mbind option_bind].
  destruct (IH _ Hwf) as (result & -> & Hres & Hcovr). exists result. split_and!; [done..|].
  intros a. rewrite Hcovr, Hcov, covered_cons. tauto.
Qed.

Lemma aligned_v4 z p : 0 ≤ p ≤ 32 → aligned (IPRange (HIPv4 (z * 2 ^ (32 - p))) p).
Proof. intros Hp i Hi. cbn [address prefixLength width bitAt] in *. apply Z.mul_pow2_bits_low. lia. Qed.

Lemma wellFormed_v4 z p :
  0 ≤ p ≤ 32 → 0 ≤ z < 2 ^ p → wellFormed (IPRange (HIPv4 (z * 2 ^ (32 - p))) p).
Proof.
  intros Hp Hz. split; [|by apply aligned_v4]. split; [|done]. cbn [validHost address].
  assert (2 ^ 32 = 2 ^ p * 2 ^ (32 - p)) as -> by (rewrite <-Z.pow_add_r by lia; f_equal; lia).
  assert (0 < 2 ^ (32 - p)) by (apply Z.pow_pos_nonneg; lia). nia.
Qed.

(** All of IPv4 but 10.0.0.0/8 and 192.168.0.0/16. *)
Lemma excludeAddresses_exact_witness :
  let sources := [IPRange (HIPv4 0) 0] in
  let excludes := [IPRange (HIPv4 (10 * 2 ^ 24)) 8; IPRange (HIPv4 (192 * 2 ^ 24 + 168 * 2 ^ 16)) 16] in
  ∃ result, excludeAddresses sources excludes = Some result ∧ Forall wellFormed result ∧
    ∀ a, covered result a ↔ covered sources a ∧ ¬ covered excludes a.
Proof.
  intros sources excludes. apply (excludeAddresses_exact sources excludes).
  - apply Forall_singleton. exact (wellFormed_v4 0 0 ltac:(lia) ltac:(lia)).
  - apply Forall_cons; split; [exact (wellFormed_v4 10 8 ltac:(lia) ltac:(lia))|].
    apply Forall_singleton. exact (wellFormed_v4 (192 * 256 + 168) 16 ltac:(lia) ltac:(lia)).
Defined.

(** Without the bits cleared, the loop goes past the range and never ends:
    10.0.0.1/24 out of 10.0.0.0/23. *)
Lemma excludeAddress_host_bits fuel :
  excludeLoop fuel (subnets (IPRange (HIPv4 (10 * 2 ^ 24)) 23)) (IPRange (HIPv4 (10 * 2 ^ 24 + 1)) 24) [] = None.
Proof.
  assert (∀ n result, excludeLoop n (subnets (IPRange (HIPv4 (10 * 2 ^ 24)) 24))
    (IPRange (HIPv4 (10 * 2 ^ 24 + 1)) 24) result = None) as Hloop.
  { induction n as [|n IH]; intros result; [done|]. apply IH. }
  destruct fuel as [|fuel]; [done|]. apply (Hloop fuel).
Qed.

(** ** Masks *)

Lemma lookup_memset value from count bytes k :
  (from + count ≤ length bytes)%nat →
  memset value from count bytes !!! k =
    if decide (from ≤ k < from + count)%nat then value else bytes !!! k.
Proof.
  intros Hlen. unfold memset. rewrite !list_lookup_total_alt.
  destruct (decide (k < from)%nat).
  { rewrite decide_False by lia. rewrite lookup_app_l by (rewrite length_take; lia). by rewrite lookup_take_lt by lia. }
  rewrite lookup_app_r by (rewrite length_take; lia). rewrite length_take, Nat.min_l by lia.
  case_decide.
  - rewrite lookup_app_l by (rewrite length_replicate; lia). by rewrite lookup_replicate_2 by lia.
  - rewrite lookup_app_r by (rewrite length_replicate; lia).
    rewrite length_replicate, lookup_drop. do 2 f_equal. lia.
Qed.

Lemma length_memset value from count bytes :
  (from + count ≤ length bytes)%nat → length (memset value from count bytes) = length bytes.
Proof. intros. unfold memset. rewrite !length_app, length_take, length_replicate, length_drop. lia. Qed.

Lemma testbit_ones n j : 0 ≤ n → 0 ≤ j → Z.testbit (2 ^ n - 1) j = bool_decide (j < n).
Proof.
  intros Hn Hj. replace (2 ^ n - 1) with (Z.ones n) by (rewrite Z.ones_equiv; lia).
  case_bool_decide; [by apply Z.ones_spec_low|apply Z.ones_spec_high; lia].
Qed.

(** The bits of a byte that is cut at [m]. *)
Lemma testbit_shifted n m j :
  0 ≤ n → 0 ≤ m → 0 ≤ j → Z.testbit (Z.shiftr (2 ^ n - 1) m) j = bool_decide (j + m < n).
Proof. intros. rewrite Z.shiftr_spec, testbit_ones by lia. done. Qed.

(** The byte of a mask: all bits after the prefix in the byte where the
    prefix ends, every bit in the bytes after it. *)
Lemma lookup_mask p bytes i :
  0 ≤ p ≤ 128 → length bytes = 16%nat → 0 ≤ i < 128 →
  let offset := Z.to_nat ((p + 7) / 8) in
  let raw := memset 255 offset (16 - offset) bytes in
  ∀ last, let mask := if p mod 8 =? 0 then raw else <[Z.to_nat (p / 8) := last]> raw in
  mask !!! Z.to_nat (i / 8) =
    if decide (i / 8 < p / 8) then bytes !!! Z.to_nat (i / 8)
    else if decide (i / 8 = p / 8 ∧ p mod 8 ≠ 0) then last else 255.
Proof.
  intros Hp Hlen Hi offset raw last mask.
  assert (offset ≤ 16)%nat by (subst offset; Z.to_euclidean_division_equations; lia).
  assert (length raw = 16%nat) by (subst raw; rewrite length_memset; lia).
  subst mask. destruct (Z.eqb_spec (p mod 8) 0) as [Hm|Hm].
  - subst raw. rewrite lookup_memset by lia. subst offset.
    repeat case_decide; try done; exfalso; Z.to_euclidean_division_equations; lia.
  - destruct (decide (i / 8 = p / 8)) as [He|].
    + rewrite He, list_lookup_total_insert_eq by (Z.to_euclidean_division_equations; lia).
      rewrite decide_False, decide_True by lia. done.
    + rewrite list_lookup_total_insert_ne by (Z.to_euclidean_division_equations; lia).
      subst raw. rewrite lookup_memset by lia. subst offset.
      repeat case_decide; try done; exfalso; Z.to_euclidean_division_equations; lia.
Qed.

Lemma zeroBytes_lookup i : 0 ≤ i < 128 → zeroBytes !!! Z.to_nat (i / 8) = 0.
Proof. intros Hi. apply lookup_total_replicate_2. Z.to_euclidean_division_equations; lia. Qed.

Lemma lookup_netmask p i :
  0 ≤ p ≤ 128 → 0 ≤ i < 128 →
  let raw := memset 255 0 (Z.to_nat (p / 8)) zeroBytes in
  ∀ last, let mask := if p mod 8 =? 0 then raw else <[Z.to_nat (p / 8) := last]> raw in
  mask !!! Z.to_nat (i / 8) =
    if decide (i / 8 < p / 8) then 255 else if decide (i / 8 = p / 8 ∧ p mod 8 ≠ 0) then last else 0.
Proof.
  intros Hp Hi raw last mask.
  assert (0 + Z.to_nat (p / 8) ≤ length zeroBytes)%nat by (cbn [zeroBytes length replicate]; Z.to_euclidean_division_equations; lia).
  assert (length raw = 16%nat) by (subst raw; by rewrite length_memset).
  subst mask. destruct (Z.eqb_spec (p mod 8) 0) as [Hm|Hm].
  - subst raw. rewrite lookup_memset by lia. rewrite zeroBytes_lookup by lia.
    repeat case_decide; try done; exfalso; Z.to_euclidean_division_equations; lia.
  - destruct (decide (i / 8 = p / 8)) as [He|].
    + rewrite He, list_lookup_total_insert_eq by (Z.to_euclidean_division_equations; lia).
      rewrite decide_False, decide_True by lia. done.
    + rewrite list_lookup_total_insert_ne by (Z.to_euclidean_division_equations; lia).
      subst raw. rewrite lookup_memset by lia. rewrite zeroBytes_lookup by lia.
      repeat case_decide; try done; exfalso; Z.to_euclidean_division_equations; lia.
Qed.

(** The three masks of a range agree with its prefix bit by bit, for both
    families and every prefix length: the netmask has exactly the bits of the
    prefix, the hostmask exactly the others, and the broadcast address is the
    address with every bit after the prefix set. *)
Lemma masks_exact r i :
  validRange r → 0 ≤ i < width (address r) →
  bitAt (netmask r) i = bool_decide (i < prefixLength r) ∧
  bitAt (hostmask r) i = bool_decide (prefixLength r ≤ i) ∧
  bitAt (broadcastAddress r) i = bitAt (address r) i || bool_decide (prefixLength r ≤ i).
Proof.
  destruct r as [[|z|bytes] p]; intros [Hv Hp] Hi; cbn [address prefixLength validHost width] in *; [done| |].
  - unfold netmask, hostmask, broadcastAddress. cbn [address prefixLength bitAt].
    change 4294967295 with (2 ^ 32 - 1). destruct (Z.ltb_spec p 32).
    + rewrite Z.lxor_spec, Z.lor_spec, testbit_ones, testbit_shifted by lia.
      repeat case_bool_decide; try lia; by rewrite ?orb_true_r, ?orb_false_r.
    + rewrite testbit_ones, Z.bits_0 by lia. repeat case_bool_decide; try lia; by rewrite orb_false_r.
  - unfold netmask, hostmask, broadcastAddress. cbn [address prefixLength bitAt].
    rewrite lookup_netmask, !lookup_mask by (done || lia || apply Hv). rewrite zeroBytes_lookup by lia.
    change 255 with (2 ^ 8 - 1). assert (0 ≤ 7 - i mod 8) by (Z.to_euclidean_division_equations; lia).
    assert (i = 8 * (i / 8) + i mod 8) as Hdi by (apply Z.div_mod; lia).
    assert (p = 8 * (p / 8) + p mod 8) as Hdp by (apply Z.div_mod; lia).
    assert (0 ≤ i mod 8 < 8) by (apply Z.mod_pos_bound; lia). assert (0 ≤ p mod 8 < 8) by (apply Z.mod_pos_bound; lia).
    destruct (decide (i / 8 < p / 8)).
    { rewrite Z.bits_0, testbit_ones by lia. repeat case_bool_decide; try lia. by rewrite orb_false_r. }
    destruct (decide (i / 8 = p / 8 ∧ p mod 8 ≠ 0)) as [[Hsame Hm]|].
    + rewrite lookup_memset by (destruct Hv as [-> _]; Z.to_euclidean_division_equations; lia).
      rewrite decide_False by (Z.to_euclidean_division_equations; lia). rewrite <-Hsame.
      rewrite Z.lxor_spec, Z.lor_spec, testbit_ones, testbit_shifted by lia.
      repeat case_bool_decide; try lia; by rewrite ?orb_true_r, ?orb_false_r.
    + rewrite Z.bits_0, testbit_ones by lia. repeat case_bool_decide; try lia; by rewrite orb_true_r.
Qed.

(** The masks of fd00:1::/28, at the last bit of the prefix. *)
Lemma masks_exact_example :
  let r := IPRange (HIPv6 [253; 0; 0; 1; 0; 0; 0; 0; 0; 0; 0; 0; 0; 0; 0; 0]) 28 in
  bitAt (netmask r) 27 = bool_decide (27 < prefixLength r) ∧
  bitAt (hostmask r) 27 = bool_decide (prefixLength r ≤ 27) ∧
  bitAt (broadcastAddress r) 27 = bitAt (address r) 27 || bool_decide (prefixLength r ≤ 27).
Proof.
  intros r. apply (masks_exact r 27); [|by split].
  split; [split; [done|]|by split].
  repeat (apply Forall_cons_2; [lia|]). apply Forall_nil_2.
Defined.
