(* ===== verification/SecureSettings.v ===== *)
(** * The settings store ([secureQSettings.cpp])

    [SecureQSettings] keeps settings in a [QSettings] file, caches what it has read
    or written, and encrypts the keys that hold secrets with a key and an
    initialisation vector from the system's keychain.

    The file is a map from keys to values ([disk]).  The keychain and the random
    generator are the class [Keychain]; AES and the [QDataStream] format are the
    class [SettingsCodec], of which the code relies on decryption undoing encryption
    and, for the values of types that have a stream format, reading undoing writing.  [platformEncrypts] is false in the Linux build. *)

From Stdlib Require Import Ascii.
From S2P Require Import Prelude QtCore Variant.
From stdpp Require Import options.

Inductive kcError := NoError | EntryNotFound | OtherError.

(** The keychain of the system: reading and writing a tag, and random bytes. *)
Class Keychain (KC : Type) := {
  kcRead : KC → string → kcError * string;
  kcWrite : KC → string → string → KC;
  kcRandom : KC → string * KC;
}.

Class SettingsCodec := {
  serialize : variant → string;
  deserialize : string → variant;
  encryptAes256Cbc : string → string → string → string;
  decryptAes256Cbc : string → string → string → string;
  serializable : variant → Prop;
  deserialize_serialize v : serializable v → deserialize (serialize v) = v;
  decrypt_encrypt t key iv :
    key ≠ "" → iv ≠ "" → decryptAes256Cbc (encryptAes256Cbc t key iv) key iv = t;
}.

Definition settingsKeyTag : string := "settingsKeyTag".
Definition settingsIvTag : string := "settingsIvTag".
Definition magicString : string := "EncData".
Definition encryptedKeys : list string := ["Servers/serversList"].
Definition fieldsToBackup : list string := ["Conf/"; "Servers/"].

Record secureQSettings (KC : Type) := Settings {
  disk : QVariantMap;          (* [m_settings] *)
  cache : QVariantMap;         (* [m_cache] *)
  encKey : string;             (* [m_key] *)
  encIv : string;              (* [m_iv] *)
  encryptionEnabled : bool;    (* [m_encryptionEnabled] *)
  keychain : KC;
}.

#[global] Arguments Settings {KC} _ _ _ _ _ _.
#[global] Arguments disk {KC} _.
#[global] Arguments cache {KC} _.
#[global] Arguments encKey {KC} _.
#[global] Arguments encIv {KC} _.
#[global] Arguments encryptionEnabled {KC} _.
#[global] Arguments keychain {KC} _.

Section settings.
Context {KC : Type} `{Keychain KC} `{SettingsCodec} (platformEncrypts : bool).

Notation settings := (secureQSettings KC).

Definition setDisk (s : settings) (d : QVariantMap) : settings :=
  Settings d (cache s) (encKey s) (encIv s) (encryptionEnabled s) (keychain s).
Definition setCache (s : settings) (c : QVariantMap) : settings :=
  Settings (disk s) c (encKey s) (encIv s) (encryptionEnabled s) (keychain s).
Definition setEncKey (s : settings) (k : string) (kc : KC) : settings :=
  Settings (disk s) (cache s) k (encIv s) (encryptionEnabled s) kc.
Definition setEncIv (s : settings) (iv : string) (kc : KC) : settings :=
  Settings (disk s) (cache s) (encKey s) iv (encryptionEnabled s) kc.

(** ** Keys *)

(** The common body of [getEncKey] and [getEncIv]: the returned bytes, the new
    value of the member and the keychain afterwards. *)
Definition loadTag (tag member : string) (kc : KC) : string * string * KC :=
  if negb (isEmpty member) then (member, member, kc)
  else
    let '(error, data) := kcRead kc tag in
    match error with
    | OtherError => ("", data, kc)
    | EntryNotFound =>
        let '(fresh, kc) := kcRandom kc in
        let kc := kcWrite kc tag fresh in
        let '(_, stored) := kcRead kc tag in
        if bool_decide (fresh = stored) then (stored, stored, kc) else ("", stored, kc)
    | NoError => (data, data, kc)
    end.

Definition getEncKey (s : settings) : string * settings :=
  let '(key, member, kc) := loadTag settingsKeyTag (encKey s) (keychain s) in
  (key, setEncKey s member kc).

Definition getEncIv (s : settings) : string * settings :=
  let '(iv, member, kc) := loadTag settingsIvTag (encIv s) (keychain s) in
  (iv, setEncIv s member kc).

(** The guard [!getEncKey().isEmpty() && !getEncIv().isEmpty()], which evaluates
    the second call only after the first one gave a key. *)
Definition keysAvailable (s : settings) : bool * settings :=
  let '(key, s) := getEncKey s in
  if isEmpty key then (false, s)
  else let '(iv, s) := getEncIv s in (negb (isEmpty iv), s).

Definition encryptText (s : settings) (v : string) : string * settings :=
  let '(key, s) := getEncKey s in
  let '(iv, s) := getEncIv s in
  (encryptAes256Cbc v key iv, s).

Definition decryptText (s : settings) (v : string) : string * settings :=
  let '(key, s) := getEncKey s in
  let '(iv, s) := getEncIv s in
  (decryptAes256Cbc v key iv, s).

Definition encryptionRequired (s : settings) : bool := encryptionEnabled s && platformEncrypts.

(** ** Reading and writing *)

(** A stored value that is marked as encrypted. *)
Definition isMarked (v : variant) : bool :=
  match v with VByteArray b => startsWith b magicString | _ => false end.

Definition readValue (s : settings) (key : string) (defaultValue : variant) : variant * settings :=
  match cache s !! key with
  | Some v => (v, s)
  | None =>
      match disk s !! key with
      | None => (defaultValue, s)
      | Some raw =>
          if isMarked raw then
            let '(ok, s) := keysAvailable s in
            if negb ok then (VInvalid, s)
            else
              let '(plain, s) := decryptText s (midFrom (String.length magicString) (toByteArrayV raw)) in
              let v := deserialize plain in
              (v, setCache s (<[key := v]> (cache s)))
          else (raw, setCache s (<[key := raw]> (cache s)))
      end
  end.

Definition setValue (s : settings) (key : string) (v : variant) : settings :=
  if encryptionRequired s && listContains encryptedKeys key then
    let '(ok, s) := keysAvailable s in
    if ok then
      let '(encrypted, s) := encryptText s (serialize v) in
      let s := setDisk s (<[key := VByteArray (magicString +:+ encrypted)]> (disk s)) in
      setCache s (<[key := v]> (cache s))
    else s
  else
    let s := setDisk s (<[key := v]> (disk s)) in
    setCache s (<[key := v]> (cache s)).

(** [QSettings::remove] removes a key and the keys of the group of that name. *)
Definition underKey (key k : string) : bool :=
  bool_decide (k = key) || startsWith k (key +:+ "/").

Definition remove (s : settings) (key : string) : settings :=
  let s := setDisk s (filter (λ kv, underKey key kv.1 = false) (disk s)) in
  setCache s (delete key (cache s)).

Definition clearSettings (s : settings) : settings := setCache (setDisk s ∅) ∅.

(** The constructor: encrypt the secret keys of an older file once. *)
Definition encryptStored (s : settings) (key : string) : settings :=
  if listContains encryptedKeys key then
    let '(v, s) := readValue s key VInvalid in setValue s key v
  else s.

Definition construct (file : QVariantMap) (enableEncryption : bool) (kc : KC) : settings :=
  let s := Settings file ∅ "" "" enableEncryption kc in
  let encrypted := toBoolV (default VInvalid (file !! "Conf/encrypted")) in
  if encryptionRequired s && negb encrypted then
    let s := foldl encryptStored s (qkeys (disk s)) in
    setDisk s (<["Conf/encrypted" := VBool true]> (disk s))
  else s.

(** ** Backup and restore *)

Definition needToBackup (key : string) : bool :=
  negb (bool_decide (key = "Conf/installationUuid")) && existsb (startsWith key) fieldsToBackup.

Definition backupKey (acc : QJsonObject * settings) (key : string) : QJsonObject * settings :=
  let '(cfg, s) := acc in
  if needToBackup key then
    let '(v, s) := readValue s key VInvalid in (<[key := fromVariant v]> cfg, s)
  else (cfg, s).

(** The object that is written as a document. *)
Definition backupAppConfig (s : settings) : QJsonObject * settings :=
  foldl backupKey (∅, s) (qkeys (disk s)).

Definition restoreKey (s : settings) (kv : string * json) : settings :=
  if bool_decide (kv.1 = "Conf/installationUuid") then s else setValue s kv.1 (toVariant kv.2).

(** [cfg] is the object of the parsed document. *)
Definition restoreAppConfig (s : settings) (cfg : QJsonObject) : bool * settings :=
  if bool_decide (cfg = ∅) then (false, s)
  else (true, foldl restoreKey s (qitems cfg)).

(** ** Facts about keys *)

Lemma loadTag_member tag member kc r member' kc' :
  loadTag tag member kc = (r, member', kc') →
  (member ≠ "" → r = member ∧ member' = member ∧ kc' = kc) ∧ (r ≠ "" → member' = r).
Proof.
  unfold loadTag. destruct member as [|c member]; simpl; [|naive_solver].
  destruct (kcRead kc tag) as [[] data]; [naive_solver| |naive_solver].
  destruct (kcRandom kc) as [fresh kc1]. destruct (kcRead (kcWrite kc1 tag fresh) tag) as [e stored].
  case_bool_decide; naive_solver.
Qed.

Lemma getEncKey_cached s : encKey s ≠ "" → getEncKey s = (encKey s, s).
Proof. intros Hk. unfold getEncKey, loadTag. destruct s as [d c [|x k] iv e kc]; done. Qed.

Lemma getEncIv_cached s : encIv s ≠ "" → getEncIv s = (encIv s, s).
Proof. intros Hk. unfold getEncIv, loadTag. destruct s as [d c k [|x iv] e kc]; done. Qed.

(** Asking for the keys changes neither the file nor the cache, and never replaces
    a key. *)
Lemma keysAvailable_spec s ok s' :
  keysAvailable s = (ok, s') →
  disk s' = disk s ∧ cache s' = cache s ∧ encryptionEnabled s' = encryptionEnabled s ∧
  (encKey s ≠ "" → encKey s' = encKey s) ∧ (encIv s ≠ "" → encIv s' = encIv s) ∧
  (ok = true → encKey s' ≠ "" ∧ encIv s' ≠ "").
Proof.
  unfold keysAvailable, getEncKey, getEncIv.
  destruct (loadTag settingsKeyTag _ _) as [[key member] kc] eqn:Hkey.
  apply loadTag_member in Hkey as [Hk1 Hk2]. cbn [encKey encIv keychain setEncKey].
  destruct (isEmpty key) eqn:He; [naive_solver|].
  destruct (loadTag settingsIvTag _ _) as [[iv member'] kc'] eqn:Hiv.
  apply loadTag_member in Hiv as [Hi1 Hi2]. intros [= <- <-]. cbn.
  assert (key ≠ "") as Hkey by (intros ->; done).
  split_and!; [done..|naive_solver|naive_solver|]. intros Hok. rewrite Hk2 by done. split; [done|].
  assert (iv ≠ "") as Hivne by (intros ->; done). by rewrite Hi2.
Qed.

Lemma decryptText_ready s t :
  encKey s ≠ "" → encIv s ≠ "" → decryptText s t = (decryptAes256Cbc t (encKey s) (encIv s), s).
Proof. intros Hk Hi. unfold decryptText. by rewrite getEncKey_cached, getEncIv_cached. Qed.

Lemma encryptText_ready s t :
  encKey s ≠ "" → encIv s ≠ "" → encryptText s t = (encryptAes256Cbc t (encKey s) (encIv s), s).
Proof. intros Hk Hi. unfold encryptText. by rewrite getEncKey_cached, getEncIv_cached. Qed.

(** ** The cache agrees with the file *)

(** [v] is what the stored value [raw] stands for under the current keys. *)
Definition decoded (s : settings) (raw v : variant) : Prop :=
  if isMarked raw then
    encKey s ≠ "" ∧ encIv s ≠ "" ∧
    v = deserialize (decryptAes256Cbc (midFrom (String.length magicString) (toByteArrayV raw))
                       (encKey s) (encIv s))
  else v = raw.

Definition coherent (s : settings) : Prop :=
  ∀ k v, cache s !! k = Some v → ∃ raw, disk s !! k = Some raw ∧ decoded s raw v.

Lemma decoded_keys s s' raw v :
  (encKey s ≠ "" → encKey s' = encKey s) → (encIv s ≠ "" → encIv s' = encIv s) →
  decoded s raw v → decoded s' raw v.
Proof.
  intros Hk Hi. unfold decoded. destruct (isMarked raw); [|done].
  intros (Hk1 & Hi1 & ->). rewrite Hk, Hi by done. done.
Qed.

Lemma coherent_insert s s' k v raw :
  coherent s → disk s' = <[k := raw]> (disk s) ∨ disk s' = disk s ∧ disk s !! k = Some raw →
  cache s' = <[k := v]> (cache s) →
  (encKey s ≠ "" → encKey s' = encKey s) → (encIv s ≠ "" → encIv s' = encIv s) →
  decoded s' raw v → coherent s'.
Proof.
  intros Hs Hd Hc Hk Hi Hv k' v' Hk'. rewrite Hc in Hk'. destruct (decide (k' = k)) as [->|Hne].
  - rewrite lookup_insert_eq in Hk'. simplify_eq. exists raw. split; [|done].
    destruct Hd as [->|[-> Hraw]]; [by rewrite lookup_insert_eq|done].
  - rewrite lookup_insert_ne in Hk' by done. destruct (Hs _ _ Hk') as (raw' & Hraw' & Hdec).
    exists raw'. split; [|by eapply decoded_keys].
    destruct Hd as [->|[-> _]]; [by rewrite lookup_insert_ne|done].
Qed.

Lemma coherent_readValue s k d : coherent s → coherent (readValue s k d).2.
Proof.
  intros Hs. unfold readValue. destruct (cache s !! k); [done|].
  destruct (disk s !! k) as [raw|] eqn:Hraw; [|done]. destruct (isMarked raw) eqn:Hm.
  - destruct (keysAvailable s) as [ok s1] eqn:Hka.
    destruct (keysAvailable_spec _ _ _ Hka) as (Hd & Hc & _ & Hk & Hi & Hok).
    destruct ok; simpl.
    + destruct Hok as [Hk1 Hi1]; [done|]. rewrite decryptText_ready by done. simpl.
      eapply coherent_insert; [exact Hs|right; simpl; rewrite Hd; done|simpl; by rewrite Hc|done|done|].
      unfold decoded. rewrite Hm. done.
    + intros k' v' Hk'. rewrite Hc in Hk'. destruct (Hs _ _ Hk') as (raw' & Hraw' & Hdec).
      exists raw'. rewrite Hd. split; [done|]. by eapply decoded_keys.
  - simpl. eapply coherent_insert; [exact Hs|right; done|done|done|done|].
    unfold decoded. by rewrite Hm.
Qed.

Lemma coherent_setValue s k v :
  coherent s → isMarked v = false ∨ encryptionRequired s && listContains encryptedKeys k = true →
  (k ∈ encryptedKeys → serializable v) → coherent (setValue s k v).
Proof.
  intros Hs Hv Hser. unfold setValue. destruct (encryptionRequired s && _) eqn:He.
  - destruct (keysAvailable s) as [ok s1] eqn:Hka.
    destruct (keysAvailable_spec _ _ _ Hka) as (Hd & Hc & _ & Hk & Hi & Hok).
    destruct ok.
    + destruct Hok as [Hk1 Hi1]; [done|]. rewrite encryptText_ready by done.
      eapply coherent_insert; [exact Hs|left; simpl; by rewrite Hd|simpl; by rewrite Hc|done|done|].
      unfold decoded. cbn [isMarked]. unfold startsWith. rewrite prefix_app. cbn [toByteArrayV].
      split_and!; [done|done|]. cbn [encKey encIv setCache setDisk].
      apply andb_true_iff in He as [_ Hin%bool_decide_eq_true].
      rewrite midFrom_app, decrypt_encrypt, deserialize_serialize by auto. done.
    + intros k' v' Hk'. rewrite Hc in Hk'. destruct (Hs _ _ Hk') as (raw' & Hraw' & Hdec).
      exists raw'. rewrite Hd. split; [done|]. by eapply decoded_keys.
  - destruct Hv as [Hv|]; [|done].
    eapply coherent_insert; [exact Hs|left; done|done|done|done|]. unfold decoded. by rewrite Hv.
Qed.

Lemma coherent_clear s : coherent (clearSettings s).
Proof. intros k v Hk. simpl in Hk. by rewrite lookup_empty in Hk. Qed.

(** ** Runs and restarts *)

Inductive operation :=
  | Read (key : string) (defaultValue : variant)
  | Write (key : string) (v : variant)
  | Clear.

Definition perform (s : settings) (op : operation) : settings :=
  match op with
  | Read k d => (readValue s k d).2
  | Write k v => setValue s k v
  | Clear => clearSettings s
  end.

(** Byte arrays that carry the mark of an encrypted value are not written, and the
    secret keys hold values that have a stream format. *)
Definition unmarked (op : operation) : Prop :=
  match op with
  | Write k v => isMarked v = false ∧ (k ∈ encryptedKeys → serializable v)
  | _ => True
  end.

Lemma coherent_perform s ops :
  coherent s → Forall unmarked ops → coherent (foldl perform s ops).
Proof.
  intros Hs Hops. revert s Hs. induction Hops as [|op ops Hop _ IH]; intros s Hs; [done|].
  simpl. apply IH. destruct op; simpl in *;
    [by apply coherent_readValue | destruct Hop; by apply coherent_setValue; auto | apply coherent_clear].
Qed.

(** A new process: the file and the keychain are what they were. *)
Definition restart (s : settings) : settings :=
  Settings (disk s) ∅ "" "" (encryptionEnabled s) (keychain s).

(** The keychain returns the keys that are in use. *)
Definition keychainHolds (s : settings) : Prop :=
  (encKey s ≠ "" → kcRead (keychain s) settingsKeyTag = (NoError, encKey s)) ∧
  (encIv s ≠ "" → kcRead (keychain s) settingsIvTag = (NoError, encIv s)).

Lemma readValue_restart s k d raw v :
  keychainHolds s → disk s !! k = Some raw → decoded s raw v → (readValue (restart s) k d).1 = v.
Proof.
  intros [Hk Hi] Hraw. unfold decoded, readValue. cbn [cache restart disk].
  rewrite lookup_empty, Hraw. destruct (isMarked raw); [|by intros ->].
  intros (Hk1 & Hi1 & ->). unfold keysAvailable, getEncKey, getEncIv.
  cbn [encKey encIv keychain restart loadTag isEmpty negb]. unfold loadTag. cbn [isEmpty negb].
  rewrite Hk by done. cbn [setEncKey encIv keychain]. rewrite Hi by done.
  destruct (encKey s) as [|a key]; [done|]. destruct (encIv s) as [|b iv]; done.
Qed.

Lemma setValue_cache s k v :
  encryptionRequired s && listContains encryptedKeys k = false →
  cache (setValue s k v) = <[k := v]> (cache s) ∧ disk (setValue s k v) = <[k := v]> (disk s) ∧
  encryptionEnabled (setValue s k v) = encryptionEnabled s.
Proof. intros He. unfold setValue. by rewrite He. Qed.

Lemma setValue_other s k k' v :
  k' ≠ k →
  disk (setValue s k v) !! k' = disk s !! k' ∧ cache (setValue s k v) !! k' = cache s !! k' ∧
  encryptionEnabled (setValue s k v) = encryptionEnabled s.
Proof.
  intros Hne. unfold setValue. destruct (_ && _).
  - destruct (keysAvailable s) as [[] s1] eqn:Hka;
      destruct (keysAvailable_spec _ _ _ Hka) as (Hd & Hc & He & _ & _ & Hok).
    + destruct Hok as [Hk1 Hi1]; [done|]. rewrite encryptText_ready by done. simpl.
      rewrite !lookup_insert_ne, Hd, Hc, He by done. done.
    + rewrite Hd, Hc, He. done.
  - simpl. by rewrite !lookup_insert_ne.
Qed.

(** Restoring a list of keys without repetition. *)
Lemma foldl_restoreKey kvs s k j :
  NoDup kvs.*1 → (k, j) ∈ kvs → k ≠ "Conf/installationUuid" →
  encryptionRequired s && listContains encryptedKeys k = false →
  cache (foldl restoreKey s kvs) !! k = Some (toVariant j).
Proof.
  revert s. induction kvs as [|[k' j'] kvs IH]; intros s Hnd Hin Huuid He; [set_solver|].
  cbn [fmap list_fmap fst] in Hnd. apply NoDup_cons in Hnd as [Hfresh Hnd]. cbn [foldl].
  assert (Hkeep : ∀ s, k ∉ kvs.*1 → cache (foldl restoreKey s kvs) !! k = cache s !! k).
  { clear. induction kvs as [|[k2 j2] kvs IH]; intros s Hk; [done|]. cbn [foldl fmap list_fmap fst] in *.
    apply not_elem_of_cons in Hk as [Hne Hk]. rewrite IH by done.
    unfold restoreKey. cbn [fst snd]. case_bool_decide; [done|]. by apply setValue_other. }
  apply elem_of_cons in Hin as [[= <- <-]|Hin].
  - rewrite Hkeep by done. unfold restoreKey. cbn [fst snd]. rewrite bool_decide_false by done.
    destruct (setValue_cache s k (toVariant j) He) as (-> & _). by rewrite lookup_insert_eq.
  - apply IH; [done|done|done|]. unfold restoreKey. cbn [fst snd]. case_bool_decide; [done|].
    unfold encryptionRequired in *. destruct (decide (k = k')) as [->|Hne].
    + by destruct (setValue_cache s k' (toVariant j') He) as (_ & _ & ->).
    + by destruct (setValue_other s k' k (toVariant j') Hne) as (_ & _ & ->).
Qed.

Lemma foldl_restoreKey_uuid kvs s :
  disk (foldl restoreKey s kvs) !! "Conf/installationUuid" = disk s !! "Conf/installationUuid".
Proof.
  revert s. induction kvs as [|[k j] kvs IH]; intros s; [done|]. cbn [foldl]. rewrite IH.
  unfold restoreKey. cbn [fst snd]. case_bool_decide; [done|]. by apply setValue_other.
Qed.

(** ** A keychain that cannot be read *)

Definition keyless (file : QVariantMap) (kc : KC) (s : settings) : Prop :=
  disk s = file ∧ keychain s = kc ∧ encKey s = "".

Lemma keyless_keysAvailable file kc s :
  kcRead kc settingsKeyTag = (OtherError, "") → keyless file kc s →
  (keysAvailable s).1 = false ∧ keyless file kc (keysAvailable s).2.
Proof.
  intros Hkc (Hd & Hc & Hk). unfold keysAvailable, getEncKey, loadTag.
  rewrite Hk, Hc. cbn [isEmpty negb]. rewrite Hkc. done.
Qed.

Lemma keyless_setValue file kc s k v :
  kcRead kc settingsKeyTag = (OtherError, "") → keyless file kc s →
  encryptionRequired s = true → k ∈ encryptedKeys → keyless file kc (setValue s k v).
Proof.
  intros Hkc Hs He Hk. unfold setValue. rewrite He. unfold listContains. rewrite bool_decide_true by done.
  cbn [andb]. destruct (keyless_keysAvailable _ _ _ Hkc Hs) as [Hno Hs'].
  destruct (keysAvailable s) as [[] s1]; done.
Qed.

Lemma keyless_readValue file kc s k d :
  kcRead kc settingsKeyTag = (OtherError, "") → keyless file kc s →
  keyless file kc (readValue s k d).2 ∧
  encryptionEnabled (readValue s k d).2 = encryptionEnabled s.
Proof.
  intros Hkc Hs. unfold readValue. destruct (cache s !! k); [done|].
  destruct (disk s !! k) as [raw|]; [|done]. destruct (isMarked raw); [|done].
  destruct (keyless_keysAvailable _ _ _ Hkc Hs) as [Hno Hs'].
  destruct (keysAvailable s) as [ok s1] eqn:Hka. simpl in Hno. subst ok. split; [done|].
  by apply keysAvailable_spec in Hka as (_ & _ & ? & _).
Qed.

Lemma keyless_encryptStored file kc keys s :
  kcRead kc settingsKeyTag = (OtherError, "") → encryptionRequired s = true → keyless file kc s →
  keyless file kc (foldl encryptStored s keys).
Proof.
  intros Hkc. revert s. induction keys as [|k keys IH]; intros s He Hs; [done|]. cbn [foldl].
  unfold encryptStored at 2. unfold listContains. case_bool_decide as Hk; [|by apply IH].
  destruct (keyless_readValue _ _ s k VInvalid Hkc Hs) as [Hs1 He1].
  destruct (readValue s k VInvalid) as [v s1]. simpl in *.
  assert (encryptionRequired s1 = true) as He2 by (unfold encryptionRequired in *; by rewrite He1).
  apply IH; [|by apply keyless_setValue].
  unfold setValue. rewrite He2. unfold listContains. rewrite bool_decide_true by done. cbn [andb].
  destruct (keyless_keysAvailable _ _ _ Hkc Hs1) as [Hno _].
  destruct (keysAvailable s1) as [ok s2] eqn:Hka. simpl in Hno. subst ok.
  apply keysAvailable_spec in Hka as (_ & _ & He3 & _). unfold encryptionRequired in *. by rewrite He3.
Qed.

(** The constructor records that the file is encrypted also when the keychain could
    not be read, in which case the secret keys stay in the file as they were. *)
Lemma construct_without_keys file kc :
  kcRead kc settingsKeyTag = (OtherError, "") → platformEncrypts = true →
  toBoolV (default VInvalid (file !! "Conf/encrypted")) = false →
  disk (construct file true kc) = <["Conf/encrypted" := VBool true]> file.
Proof.
  intros Hkc Hp Hfile. unfold construct. rewrite Hfile.
  assert (Hreq : encryptionRequired (Settings file ∅ "" "" true kc) = true) by (unfold encryptionRequired; by rewrite Hp).
  rewrite Hreq. cbn [andb negb disk setDisk].
  destruct (keyless_encryptStored file kc (qkeys file) _ Hkc Hreq) as [-> _]; [done|]. done.
Qed.

(** ** Properties *)


(** When encryption is required, writing a secret key never puts the plain value
    into the file: the entry is left as it was, or it is the mark followed by the
    encrypted bytes. *)
Lemma secrets_encrypted s k v :
  encryptionRequired s = true → k ∈ encryptedKeys →
  disk (setValue s k v) !! k = disk s !! k ∨
  ∃ c, disk (setValue s k v) !! k = Some (VByteArray (magicString +:+ c)).
Proof.
  intros He Hk. unfold setValue. rewrite He. unfold listContains. rewrite bool_decide_true by done.
  cbn [andb]. destruct (keysAvailable s) as [[] s1] eqn:Hka;
    destruct (keysAvailable_spec _ _ _ Hka) as (Hd & _ & _ & _ & _ & Hok).
  - destruct Hok as [Hk1 Hi1]; [done|]. rewrite encryptText_ready by done. right. eexists.
    simpl. by rewrite lookup_insert_eq.
  - left. by rewrite Hd.
Qed.

(** Restoring a backup sets every key of the document to its value, except that
    the installation's identifier is neither taken from the document nor changed. *)
Lemma restore_sets_keys s cfg s' :
  restoreAppConfig s cfg = (true, s') →
  disk s' !! "Conf/installationUuid" = disk s !! "Conf/installationUuid" ∧
  ∀ k j d, cfg !! k = Some j → k ≠ "Conf/installationUuid" →
    encryptionRequired s && listContains encryptedKeys k = false →
    (readValue s' k d).1 = toVariant j.
Proof.
  unfold restoreAppConfig. case_bool_decide; [done|]. intros [= <-]. split.
  - apply foldl_restoreKey_uuid.
  - intros k j d Hk Huuid He. unfold readValue.
    rewrite (foldl_restoreKey _ _ k j); [done| |by apply elem_of_qitems|done|done].
    apply NoDup_qkeys.
Qed.

End settings.

(** ** Witnesses *)

(** A keychain that holds both tags, and a codec for strings: a stream format that
    marks the type, and a cipher that puts the key in front. *)
#[local] Instance sampleKeychain : Keychain unit := {|
  kcRead _ _ := (NoError, "k");
  kcWrite kc _ _ := kc;
  kcRandom kc := ("k", kc);
|}.

Definition sampleDecode (s : string) : variant :=
  match s with String _ t => VString t | EmptyString => VInvalid end.

Lemma sampleDecode_string v :
  (∃ s, v = VString s) → sampleDecode ("s" +:+ toStringV v) = v.
Proof. intros [s ->]. done. Qed.

#[local] Instance sampleCodec : SettingsCodec := {|
  serialize v := "s" +:+ toStringV v;
  deserialize := sampleDecode;
  encryptAes256Cbc t key iv := key +:+ t;
  decryptAes256Cbc t key iv := midFrom (String.length key) t;
  serializable v := ∃ s, v = VString s;
  deserialize_serialize := sampleDecode_string;
  decrypt_encrypt t key iv _ _ := midFrom_app key t;
|}.

Definition sampleOps : list operation :=
  [Write "Servers/serversList" (VString "secret"); Write "Conf/autoConnect" (VBool true)].


Lemma secrets_encrypted_example :
  let s := Settings ∅ ∅ "" "" true tt in
  disk (setValue true s "Servers/serversList" (VString "secret")) !! "Servers/serversList" =
    disk s !! "Servers/serversList" ∨
  ∃ c, disk (setValue true s "Servers/serversList" (VString "secret")) !! "Servers/serversList" =
    Some (VByteArray (magicString +:+ c)).
Proof.
  apply (secrets_encrypted true (Settings ∅ ∅ "" "" true tt)); [reflexivity|].
  apply list_elem_of_singleton. reflexivity.
Defined.

Definition sampleBackup : QJsonObject :=
  <["Conf/installationUuid" := JString "other"]> (<["Conf/autoConnect" := JBool true]> ∅).

Lemma restore_sets_keys_example :
  let s := Settings (<["Conf/installationUuid" := VString "mine"]> ∅) ∅ "" "" true tt in
  disk (restoreAppConfig true s sampleBackup).2 !! "Conf/installationUuid" = Some (VString "mine") ∧
  (readValue (restoreAppConfig true s sampleBackup).2 "Conf/autoConnect" VInvalid).1 = VBool true.
Proof.
  intros s. assert (Hr : restoreAppConfig true s sampleBackup = (true, (restoreAppConfig true s sampleBackup).2))
    by (vm_compute; reflexivity).
  destruct (restore_sets_keys true s sampleBackup _ Hr) as [Huuid Hkeys]. split.
  - rewrite Huuid. reflexivity.
  - rewrite (Hkeys "Conf/autoConnect" (JBool true)); [reflexivity|reflexivity|discriminate|reflexivity].
Defined.
