(* ===== verification/SplitTunnel.v ===== *)
(** * Split tunnelling rules and the routes planned from them

    [core/utils/splitTunnelRule.cpp], [core/utils/splitTunnelRoutePlanner.cpp] and
    [core/utils/routeModes.h].  A rule is made from a text the user typed; the
    planner turns stored rules and resolved hosts into the addresses that are
    routed beside or into the tunnel. *)

From Stdlib Require Import Ascii.
From S2P Require Import Prelude QtCore Regex NetworkUtilities Variant.
From stdpp Require Import options.

(** [route_mode_ns::RouteMode] and [apps_route_mode_ns::AppsRouteMode]. *)
Inductive RouteMode := VpnAllSites | VpnOnlyForwardSites | VpnAllExceptSites.
Inductive AppsRouteMode := VpnAllApps | VpnOnlyForwardApps | VpnAllExceptApps.

#[export] Instance RouteMode_eq_dec : EqDecision RouteMode.
Proof. solve_decision. Defined.
#[export] Instance AppsRouteMode_eq_dec : EqDecision AppsRouteMode.
Proof. solve_decision. Defined.

(** The values of the enumerators. *)
Definition routeModeInt (m : RouteMode) : Z :=
  match m with VpnAllSites => 0 | VpnOnlyForwardSites => 1 | VpnAllExceptSites => 2 end.

(** ** Rules *)

Inductive ruleType := ExactHost | WildcardHost | IpSubnet.

#[export] Instance ruleType_eq_dec : EqDecision ruleType.
Proof. solve_decision. Defined.

(** [SplitTunnelRule].  The member [m_regex] is a function of the value
    ([wildcardToRegularExpression]). *)
Record SplitTunnelRule := Rule {
  type : ruleType;
  value : string;
  normalizedText : string;
}.

(** [normalizeHostText].  [None] is the undefined behaviour of [first()] on the
    empty list, which is what the split gives for a text of slashes only. *)
Definition stripSchemes (text : string) : string :=
  let text := toLower (trimmed text) in
  let text := replace text "https://" "" in
  let text := replace text "http://" "" in
  replace text "ftp://" "".

Definition normalizeHostText (text : string) : option string :=
  head (skipEmpty (splitChar "/" (stripSchemes text))).

(** [wildcardToRegularExpression]: the expression that the escaped text with [\*]
    replaced by [.*] denotes, between [^] and [$]. *)
Fixpoint wildcardBody (pattern : string) : regex :=
  match pattern with
  | EmptyString => EndLine
  | String c pattern => (if eqChar c "*" then Star dot else lit c) ∙ wildcardBody pattern
  end.

Definition wildcardToRegularExpression (pattern : string) : regex := wildcardBody pattern.

Definition fromText (text : string) : option SplitTunnelRule :=
  normalized ← normalizeHostText text;
  Some (if exactMatch ipAddressWithSubnetRegExp normalized
        then Rule IpSubnet normalized normalized
        else if containsChar "*" normalized
        then Rule WildcardHost normalized normalized
        else Rule ExactHost normalized normalized).

(** [SplitTunnelRule::isValid].  The expression of a wildcard rule is always a
    valid one. *)
Definition isValid (r : SplitTunnelRule) : bool :=
  if isEmpty (value r) then false
  else match type r with
       | IpSubnet => exactMatch ipAddressWithSubnetRegExp (value r)
       | WildcardHost =>
           containsChar "." (value r) &&
           exactMatch domainRegExp (replace (value r) "*" "a")
       | ExactHost => exactMatch domainRegExp (value r)
       end.

Definition isDynamicHostRule (r : SplitTunnelRule) : bool :=
  bool_decide (type r = WildcardHost).

Definition matchesHost (r : SplitTunnelRule) (host : string) : option bool :=
  normalizedHost ← normalizeHostText host;
  Some (match type r with
        | ExactHost => bool_decide (normalizedHost = value r)
        | WildcardHost =>
            if startsWith (value r) "*." && bool_decide (normalizedHost = midFrom 2 (value r))
            then true
            else matchAtStart (wildcardToRegularExpression (value r)) normalizedHost
        | IpSubnet => false
        end).

(** ** The route planner *)

(** The addresses of the [QHostInfo] are a list; [printHost] is their
    [toString]. *)
Definition resolvedIpv4Routes `{HostAddressText} (addresses : list hostAddress)
    (alreadyRoutedIps : list string) : list string :=
  dedup (filter (λ ip, ip ∉ alreadyRoutedIps) (printHost <$> filter (λ a, isIPv4 a = true) addresses)).

Definition shouldRetryRouteAdd (routeIps : list string) (routesAdded canRetry : bool) : bool :=
  negb (bool_decide (routeIps = [])) && negb routesAdded && canRetry.

Definition killSwitchAllowedIps (mode : RouteMode) (killSwitchEnabled : bool)
    (routeIps : list string) : list string :=
  if bool_decide (mode = VpnAllExceptSites) && killSwitchEnabled then routeIps else [].

(** What one entry of the site map adds to [ips].  [None]: the key cannot be made
    into a rule. *)
Definition siteIps (key : string) (v : variant) : option (list string) :=
  rule ← fromText key;
  Some (if isValid rule then
          match type rule with
          | IpSubnet => [normalizedText rule]
          | _ => toStringListV v
          end
        else []).

Definition cachedSiteIps `{HostAddressText} (sites : QVariantMap) : option (list string) :=
  ips ← mapM (λ kv, siteIps kv.1 kv.2) (qitems sites);
  Some (merge_new [] (filter (λ ip, checkIpSubnetFormat ip = true) (concat ips))).

(** ** Normalisation *)

Lemma normalizeHostText_value t v :
  normalizeHostText t = Some v → containsChar "/" v = false ∧ v ≠ "".
Proof.
  unfold normalizeHostText. set (parts := splitChar _ _).
  intros Hv%head_Some_elem_of. apply list_elem_of_filter in Hv as [Hne Hv].
  split; [by eapply splitChar_parts | done].
Qed.

(** The characters of a valid rule. *)
Definition ruleChar (c : ascii) : bool := labelChar c || eqChar c "." || eqChar c "*".

Lemma ruleChar_facts c :
  ruleChar c = true →
  isSpace c = false ∧ toLowerChar c = c ∧ eqChar c ":" = false ∧ eqChar c "/" = false ∧
  eqChar c newline = false.
Proof. destruct c as [[] [] [] [] [] [] [] []]; vm_compute; intuition congruence. Qed.

Lemma ruleChars_not_contains c s :
  ruleChar c = false → allChars ruleChar s = true → containsChar c s = false.
Proof. intros Hc Hs. by apply (allChars_not_contains ruleChar). Qed.

(** A non-empty text over these characters is its own normal form. *)
Lemma normalizeHostText_id v :
  allChars ruleChar v = true → v ≠ "" → normalizeHostText v = Some v.
Proof.
  intros Hv Hne. unfold normalizeHostText, stripSchemes. cbv zeta.
  rewrite trimmed_id by (revert Hv; apply allChars_impl; intros c Hc; by destruct (ruleChar_facts c Hc) as [-> _]).
  assert (toLower v = v) as ->.
  { apply mapString_id. revert Hv. apply allChars_impl. intros c Hc.
    apply eqChar_true. by apply (ruleChar_facts c Hc). }
  assert (containsChar ":" v = false) as Hcolon by by apply ruleChars_not_contains.
  rewrite (replace_absent ":" "https://" "" v), (replace_absent ":" "http://" "" v),
    (replace_absent ":" "ftp://" "" v) by done.
  rewrite splitChar_absent by by apply ruleChars_not_contains.
  unfold skipEmpty. by rewrite filter_cons_True.
Qed.

Lemma replace_char c d s :
  replace s (String c "") (String d "") = mapString (λ x, if eqChar x c then d else x) s.
Proof.
  unfold replace. induction s as [|x s IH]; [done|]. cbn [replaceGo mapString String.length pred].
  assert (String.prefix (String c "") (String x s) = eqChar x c) as ->.
  { cbn. destruct (ascii_dec c x) as [->|Hne].
    - destruct s; symmetry; by apply eqChar_true.
    - symmetry. apply eqChar_false. congruence. }
  destruct (eqChar x c); rewrite IH; [|done]. by rewrite scons_app, snil_app.
Qed.

Lemma allChars_mapString P f s : allChars P (mapString f s) = allChars (λ c, P (f c)) s.
Proof. induction s as [|c s IH]; simpl; [done|]. by rewrite IH. Qed.

Lemma isValid_ruleChars t r :
  fromText t = Some r → isValid r = true → allChars ruleChar (value r) = true.
Proof.
  intros Hr Hv. unfold fromText in Hr. apply bind_Some in Hr as (v & Hn & [= Hr]).
  assert (value r = v) as Hval by (subst r; by repeat case_match).
  destruct (normalizeHostText_value _ _ Hn) as [Hslash _].
  unfold isValid in Hv. rewrite Hval in *. destruct (isEmpty v); [done|]. destruct (type r).
  - apply domain_alphabet in Hv. revert Hv. apply allChars_impl. unfold ruleChar. by intros c ->.
  - apply andb_true_iff in Hv as [_ Hv]. apply domain_alphabet in Hv.
    rewrite replace_char, allChars_mapString in Hv. revert Hv. apply allChars_impl.
    intros c. unfold ruleChar. destruct (eqChar c "*"); [by rewrite orb_true_r|]. by intros ->.
  - apply ipAddressWithSubnetRegExp_sem, subnetText_alphabet in Hv.
    apply containsChar_allChars in Hslash. revert Hv Hslash. clear.
    induction v as [|c v IH]; simpl; [done|]. intros [Hc Hv]%andb_true_iff [Hs Hvs]%andb_true_iff.
    rewrite IH by done. rewrite andb_true_r. apply negb_true_iff in Hs. rewrite Hs, orb_false_r in Hc.
    revert Hc. clear. destruct c as [[] [] [] [] [] [] [] []]; vm_compute; congruence.
Qed.

Lemma fromText_normalized t r :
  fromText t = Some r → normalizeHostText t = Some (value r) ∧ normalizedText r = value r ∧
  ∀ t', normalizeHostText t' = Some (value r) → fromText t' = Some r.
Proof.
  unfold fromText. intros Hr. apply bind_Some in Hr as (v & Hn & [= Hr]).
  assert (value r = v ∧ normalizedText r = v) as [Hval Htxt]
    by (subst r; by repeat case_match).
  rewrite Hval, Htxt. split_and!; [done..|]. intros t' ->. simpl. by rewrite Hr.
Qed.

(** ** Wildcards *)

(** Reference matching: each star stands for any text, every other character for
    itself. *)
Fixpoint globMatch (pattern host : string) : Prop :=
  match pattern with
  | EmptyString => host = ""
  | String c pattern =>
      if eqChar c "*" then ∃ a b, host = a +:+ b ∧ globMatch pattern b
      else ∃ b, host = String c b ∧ globMatch pattern b
  end.

Lemma sem_star_dot s t :
  sem (Star dot) s t ↔ ∃ w, s = w +:+ t ∧ containsChar newline w = false.
Proof.
  split.
  - intros Hs. apply sem_prefix in Hs as (w & -> & Hw). exists w. split; [done|].
    apply containsChar_allChars. exact Hw.
  - intros (w & -> & Hw). induction w as [|c w IH]; [apply rtc_refl|].
    simpl in Hw. apply orb_false_iff in Hw as [Hc Hw].
    eapply rtc_l; [|by apply IH]. exists c. rewrite scons_app, Hc. done.
Qed.

Lemma wildcardBody_glob pattern host :
  containsChar newline host = false →
  (∃ t, sem (wildcardBody pattern) host t) ↔ globMatch pattern host.
Proof.
  revert host. induction pattern as [|c pattern IH]; intros host Hnl; cbn [wildcardBody globMatch].
  - split.
    + intros (t & -> & [->|Ht]); [done|]. cbn in Ht. subst t. done.
    + intros ->. exists "". cbn. auto.
  - destruct (eqChar c "*"); cbn [sem].
    + split.
      * intros (t & u & (w & -> & Hw)%sem_star_dot & Hu). exists w, u. split; [done|].
        rewrite containsChar_app in Hnl. apply orb_false_iff in Hnl as [_ Hnl]. apply IH; eauto.
      * intros (a & b & -> & Hb). rewrite containsChar_app in Hnl.
        apply orb_false_iff in Hnl as [Ha Hnl]. apply IH in Hb as [t Ht]; [|done].
        exists t, b. split; [|done]. apply sem_star_dot. eauto.
    + split.
      * intros (t & u & (d & -> & Hd%eqChar_true) & Hu). subst d. exists u. split; [done|].
        cbn in Hnl. apply orb_false_iff in Hnl as [_ Hnl]. apply IH; eauto.
      * intros (b & -> & Hb). cbn in Hnl. apply orb_false_iff in Hnl as [_ Hnl].
        apply IH in Hb as [t Ht]; [|done]. exists t, b. split; [|done].
        exists c. split; [done|]. by apply eqChar_true.
Qed.

Lemma wildcard_glob pattern host :
  containsChar newline host = false →
  matchAtStart (wildcardToRegularExpression pattern) host = true ↔ globMatch pattern host.
Proof. intros Hnl. rewrite matchAtStart_sem. by apply wildcardBody_glob. Qed.

Lemma globMatch_literal p host : containsChar "*" p = false → globMatch p host ↔ host = p.
Proof.
  revert host. induction p as [|c p IH]; intros host Hp; cbn in *; [done|].
  apply orb_false_iff in Hp as [-> Hp]. setoid_rewrite IH; [|done]. naive_solver.
Qed.

Lemma stripSchemes_address s :
  allChars (λ c, isDigit c || eqChar c "." || eqChar c "/") s = true → stripSchemes s = s.
Proof.
  intros Hs. unfold stripSchemes. cbv zeta.
  assert (∀ c, isDigit c || eqChar c "." || eqChar c "/" = true →
    isSpace c = false ∧ toLowerChar c = c) as Hfacts.
  { intros c. destruct c as [[] [] [] [] [] [] [] []]; vm_compute; intuition congruence. }
  rewrite trimmed_id by (revert Hs; apply allChars_impl; intros c Hc; by destruct (Hfacts c Hc) as [-> _]).
  assert (toLower s = s) as ->.
  { apply mapString_id. revert Hs. apply allChars_impl. intros c Hc. apply eqChar_true, Hfacts, Hc. }
  assert (containsChar ":" s = false) as Hcolon by by eapply allChars_not_contains.
  by rewrite (replace_absent ":" "https://" "" s), (replace_absent ":" "http://" "" s),
    (replace_absent ":" "ftp://" "" s).
Qed.

Lemma skipEmpty_splitChar sep s :
  skipEmpty (splitChar sep s) = [] ↔ allChars (λ c, eqChar c sep) s = true.
Proof.
  unfold skipEmpty. induction s as [|c s IH]; simpl; [by rewrite filter_cons_False by naive_solver|].
  destruct (splitChar sep s) as [|p ps] eqn:Hs; [by apply splitChar_not_nil in Hs|].
  destruct (eqChar c sep); simpl.
  - rewrite filter_cons_False by naive_solver. exact IH.
  - by rewrite filter_cons_True.
Qed.

(** ** Planned routes *)

Lemma elem_of_mapM_concat (kvs : list (string * variant)) ipss ip :
  mapM (λ kv, siteIps kv.1 kv.2) kvs = Some ipss →
  ip ∈ concat ipss ↔ ∃ k v ips, (k, v) ∈ kvs ∧ siteIps k v = Some ips ∧ ip ∈ ips.
Proof.
  intros Hm%mapM_Some. induction Hm as [|[k v] ips kvs ipss Hs _ IH]; simpl; [set_solver|].
  rewrite elem_of_app, IH. setoid_rewrite elem_of_cons. naive_solver.
Qed.

(** ** Properties *)

(** The normal form of a valid rule is canonical: making a rule from the text
    that the settings store gives the same rule again. *)
Lemma fromText_canonical t r :
  fromText t = Some r → isValid r = true → fromText (normalizedText r) = Some r.
Proof.
  intros Hr Hv. destruct (fromText_normalized _ _ Hr) as (Hn & -> & Hsame).
  apply Hsame, normalizeHostText_id; [by eapply isValid_ruleChars|].
  by apply (normalizeHostText_value t).
Qed.

(** Making a rule is undefined (the first element of an empty list) exactly for
    texts that have only slashes left after the schemes are removed, among them the
    empty text. *)
Lemma fromText_undefined t :
  fromText t = None ↔ allChars (λ c, eqChar c "/") (stripSchemes t) = true.
Proof.
  rewrite <-skipEmpty_splitChar. unfold fromText, normalizeHostText.
  destruct (skipEmpty _) as [|v vs]; simpl; naive_solver.
Qed.

(** An address rule never keeps a prefix length: what follows a slash is cut off
    before the text is matched, so a subnet typed as [a.b.c.d/p] becomes the single
    address [a.b.c.d]. *)
Lemma fromText_drops_prefix a b c d p :
  isOctet a → isOctet b → isOctet c → isOctet d → (0 ≤ p ≤ 32)%Z →
  fromText (dotted a b c d +:+ "/" +:+ pretty p) =
    Some (Rule IpSubnet (dotted a b c d) (dotted a b c d)).
Proof.
  intros Ha Hb Hc Hd Hp.
  assert (isSubnetText (dotted a b c d +:+ "/" +:+ pretty p)) as Hs by by exists a, b, c, d, p.
  assert (allChars (λ c, isDigit c || eqChar c "." || eqChar c "/")
    (dotted a b c d +:+ "/" +:+ pretty p) = true) as Hall by (apply subnetText_alphabet; auto).
  assert (containsChar "/" (dotted a b c d) = false) as Hslash by by apply containsChar_dotted.
  assert (normalizeHostText (dotted a b c d +:+ "/" +:+ pretty p) = Some (dotted a b c d)) as Hn.
  { unfold normalizeHostText. rewrite stripSchemes_address by done.
    change ("/" +:+ pretty p) with (String "/" "" +:+ pretty p).
    rewrite splitChar_sep by done. unfold skipEmpty. rewrite filter_cons_True; [done|].
    intros H0. by pose proof (dotted_not_empty a b c d) as H1; rewrite H0 in H1. }
  unfold fromText. rewrite Hn. simpl.
  assert (exactMatch ipAddressWithSubnetRegExp (dotted a b c d) = true) as ->; [|done].
  apply ipAddressWithSubnetRegExp_sem. left. by exists a, b, c, d.
Qed.

(** A rule for [*.d] matches exactly the hosts that are [d] or end in [.d]. *)
Lemma wildcard_subdomains d host n :
  containsChar "*" d = false → normalizeHostText host = Some n →
  containsChar newline n = false →
  matchesHost (Rule WildcardHost ("*." +:+ d) ("*." +:+ d)) host = Some true ↔
  n = d ∨ ∃ p, n = p +:+ "." +:+ d.
Proof.
  intros Hd Hn Hnl. unfold matchesHost. rewrite Hn. cbn [type value].
  assert (startsWith ("*." +:+ d) "*." = true) as -> by (apply prefix_spec; eauto).
  change (midFrom 2 ("*." +:+ d)) with d.
  assert (matchAtStart (wildcardToRegularExpression ("*." +:+ d)) n = true ↔
    ∃ p, n = p +:+ "." +:+ d) as Hglob.
  { rewrite wildcard_glob by done. rewrite !scons_app, snil_app. cbn [globMatch].
    change (eqChar "*" "*") with true. change (eqChar "." "*") with false. cbn iota.
    setoid_rewrite globMatch_literal; [|done]. split.
    - intros (p & ? & -> & ? & -> & ->). by exists p.
    - intros [p ->]. exists p, (String "." d). eauto. }
  cbn [mbind option_bind andb]. case_bool_decide; [by intuition|].
  rewrite <-Hglob. destruct (matchAtStart _ n); intuition congruence.
Qed.

Section planner.
Context `{HostAddressText}.

(** The cached addresses of the sites are without repetition, each is in the
    format that the firewall and the router accept, and they are exactly the
    addresses of valid address rules and the stored addresses of valid host rules. *)
Lemma cachedSiteIps_spec sites ips :
  cachedSiteIps sites = Some ips →
  NoDup ips ∧
  ∀ ip, ip ∈ ips ↔ checkIpSubnetFormat ip = true ∧
    ∃ k v r, sites !! k = Some v ∧ fromText k = Some r ∧ isValid r = true ∧
      ip ∈ (if decide (type r = IpSubnet) then [value r] else toStringListV v).
Proof.
  unfold cachedSiteIps. intros Hips. apply bind_Some in Hips as (ipss & Hm & [= <-]).
  split; [apply NoDup_merge_new, NoDup_nil_2|]. intros ip.
  rewrite elem_of_merge_new, list_elem_of_filter, (elem_of_mapM_concat _ _ _ Hm).
  setoid_rewrite elem_of_qitems. unfold siteIps. split.
  - intros [Hnil|[Hc (k & v & ips & Hk & Hs & Hip)]]; [set_solver|]. split; [done|].
    apply bind_Some in Hs as (r & Hr & [= <-]). exists k, v, r.
    destruct (isValid r); [|set_solver]. destruct (fromText_normalized _ _ Hr) as (_ & Htxt & _).
    split_and!; [done..|]. destruct (type r); simpl in *; congruence || (rewrite <-Htxt; done).
  - intros (Hc & k & v & r & Hk & Hr & Hv & Hip). right. split; [done|].
    destruct (fromText_normalized _ _ Hr) as (_ & Htxt & _).
    eexists k, v, _. rewrite Hr. simpl. split_and!; [done|done|]. rewrite Hv.
    destruct (type r); simpl in *; congruence || (rewrite Htxt; done).
Qed.

(** The routes for a resolved host are its IPv4 addresses that are not routed
    yet, each once. *)
Lemma resolvedIpv4Routes_spec addresses routed :
  NoDup (resolvedIpv4Routes addresses routed) ∧
  ∀ ip, ip ∈ resolvedIpv4Routes addresses routed ↔
    ip ∉ routed ∧ ∃ a, a ∈ addresses ∧ protocol a = IPv4Protocol ∧ ip = printHost a.
Proof.
  split; [apply NoDup_dedup|]. intros ip. unfold resolvedIpv4Routes.
  rewrite elem_of_dedup, list_elem_of_filter, list_elem_of_fmap.
  setoid_rewrite list_elem_of_filter. unfold isIPv4. setoid_rewrite bool_decide_eq_true. naive_solver.
Qed.
End planner.

(** ** Witnesses *)

Lemma fromText_canonical_example :
  let r := Rule WildcardHost "*.example.com" "*.example.com" in
  fromText " HTTPS://*.Example.com/path " = Some r ∧ fromText (normalizedText r) = Some r.
Proof.
  split; [vm_compute; reflexivity|].
  apply (fromText_canonical " HTTPS://*.Example.com/path "); vm_compute; reflexivity.
Defined.

Lemma fromText_drops_prefix_example :
  fromText (dotted 10 0 0 0 +:+ "/" +:+ pretty 8%Z) =
    Some (Rule IpSubnet (dotted 10 0 0 0) (dotted 10 0 0 0)).
Proof. apply (fromText_drops_prefix 10 0 0 0 8); (unfold isOctet; lia). Defined.

Lemma wildcard_subdomains_example :
  matchesHost (Rule WildcardHost ("*." +:+ "example.com") ("*." +:+ "example.com")) "a.example.com" =
    Some true ↔
  "a.example.com" = "example.com" ∨ ∃ p, "a.example.com" = p +:+ "." +:+ "example.com".
Proof. apply (wildcard_subdomains "example.com" "a.example.com"); vm_compute; reflexivity. Defined.

Definition sampleSites : QVariantMap :=
  <["1.2.3.4" := VInvalid]> (<["example.com" := VStringList ["5.6.7.8"; "::1"; "1.2.3.4"]]> ∅).

Lemma cachedSiteIps_spec_example :
  let _ := quadText in
  cachedSiteIps sampleSites = Some ["1.2.3.4"; "5.6.7.8"] ∧ NoDup ["1.2.3.4"; "5.6.7.8"].
Proof.
  split; [vm_compute; reflexivity|].
  apply (@cachedSiteIps_spec quadText sampleSites). vm_compute. reflexivity.
Defined.
