(* ===== verification/AppSettings.v ===== *)
(** * The application's settings ([core/repositories/secureAppSettingsRepository.cpp])

    The repository gives names and types to the entries of the settings store.  It is
    written against the class [SettingsStore], which says what it needs of the store;
    the store of [SecureSettings] is an instance.  An operation that changes the
    settings returns the new repository and the signals it emits.  Locales and dates
    are only passed through to the store and are left out. *)

From Stdlib Require Import Ascii.
From S2P Require Import Prelude QtCore Variant NetworkUtilities SplitTunnel SecureSettings.
From stdpp Require Import options.

(** What the repository needs of [SecureQSettings], for keys that are not encrypted. *)
Class SettingsStore (S : Type) := {
  sValue : S → string → variant → variant;
  sSet : S → string → variant → S;
  sClear : S → S;
  sValue_set_eq s k v d : k ∉ encryptedKeys → sValue (sSet s k v) k d = v;
  sValue_set_ne s k k' v d : k ∉ encryptedKeys → k ≠ k' → sValue (sSet s k v) k' d = sValue s k' d;
  sValue_clear s k d : sValue (sClear s) k d = d;
}.

Inductive settingsSignal :=
  | useAmneziaDnsChanged (enabled : bool)
  | allowedDnsServersChanged (servers : list string)
  | routeModeChanged (mode : RouteMode)
  | sitesChanged (mode : RouteMode)
  | sitesSplitTunnelingEnabledChanged (enabled : bool)
  | appsRouteModeChanged (mode : AppsRouteMode)
  | appsChanged (mode : AppsRouteMode)
  | appsSplitTunnelingEnabledChanged (enabled : bool)
  | screenshotsEnabledChanged (enabled : bool)
  | saveLogsChanged (enabled : bool)
  | settingsCleared.

(** The entries that hold a boolean. *)
Inductive boolOption :=
  | UseAmneziaDns | SitesSplitTunnelingEnabled | AppsSplitTunnelingEnabled | DevGatewayEnv
  | KillSwitchEnabled | StrictKillSwitchEnabled | AutoConnect | StartMinimized
  | ScreenshotsEnabled | NewsNotifications | AutoUpdateCheck | SaveLogs | HomeAdLabelVisible.

#[export] Instance boolOption_eq_dec : EqDecision boolOption.
Proof. solve_decision. Defined.

Definition boolKey (o : boolOption) : string :=
  match o with
  | UseAmneziaDns => "Conf/useAmneziaDns"
  | SitesSplitTunnelingEnabled => "Conf/sitesSplitTunnelingEnabled"
  | AppsSplitTunnelingEnabled => "Conf/appsSplitTunnelingEnabled"
  | DevGatewayEnv => "Conf/devGatewayEnv"
  | KillSwitchEnabled => "Conf/killSwitchEnabled"
  | StrictKillSwitchEnabled => "Conf/strictKillSwitchEnabled"
  | AutoConnect => "Conf/autoConnect"
  | StartMinimized => "Conf/startMinimized"
  | ScreenshotsEnabled => "Conf/screenshotsEnabled"
  | NewsNotifications => "Conf/newsNotifications"
  | AutoUpdateCheck => "Conf/autoUpdateCheck"
  | SaveLogs => "Conf/saveLogs"
  | HomeAdLabelVisible => "Conf/homeAdLabelVisible"
  end.

Definition boolDefault (o : boolOption) : bool :=
  match o with
  | UseAmneziaDns | KillSwitchEnabled | ScreenshotsEnabled | NewsNotifications
  | AutoUpdateCheck | HomeAdLabelVisible => true
  | _ => false
  end.

Definition gatewayEndpoint : string := "http://gw.amnezia.org:80/".
Definition proxyUrlsKey : string := "Conf/proxyUrls/".

Definition routeModeString (mode : RouteMode) : string :=
  match mode with
  | VpnAllSites => "AllSites"
  | VpnOnlyForwardSites => "ForwardSites"
  | VpnAllExceptSites => "ExceptSites"
  end.

Definition appsRouteModeString (mode : AppsRouteMode) : string :=
  match mode with
  | VpnAllApps => "AllApps"
  | VpnOnlyForwardApps => "ForwardApps"
  | VpnAllExceptApps => "ExceptApps"
  end.

(** [static_cast] of a stored number; [None] for a number of no enumerator. *)
Definition routeModeOf (z : Z) : option RouteMode :=
  match z with
  | 0 => Some VpnAllSites | 1 => Some VpnOnlyForwardSites | 2 => Some VpnAllExceptSites | _ => None
  end%Z.

Definition appsRouteModeInt (m : AppsRouteMode) : Z :=
  match m with VpnAllApps => 0 | VpnOnlyForwardApps => 1 | VpnAllExceptApps => 2 end.

Definition appsRouteModeOf (z : Z) : option AppsRouteMode :=
  match z with
  | 0 => Some VpnAllApps | 1 => Some VpnOnlyForwardApps | 2 => Some VpnAllExceptApps | _ => None
  end%Z.

(** [InstalledAppInfo]. *)
Record installedAppInfo := AppInfo { appName : string; packageName : string; appPath : string }.

(** The addresses stored for a site: without empty texts and repetitions. *)
Definition siteIpList (v : variant) : list string := dedup (removeAll "" (toStringListV v)).

(** The loop that adds addresses to a list, and whether it added one. *)
Definition mergeIps (merged : list string) (changed : bool) (ips : list string) : list string * bool :=
  foldl (λ acc ip, if negb (isEmpty ip) && negb (listContains acc.1 ip)
                   then (acc.1 ++ [ip], true) else acc) (merged, changed) ips.

(** ** Facts about addresses *)

Lemma mergeIps_merge_new merged changed ips :
  mergeIps merged changed ips =
    (merge_new merged (removeAll "" ips),
     changed || negb (bool_decide (merge_new merged (removeAll "" ips) = merged))).
Proof.
  unfold mergeIps, removeAll. revert merged changed. induction ips as [|ip ips IH]; intros merged changed.
  { simpl. rewrite bool_decide_true by done. by rewrite orb_false_r. }
  cbn [foldl fst]. rewrite filter_cons. destruct ip as [|c ip].
  { rewrite decide_False by naive_solver. apply IH. }
  rewrite decide_True by done. cbn [isEmpty negb andb]. unfold merge_new. cbn [foldl].
  fold (merge_new (append_new merged (String c ip)) (filter (λ x, x ≠ "") ips)).
  unfold listContains. case_bool_decide as Hin.
  - cbn [negb]. rewrite append_new_elem by done. apply IH.
  - cbn [negb]. rewrite IH, append_new_fresh by done. f_equal. cbn [orb].
    rewrite bool_decide_false; [by rewrite orb_true_r|]. intros Heq.
    pose proof (prefix_length _ _ (merge_new_prefix (merged ++ [String c ip]) (filter (λ x, x ≠ "") ips))) as Hlen.
    rewrite Heq, length_app in Hlen. simpl in Hlen. lia.
Qed.

(** Lists of addresses as the repository stores them. *)
Definition cleanIps (l : list string) : Prop := NoDup l ∧ "" ∉ l.

Lemma siteIpList_clean v : cleanIps (siteIpList v).
Proof.
  split; [apply NoDup_dedup|]. unfold siteIpList, removeAll.
  rewrite elem_of_dedup, list_elem_of_filter. naive_solver.
Qed.

Lemma removeAll_id l : "" ∉ l → removeAll "" l = l.
Proof.
  unfold removeAll. induction l as [|x l IH]; intros Hl; [done|].
  apply not_elem_of_cons in Hl as [Hx Hl]. rewrite filter_cons_True by done. by rewrite IH.
Qed.

Lemma siteIpList_stored l : cleanIps l → siteIpList (VStringList l) = l.
Proof.
  intros [Hnd Hne]. unfold siteIpList. cbn [toStringListV].
  rewrite removeAll_id by done. by apply dedup_NoDup.
Qed.

Lemma cleanIps_merge l ips : cleanIps l → cleanIps (merge_new l (removeAll "" ips)).
Proof.
  intros [Hnd Hne]. split; [by apply NoDup_merge_new|].
  rewrite elem_of_merge_new. unfold removeAll. rewrite list_elem_of_filter. naive_solver.
Qed.

#[export] Hint Resolve siteIpList_clean cleanIps_merge : vpn.

Section repository.
Context {S : Type} `{SettingsStore S}.

Record appSettings := Repository { settings : S; m_gatewayEndpoint : string }.

Definition value (r : appSettings) (key : string) (d : variant) : variant := sValue (settings r) key d.

Definition setValue (r : appSettings) (key : string) (v : variant) : appSettings :=
  Repository (sSet (settings r) key v) (m_gatewayEndpoint r).

(** The constructor. *)
Definition construct (s : S) : appSettings :=
  let storedEndpoint := toStringV (sValue s "Conf/gatewayEndpoint" (VString gatewayEndpoint)) in
  Repository s (if isEmpty storedEndpoint then gatewayEndpoint else storedEndpoint).

(** ** Boolean entries *)

Definition getBool (r : appSettings) (o : boolOption) : bool :=
  toBoolV (value r (boolKey o) (VBool (boolDefault o))).

Definition setBool (r : appSettings) (o : boolOption) (b : bool) : appSettings :=
  setValue r (boolKey o) (VBool b).

Definition useAmneziaDns r := getBool r UseAmneziaDns.
Definition setUseAmneziaDns r b := (setBool r UseAmneziaDns b, [useAmneziaDnsChanged b]).
Definition isSitesSplitTunnelingEnabled r := getBool r SitesSplitTunnelingEnabled.
Definition setSitesSplitTunnelingEnabled r b :=
  (setBool r SitesSplitTunnelingEnabled b, [sitesSplitTunnelingEnabledChanged b]).
Definition isAppsSplitTunnelingEnabled r := getBool r AppsSplitTunnelingEnabled.
Definition setAppsSplitTunnelingEnabled r b :=
  (setBool r AppsSplitTunnelingEnabled b, [appsSplitTunnelingEnabledChanged b]).
Definition isDevGatewayEnv r (isTestPurchase : bool) :=
  if isTestPurchase then true else getBool r DevGatewayEnv.
Definition toggleDevGatewayEnv r b := setBool r DevGatewayEnv b.
Definition isKillSwitchEnabled r := getBool r KillSwitchEnabled.
Definition setKillSwitchEnabled r b := setBool r KillSwitchEnabled b.
Definition isStrictKillSwitchEnabled r := getBool r StrictKillSwitchEnabled.
Definition setStrictKillSwitchEnabled r b := setBool r StrictKillSwitchEnabled b.
Definition isAutoConnect r := getBool r AutoConnect.
Definition setAutoConnect r b := setBool r AutoConnect b.
Definition isStartMinimized r := getBool r StartMinimized.
Definition setStartMinimized r b := setBool r StartMinimized b.
Definition isScreenshotsEnabled r := getBool r ScreenshotsEnabled.
Definition setScreenshotsEnabled r b := (setBool r ScreenshotsEnabled b, [screenshotsEnabledChanged b]).
Definition isNewsNotifications r := getBool r NewsNotifications.
Definition setNewsNotifications r b := setBool r NewsNotifications b.
Definition isAutoUpdateCheckEnabled r := getBool r AutoUpdateCheck.
Definition setAutoUpdateCheckEnabled r b := setBool r AutoUpdateCheck b.
Definition isSaveLogs r := getBool r SaveLogs.
Definition setSaveLogs r b := (setBool r SaveLogs b, [saveLogsChanged b]).
Definition isHomeAdLabelVisible r := getBool r HomeAdLabelVisible.
Definition disableHomeAdLabel r := setBool r HomeAdLabelVisible false.

(** ** Texts and lists *)

Definition getAllowedDnsServers (r : appSettings) : list string :=
  toStringListV (value r "Conf/allowedDnsServers" VInvalid).
Definition setAllowedDnsServers (r : appSettings) (servers : list string) :=
  (setValue r "Conf/allowedDnsServers" (VStringList servers), [allowedDnsServersChanged servers]).

Definition primaryDns (r : appSettings) : string :=
  toStringV (value r "Conf/primaryDns" (VString "1.1.1.1")).
Definition setPrimaryDns (r : appSettings) (dns : string) := setValue r "Conf/primaryDns" (VString dns).
Definition secondaryDns (r : appSettings) : string :=
  toStringV (value r "Conf/secondaryDns" (VString "1.0.0.1")).
Definition setSecondaryDns (r : appSettings) (dns : string) := setValue r "Conf/secondaryDns" (VString dns).

(** [DEV_AGW_ENDPOINT] is set by the build. *)
Definition getGatewayEndpoint (devEndpoint : string) (r : appSettings) (isTestPurchase : bool) : string :=
  if isTestPurchase then devEndpoint else m_gatewayEndpoint r.
Definition setGatewayEndpoint (r : appSettings) (endpoint : string) : appSettings :=
  setValue (Repository (settings r) endpoint) "Conf/gatewayEndpoint" (VString endpoint).
Definition resetGatewayEndpoint (r : appSettings) : appSettings := setGatewayEndpoint r gatewayEndpoint.
Definition setDevGatewayEndpoint (devEndpoint : string) (r : appSettings) : appSettings :=
  setGatewayEndpoint r devEndpoint.

Definition readGatewayProxyUrls (r : appSettings) (cacheKey : string) : string :=
  if isEmpty cacheKey then "" else toByteArrayV (value r (proxyUrlsKey +:+ cacheKey) VInvalid).
Definition writeGatewayProxyUrls (r : appSettings) (cacheKey proxyUrlsEncrypted : string) : appSettings :=
  if isEmpty cacheKey then r else setValue r (proxyUrlsKey +:+ cacheKey) (VByteArray proxyUrlsEncrypted).

Definition getReadNewsIds (r : appSettings) : list string := toStringListV (value r "News/readIds" VInvalid).
Definition setReadNewsIds (r : appSettings) (ids : list string) := setValue r "News/readIds" (VStringList ids).
Definition xraySavedConfigs (r : appSettings) : string := toByteArrayV (value r "Xray/savedConfigs" VInvalid).
Definition setXraySavedConfigs (r : appSettings) (data : string) :=
  setValue r "Xray/savedConfigs" (VByteArray data).

(** ** The identifier of the installation *)

(** [uuid.remove(0, 1); uuid.chop(1)]. *)
Definition dropBraces (uuid : string) : string :=
  let t := midFrom 1 uuid in leftPart (String.length t - 1) t.

Definition uuidKey : string := "Conf/installationUuid".

(** [freshUuid] is the text of a new [QUuid]. *)
Definition getInstallationUuid (freshUuid : string) (r : appSettings) (createIfNotExists : bool) :
    string * appSettings :=
  let uuid := toStringV (value r uuidKey (VString "")) in
  if createIfNotExists && isEmpty uuid then
    let uuid := dropBraces freshUuid in (uuid, setValue r uuidKey (VString uuid))
  else if containsChar "{" uuid && containsChar "}" uuid then
    let uuid := dropBraces uuid in (uuid, setValue r uuidKey (VString uuid))
  else (uuid, r).

Definition setInstallationUuid (r : appSettings) (uuid : string) : appSettings :=
  setValue r uuidKey (VString uuid).

Definition clearSettings (r : appSettings) : appSettings * list settingsSignal :=
  let '(uuid, r) := getInstallationUuid "" r false in
  (setValue (Repository (sClear (settings r)) (m_gatewayEndpoint r)) uuidKey (VString uuid),
   [settingsCleared]).

(** ** Route modes and sites *)

Definition routeMode (r : appSettings) : option RouteMode :=
  routeModeOf (toIntV (value r "Conf/routeMode" (VInt 0))).
Definition setRouteMode (r : appSettings) (mode : RouteMode) :=
  (setValue r "Conf/routeMode" (VInt (routeModeInt mode)), [routeModeChanged mode]).

Definition sitesKey (mode : RouteMode) : string := "Conf/" +:+ routeModeString mode.

Definition vpnSites (r : appSettings) (mode : RouteMode) : QVariantMap :=
  toMapV (value r (sitesKey mode) VInvalid).

Definition setVpnSites (r : appSettings) (mode : RouteMode) (sites : QVariantMap) : appSettings :=
  setValue r (sitesKey mode) (VMap sites).

Definition addVpnSite (r : appSettings) (mode : RouteMode) (site : string) (ips : list string) :
    bool * appSettings * list settingsSignal :=
  let sites := vpnSites r mode in
  let siteExisted := qcontains sites site in
  if siteExisted && bool_decide (ips = []) then (false, r, [])
  else
    let '(mergedIps, changed) := mergeIps (siteIpList (qvalue VInvalid sites site)) (negb siteExisted) ips in
    if negb changed then (false, r, [])
    else (true, setVpnSites r mode (<[site := VStringList mergedIps]> sites), [sitesChanged mode]).

(** The body of the loop of [addVpnSites] over the new sites. *)
Definition addSiteTo (acc : QVariantMap * bool) (entry : string * list string) : QVariantMap * bool :=
  let '(allSites, changed) := acc in
  let '(site, ips) := entry in
  let previousIps := siteIpList (qvalue VInvalid allSites site) in
  let '(mergedIps, _) := mergeIps previousIps false ips in
  if negb (qcontains allSites site) || negb (bool_decide (mergedIps = previousIps))
  then (<[site := VStringList mergedIps]> allSites, true)
  else (allSites, changed).

Definition addVpnSites (r : appSettings) (mode : RouteMode) (sites : gmap string (list string)) :
    appSettings * list settingsSignal :=
  let '(allSites, changed) := foldl addSiteTo (vpnSites r mode, false) (qitems sites) in
  if negb changed then (r, []) else (setVpnSites r mode allSites, [sitesChanged mode]).

Definition removeVpnSite (r : appSettings) (mode : RouteMode) (site : string) :
    appSettings * list settingsSignal :=
  let sites := vpnSites r mode in
  if negb (qcontains sites site) then (r, [])
  else (setVpnSites r mode (delete site sites), [sitesChanged mode]).

Definition removeAllVpnSites (r : appSettings) (mode : RouteMode) : appSettings * list settingsSignal :=
  (setVpnSites r mode ∅, [sitesChanged mode]).

(** ** Applications *)

Definition appsRouteMode (r : appSettings) : option AppsRouteMode :=
  appsRouteModeOf (toIntV (value r "Conf/appsRouteMode" (VInt 0))).
Definition setAppsRouteMode (r : appSettings) (mode : AppsRouteMode) :=
  (setValue r "Conf/appsRouteMode" (VInt (appsRouteModeInt mode)), [appsRouteModeChanged mode]).

Definition appsKey (mode : AppsRouteMode) : string := "Conf/" +:+ appsRouteModeString mode.

Definition appToJson (app : installedAppInfo) : json :=
  JObject (<["appPath" := JString (appPath app)]> (<["packageName" := JString (packageName app)]>
    (<["appName" := JString (appName app)]> ∅))).

Definition appFromJson (j : json) : installedAppInfo :=
  let o := toObjectJ j in
  AppInfo (toStringJ "" (jvalue o "appName")) (toStringJ "" (jvalue o "packageName"))
    (toStringJ "" (jvalue o "appPath")).

Definition vpnApps (r : appSettings) (mode : AppsRouteMode) : list installedAppInfo :=
  appFromJson <$> toJsonArrayV (value r (appsKey mode) VInvalid).

Definition setVpnApps (r : appSettings) (mode : AppsRouteMode) (apps : list installedAppInfo) :=
  (setValue r (appsKey mode) (VJson (JArray (appToJson <$> apps))), [appsChanged mode]).

(** ** Keys *)

Lemma boolKey_plain o : boolKey o ∉ encryptedKeys.
Proof. apply (bool_decide_unpack _). by destruct o; vm_compute. Qed.

Lemma boolKey_inj o o' : boolKey o = boolKey o' → o = o'.
Proof. by destruct o, o'; vm_compute. Qed.

Lemma sitesKey_plain mode : sitesKey mode ∉ encryptedKeys.
Proof. apply (bool_decide_unpack _). by destruct mode; vm_compute. Qed.

Lemma sitesKey_inj mode mode' : sitesKey mode = sitesKey mode' → mode = mode'.
Proof. by destruct mode, mode'; vm_compute. Qed.

Lemma appsKey_plain mode : appsKey mode ∉ encryptedKeys.
Proof. apply (bool_decide_unpack _). by destruct mode; vm_compute. Qed.

Lemma uuidKey_plain : uuidKey ∉ encryptedKeys.
Proof. apply (bool_decide_unpack _). by vm_compute. Qed.

#[local] Hint Resolve boolKey_plain sitesKey_plain appsKey_plain uuidKey_plain : vpn.

Lemma value_setValue_eq r k v d : k ∉ encryptedKeys → value (setValue r k v) k d = v.
Proof. apply sValue_set_eq. Qed.

Lemma value_setValue_ne r k k' v d :
  k ∉ encryptedKeys → k ≠ k' → value (setValue r k v) k' d = value r k' d.
Proof. apply sValue_set_ne. Qed.

Lemma vpnSites_setVpnSites r mode mode' sites :
  vpnSites (setVpnSites r mode sites) mode' = if decide (mode = mode') then sites else vpnSites r mode'.
Proof.
  unfold vpnSites, setVpnSites. destruct (decide (mode = mode')) as [->|Hne].
  - by rewrite value_setValue_eq by eauto with vpn.
  - rewrite value_setValue_ne; [done|eauto with vpn|]. by intros Heq%sitesKey_inj.
Qed.

(** What is stored for a site. *)
Definition siteIpsOf (r : appSettings) (mode : RouteMode) (site : string) : list string :=
  siteIpList (qvalue VInvalid (vpnSites r mode) site).

Lemma qvalue_insert {V} (d : V) (m : gmap string V) k k' v :
  qvalue d (<[k := v]> m) k' = if decide (k = k') then v else qvalue d m k'.
Proof.
  unfold qvalue. destruct (decide (k = k')) as [->|]; [by rewrite lookup_insert_eq|].
  by rewrite lookup_insert_ne.
Qed.

(** One step of [addVpnSites] on the map. *)
Lemma addSiteTo_spec sites changed site ips sites' changed' :
  addSiteTo (sites, changed) (site, ips) = (sites', changed') →
  (∀ k, siteIpList (qvalue VInvalid sites' k) =
     if decide (k = site) then merge_new (siteIpList (qvalue VInvalid sites k)) (removeAll "" ips)
     else siteIpList (qvalue VInvalid sites k)) ∧
  (∀ k, is_Some (sites' !! k) ↔ is_Some (sites !! k) ∨ k = site) ∧
  (changed' = false → sites' = sites ∧ changed = false).
Proof.
  unfold addSiteTo. rewrite mergeIps_merge_new. set (merged := merge_new _ _).
  destruct (negb _ || negb _) eqn:Hc; intros [= <- <-].
  - split_and!; [|intros k; rewrite lookup_insert_is_Some'; naive_solver|done].
    intros k. rewrite qvalue_insert. destruct (decide (site = k)) as [->|Hne].
    + rewrite decide_True by done. apply siteIpList_stored. unfold merged. eauto with vpn.
    + by rewrite decide_False by done.
  - apply orb_false_iff in Hc as [Hex%negb_false_iff Hm%negb_false_iff].
    apply bool_decide_eq_true in Hex, Hm. split_and!; [|naive_solver|done].
    intros k. destruct (decide (k = site)) as [->|]; [|done]. fold merged. by rewrite Hm.
Qed.

Lemma addSiteTo_fold kvs sites changed sites' changed' :
  NoDup kvs.*1 → foldl addSiteTo (sites, changed) kvs = (sites', changed') →
  (∀ k, siteIpList (qvalue VInvalid sites' k) =
     merge_new (siteIpList (qvalue VInvalid sites k)) (removeAll "" (default [] (list_to_map (M := gmap string _) kvs !! k)))) ∧
  (∀ k, is_Some (sites' !! k) ↔ is_Some (sites !! k) ∨ k ∈ kvs.*1) ∧
  (changed' = false → sites' = sites ∧ changed = false).
Proof.
  revert sites changed. induction kvs as [|[site ips] kvs IH]; intros sites changed Hnd Hf.
  { simpl in Hf. simplify_eq. split_and!; [|set_solver|done]. intros k. simpl. by rewrite lookup_empty. }
  cbn [fmap list_fmap fst] in Hnd. apply NoDup_cons in Hnd as [Hfresh Hnd]. cbn [foldl] in Hf.
  destruct (addSiteTo (sites, changed) (site, ips)) as [sites1 changed1] eqn:H1.
  apply addSiteTo_spec in H1 as (Hv1 & Hd1 & Hc1). apply IH in Hf as (Hv & Hd & Hc); [|done].
  split_and!.
  - intros k. rewrite Hv, Hv1. cbn [list_to_map foldr fst snd uncurry]. destruct (decide (k = site)) as [->|Hne].
    + rewrite lookup_insert_eq. rewrite (not_elem_of_list_to_map_1 _ _ Hfresh). done.
    + rewrite lookup_insert_ne by done. done.
  - intros k. rewrite Hd, Hd1. cbn [fmap list_fmap fst]. set_solver.
  - intros Hch. destruct (Hc Hch) as [-> Hch1]. auto.
Qed.

Lemma addSiteTo_noop kvs sites changed :
  (∀ site ips, (site, ips) ∈ kvs → is_Some (sites !! site) ∧
     merge_new (siteIpList (qvalue VInvalid sites site)) (removeAll "" ips) =
       siteIpList (qvalue VInvalid sites site)) →
  foldl addSiteTo (sites, changed) kvs = (sites, changed).
Proof.
  induction kvs as [|[site ips] kvs IH]; intros Hin; [done|]. cbn [foldl].
  destruct (Hin site ips) as [Hex Hm]; [set_solver|].
  unfold addSiteTo at 2. rewrite mergeIps_merge_new, Hm. unfold qcontains.
  rewrite !bool_decide_true by done. cbn [negb orb]. apply IH. set_solver.
Qed.

(** Adding a site merges the new addresses into the stored ones, in order,
    without empty texts and repetitions; all other sites and route modes keep their
    entries; the repository reports and signals a change exactly when the stored
    sites change. *)
Lemma addVpnSite_spec r mode site ips :
  let '(ok, r', signals) := addVpnSite r mode site ips in
  siteIpsOf r' mode site = merge_new (siteIpsOf r mode site) (removeAll "" ips) ∧
  is_Some (vpnSites r' mode !! site) ∧
  (∀ site', site' ≠ site → vpnSites r' mode !! site' = vpnSites r mode !! site') ∧
  (∀ mode', mode' ≠ mode → vpnSites r' mode' = vpnSites r mode') ∧
  signals = (if ok then [sitesChanged mode] else []) ∧
  (if ok then vpnSites r' mode ≠ vpnSites r mode else r' = r).
Proof.
  unfold addVpnSite, siteIpsOf. rewrite mergeIps_merge_new. set (sites := vpnSites r mode).
  set (old := siteIpList (qvalue VInvalid sites site)). set (merged := merge_new old (removeAll "" ips)).
  destruct (qcontains sites site && bool_decide (ips = [])) eqn:Hnothing.
  { apply andb_true_iff in Hnothing as [Hex%bool_decide_eq_true Hips%bool_decide_eq_true].
    split_and!; try done. unfold merged. by rewrite Hips. }
  destruct (negb (qcontains sites site) || negb (bool_decide (merged = old))) eqn:Hch; cbn [negb].
  - rewrite vpnSites_setVpnSites, decide_True by done.
    assert (Hm : siteIpList (VStringList merged) = merged) by (apply siteIpList_stored; unfold merged; eauto with vpn).
    split_and!; [|by rewrite lookup_insert_eq| | |done|].
    + rewrite qvalue_insert, decide_True by done. exact Hm.
    + intros site' Hne. by rewrite lookup_insert_ne.
    + intros mode' Hne. by rewrite vpnSites_setVpnSites, decide_False.
    + intros Heq. apply orb_true_iff in Hch as [Hex|Hm'].
      * apply negb_true_iff, bool_decide_eq_false in Hex. apply Hex.
        rewrite <-Heq, lookup_insert_eq. eauto.
      * apply negb_true_iff, bool_decide_eq_false in Hm'. apply Hm'. unfold old.
        rewrite <-Heq, qvalue_insert, decide_True by done. by rewrite Hm.
  - apply orb_false_iff in Hch as [Hex%negb_false_iff Hm%negb_false_iff].
    apply bool_decide_eq_true in Hex, Hm. by split_and!.
Qed.

(** Adding a map of sites merges the addresses of each of them, keeps every other
    site and mode, and adding the same map again changes nothing and emits nothing. *)
Lemma addVpnSites_spec r mode sites :
  let '(r', signals) := addVpnSites r mode sites in
  (∀ site, siteIpsOf r' mode site =
     merge_new (siteIpsOf r mode site) (removeAll "" (default [] (sites !! site)))) ∧
  (∀ site, is_Some (vpnSites r' mode !! site) ↔ is_Some (vpnSites r mode !! site) ∨ is_Some (sites !! site)) ∧
  (∀ mode', mode' ≠ mode → vpnSites r' mode' = vpnSites r mode') ∧
  addVpnSites r' mode sites = (r', []).
Proof.
  unfold addVpnSites at 1. destruct (foldl addSiteTo _ _) as [all changed] eqn:Hf.
  apply addSiteTo_fold in Hf as (Hv & Hd & Hc); [|apply NoDup_qkeys].
  rewrite qitems_list_to_map in Hv.
  assert (Hkeys : ∀ k, k ∈ (qitems sites).*1 ↔ is_Some (sites !! k)) by apply elem_of_qkeys.
  setoid_rewrite Hkeys in Hd.
  assert (Hnoop : foldl addSiteTo (all, false) (qitems sites) = (all, false)).
  { apply addSiteTo_noop. intros site ips Hin%elem_of_qitems. split; [apply Hd; eauto|].
    rewrite Hv, Hin. apply merge_new_idemp. }
  destruct changed; cbn [negb].
  - unfold siteIpsOf, addVpnSites. rewrite vpnSites_setVpnSites, decide_True by done.
    rewrite Hnoop. split_and!; [done|done| |done].
    intros mode' Hne. by rewrite vpnSites_setVpnSites, decide_False.
  - destruct Hc as [-> _]; [done|]. unfold siteIpsOf, addVpnSites. rewrite Hnoop. done.
Qed.

(** Removing a site removes its entry and nothing else. *)
Lemma removeVpnSite_spec r mode site :
  let '(r', signals) := removeVpnSite r mode site in
  vpnSites r' mode = delete site (vpnSites r mode) ∧
  (∀ mode', mode' ≠ mode → vpnSites r' mode' = vpnSites r mode') ∧
  (signals = [] ↔ vpnSites r mode !! site = None).
Proof.
  unfold removeVpnSite, qcontains. case_bool_decide as Hex; cbn [negb].
  - rewrite vpnSites_setVpnSites, decide_True by done. split_and!; [done| |].
    + intros mode' Hne. by rewrite vpnSites_setVpnSites, decide_False.
    + destruct Hex as [v Hv]. rewrite Hv. done.
  - apply eq_None_not_Some in Hex. split_and!; [by rewrite delete_id|done|done].
Qed.

(** The stored addresses of every site of a mode. *)
Definition storedSites (r : appSettings) (mode : RouteMode) : gmap string (list string) :=
  siteIpList <$> vpnSites r mode.

Lemma siteIpsOf_stored r mode site : siteIpsOf r mode site = qvalue [] (storedSites r mode) site.
Proof. unfold siteIpsOf, storedSites, qvalue. rewrite lookup_fmap. by destruct (_ !! _). Qed.

Lemma storedSites_is_Some r mode site : is_Some (storedSites r mode !! site) ↔ is_Some (vpnSites r mode !! site).
Proof. unfold storedSites. by rewrite lookup_fmap, fmap_is_Some. Qed.

Lemma storedSites_addVpnSite r mode site ips :
  storedSites (addVpnSite r mode site ips).1.2 mode =
    <[site := merge_new (qvalue [] (storedSites r mode) site) (removeAll "" ips)]> (storedSites r mode).
Proof.
  pose proof (addVpnSite_spec r mode site ips) as Hs.
  destruct (addVpnSite r mode site ips) as [[ok r'] signals]. destruct Hs as (Hv & [v Hsome] & Hne & _).
  cbn [fst snd]. rewrite <-siteIpsOf_stored, <-Hv. apply map_eq. intros k.
  destruct (decide (k = site)) as [->|Hk].
  - rewrite lookup_insert_eq. unfold siteIpsOf, storedSites, qvalue. by rewrite lookup_fmap, Hsome.
  - rewrite lookup_insert_ne by done. unfold storedSites. by rewrite !lookup_fmap, Hne.
Qed.

Lemma storedSites_addVpnSites r mode sites k :
  storedSites (addVpnSites r mode sites).1 mode !! k =
    if decide (is_Some (storedSites r mode !! k) ∨ is_Some (sites !! k))
    then Some (merge_new (qvalue [] (storedSites r mode) k) (removeAll "" (qvalue [] sites k))) else None.
Proof.
  pose proof (addVpnSites_spec r mode sites) as Hs.
  destruct (addVpnSites r mode sites) as [r' signals]. destruct Hs as (Hv & Hsome & _). cbn [fst].
  specialize (Hsome k). specialize (Hv k). rewrite !siteIpsOf_stored in Hv. rewrite <-!storedSites_is_Some in Hsome.
  fold (qvalue [] sites k) in Hv. case_decide as Hd.
  - destruct (storedSites r' mode !! k) as [v|] eqn:Hl; [|by destruct (proj2 Hsome Hd)].
    rewrite <-Hv. unfold qvalue. by rewrite Hl.
  - apply eq_None_not_Some. tauto.
Qed.

Lemma storedSites_setVpnSites r mode sites :
  storedSites (setVpnSites r mode sites) mode = siteIpList <$> sites.
Proof. unfold storedSites. by rewrite vpnSites_setVpnSites, decide_True. Qed.

Lemma storedSites_removeVpnSite r mode site :
  storedSites (removeVpnSite r mode site).1 mode = delete site (storedSites r mode).
Proof.
  pose proof (removeVpnSite_spec r mode site) as Hs.
  destruct (removeVpnSite r mode site) as [r' signals]. destruct Hs as (Hv & _). cbn [fst].
  unfold storedSites. by rewrite Hv, fmap_delete.
Qed.

(** ** Properties *)

(** The boolean settings are independent of each other: after one is written it
    reads as written, and every other one reads as before. *)
Lemma getBool_setBool r o o' b :
  getBool (setBool r o b) o' = if decide (o = o') then b else getBool r o'.
Proof.
  unfold getBool, setBool. destruct (decide (o = o')) as [->|Hne].
  - by rewrite value_setValue_eq by eauto with vpn.
  - rewrite value_setValue_ne; [done|eauto with vpn|]. by intros Heq%boolKey_inj.
Qed.

(** The list of applications that was set is the list that is read. *)
Lemma vpnApps_roundtrip r mode apps : vpnApps (setVpnApps r mode apps).1 mode = apps.
Proof.
  unfold vpnApps, setVpnApps. cbn [fst]. rewrite value_setValue_eq by eauto with vpn.
  cbn [toJsonArrayV]. rewrite <-list_fmap_compose. rewrite <-(list_fmap_id apps) at 2.
  apply list_fmap_ext. intros i [name package path] _. vm_compute. done.
Qed.

(** Clearing the settings sets every boolean option and every list of sites back
    to its default and keeps the identifier of the installation, without braces. *)
Lemma clearSettings_spec r fresh :
  let r' := (clearSettings r).1 in
  (∀ o, getBool r' o = boolDefault o) ∧
  (∀ mode, vpnSites r' mode = ∅) ∧
  toStringV (value r' uuidKey (VString "")) = (getInstallationUuid fresh r false).1.
Proof.
  unfold clearSettings.
  assert (Huuid : (getInstallationUuid "" r false).1 = (getInstallationUuid fresh r false).1).
  { unfold getInstallationUuid. cbn [andb]. by destruct (_ && _). }
  destruct (getInstallationUuid "" r false) as [uuid r1]. cbn [fst] in *. split_and!.
  - intros o. unfold getBool. rewrite value_setValue_ne; [|eauto with vpn|by destruct o; vm_compute].
    unfold value. cbn [settings]. by rewrite sValue_clear.
  - intros mode. unfold vpnSites. rewrite value_setValue_ne; [|eauto with vpn|by destruct mode; vm_compute].
    unfold value. cbn [settings]. by rewrite sValue_clear.
  - by rewrite value_setValue_eq by eauto with vpn.
Qed.
End repository.

#[global] Arguments appSettings S : clear implicits.

(** ** The store of [SecureSettings] *)

Section instance.
Context {KC : Type} `{Keychain KC} `{SettingsCodec} (platformEncrypts : bool).

Lemma secure_value_set_eq (s : secureQSettings KC) k v d :
  k ∉ encryptedKeys → (readValue (SecureSettings.setValue platformEncrypts s k v) k d).1 = v.
Proof.
  intros Hk. unfold readValue. destruct (setValue_cache platformEncrypts s k v) as (-> & _).
  - unfold listContains. rewrite bool_decide_false by done. apply andb_false_r.
  - by rewrite lookup_insert_eq.
Qed.

Lemma secure_value_set_plain (s : secureQSettings KC) k k' v d :
  encryptionRequired platformEncrypts s && listContains encryptedKeys k = false → k ≠ k' →
  (readValue (SecureSettings.setValue platformEncrypts s k v) k' d).1 = (readValue s k' d).1.
Proof.
  intros Hk Hne. unfold SecureSettings.setValue. rewrite Hk. unfold readValue. cbn [cache disk setCache setDisk]. rewrite !lookup_insert_ne by done.
  destruct (cache s !! k'); [done|]. destruct (disk s !! k') as [raw|]; [|done].
  destruct (isMarked raw); [|done]. unfold keysAvailable, getEncKey, decryptText, getEncKey, getEncIv.
  cbn [encKey encIv keychain setCache setDisk].
  destruct (loadTag settingsKeyTag _ _) as [[key member] kc]. destruct (isEmpty key); [done|].
  cbn [encKey encIv keychain setEncKey setCache setDisk].
  destruct (loadTag settingsIvTag _ _) as [[iv member'] kc']. destruct (isEmpty iv); [done|].
  cbn [negb encKey encIv keychain setEncKey setEncIv setCache setDisk].
  destruct (loadTag settingsKeyTag _ _) as [[key2 member2] kc2]. cbn [encKey encIv keychain setEncKey setEncIv].
  destruct (loadTag settingsIvTag _ _) as [[iv3 member3] kc3]. done.
Qed.

Lemma secure_value_set_ne (s : secureQSettings KC) k k' v d :
  k ∉ encryptedKeys → k ≠ k' →
  (readValue (SecureSettings.setValue platformEncrypts s k v) k' d).1 = (readValue s k' d).1.
Proof.
  intros Hk. apply secure_value_set_plain. unfold listContains. rewrite bool_decide_false by done. apply andb_false_r.
Qed.

Lemma secure_value_clear (s : secureQSettings KC) k d :
  (readValue (SecureSettings.clearSettings s) k d).1 = d.
Proof. unfold readValue. simpl. by rewrite !lookup_empty. Qed.

(** The encrypted store gives the repository what it needs. *)
#[export] Instance secureStore : SettingsStore (secureQSettings KC) := {|
  sValue s k d := (readValue s k d).1;
  sSet := SecureSettings.setValue platformEncrypts;
  sClear := SecureSettings.clearSettings;
  sValue_set_eq := secure_value_set_eq;
  sValue_set_ne := secure_value_set_ne;
  sValue_clear := secure_value_clear;
|}.
End instance.

(** ** Witnesses *)

#[local] Instance sampleStore : SettingsStore (secureQSettings unit) :=
  @secureStore unit sampleKeychain sampleCodec true.

Definition sampleRepository : appSettings (secureQSettings unit) :=
  construct (Settings (<["Conf/ExceptSites" := VMap (<["a.com" := VString "1.1.1.1"]> ∅)]> ∅) ∅ "" "" true tt).

Lemma getBool_setBool_example :
  getBool (setBool sampleRepository AutoConnect true) KillSwitchEnabled =
    if decide (AutoConnect = KillSwitchEnabled) then true else getBool sampleRepository KillSwitchEnabled.
Proof. apply (getBool_setBool sampleRepository). Defined.

Lemma vpnApps_roundtrip_example :
  vpnApps (setVpnApps sampleRepository VpnAllExceptApps [AppInfo "a" "org.a" "/a"]).1 VpnAllExceptApps =
    [AppInfo "a" "org.a" "/a"].
Proof. apply (vpnApps_roundtrip sampleRepository). Defined.

Lemma clearSettings_spec_example :
  vpnSites (clearSettings sampleRepository).1 VpnAllExceptSites = ∅.
Proof. destruct (clearSettings_spec sampleRepository "") as (_ & Hs & _). exact (Hs _). Defined.
