(* ===== verification/SplitController.v ===== *)
(** * The split tunnelling controller ([core/controllers/ipSplitTunnelingController.cpp])

    The controller keeps the list of sites of the current route mode in memory and in
    the settings, and resolves the addresses of host rules.  A function that makes a
    rule from a text without a host has undefined behaviour in the source
    ([SplitTunnel.fromText]); the operations return [None] there.  The signals of the
    repository are dropped, the controller's own signal [siteCheckChanged] is kept.

    [QHostInfo::lookupHost] hands out the identifiers of lookups; [nextLookupId] is
    the next one. *)

From Stdlib Require Import Ascii.
From S2P Require Import Prelude QtCore Regex Variant NetworkUtilities SplitTunnel SecureSettings AppSettings.
From stdpp Require Import options.

Inductive CheckState := Unchecked | Resolving | Resolved | Failed | Dynamic | Address.

#[export] Instance CheckState_eq_dec : EqDecision CheckState.
Proof. solve_decision. Defined.

Record SiteCheck := Check { state : CheckState; error : string; lookupId : Z }.

Definition uncheckedSite : SiteCheck := Check Unchecked "" (-1).

(** [QHostInfo] as far as it is used: the lookup, whether it failed and the text of
    the error, and the addresses. *)
Record hostInfo := HostInfo {
  infoLookupId : Z;
  infoError : option string;
  infoAddresses : list hostAddress;
}.

Section controller.
Context {S : Type} `{SettingsStore S} `{HostAddressText}.

Record splitController := Controller {
  repository : appSettings S;
  currentRouteMode : RouteMode;
  sites : list (string * list string);
  siteChecks : gmap string SiteCheck;
  nextLookupId : Z;
}.

Definition setRepository (c : splitController) (r : appSettings S) : splitController :=
  Controller r (currentRouteMode c) (sites c) (siteChecks c) (nextLookupId c).
Definition setSites (c : splitController) (l : list (string * list string)) : splitController :=
  Controller (repository c) (currentRouteMode c) l (siteChecks c) (nextLookupId c).
Definition setChecks (c : splitController) (m : gmap string SiteCheck) : splitController :=
  Controller (repository c) (currentRouteMode c) (sites c) m (nextLookupId c).

Definition currentSites (c : splitController) : QVariantMap :=
  vpnSites (repository c) (currentRouteMode c).

Definition clearChecks (c : splitController) : splitController := setChecks c ∅.

Definition validateHostname (hostname : string) : option bool :=
  rule ← fromText hostname; Some (isValid rule).

Definition normalizeHostname (hostname : string) : string :=
  let normalized := replace (replace (replace hostname "https://" "") "http://" "") "ftp://" "" in
  if exactMatch ipAddressWithSubnetRegExp normalized then normalized
  else match skipEmpty (splitChar "/" normalized) with [] => "" | part :: _ => part end.

(** ** Loading *)

(** One entry of the stored map, normalised. *)
Definition normalizeEntry (acc : QVariantMap) (entry : string * variant) : option QVariantMap :=
  rule ← fromText entry.1;
  let hostname := normalizedText rule in
  valid ← validateHostname hostname;
  Some (if (valid : bool) then
          let ips := siteIpList (qvalue VInvalid acc hostname) in
          let '(ips, _) := mergeIps ips false (trimmed <$> siteIpList entry.2) in
          <[hostname := VStringList ips]> acc
        else acc).

Fixpoint foldM {A B} (f : A → B → option A) (a : A) (l : list B) : option A :=
  match l with [] => Some a | b :: l => a ← f a b; foldM f a l end.

(** [normalizedSitesMap != sitesMap]: two maps of variants are the same when their
    values are. *)
Definition sameSites (m : QVariantMap) (stored : QVariantMap) : bool :=
  bool_decide (qkeys m = qkeys stored) &&
  forallb (λ kv, match kv.2, m !! kv.1 with
                 | VStringList l, Some (VStringList l') => bool_decide (l = l')
                 | _, _ => false
                 end) (qitems stored).

Definition fillSites (c : splitController) : option splitController :=
  let sitesMap := currentSites c in
  normalizedSitesMap ← foldM normalizeEntry ∅ (qitems sitesMap);
  let c := setSites c ((λ kv, (kv.1, siteIpList kv.2)) <$> qitems normalizedSitesMap) in
  Some (if negb (sameSites normalizedSitesMap sitesMap) then
          let r := (removeAllVpnSites (repository c) (currentRouteMode c)).1 in
          setRepository c (addVpnSites r (currentRouteMode c) (siteIpList <$> normalizedSitesMap)).1
        else c).

Definition construct (r : appSettings S) : option splitController :=
  mode ← routeMode r;
  fillSites (if bool_decide (mode = VpnAllSites)
             then Controller (setRouteMode r VpnOnlyForwardSites).1 VpnOnlyForwardSites [] ∅ 0
             else Controller r mode [] ∅ 0).

(** ** Checks *)

Definition siteCheck (c : splitController) (hostname : string) : option SiteCheck :=
  rule ← fromText hostname;
  Some (if bool_decide (type rule = IpSubnet) then Check Address "" (-1)
        else if isDynamicHostRule rule then Check Dynamic "" (-1)
        else qvalue uncheckedSite (siteChecks c) (normalizedText rule)).

(** The controller and the host whose check changed, if any. *)
Definition checkSite (c : splitController) (hostname : string) :
    option (splitController * option string) :=
  rule ← fromText hostname;
  let host := normalizedText rule in
  Some (if negb (bool_decide (type rule = ExactHost)) || negb (qcontains (currentSites c) host)
        then (c, None)
        else if bool_decide (state (qvalue uncheckedSite (siteChecks c) host) = Resolving)
        then (c, None)
        else (Controller (repository c) (currentRouteMode c) (sites c)
                (<[host := Check Resolving "" (nextLookupId c)]> (siteChecks c)) (nextLookupId c + 1),
              Some host)).

(** ** Adding *)

(** The loop over [m_sites] that changes the first entry of a host. *)
Fixpoint updateSite (hostname : string) (ips : list string) (l : list (string * list string)) :
    list (string * list string) :=
  match l with
  | [] => []
  | (h, old) :: l =>
      if bool_decide (h = hostname) then (h, ips) :: l else (h, old) :: updateSite hostname ips l
  end.

Fixpoint findSite (hostname : string) (l : list (string * list string)) : option (list string) :=
  match l with
  | [] => None
  | (h, ips) :: l => if bool_decide (h = hostname) then Some ips else findSite hostname l
  end.

Definition addSiteInternal (c : splitController) (hostname : string) (ips : list string) :
    bool * splitController :=
  if qcontains (currentSites c) hostname && bool_decide (ips = []) then (false, c)
  else
    let stored := (addVpnSite (repository c) (currentRouteMode c) hostname ips).1.2 in
    match findSite hostname (sites c) with
    | Some old =>
        let '(merged, changed) := mergeIps old false ips in
        if negb changed then (false, c)
        else (true, setRepository (setSites c (updateSite hostname merged (sites c))) stored)
    | None => (true, setRepository (setSites c (sites c ++ [(hostname, ips)])) stored)
    end.

Definition processSite (c : splitController) (hostname : string) (ips : list string) : splitController :=
  (addSiteInternal c hostname ips).2.

Definition addSite (c : splitController) (hostname : string) : option (bool * splitController) :=
  rule ← fromText hostname;
  let normalizedHostname := normalizedText rule in
  valid ← validateHostname normalizedHostname;
  if negb (valid : bool) then Some (false, c)
  else if bool_decide (type rule = IpSubnet) || isDynamicHostRule rule
  then Some (true, processSite c normalizedHostname [])
  else
    let '(added, c) := addSiteInternal c normalizedHostname [] in
    if added then '(c, _) ← checkSite c normalizedHostname; Some (true, c) else Some (false, c).

(** One entry of the map given to [addSites], normalised. *)
Definition normalizeSites (acc : gmap string (list string)) (entry : string * list string) :
    option (gmap string (list string)) :=
  rule ← fromText entry.1;
  let hostname := normalizedText rule in
  valid ← validateHostname hostname;
  Some (if (valid : bool) then
          <[hostname := (mergeIps (qvalue [] acc hostname) false (trimmed <$> entry.2)).1]> acc
        else acc).

(** The loop that merges one normalised site into [m_sites]. *)
Definition mergeSite (l : list (string * list string)) (entry : string * list string) :
    list (string * list string) :=
  match findSite entry.1 l with
  | Some old => updateSite entry.1 (mergeIps old false entry.2).1 l
  | None => l ++ [entry]
  end.

Definition addSites (c : splitController) (newSites : gmap string (list string)) (replaceExisting : bool) :
    option splitController :=
  normalizedSites ← foldM normalizeSites ∅ (qitems newSites);
  let c := if replaceExisting then setSites (clearChecks c) [] else c in
  let c := setSites c (foldl mergeSite (sites c) (qitems normalizedSites)) in
  let r := if replaceExisting
           then (removeAllVpnSites (repository c) (currentRouteMode c)).1 else repository c in
  let c := setRepository c (addVpnSites r (currentRouteMode c) normalizedSites).1 in
  foldM (λ c entry, if bool_decide (entry.2 = []) then '(c, _) ← checkSite c entry.1; Some c else Some c)
    c (qitems normalizedSites).

(** ** Removing and switching *)

Fixpoint removeFirst (hostname : string) (l : list (string * list string)) : list (string * list string) :=
  match l with
  | [] => []
  | (h, ips) :: l => if bool_decide (h = hostname) then l else (h, ips) :: removeFirst hostname l
  end.

Definition removeSite (c : splitController) (hostname : string) : bool * splitController :=
  match findSite hostname (sites c) with
  | Some _ =>
      let c := setChecks c (delete hostname (siteChecks c)) in
      let c := setSites c (removeFirst hostname (sites c)) in
      (true, setRepository c (removeVpnSite (repository c) (currentRouteMode c) hostname).1)
  | None => (false, c)
  end.

Definition removeSites (c : splitController) : splitController :=
  let c := setSites (clearChecks c) [] in
  setRepository c (removeAllVpnSites (repository c) (currentRouteMode c)).1.

Definition switchRouteMode (c : splitController) (mode : RouteMode) : option splitController :=
  let c := clearChecks c in
  c ← fillSites (Controller (repository c) mode (sites c) (siteChecks c) (nextLookupId c));
  Some (setRepository c (setRouteMode (repository c) mode).1).

Definition toggleSplitTunneling (c : splitController) (enabled : bool) : splitController :=
  setRepository c (setSitesSplitTunnelingEnabled (repository c) enabled).1.

(** ** Lookups *)

Definition processSiteAfterResolve (c : splitController) (hostname : string) (ips : list string) :
    splitController :=
  let c := match findSite hostname (sites c) with
           | Some old => setSites c (updateSite hostname (mergeIps old false ips).1 (sites c))
           | None => c
           end in
  setRepository c (addVpnSite (repository c) (currentRouteMode c) hostname ips).1.2.

Definition noIpv4Text : string := "No IPv4 addresses returned".

Definition onHostResolved (c : splitController) (hostname : string) (info : hostInfo) :
    splitController * option string :=
  match siteChecks c !! hostname with
  | None => (c, None)
  | Some check =>
      if negb (bool_decide (state check = Resolving)) || negb (lookupId check =? infoLookupId info)%Z
      then (c, None)
      else
        let allIpv4 := dedup (printHost <$> filter (λ a, isIPv4 a = true) (infoAddresses info)) in
        match infoError info with
        | None =>
            if bool_decide (allIpv4 = []) then
              (setChecks c (<[hostname := Check Failed noIpv4Text (-1)]> (siteChecks c)), Some hostname)
            else
              (processSiteAfterResolve
                 (setChecks c (<[hostname := Check Resolved "" (-1)]> (siteChecks c))) hostname allIpv4,
               Some hostname)
        | Some text =>
            (setChecks c (<[hostname := Check Failed text (-1)]> (siteChecks c)), Some hostname)
        end
  end.

(** ** Import and export *)

(** One element of the imported array. *)
Definition importEntry (acc : gmap string (list string)) (j : json) : option (gmap string (list string)) :=
  let o := toObjectJ j in
  let hostname := trimmed (toStringJ "" (jvalue o "hostname")) in
  let ips := if isArrayJ (jvalue o "ips") then toStringJ "" <$> toArrayJ (jvalue o "ips") else [] in
  let singleIp := toStringJ "" (jvalue o "ip") in
  let ips := if isEmpty singleIp then ips else ips ++ [singleIp] in
  let ips := dedup (removeAll "" ips) in
  rule ← fromText hostname;
  valid ← validateHostname (normalizedText rule);
  Some (if (valid : bool) then <[normalizedText rule := ips]> acc else acc).

(** [document] is the parsed document, [None] when it does not parse. *)
Definition importSitesFromJson (c : splitController) (document : option json) (replaceExisting : bool) :
    option (bool * splitController) :=
  match document with
  | Some (JArray jsonArray) =>
      newSites ← foldM importEntry ∅ jsonArray;
      c ← addSites c newSites replaceExisting;
      Some (true, c)
  | _ => Some (false, c)
  end.

Definition exportSite (site : string * list string) : json :=
  JObject (<["ip" := JString (match site.2 with [] => "" | ip :: _ => ip end)]>
    (<["ips" := JArray (JString <$> site.2)]> (<["hostname" := JString site.1]> ∅))).

Definition exportSitesToJson (c : splitController) : json := JArray (exportSite <$> sites c).

(** ** The list in memory *)

Notation memory l := (list_to_map (M := gmap string (list string)) l).

Lemma findSite_memory h l : findSite h l = memory l !! h.
Proof.
  induction l as [|[h' ips] l IH]; cbn; [done|]. case_bool_decide as Hh.
  - subst. by rewrite lookup_insert_eq.
  - by rewrite lookup_insert_ne.
Qed.

Lemma updateSite_memory h ips l :
  h ∈ l.*1 → memory (updateSite h ips l) = <[h := ips]> (memory l) ∧ (updateSite h ips l).*1 = l.*1.
Proof.
  induction l as [|[h' old] l IH]; cbn; [set_solver|]. intros Hin. case_bool_decide as Hh.
  - subst. cbn. by rewrite insert_insert_eq.
  - destruct IH as [Hm Hk]; [set_solver|]. cbn. rewrite Hm, Hk. split; [|done].
    by rewrite insert_insert_ne by congruence.
Qed.

Lemma removeFirst_memory h l :
  NoDup l.*1 → memory (removeFirst h l) = delete h (memory l) ∧ NoDup (removeFirst h l).*1 ∧
  (∀ h', h' ∈ (removeFirst h l).*1 ↔ h' ∈ l.*1 ∧ h' ≠ h).
Proof.
  induction l as [|[h' ips] l IH]; cbn; [by rewrite delete_empty; set_solver|].
  intros [Hfresh Hnd]%NoDup_cons. case_bool_decide as Hh.
  - subst. rewrite delete_insert_eq, delete_id by by apply not_elem_of_list_to_map_1.
    split_and!; [done..|set_solver].
  - destruct IH as (Hm & Hn & Hin); [done|]. cbn. rewrite Hm. split_and!.
    + by rewrite delete_insert_ne by congruence.
    + apply NoDup_cons. split; [|done]. rewrite Hin. set_solver.
    + intros x. rewrite !elem_of_cons, Hin. naive_solver.
Qed.

Lemma elem_of_memory h l : h ∈ l.*1 ↔ is_Some (memory l !! h).
Proof.
  split; [|by intros [ips Hl%elem_of_list_to_map_2]; apply list_elem_of_fmap_2' with (x := (h, ips))].
  intros Hin. destruct (memory l !! h) eqn:Hl; [done|]. by apply not_elem_of_list_to_map_2 in Hl.
Qed.

Lemma mergeSite_memory l h ips :
  cleanIps ips → NoDup l.*1 →
  memory (mergeSite l (h, ips)) = <[h := merge_new (qvalue [] (memory l) h) (removeAll "" ips)]> (memory l) ∧
  NoDup (mergeSite l (h, ips)).*1.
Proof.
  intros [Hn He] Hnd. unfold mergeSite. cbn [fst snd]. rewrite findSite_memory. unfold qvalue.
  destruct (memory l !! h) as [old|] eqn:Hl; cbn [default].
  - destruct (updateSite_memory h (mergeIps old false ips).1 l) as [-> ->]; [apply elem_of_memory; eauto|].
    by rewrite mergeIps_merge_new.
  - rewrite removeAll_id, merge_new_NoDup by set_solver. cbn [app].
    apply not_elem_of_list_to_map_2 in Hl. split; [by rewrite list_to_map_snoc|].
    rewrite fmap_app. apply NoDup_app. split_and!; [done|set_solver|apply NoDup_singleton].
Qed.

Lemma mergeSite_fold l kvs :
  NoDup l.*1 → NoDup kvs.*1 → Forall (λ kv, cleanIps kv.2) kvs →
  NoDup (foldl mergeSite l kvs).*1 ∧
  ∀ k, memory (foldl mergeSite l kvs) !! k =
    if decide (is_Some (memory l !! k) ∨ is_Some (memory kvs !! k))
    then Some (merge_new (qvalue [] (memory l) k) (removeAll "" (qvalue [] (memory kvs) k))) else None.
Proof.
  revert l. induction kvs as [|[h ips] kvs IH]; intros l Hl Hkvs Hc; cbn [foldl].
  { split; [done|]. intros k. cbn. unfold qvalue. rewrite !lookup_empty.
    case_decide as Hd; destruct (memory l !! k); naive_solver. }
  cbn in Hkvs. apply NoDup_cons in Hkvs as [Hfresh Hkvs]. apply Forall_cons in Hc as [Hips Hc].
  destruct (mergeSite_memory l h ips Hips Hl) as [Hm Hnd].
  destruct (IH _ Hnd Hkvs Hc) as [Hnd' Hv]. split; [done|]. intros k. rewrite Hv, Hm. cbn.
  unfold qvalue. destruct (decide (h = k)) as [->|Hne].
  - rewrite !lookup_insert_eq, (not_elem_of_list_to_map_1 _ _ Hfresh). cbn.
    rewrite !decide_True by eauto. done.
  - by rewrite !lookup_insert_ne.
Qed.

(** ** The invariant *)

Definition validSite (h : string) : Prop := validateHostname h = Some true.

(** The list in memory holds each host once, agrees with the settings, holds only
    valid rules, and only its hosts are being checked. *)
Record mirrors (c : splitController) : Prop := Mirrors {
  mirrors_NoDup : NoDup (sites c).*1;
  mirrors_stored : memory (sites c) = storedSites (repository c) (currentRouteMode c);
  mirrors_valid : ∀ h, h ∈ (sites c).*1 → validSite h;
  mirrors_checks : ∀ h, is_Some (siteChecks c !! h) → h ∈ (sites c).*1;
}.

Lemma qcontains_stored c h :
  qcontains (currentSites c) h = bool_decide (is_Some (storedSites (repository c) (currentRouteMode c) !! h)).
Proof. unfold qcontains. apply bool_decide_ext. by rewrite storedSites_is_Some. Qed.

Lemma storedSites_clean r mode h ips : storedSites r mode !! h = Some ips → cleanIps ips.
Proof. unfold storedSites. rewrite lookup_fmap, fmap_Some. intros (v & _ & ->). apply siteIpList_clean. Qed.

(** Adding addresses to a host of the list. *)
Lemma mirrors_update c h old ips r :
  mirrors c → memory (sites c) !! h = Some old →
  storedSites r (currentRouteMode c) =
    <[h := merge_new (qvalue [] (storedSites (repository c) (currentRouteMode c)) h) (removeAll "" ips)]>
      (storedSites (repository c) (currentRouteMode c)) →
  mirrors (setRepository (setSites c (updateSite h (mergeIps old false ips).1 (sites c))) r).
Proof.
  intros [Hnd Hst Hva Hch] Hold Hr.
  destruct (updateSite_memory h (mergeIps old false ips).1 (sites c)) as [Hm Hk];
    [apply elem_of_memory; eauto|].
  split; cbn; rewrite ?Hk; try done. rewrite Hm, Hr, <-Hst. unfold qvalue.
  by rewrite Hold, mergeIps_merge_new.
Qed.

(** Adding a host that is not on the list. *)
Lemma mirrors_append c h r :
  mirrors c → memory (sites c) !! h = None → validSite h →
  storedSites r (currentRouteMode c) = <[h := []]> (storedSites (repository c) (currentRouteMode c)) →
  mirrors (setRepository (setSites c (sites c ++ [(h, [])])) r).
Proof.
  intros [Hnd Hst Hva Hch] Hnew Hh Hr. apply not_elem_of_list_to_map_2 in Hnew. split; cbn.
  - rewrite fmap_app. apply NoDup_app. split_and!; [done|set_solver|apply NoDup_singleton].
  - by rewrite list_to_map_snoc, Hst, Hr.
  - intros h'. rewrite fmap_app, elem_of_app. cbn. set_solver.
  - intros h' Hh'. rewrite fmap_app, elem_of_app. left. by apply Hch.
Qed.

Lemma mirrors_addSiteInternal c h :
  mirrors c → validSite h → mirrors (addSiteInternal c h []).2.
Proof.
  intros Hc Hh. unfold addSiteInternal. rewrite bool_decide_true, andb_true_r by done.
  rewrite qcontains_stored, <-(mirrors_stored c Hc). case_bool_decide as Hin; [done|].
  apply eq_None_not_Some in Hin. rewrite findSite_memory, Hin. apply mirrors_append; [done..|].
  rewrite storedSites_addVpnSite, <-(mirrors_stored c Hc). unfold qvalue. by rewrite Hin.
Qed.

Lemma mirrors_checkSite c h c' sig : mirrors c → checkSite c h = Some (c', sig) → mirrors c'.
Proof.
  intros Hc Hch. unfold checkSite in Hch. apply bind_Some in Hch as (rule & _ & [= Hch]).
  rewrite qcontains_stored, <-(mirrors_stored c Hc) in Hch.
  destruct (negb (bool_decide (type rule = ExactHost))); [by simplify_eq/=|]. cbn [orb] in Hch.
  case_bool_decide as Hin; [|by simplify_eq/=]. cbn [negb] in Hch.
  case_bool_decide; simplify_eq/=; [done|]. destruct Hc as [Hnd Hst Hva Hchk].
  split; cbn; try done. intros h' [Heq|[_ Hh']]%lookup_insert_is_Some; [|by apply Hchk].
  subst. by apply elem_of_memory.
Qed.

Lemma mirrors_addSite c h ok c' : mirrors c → addSite c h = Some (ok, c') → mirrors c'.
Proof.
  intros Hc Ha. unfold addSite in Ha. apply bind_Some in Ha as (rule & _ & Ha).
  apply bind_Some in Ha as ([] & Hv & Ha); cbn [negb] in Ha; [|by simplify_eq].
  pose proof (mirrors_addSiteInternal c _ Hc Hv) as Hadd. unfold processSite in Ha.
  destruct (_ || _); [by simplify_eq|].
  destruct (addSiteInternal c (normalizedText rule) []) as [[] c1]; [|by simplify_eq].
  apply bind_Some in Ha as ([c2 sig] & Hch & [= _ <-]). by eapply mirrors_checkSite.
Qed.

Lemma mirrors_removeSite c h : mirrors c → mirrors (removeSite c h).2.
Proof.
  intros Hc. unfold removeSite. destruct (findSite _ _); [|done].
  destruct Hc as [Hnd Hst Hva Hch]. destruct (removeFirst_memory h (sites c) Hnd) as (Hm & Hn & Hin).
  split; cbn; [done| | |].
  - by rewrite Hm, Hst, storedSites_removeVpnSite.
  - intros h' [Hh' _]%Hin. auto.
  - intros h' Hh'. rewrite Hin. destruct (decide (h' = h)) as [->|Hne].
    + by rewrite lookup_delete_eq in Hh'; destruct Hh'.
    + rewrite lookup_delete_ne in Hh' by done. auto.
Qed.

Lemma mirrors_removeSites c : mirrors (removeSites c).
Proof.
  split; cbn; [apply NoDup_nil_2| |set_solver|by intros h []%lookup_empty_is_Some].
  by rewrite storedSites_setVpnSites, fmap_empty.
Qed.

Lemma mirrors_onHostResolved c h info : mirrors c → mirrors (onHostResolved c h info).1.
Proof.
  intros Hc. unfold onHostResolved. destruct (siteChecks c !! h) as [check|] eqn:Hh; [|done].
  destruct (_ || _); [done|].
  assert (Hchk : ∀ v, mirrors (setChecks c (<[h := v]> (siteChecks c)))).
  { intros v. destruct Hc as [Hnd Hst Hva Hch]. split; cbn; try done.
    intros h' [<-|[_ Hh']]%lookup_insert_is_Some; apply Hch; eauto. }
  destruct (infoError info); [apply Hchk|]. case_bool_decide; [apply Hchk|]. cbn [fst].
  set (c1 := setChecks _ _). assert (Hc1 : mirrors c1) by apply Hchk.
  unfold processSiteAfterResolve. rewrite findSite_memory.
  destruct (memory (sites c1) !! h) as [old|] eqn:Hold.
  - by apply (mirrors_update c1 h old _ _ Hc1 Hold), storedSites_addVpnSite.
  - destruct (mirrors_checks c Hc h); [eauto|..]; apply not_elem_of_list_to_map_2 in Hold;
      destruct Hold; cbn; apply (mirrors_checks c Hc); eauto.
Qed.

(** ** Loading and adding many sites *)

Lemma foldM_inv {A B} (P : A → Prop) (f : A → B → option A) l a a' :
  P a → (∀ a b a', P a → f a b = Some a' → P a') → foldM f a l = Some a' → P a'.
Proof.
  intros Ha Hf. revert a Ha. induction l as [|b l IH]; intros a Ha Hl; simpl in Hl; [by simplify_eq|].
  apply bind_Some in Hl as (a1 & H1 & Hl). eauto.
Qed.

Lemma normalizeSites_valid m kvs m' :
  (∀ h ips, m !! h = Some ips → validSite h ∧ cleanIps ips) →
  foldM normalizeSites m kvs = Some m' →
  ∀ h ips, m' !! h = Some ips → validSite h ∧ cleanIps ips.
Proof.
  intros Hm Hf. refine (foldM_inv (λ m : gmap string (list string),
    ∀ h ips, m !! h = Some ips → validSite h ∧ cleanIps ips) normalizeSites kvs m m' Hm _ Hf).
  clear. intros m [k ips] m' Hm Hn. unfold normalizeSites in Hn. apply bind_Some in Hn as (rule & _ & Hn).
  apply bind_Some in Hn as ([] & Hv & [= <-]); [|done]. intros h l.
  rewrite lookup_insert. case_decide as Hh; [|apply Hm]. intros [= <-]. subst h. split; [done|].
  rewrite mergeIps_merge_new. apply cleanIps_merge. unfold qvalue.
  destruct (m !! normalizedText rule) eqn:Hl; [by eapply Hm|]. split; [apply NoDup_nil_2|apply not_elem_of_nil].
Qed.

Lemma normalizeEntry_valid kvs m' :
  foldM normalizeEntry ∅ kvs = Some m' →
  ∀ h v, m' !! h = Some v → validSite h ∧ ∃ ips, v = VStringList ips ∧ cleanIps ips.
Proof.
  intros Hf. refine (foldM_inv (λ m : QVariantMap, ∀ h v, m !! h = Some v →
    validSite h ∧ ∃ ips, v = VStringList ips ∧ cleanIps ips) normalizeEntry kvs ∅ m' _ _ Hf).
  { intros h v. by rewrite lookup_empty. }
  clear. intros m [k ips] m' Hm Hn. unfold normalizeEntry in Hn. apply bind_Some in Hn as (rule & _ & Hn).
  apply bind_Some in Hn as ([] & Hv & [= Hn]); [|by subst]. rewrite mergeIps_merge_new in Hn. subst m'.
  intros h l. rewrite lookup_insert. case_decide as Hh; [|apply Hm]. intros [= <-]. subst h. split; [done|].
  eexists. split; [done|]. eauto with vpn.
Qed.

Lemma sameSites_eq m stored : sameSites m stored = true → m = stored.
Proof.
  unfold sameSites. intros [Hk%bool_decide_eq_true Hv]%andb_true_iff. apply map_eq. intros k.
  assert (Hdom : is_Some (m !! k) ↔ is_Some (stored !! k)) by by rewrite <-!elem_of_qkeys, Hk.
  destruct (stored !! k) as [v|] eqn:Hs; [|by apply eq_None_not_Some; rewrite Hdom; intros []].
  rewrite forallb_forall in Hv. specialize (Hv (k, v)).
  rewrite <-list_elem_of_In, elem_of_qitems in Hv. specialize (Hv Hs). cbn [fst snd] in Hv.
  destruct v; try done. destruct (m !! k) as [[]|]; try done. apply bool_decide_eq_true in Hv. by subst.
Qed.

Lemma addVpnSites_empty r mode sites :
  storedSites r mode = ∅ → (∀ h ips, sites !! h = Some ips → cleanIps ips) →
  storedSites (addVpnSites r mode sites).1 mode = sites.
Proof.
  intros He Hc. apply map_eq. intros k. rewrite storedSites_addVpnSites, He. unfold qvalue.
  rewrite lookup_empty. cbn [default]. case_decide as Hd; destruct (sites !! k) as [ips|] eqn:Hk.
  - destruct (Hc k ips Hk) as [Hn Hne]. cbn [default]. by rewrite removeAll_id, merge_new_NoDup by set_solver.
  - by destruct Hd as [[]|[]].
  - destruct Hd. eauto.
  - done.
Qed.

Lemma mirrors_fillSites c c' :
  siteChecks c = ∅ → fillSites c = Some c' → mirrors c' ∧ currentRouteMode c' = currentRouteMode c.
Proof.
  intros Hch Hf. unfold fillSites in Hf. apply bind_Some in Hf as (m & Hm & [= <-]).
  pose proof (normalizeEntry_valid _ _ Hm) as Hval. split; [|by destruct (negb _)].
  assert (Hmem : memory ((λ kv, (kv.1, siteIpList kv.2)) <$> qitems m) = siteIpList <$> m).
  { rewrite <-(qitems_list_to_map m) at 2. rewrite <-list_to_map_fmap. done. }
  assert (Hkeys : ((λ kv, (kv.1, siteIpList kv.2)) <$> qitems m).*1 = qkeys m)
    by by rewrite <-list_fmap_compose.
  assert (Hst : ∀ r, storedSites r (currentRouteMode c) = siteIpList <$> m →
    mirrors (setRepository (setSites c ((λ kv, (kv.1, siteIpList kv.2)) <$> qitems m)) r)).
  { intros r Hr. split; cbn [sites setRepository setSites siteChecks repository currentRouteMode];
      rewrite ?Hkeys, ?Hch; [apply NoDup_qkeys|by rewrite Hmem| |by intros h []%lookup_empty_is_Some].
    intros h [v Hv]%elem_of_qkeys. by apply (Hval h v). }
  destruct (sameSites m (currentSites c)) eqn:Hsame; cbn [negb].
  - apply sameSites_eq in Hsame. specialize (Hst (repository c)). destruct c. apply Hst. by subst m.
  - apply Hst, addVpnSites_empty.
    + cbn. by rewrite storedSites_setVpnSites, fmap_empty.
    + intros h ips. rewrite lookup_fmap, fmap_Some. intros (v & _ & ->). apply siteIpList_clean.
Qed.

Lemma storedSites_setValue r k v mode :
  k ∉ encryptedKeys → k ≠ sitesKey mode → storedSites (setValue r k v) mode = storedSites r mode.
Proof. intros Hk Hne. unfold storedSites, vpnSites. by rewrite value_setValue_ne. Qed.

Lemma mirrors_setValue c k v :
  k ∉ encryptedKeys → (∀ mode, k ≠ sitesKey mode) → mirrors c →
  mirrors (setRepository c (setValue (repository c) k v)).
Proof. intros Hk Hne [Hnd Hst Hva Hch]. split; cbn; [done| |done..]. by rewrite storedSites_setValue. Qed.

Lemma mirrors_switchRouteMode c mode c' : switchRouteMode c mode = Some c' → mirrors c'.
Proof.
  unfold switchRouteMode. intros Hs. apply bind_Some in Hs as (c1 & Hf & [= <-]).
  apply mirrors_fillSites in Hf as [Hc _]; [|done].
  apply mirrors_setValue; [set_solver|by intros []|done].
Qed.

Lemma mirrors_toggle c b : mirrors c → mirrors (toggleSplitTunneling c b).
Proof. apply mirrors_setValue; [apply boolKey_plain|by intros []]. Qed.

Lemma mirrors_construct r c : construct r = Some c → mirrors c.
Proof.
  unfold construct. intros Hc. apply bind_Some in Hc as (mode & _ & Hf).
  apply mirrors_fillSites in Hf as [Hc _]; [done|]. by case_bool_decide.
Qed.

Lemma mirrors_addSites c newSites replaceExisting c' :
  mirrors c → addSites c newSites replaceExisting = Some c' → mirrors c'.
Proof.
  intros Hc Ha. unfold addSites in Ha. apply bind_Some in Ha as (m & Hm & Ha).
  assert (Hval : ∀ h ips, m !! h = Some ips → validSite h ∧ cleanIps ips).
  { eapply normalizeSites_valid; [|done]. intros h ips. by rewrite lookup_empty. }
  refine (foldM_inv mirrors _ _ _ _ _ _ Ha); last first.
  { intros c1 [h ips] c2 Hc1 H2. case_bool_decide; [|by simplify_eq].
    apply bind_Some in H2 as ([c3 sig] & Hch & [= ->]). by eapply mirrors_checkSite. }
  set (c1 := if replaceExisting then setSites (clearChecks c) [] else c).
  set (r1 := if replaceExisting then _ else _).
  assert (Hc1 : mirrors (setRepository c1 r1)).
  { destruct replaceExisting; [apply (mirrors_removeSites c)|by destruct c]. }
  destruct Hc1 as [Hnd Hst Hva Hch]. cbn [sites setRepository repository siteChecks currentRouteMode] in *.
  destruct (mergeSite_fold (sites c1) (qitems m)) as [Hnd' Hv]; [done|apply NoDup_qkeys| |].
  { apply Forall_forall. intros [h ips] Hin%elem_of_qitems. by apply (Hval h ips). }
  rewrite qitems_list_to_map in Hv.
  assert (Hkeys : ∀ h, h ∈ (foldl mergeSite (sites c1) (qitems m)).*1 ↔ h ∈ (sites c1).*1 ∨ is_Some (m !! h)).
  { intros h. rewrite !elem_of_memory, Hv. case_decide; naive_solver. }
  split; cbn [sites setRepository setSites repository siteChecks currentRouteMode]; [done| | |].
  - apply map_eq. intros k. by rewrite Hv, storedSites_addVpnSites, Hst.
  - intros h [Hh|[ips Hh]]%Hkeys; [by apply Hva|by apply (Hval h ips)].
  - intros h Hh. apply Hkeys. left. by apply Hch.
Qed.

(** ** Runs of the controller *)

Inductive operation :=
  | AddSite (hostname : string)
  | AddSites (newSites : gmap string (list string)) (replaceExisting : bool)
  | RemoveSite (hostname : string)
  | RemoveSites
  | SetRouteMode (mode : RouteMode)
  | Toggle (enabled : bool)
  | CheckSite (hostname : string)
  | HostResolved (hostname : string) (info : hostInfo)
  | Import (document : option json) (replaceExisting : bool).

Definition perform (c : splitController) (op : operation) : option splitController :=
  match op with
  | AddSite h => snd <$> addSite c h
  | AddSites m b => addSites c m b
  | RemoveSite h => Some (removeSite c h).2
  | RemoveSites => Some (removeSites c)
  | SetRouteMode mode => switchRouteMode c mode
  | Toggle b => Some (toggleSplitTunneling c b)
  | CheckSite h => fst <$> checkSite c h
  | HostResolved h info => Some (onHostResolved c h info).1
  | Import doc b => snd <$> importSitesFromJson c doc b
  end.

Lemma mirrors_perform c op c' : mirrors c → perform c op = Some c' → mirrors c'.
Proof.
  intros Hc. destruct op; cbn [perform]; intros Hp.
  - apply fmap_Some in Hp as ([ok c1] & Ha & ->). by eapply mirrors_addSite.
  - by eapply mirrors_addSites.
  - simplify_eq. by apply mirrors_removeSite.
  - simplify_eq. apply mirrors_removeSites.
  - by eapply mirrors_switchRouteMode.
  - simplify_eq. by apply mirrors_toggle.
  - apply fmap_Some in Hp as ([c1 sig] & Ha & ->). by eapply mirrors_checkSite.
  - simplify_eq. by apply mirrors_onHostResolved.
  - apply fmap_Some in Hp as ([ok c1] & Ha & ->). unfold importSitesFromJson in Ha.
    repeat case_match; simplify_eq; try done.
    apply bind_Some in Ha as (m & _ & Ha). apply bind_Some in Ha as (c2 & Ha & [= _ <-]).
    by eapply mirrors_addSites.
Qed.

(** ** Properties *)

(** C12: from its construction on, whatever the user, the lookups and the imports do,
    the list that the controller shows is the stored list of the current route mode:
    every host once, with the stored addresses, each a valid rule, and lookups run
    only for hosts of the list. *)
Theorem controller_mirrors_settings r ops c0 c :
  construct r = Some c0 → foldM perform c0 ops = Some c → mirrors c.
Proof.
  intros Hc0 Hrun. eapply (foldM_inv mirrors); [by eapply mirrors_construct| |done].
  intros a op a' Ha Hp. by eapply mirrors_perform.
Qed.

(** ** Export and import *)

(** A fold that inserts each entry as it is. *)
Lemma foldM_inserts {B} (f : gmap string (list string) → B → option (gmap string (list string)))
    (g : string * list string → B) l acc :
  NoDup l.*1 → (∀ h, h ∈ l.*1 → acc !! h = None) →
  (∀ acc h ips, (h, ips) ∈ l → acc !! h = None → f acc (g (h, ips)) = Some (<[h := ips]> acc)) →
  foldM f acc (g <$> l) = Some (memory l ∪ acc).
Proof.
  revert acc. induction l as [|[h ips] l IH]; intros acc Hnd Hacc Hf; cbn.
  { by rewrite (left_id_L ∅ (∪)). }
  cbn in Hnd. apply NoDup_cons in Hnd as [Hfresh Hnd].
  rewrite Hf; [|set_solver|apply Hacc; set_solver]. cbn. rewrite IH; [|done| |].
  - f_equal. rewrite <-insert_union_r by by apply not_elem_of_list_to_map_1.
    by rewrite insert_union_l.
  - intros h' Hh'. rewrite lookup_insert_ne; [apply Hacc; set_solver|]. set_solver.
  - intros acc' h' ips' Hin. apply Hf. set_solver.
Qed.

(** A host in the form the rules give it. *)
Definition canonicalHost (h : string) : Prop := ∃ rule, fromText h = Some rule ∧ normalizedText rule = h.

Lemma canonicalHost_trimmed h : validSite h → canonicalHost h → trimmed h = h.
Proof.
  unfold validSite, validateHostname. intros Hv (rule & Hr & Hn). rewrite Hr in Hv. cbn in Hv. injection Hv as Hv.
  destruct (fromText_normalized _ _ Hr) as (_ & Hn' & _).
  pose proof (isValid_ruleChars _ _ Hr Hv) as Hchars. rewrite <-Hn', Hn in Hchars.
  apply trimmed_id. revert Hchars. apply allChars_impl. intros c Hc. by destruct (ruleChar_facts c Hc) as [-> _].
Qed.

Lemma dedup_repeated (ips : list string) x : NoDup ips → x ∈ ips → dedup (ips ++ [x]) = ips.
Proof.
  intros Hn Hx. unfold dedup. rewrite merge_new_app. fold (dedup ips).
  rewrite dedup_NoDup by done. apply merge_new_subset. set_solver.
Qed.

Lemma importEntry_exportSite acc h ips :
  validSite h → canonicalHost h → cleanIps ips →
  importEntry acc (exportSite (h, ips)) = Some (<[h := ips]> acc).
Proof.
  intros Hv Hcan [Hn Hne]. pose proof (canonicalHost_trimmed h Hv Hcan) as Ht. destruct Hcan as (rule & Hr & Hh).
  unfold importEntry, exportSite. cbn [toObjectJ fst snd].
  set (o := <["ip" := _]> _ : QJsonObject).
  assert (jvalue o "hostname" = JString h) as -> by done.
  assert (jvalue o "ips" = JArray (JString <$> ips)) as -> by done.
  assert (jvalue o "ip" = JString (match ips with [] => "" | ip :: _ => ip end)) as -> by done.
  cbn [default toStringJ isArrayJ toArrayJ]. rewrite Ht, Hr. cbn [mbind option_bind]. rewrite Hh.
  unfold validSite in Hv. rewrite Hv. cbn [mbind option_bind]. do 3 f_equal.
  rewrite <-list_fmap_compose, (list_fmap_ext _ id), list_fmap_id by done.
  destruct ips as [|ip ips]; [done|]. destruct ip as [|a ip]; [set_solver|]. cbn [isEmpty].
  rewrite removeAll_id by set_solver. apply dedup_repeated; set_solver.
Qed.

Lemma normalizeSites_id (acc : gmap string (list string)) h ips :
  validSite h → canonicalHost h → cleanIps ips → Forall (λ ip, trimmed ip = ip) ips → acc !! h = None →
  normalizeSites acc (h, ips) = Some (<[h := ips]> acc).
Proof.
  intros Hv (rule & Hr & Hh) [Hn Hne] Ht Hacc. unfold normalizeSites. cbn [fst snd]. rewrite Hr. cbn.
  rewrite Hh, Hv. cbn. do 2 f_equal. unfold qvalue. rewrite Hacc. cbn.
  assert (trimmed <$> ips = ips) as ->.
  { clear Hn Hne. induction Ht as [|ip l Hip _ IH]; cbn; [done|]. by rewrite Hip, IH. }
  rewrite mergeIps_merge_new. cbn [fst]. by rewrite removeAll_id, merge_new_NoDup by set_solver.
Qed.

(** Starting lookups changes neither the list nor the settings. *)
Lemma checkSites_frame c kvs :
  (∀ h ips, (h, ips) ∈ kvs → is_Some (fromText h)) →
  ∃ c', foldM (λ c (entry : string * list string),
                 if bool_decide (entry.2 = []) then '(c, _) ← checkSite c entry.1; Some c else Some c) c kvs = Some c' ∧
    sites c' = sites c ∧ repository c' = repository c.
Proof.
  revert c. induction kvs as [|[h ips] kvs IH]; intros c Hin; [by exists c|].
  assert (Hstep : ∃ c1, (if bool_decide (ips = []) then '(c, _) ← checkSite c h; Some c else Some c) = Some c1 ∧
    sites c1 = sites c ∧ repository c1 = repository c).
  { case_bool_decide; [|by exists c]. destruct (Hin h ips) as [rule Hr]; [set_solver|].
    unfold checkSite. rewrite Hr. cbn. destruct (_ || _); [by exists c|]. case_bool_decide; [by exists c|]. cbn.
    eexists. split; [done|]. done. }
  destruct Hstep as (c1 & Hs & Hsites & Hrepo). destruct (IH c1) as (c' & Hf & Hsites' & Hrepo').
  { intros h' ips' Hh'. apply (Hin h' ips'). set_solver. }
  exists c'. cbn [foldM fst snd]. rewrite Hs. cbn. rewrite Hf. split_and!; [done|congruence..].
Qed.

Lemma addSites_replace c (m : gmap string (list string)) :
  (∀ h ips, m !! h = Some ips →
     validSite h ∧ canonicalHost h ∧ cleanIps ips ∧ Forall (λ ip, trimmed ip = ip) ips) →
  ∃ c', addSites c m true = Some c' ∧ memory (sites c') = m ∧
    storedSites (repository c') (currentRouteMode c) = m.
Proof.
  intros Hm. assert (Hitems : ∀ h ips, (h, ips) ∈ qitems m →
    validSite h ∧ canonicalHost h ∧ cleanIps ips ∧ Forall (λ ip, trimmed ip = ip) ips).
  { intros h ips Hin%elem_of_qitems. by apply Hm. }
  unfold addSites.
  assert (foldM normalizeSites ∅ (qitems m) = Some m) as ->.
  { rewrite <-(list_fmap_id (qitems m)) at 1. rewrite (foldM_inserts normalizeSites id).
    - by rewrite (right_id_L ∅ (∪)), qitems_list_to_map.
    - apply NoDup_qkeys.
    - intros h _. apply lookup_empty.
    - intros acc h ips Hin Hacc. destruct (Hitems h ips Hin) as (? & ? & ? & ?). by apply normalizeSites_id. }
  cbn [mbind option_bind]. destruct (checkSites_frame (setRepository (setSites (setSites (clearChecks c) [])
    (foldl mergeSite [] (qitems m))) (addVpnSites (setVpnSites (repository c) (currentRouteMode c) ∅)
      (currentRouteMode c) m).1) (qitems m)) as (c' & Hf & Hsites & Hrepo).
  { intros h ips Hin. destruct (Hitems h ips Hin) as (_ & (rule & Hr & _) & _). eauto. }
  exists c'. split_and!; [exact Hf| |].
  - rewrite Hsites. cbn [sites setSites setRepository].
    destruct (mergeSite_fold [] (qitems m)) as [_ Hv]; [apply NoDup_nil_2|apply NoDup_qkeys| |].
    { apply Forall_forall. intros [h ips] Hin. by apply (Hitems h ips). }
    apply map_eq. intros k. rewrite Hv, qitems_list_to_map. cbn [list_to_map foldr]. unfold qvalue.
    rewrite lookup_empty. cbn [default]. destruct (m !! k) as [ips|] eqn:Hk.
    + rewrite decide_True by eauto. destruct (Hm k ips Hk) as (_ & _ & [Hn Hne] & _). cbn [default].
      by rewrite removeAll_id, merge_new_NoDup by set_solver.
    + rewrite decide_False; [done|]. by intros [[]|[]].
  - rewrite Hrepo. apply addVpnSites_empty; [by rewrite storedSites_setVpnSites, fmap_empty|].
    intros h ips Hh. by apply (Hm h ips).
Qed.


(** Importing an object without a host name is undefined in the source. *)
Lemma import_without_host c replaceExisting :
  importSitesFromJson c (Some (JArray [JObject ∅])) replaceExisting = None.
Proof. done. Qed.

(** A host that is followed by a space and a path keeps the space: it is listed and
    stored with it, and no lookup is started for it. *)
Lemma addSite_spaced c :
  mirrors c → "example.com " ∉ (sites c).*1 → "example.com" ∉ (sites c).*1 →
  ∃ c', addSite c "example.com /path" = Some (true, c') ∧
    sites c' = sites c ++ [("example.com ", [])] ∧ siteChecks c' = siteChecks c.
Proof.
  intros Hc Hspaced Hplain.
  assert (fromText "example.com /path" = Some (Rule ExactHost "example.com " "example.com ")) as Hr by by_compute.
  assert (validateHostname "example.com " = Some true) as Hv by by_compute.
  assert (fromText "example.com " = Some (Rule ExactHost "example.com" "example.com")) as Hr' by by_compute.
  apply not_elem_of_list_to_map_1 in Hspaced as Hnone, Hplain as Hnone'.
  unfold addSite. rewrite Hr. cbn [mbind option_bind normalizedText]. rewrite Hv.
  cbn [mbind option_bind type negb isDynamicHostRule].
  unfold addSiteInternal. rewrite qcontains_stored, <-(mirrors_stored c Hc), Hnone, findSite_memory, Hnone.
  rewrite (bool_decide_false (is_Some None)) by (by intros []). cbn [andb].
  unfold checkSite. rewrite Hr'. cbn [mbind option_bind normalizedText type].
  rewrite qcontains_stored. cbn [repository currentRouteMode setRepository setSites].
  rewrite storedSites_addVpnSite, lookup_insert_ne, <-(mirrors_stored c Hc), Hnone' by done.
  rewrite (bool_decide_false (is_Some None)) by (by intros []). cbn.
  eexists. split; [done|]. done.
Qed.

End controller.

#[global] Arguments splitController S : clear implicits.

(** ** Concrete instances *)

#[local] Existing Instance sampleStore.
#[local] Existing Instance quadText.

(** A host is added, its lookup answers, and an address is imported. *)
Definition sampleRun : list operation :=
  [AddSite "https://example.com/index";
   HostResolved "example.com" (HostInfo 0 None [HIPv4 (ofOctets 93 184 216 34)]);
   Import (Some (JArray [JObject (<["hostname" := JString "10.0.0.1"]> ∅)])) false].

Lemma controller_mirrors_settings_witness :
  ∃ c, (c0 ← construct sampleRepository; foldM perform c0 sampleRun) = Some c ∧
    sites c = [("example.com", ["93.184.216.34"]); ("10.0.0.1", [])] ∧ mirrors c.
Proof.
  destruct (construct sampleRepository) as [c0|] eqn:H0; [|by exfalso; vm_compute in H0].
  destruct (foldM perform c0 sampleRun) as [c|] eqn:H1;
    [|by exfalso; vm_compute in H0; injection H0 as <-; vm_compute in H1].
  exists c. cbn [mbind option_bind]. split_and!; [done| |].
  - vm_compute in H0. injection H0 as <-. vm_compute in H1. by injection H1 as <-.
  - exact (controller_mirrors_settings sampleRepository sampleRun c0 c H0 H1).
Defined.

Definition emptyController : splitController (secureQSettings unit) :=
  removeSites (Controller sampleRepository VpnOnlyForwardSites [] ∅ 0).

Definition sampleController : splitController (secureQSettings unit) :=
  default emptyController (addSites emptyController (<["a.com" := ["1.1.1.1"; "1.0.0.1"]]> ∅) false).

Lemma sampleController_mirrors : mirrors sampleController.
Proof.
  unfold sampleController. destruct (addSites _ _ _) eqn:Ha; cbn [default].
  - by eapply mirrors_addSites; [apply mirrors_removeSites|].
  - apply mirrors_removeSites.
Qed.

