(* ===== verification/ConnectionHealth.v ===== *)
(** * Connection states, health and error codes

    The enumerations that the connection code shares
    ([core/utils/errorCodes.h], [core/protocols/vpnProtocol.h],
    [core/utils/connectionHealth.h]) with the texts that are shown for them
    ([core/utils/connectionHealth.cpp]).  Texts are the untranslated ones. *)

From S2P Require Import Prelude.
From stdpp Require Import options.

(** ** Error codes *)

Module ErrorCode.

Inductive errorCode :=
    | NoError | UnknownError | InternalError | NotImplementedError | AmneziaServiceNotRunning
    | NotSupportedOnThisPlatform | ServerCheckFailed | ServerPortAlreadyAllocatedError
    | ServerContainerMissingError | ServerDockerFailedError | ServerCancelInstallation
    | ServerUserNotInSudo | ServerPacketManagerError | ServerSudoPackageIsNotPreinstalled
    | ServerUserDirectoryNotAccessible | ServerUserNotAllowedInSudoers | ServerUserPasswordRequired
    | ServerDockerOnCgroupsV2 | ServerCgroupMountpoint | DockerPullRateLimit
    | ServerLinuxKernelTooOld | XrayServerConfigInvalid | XrayServerNoVlessClients
    | XrayRealityKeysReadFailed | ServerContainerRuntimeNotSupported
    | ContainerRuntimeServiceNotRunning | SshRequestDeniedError | SshInterruptedError
    | SshInternalError | SshPrivateKeyError | SshPrivateKeyFormatError | SshTimeoutError
    | SshScpFailureError | OpenVpnConfigMissing | OpenVpnManagementServerError
    | OpenVpnExecutableMissing | AmneziaServiceConnectionFailed | ExecutableMissing
    | XrayExecutableMissing | Tun2SockExecutableMissing | OpenVpnAdaptersInUseError
    | OpenVpnUnknownError | OpenVpnTapAdapterError | AddressPoolError | VpnHandshakeTimeout
    | VpnNoTrafficError | VpnBackendFailure | OpenSslFailed | XrayExecutableCrashed
    | Tun2SockExecutableCrashed | ImportInvalidConfigError | ImportOpenConfigError
    | NoInstalledContainersError | ImportBackupFileUseRestoreInstead | RestoreBackupInvalidError
    | LegacyApiV1NotSupportedError | LegacyContainerNotSupportedError
    | ConfigFormatVersionNotSupportedError | RestoreBackupUnsupportedConfigsSkipped | AndroidError
    | ApiConfigDownloadError | ApiConfigAlreadyAdded | ApiConfigEmptyError | ApiConfigTimeoutError
    | ApiConfigSslError | ApiMissingAgwPublicKey | ApiConfigDecryptionError
    | ApiServicesMissingError | ApiConfigLimitError | ApiNotFoundError | ApiUpdateRequestError
    | ApiSubscriptionExpiredError | ApiPurchaseError | ApiSubscriptionNotActiveError
    | ApiNoPurchasedSubscriptionsError | ApiTrialAlreadyUsedError | ApiCaptchaRequiredError
    | ApiCaptchaInvalidError | ApiCaptchaRefreshError | ApiRateLimitError | ApiNoPurchasesToRestore
    | ApiPurchasePendingError | OpenError | ReadError | PermissionsError | UnspecifiedError
    | FatalError | AbortError | BillingCanceled | BillingError | BillingGooglePlayError
    | BillingUnavailable | SubscriptionAlreadyOwned | SubscriptionUnavailable | BillingNetworkError.

Definition errorNumber (e : errorCode) : Z :=
  match e with
  | NoError => 0
  | UnknownError => 100
  | InternalError => 101
  | NotImplementedError => 102
  | AmneziaServiceNotRunning => 103
  | NotSupportedOnThisPlatform => 104
  | ServerCheckFailed => 200
  | ServerPortAlreadyAllocatedError => 201
  | ServerContainerMissingError => 202
  | ServerDockerFailedError => 203
  | ServerCancelInstallation => 204
  | ServerUserNotInSudo => 205
  | ServerPacketManagerError => 206
  | ServerSudoPackageIsNotPreinstalled => 207
  | ServerUserDirectoryNotAccessible => 208
  | ServerUserNotAllowedInSudoers => 209
  | ServerUserPasswordRequired => 210
  | ServerDockerOnCgroupsV2 => 211
  | ServerCgroupMountpoint => 212
  | DockerPullRateLimit => 213
  | ServerLinuxKernelTooOld => 214
  | XrayServerConfigInvalid => 215
  | XrayServerNoVlessClients => 216
  | XrayRealityKeysReadFailed => 217
  | ServerContainerRuntimeNotSupported => 218
  | ContainerRuntimeServiceNotRunning => 219
  | SshRequestDeniedError => 300
  | SshInterruptedError => 301
  | SshInternalError => 302
  | SshPrivateKeyError => 303
  | SshPrivateKeyFormatError => 304
  | SshTimeoutError => 305
  | SshScpFailureError => 400
  | OpenVpnConfigMissing => 500
  | OpenVpnManagementServerError => 501
  | OpenVpnExecutableMissing => 600
  | AmneziaServiceConnectionFailed => 603
  | ExecutableMissing => 604
  | XrayExecutableMissing => 605
  | Tun2SockExecutableMissing => 606
  | OpenVpnAdaptersInUseError => 700
  | OpenVpnUnknownError => 701
  | OpenVpnTapAdapterError => 702
  | AddressPoolError => 703
  | VpnHandshakeTimeout => 704
  | VpnNoTrafficError => 705
  | VpnBackendFailure => 706
  | OpenSslFailed => 800
  | XrayExecutableCrashed => 803
  | Tun2SockExecutableCrashed => 804
  | ImportInvalidConfigError => 900
  | ImportOpenConfigError => 901
  | NoInstalledContainersError => 902
  | ImportBackupFileUseRestoreInstead => 903
  | RestoreBackupInvalidError => 904
  | LegacyApiV1NotSupportedError => 905
  | LegacyContainerNotSupportedError => 906
  | ConfigFormatVersionNotSupportedError => 907
  | RestoreBackupUnsupportedConfigsSkipped => 908
  | AndroidError => 1000
  | ApiConfigDownloadError => 1100
  | ApiConfigAlreadyAdded => 1101
  | ApiConfigEmptyError => 1102
  | ApiConfigTimeoutError => 1103
  | ApiConfigSslError => 1104
  | ApiMissingAgwPublicKey => 1105
  | ApiConfigDecryptionError => 1106
  | ApiServicesMissingError => 1107
  | ApiConfigLimitError => 1108
  | ApiNotFoundError => 1109
  | ApiUpdateRequestError => 1111
  | ApiSubscriptionExpiredError => 1112
  | ApiPurchaseError => 1113
  | ApiSubscriptionNotActiveError => 1114
  | ApiNoPurchasedSubscriptionsError => 1115
  | ApiTrialAlreadyUsedError => 1116
  | ApiCaptchaRequiredError => 1117
  | ApiCaptchaInvalidError => 1118
  | ApiCaptchaRefreshError => 1119
  | ApiRateLimitError => 1120
  | ApiNoPurchasesToRestore => 1121
  | ApiPurchasePendingError => 1122
  | OpenError => 1200
  | ReadError => 1201
  | PermissionsError => 1202
  | UnspecifiedError => 1203
  | FatalError => 1204
  | AbortError => 1205
  | BillingCanceled => 1300
  | BillingError => 1301
  | BillingGooglePlayError => 1302
  | BillingUnavailable => 1303
  | SubscriptionAlreadyOwned => 1304
  | SubscriptionUnavailable => 1305
  | BillingNetworkError => 1306
  end.

Definition allCodes : list errorCode :=
  [NoError; UnknownError; InternalError; NotImplementedError; AmneziaServiceNotRunning;
   NotSupportedOnThisPlatform; ServerCheckFailed; ServerPortAlreadyAllocatedError;
   ServerContainerMissingError; ServerDockerFailedError; ServerCancelInstallation;
   ServerUserNotInSudo; ServerPacketManagerError; ServerSudoPackageIsNotPreinstalled;
   ServerUserDirectoryNotAccessible; ServerUserNotAllowedInSudoers; ServerUserPasswordRequired;
   ServerDockerOnCgroupsV2; ServerCgroupMountpoint; DockerPullRateLimit; ServerLinuxKernelTooOld;
   XrayServerConfigInvalid; XrayServerNoVlessClients; XrayRealityKeysReadFailed;
   ServerContainerRuntimeNotSupported; ContainerRuntimeServiceNotRunning; SshRequestDeniedError;
   SshInterruptedError; SshInternalError; SshPrivateKeyError; SshPrivateKeyFormatError;
   SshTimeoutError; SshScpFailureError; OpenVpnConfigMissing; OpenVpnManagementServerError;
   OpenVpnExecutableMissing; AmneziaServiceConnectionFailed; ExecutableMissing;
   XrayExecutableMissing; Tun2SockExecutableMissing; OpenVpnAdaptersInUseError;
   OpenVpnUnknownError; OpenVpnTapAdapterError; AddressPoolError; VpnHandshakeTimeout;
   VpnNoTrafficError; VpnBackendFailure; OpenSslFailed; XrayExecutableCrashed;
   Tun2SockExecutableCrashed; ImportInvalidConfigError; ImportOpenConfigError;
   NoInstalledContainersError; ImportBackupFileUseRestoreInstead; RestoreBackupInvalidError;
   LegacyApiV1NotSupportedError; LegacyContainerNotSupportedError;
   ConfigFormatVersionNotSupportedError; RestoreBackupUnsupportedConfigsSkipped; AndroidError;
   ApiConfigDownloadError; ApiConfigAlreadyAdded; ApiConfigEmptyError; ApiConfigTimeoutError;
   ApiConfigSslError; ApiMissingAgwPublicKey; ApiConfigDecryptionError; ApiServicesMissingError;
   ApiConfigLimitError; ApiNotFoundError; ApiUpdateRequestError; ApiSubscriptionExpiredError;
   ApiPurchaseError; ApiSubscriptionNotActiveError; ApiNoPurchasedSubscriptionsError;
   ApiTrialAlreadyUsedError; ApiCaptchaRequiredError; ApiCaptchaInvalidError;
   ApiCaptchaRefreshError; ApiRateLimitError; ApiNoPurchasesToRestore; ApiPurchasePendingError;
   OpenError; ReadError; PermissionsError; UnspecifiedError; FatalError; AbortError;
   BillingCanceled; BillingError; BillingGooglePlayError; BillingUnavailable;
   SubscriptionAlreadyOwned; SubscriptionUnavailable; BillingNetworkError].

(** The code with a number. *)
Definition ofCode (z : Z) : option errorCode := find (λ e, Z.eqb (errorNumber e) z) allCodes.

Lemma ofCode_errorNumber e : ofCode (errorNumber e) = Some e.
Proof. by destruct e. Qed.

#[global] Instance errorNumber_inj : Inj (=) (=) errorNumber.
Proof. intros e e' Heq. apply (inj Some). by rewrite <-!ofCode_errorNumber, Heq. Qed.

#[global] Instance errorCode_eq_dec : EqDecision errorCode.
Proof. intros e e'. destruct (decide (errorNumber e = errorNumber e')) as [Heq|Hne]; [left; by apply (inj errorNumber)|right; congruence]. Defined.

End ErrorCode.

Notation ErrorCode := ErrorCode.errorCode.

(** ** Connection states *)

Module Vpn.

Inductive ConnectionState :=
  Unknown | Disconnected | Preparing | Connecting | Connected | Disconnecting | Reconnecting | Error.

#[global] Instance connectionState_eq_dec : EqDecision ConnectionState.
Proof. solve_decision. Defined.

End Vpn.

(** ** Health *)

Module Health.

Inductive connectionHealth :=
    | Unknown | Idle | PreparingConfig | CheckingLocalNetwork | CheckingApi | CheckingLocalService
    | StartingProtocol | CheckingTunnelInterface | WaitingHandshake | ApplyingRoutes
    | CheckingFirewall | CheckingDns | CheckingTraffic | Connecting | Checking | Healthy
    | BackendFailed | LocalNetworkUnavailable | ApiUnavailable | ApiSslError | ApiDecryptionFailed
    | LocalServiceUnavailable | ProtocolStartFailed | TunnelInterfaceMissing | HandshakeTimeout
    | RouteMismatch | FirewallBlocked | DnsFailed | NoTraffic | Recovering | UnknownFailure.

Definition allHealth : list connectionHealth :=
  [Unknown; Idle; PreparingConfig; CheckingLocalNetwork; CheckingApi; CheckingLocalService;
   StartingProtocol; CheckingTunnelInterface; WaitingHandshake; ApplyingRoutes; CheckingFirewall;
   CheckingDns; CheckingTraffic; Connecting; Checking; Healthy; BackendFailed;
   LocalNetworkUnavailable; ApiUnavailable; ApiSslError; ApiDecryptionFailed;
   LocalServiceUnavailable; ProtocolStartFailed; TunnelInterfaceMissing; HandshakeTimeout;
   RouteMismatch; FirewallBlocked; DnsFailed; NoTraffic; Recovering; UnknownFailure].

(** The number of an enumerator. *)
Definition index (h : connectionHealth) : nat :=
  match h with
  | Unknown => 0
  | Idle => 1
  | PreparingConfig => 2
  | CheckingLocalNetwork => 3
  | CheckingApi => 4
  | CheckingLocalService => 5
  | StartingProtocol => 6
  | CheckingTunnelInterface => 7
  | WaitingHandshake => 8
  | ApplyingRoutes => 9
  | CheckingFirewall => 10
  | CheckingDns => 11
  | CheckingTraffic => 12
  | Connecting => 13
  | Checking => 14
  | Healthy => 15
  | BackendFailed => 16
  | LocalNetworkUnavailable => 17
  | ApiUnavailable => 18
  | ApiSslError => 19
  | ApiDecryptionFailed => 20
  | LocalServiceUnavailable => 21
  | ProtocolStartFailed => 22
  | TunnelInterfaceMissing => 23
  | HandshakeTimeout => 24
  | RouteMismatch => 25
  | FirewallBlocked => 26
  | DnsFailed => 27
  | NoTraffic => 28
  | Recovering => 29
  | UnknownFailure => 30
  end.

Lemma allHealth_index h : allHealth !! index h = Some h.
Proof. by destruct h. Qed.

#[global] Instance connectionHealth_eq_dec : EqDecision connectionHealth.
Proof.
  intros h h'. destruct (decide (index h = index h')) as [Heq|Hne]; [left|right; congruence].
  apply (inj Some). by rewrite <-!allHealth_index, Heq.
Defined.

End Health.

Notation ConnectionHealth := Health.connectionHealth.

Definition connectionLifecycleText (state : Vpn.ConnectionState) : string :=
  match state with
  | Vpn.Disconnected => "Connect"
  | Vpn.Preparing => "Preparing"
  | Vpn.Connecting => "Connecting"
  | Vpn.Connected => "Connected"
  | Vpn.Reconnecting => "Reconnecting"
  | Vpn.Disconnecting => "Disconnecting"
  | Vpn.Error => "Error"
  | Vpn.Unknown => "Checking"
  end.

Definition connectionHealthText (health : ConnectionHealth) : string :=
  match health with
  | Health.Idle => ""
  | Health.PreparingConfig => "Preparing configuration"
  | Health.CheckingLocalNetwork => "Checking internet connection"
  | Health.CheckingApi => "Checking Amnezia API"
  | Health.CheckingLocalService => "Checking local VPN service"
  | Health.StartingProtocol => "Starting VPN protocol"
  | Health.CheckingTunnelInterface => "Checking VPN tunnel interface"
  | Health.WaitingHandshake => "Waiting for VPN server response"
  | Health.ApplyingRoutes => "Applying network routes"
  | Health.CheckingFirewall => "Checking firewall rules"
  | Health.CheckingDns => "Checking DNS"
  | Health.CheckingTraffic | Health.Checking => "Checking traffic"
  | Health.Connecting => "Connecting..."
  | Health.Healthy => "VPN is working"
  | Health.BackendFailed | Health.LocalServiceUnavailable => "Local VPN service failed"
  | Health.LocalNetworkUnavailable => "Internet connection is unavailable"
  | Health.ApiUnavailable => "Amnezia API is not responding"
  | Health.ApiSslError => "Amnezia API SSL error"
  | Health.ApiDecryptionFailed => "Failed to decrypt Amnezia API response"
  | Health.ProtocolStartFailed => "VPN protocol failed to start"
  | Health.TunnelInterfaceMissing => "VPN tunnel interface is missing"
  | Health.HandshakeTimeout => "VPN server is not responding"
  | Health.RouteMismatch => "Network routes do not match VPN mode"
  | Health.FirewallBlocked => "Firewall is blocking VPN traffic"
  | Health.DnsFailed => "DNS is not resolving domains"
  | Health.NoTraffic => "VPN is connected, but traffic is not passing"
  | Health.Recovering => "Recovering connection..."
  | Health.UnknownFailure => "Connection failed for an unknown reason"
  | Health.Unknown => "Checking connection..."
  end.

Definition connectionHealthVisible (health : ConnectionHealth) : bool :=
  negb (bool_decide (health = Health.Idle)).

Definition connectionHealthProblem (health : ConnectionHealth) : bool :=
  match health with
  | Health.BackendFailed | Health.LocalNetworkUnavailable | Health.ApiUnavailable
  | Health.ApiSslError | Health.ApiDecryptionFailed | Health.LocalServiceUnavailable
  | Health.ProtocolStartFailed | Health.TunnelInterfaceMissing | Health.HandshakeTimeout
  | Health.RouteMismatch | Health.FirewallBlocked | Health.DnsFailed | Health.NoTraffic
  | Health.UnknownFailure => true
  | _ => false
  end.

Definition connectionStatusText (state : Vpn.ConnectionState) (health : ConnectionHealth) : string :=
  match state with
  | Vpn.Connecting | Vpn.Reconnecting | Vpn.Error => connectionHealthText health
  | _ => connectionLifecycleText state
  end.

Lemma connectionHealthText_empty health : connectionHealthText health = "" ↔ health = Health.Idle.
Proof. by destruct health. Qed.

(** The status line is blank only for the idle health while connecting,
    reconnecting or after an error. *)
Lemma connectionStatusText_empty state health :
  connectionStatusText state health = "" ↔
    health = Health.Idle ∧ (state = Vpn.Connecting ∨ state = Vpn.Reconnecting ∨ state = Vpn.Error).
Proof.
  destruct state; cbn; rewrite ?connectionHealthText_empty; naive_solver.
Qed.
