(* ===== verification/Containers.v ===== *)
(** * Containers and protocols

    The containers a server can run and the protocols they speak
    ([core/utils/containerEnum.h], [core/utils/protocolEnum.h]), their names and
    classification ([core/utils/containers/containerUtils.cpp],
    [core/protocols/protocolUtils.cpp]) and the protocols that a desktop build can
    start ([VpnProtocol::factory]).  The key that Qt's meta-object system gives for an
    enumerator is its name in the source. *)

From S2P Require Import Prelude QtCore Variant.
From stdpp Require Import options.

Module Docker.

Inductive dockerContainer :=
  | None | Awg | Awg2 | WireGuard | OpenVpn | Cloak | ShadowSocks | Ipsec | Xray | SSXray
  | TorWebSite | Dns | Sftp | Socks5Proxy | MtProxy | Telemt | TProxy.

Definition metaKey (c : dockerContainer) : string :=
  match c with
  | None => "None" | Awg => "Awg" | Awg2 => "Awg2" | WireGuard => "WireGuard" | OpenVpn => "OpenVpn"
  | Cloak => "Cloak" | ShadowSocks => "ShadowSocks" | Ipsec => "Ipsec" | Xray => "Xray"
  | SSXray => "SSXray" | TorWebSite => "TorWebSite" | Dns => "Dns" | Sftp => "Sftp"
  | Socks5Proxy => "Socks5Proxy" | MtProxy => "MtProxy" | Telemt => "Telemt" | TProxy => "TProxy"
  end.

#[global] Instance dockerContainer_eq_dec : EqDecision dockerContainer.
Proof. solve_decision. Defined.

End Docker.

Notation DockerContainer := Docker.dockerContainer.

Module Protocol.

Inductive proto :=
  | Unknown | OpenVpn | WireGuard | Awg | Ikev2 | Xray | SSXray
  | TorWebSite | Dns | Sftp | Socks5Proxy | MtProxy | Telemt | TProxy.

Inductive transport := Udp | Tcp | TcpAndUdp.

Inductive service := NoService | VpnService | Other.

Definition metaKey (p : proto) : string :=
  match p with
  | Unknown => "Unknown" | OpenVpn => "OpenVpn" | WireGuard => "WireGuard" | Awg => "Awg"
  | Ikev2 => "Ikev2" | Xray => "Xray" | SSXray => "SSXray" | TorWebSite => "TorWebSite" | Dns => "Dns"
  | Sftp => "Sftp" | Socks5Proxy => "Socks5Proxy" | MtProxy => "MtProxy" | Telemt => "Telemt"
  | TProxy => "TProxy"
  end.

Definition transportKey (t : transport) : string :=
  match t with Udp => "Udp" | Tcp => "Tcp" | TcpAndUdp => "TcpAndUdp" end.

#[global] Instance proto_eq_dec : EqDecision proto.
Proof. solve_decision. Defined.

End Protocol.

Notation Proto := Protocol.proto.
Notation TransportProto := Protocol.transport.
Notation ServiceType := Protocol.service.

(** ** Containers *)

Definition containerToString (c : DockerContainer) : string :=
  match c with
  | Docker.None => "none"
  | Docker.Cloak => "amnezia-openvpn-cloak"
  | Docker.Awg => "amnezia-awg"
  | Docker.Awg2 => "amnezia-awg2"
  | _ => "amnezia-" +:+ toLower (Docker.metaKey c)
  end.

(** [static_cast<DockerContainer>(i)] for the enumerators. *)
Definition allContainers : list DockerContainer :=
  [Docker.None; Docker.Awg; Docker.Awg2; Docker.WireGuard; Docker.OpenVpn; Docker.Cloak;
   Docker.ShadowSocks; Docker.Ipsec; Docker.Xray; Docker.SSXray; Docker.TorWebSite; Docker.Dns;
   Docker.Sftp; Docker.Socks5Proxy; Docker.MtProxy; Docker.Telemt; Docker.TProxy].

Definition containerFromString (container : string) : DockerContainer :=
  default Docker.None (find (λ c, bool_decide (container = containerToString c)) allContainers).

Definition containerTypeToString (c : DockerContainer) : string :=
  match c with
  | Docker.None => "none"
  | Docker.Ipsec => "ikev2"
  | Docker.Awg | Docker.Awg2 => "awg"
  | _ => toLower (Docker.metaKey c)
  end.

Definition isAwgContainer (c : DockerContainer) : bool :=
  bool_decide (c = Docker.Awg) || bool_decide (c = Docker.Awg2).

Definition isUnsupportedContainer (c : DockerContainer) : bool :=
  bool_decide (c = Docker.Cloak) || bool_decide (c = Docker.ShadowSocks).

Definition defaultProtocol (c : DockerContainer) : Proto :=
  match c with
  | Docker.None => Protocol.Unknown
  | Docker.OpenVpn => Protocol.OpenVpn
  | Docker.Cloak | Docker.ShadowSocks => Protocol.Unknown
  | Docker.WireGuard => Protocol.WireGuard
  | Docker.Awg2 => Protocol.Awg
  | Docker.Awg => Protocol.Awg
  | Docker.Xray => Protocol.Xray
  | Docker.Ipsec => Protocol.Ikev2
  | Docker.SSXray => Protocol.SSXray
  | Docker.TorWebSite => Protocol.TorWebSite
  | Docker.Dns => Protocol.Dns
  | Docker.Sftp => Protocol.Sftp
  | Docker.Socks5Proxy => Protocol.Socks5Proxy
  | Docker.MtProxy => Protocol.MtProxy
  | Docker.Telemt => Protocol.Telemt
  | Docker.TProxy => Protocol.TProxy
  end.

(** The builds that [isSupportedByCurrentPlatform] tells apart. *)
Inductive platform := Windows | Ios | MacosNe | Macos | Android | Linux.

Definition isSupportedByCurrentPlatform (p : platform) (c : DockerContainer) : bool :=
  match p with
  | Windows => true
  | Macos | Linux => negb (bool_decide (c = Docker.Ipsec))
  | Ios | MacosNe | Android =>
      match c with
      | Docker.WireGuard | Docker.OpenVpn | Docker.Awg2 | Docker.Awg | Docker.Xray | Docker.SSXray
      | Docker.MtProxy | Docker.Telemt | Docker.TProxy => true
      | _ => false
      end
  end.

Definition fixedPortsForContainer (c : DockerContainer) : list string :=
  match c with Docker.Ipsec => ["500"; "4500"] | _ => [] end.

Definition isEasySetupContainer (c : DockerContainer) : bool :=
  match c with Docker.Awg2 => true | _ => false end.

Definition easySetupOrder (c : DockerContainer) : Z :=
  match c with Docker.Awg2 => 1 | _ => 0 end.

Definition isShareable (c : DockerContainer) : bool :=
  if isUnsupportedContainer c then false
  else match c with
       | Docker.TorWebSite | Docker.Dns | Docker.Sftp | Docker.Socks5Proxy | Docker.MtProxy
       | Docker.Telemt | Docker.TProxy => false
       | _ => true
       end.

Definition installPageOrder (c : DockerContainer) : Z :=
  match c with
  | Docker.OpenVpn => 4
  | Docker.WireGuard => 2
  | Docker.Awg2 => 1
  | Docker.Xray => 3
  | Docker.Ipsec => 7
  | Docker.SSXray => 8
  | Docker.MtProxy | Docker.Telemt | Docker.TProxy => 20
  | _ => 0
  end.

(** ** Protocols *)

Definition allProtocols : list Proto :=
  [Protocol.Unknown; Protocol.OpenVpn; Protocol.WireGuard; Protocol.Awg; Protocol.Ikev2; Protocol.Xray;
   Protocol.SSXray; Protocol.TorWebSite; Protocol.Dns; Protocol.Sftp; Protocol.Socks5Proxy;
   Protocol.MtProxy; Protocol.Telemt; Protocol.TProxy].

Definition protoToString (p : Proto) : string :=
  match p with Protocol.Unknown => "" | _ => toLower (Protocol.metaKey p) end.

Definition protoFromString (s : string) : Proto :=
  default Protocol.Unknown (find (λ p, bool_decide (s = protoToString p)) allProtocols).

Definition transportProtoToString (t : TransportProto) : string := toLower (Protocol.transportKey t).

Definition transportProtoFromString (s : string) : TransportProto :=
  default Protocol.Udp
    (find (λ t, bool_decide (toLower s = toLower (transportProtoToString t)))
       [Protocol.Udp; Protocol.Tcp; Protocol.TcpAndUdp]).

Definition protocolService (p : Proto) : ServiceType :=
  match p with
  | Protocol.Unknown | Protocol.SSXray => Protocol.NoService
  | Protocol.OpenVpn | Protocol.WireGuard | Protocol.Awg | Protocol.Ikev2 | Protocol.Xray =>
      Protocol.VpnService
  | _ => Protocol.Other
  end.

Definition containerService (c : DockerContainer) : ServiceType :=
  if isUnsupportedContainer c then Protocol.VpnService else protocolService (defaultProtocol c).

Definition containerTypeToProtocolString (c : DockerContainer) : string :=
  match c with Docker.None => "none" | _ => protoToString (defaultProtocol c) end.

Definition defaultPortChangeable (p : Proto) : bool :=
  match p with
  | Protocol.OpenVpn | Protocol.WireGuard | Protocol.Awg | Protocol.Xray | Protocol.Sftp
  | Protocol.Socks5Proxy | Protocol.MtProxy | Protocol.Telemt | Protocol.TProxy => true
  | _ => false
  end.

Definition defaultTransportProto (p : Proto) : TransportProto :=
  match p with
  | Protocol.Xray | Protocol.SSXray | Protocol.TorWebSite | Protocol.Sftp | Protocol.Socks5Proxy
  | Protocol.MtProxy | Protocol.Telemt | Protocol.TProxy => Protocol.Tcp
  | _ => Protocol.Udp
  end.

Definition defaultTransportProtoChangeable (p : Proto) : bool :=
  match p with Protocol.OpenVpn => true | _ => false end.

Definition key_proto_config_data (p : Proto) : string := protoToString p +:+ "_config_data".
Definition key_proto_config_path (p : Proto) : string := protoToString p +:+ "_config_path".

(** The configuration of a protocol inside a container's configuration: the text of
    [last_config] parsed as an object.  [parseJson] is [QJsonDocument::fromJson]. *)
Definition getProtocolConfigFromContainer (parseJson : string → option json) (protocol : Proto)
    (containerConfig : QJsonObject) : QJsonObject :=
  let protocolConfigString :=
    toStringJ "" (jvalue (toObjectJ (jvalue containerConfig (protoToString protocol))) "last_config") in
  match parseJson protocolConfigString with Some j => toObjectJ j | None => ∅ end.

(** The containers that [VpnProtocol::factory] makes a protocol object for on
    macOS and Linux desktops. *)
Definition factorySupports (c : DockerContainer) : bool :=
  match c with
  | Docker.OpenVpn | Docker.WireGuard | Docker.Awg2 | Docker.Awg | Docker.Xray | Docker.SSXray => true
  | _ => false
  end.

(** ** Properties *)

(** The names of containers and protocols can be read back: every container and
    every protocol is found under its name, a name that is found belongs to the one
    returned, and no two share a name. *)
Theorem names_roundtrip :
  (∀ c, containerFromString (containerToString c) = c) ∧
  (∀ s c, containerFromString s = c → c ≠ Docker.None → s = containerToString c) ∧
  (∀ p, protoFromString (protoToString p) = p) ∧
  (∀ s p, protoFromString s = p → p ≠ Protocol.Unknown → s = protoToString p) ∧
  (∀ t, transportProtoFromString (transportProtoToString t) = t).
Proof.
  split_and!; [| | | |by intros []].
  - by intros [].
  - intros s c Hs Hc. unfold containerFromString in Hs.
    destruct (find _ _) as [c'|] eqn:Hf; cbn in Hs; subst; [|done].
    by apply find_some in Hf as [_ Hf%bool_decide_eq_true].
  - by intros [].
  - intros s p Hs Hp. unfold protoFromString in Hs.
    destruct (find _ _) as [p'|] eqn:Hf; cbn in Hs; subst; [|done].
    by apply find_some in Hf as [_ Hf%bool_decide_eq_true].
Qed.
