(* ===== verification/ServerConfig.v ===== *)
(** * Server configurations

    [core/utils/serverConfigUtils.cpp]: the kind of a stored server is not stored
    but found from its document.  The classes of [core/models/selfhosted] and
    [core/models/api] that hold a parsed document are here with the fields the
    repository and the connection use; of the containers only which ones there are
    is kept, their own configurations are not parsed. *)

From S2P Require Import Prelude QtCore Variant NetworkUtilities Containers.
From stdpp Require Import options.

#[local] Set Default Proof Using "Type*".

(** ** Kinds *)

(** [serverConfigUtils::ConfigType]. *)
Inductive ConfigType :=
  | AmneziaFreeV2 | AmneziaFreeV3 | AmneziaPremiumV1 | AmneziaPremiumV2 | SelfHosted | ExternalPremium
  | SelfHostedAdmin | SelfHostedUser | Native | Invalid.

#[export] Instance ConfigType_eq_dec : EqDecision ConfigType.
Proof. solve_decision. Defined.

Definition isLegacyApiSubscription (t : ConfigType) : bool :=
  match t with AmneziaPremiumV1 | AmneziaFreeV2 => true | _ => false end.

Definition isApiV2Subscription (t : ConfigType) : bool :=
  match t with AmneziaPremiumV2 | AmneziaFreeV3 | ExternalPremium => true | _ => false end.

(** ** Format and source *)

(** [ConfigSource]. *)
Definition Telegram : Z := 1.
Definition AmneziaGateway : Z := 2.

Definition currentConfigFormatVersion : Z := 1.

Definition configFormatVersion (o : QJsonObject) : Z := toIntJ (jvalue o "format_version").

Definition isConfigFormatVersionSupported (o : QJsonObject) : bool :=
  (configFormatVersion o <=? currentConfigFormatVersion)%Z.

Definition getConfigSource (o : QJsonObject) : Z := toIntJ (jvalue o "config_version").

Definition isServerFromApi (o : QJsonObject) : bool :=
  (toIntJ (jvalue o "config_version") =? Telegram)%Z || (toIntJ (jvalue o "config_version") =? AmneziaGateway)%Z.

(** A protocol of a container that was imported from another program. *)
Definition hasThirdPartyConfig (o : QJsonObject) : bool :=
  existsb (λ val,
    existsb (λ kv,
      if bool_decide (kv.1 = "container") then false
      else
        let protocolObj := toObjectJ kv.2 in
        qcontains protocolObj "isThirdPartyConfig" && toBoolJ (jvalue protocolObj "isThirdPartyConfig"))
      (qitems (toObjectJ val)))
    (toArrayJ (jvalue o "containers")).

(** ** Parsed documents *)

(** The loop over the containers of a document: the keys of the map. *)
Definition containersOf (o : QJsonObject) : list DockerContainer :=
  dedup ((λ val, containerFromString (toStringJ "" (jvalue (toObjectJ val) "container"))) <$>
         toArrayJ (jvalue o "containers")).

Definition defaultContainerOf (o : QJsonObject) : DockerContainer :=
  containerFromString (toStringJ "" (jvalue o "defaultContainer")).

(** The fields that [SelfHostedUserServerConfig], [NativeServerConfig] and
    [SelfHostedAdminServerConfig] share. *)
Record SelfHostedUserServerConfig := UserConfig {
  description : string; displayName : string; hostName : string;
  containers : list DockerContainer; defaultContainer : DockerContainer;
  dns1 : string; dns2 : string;
}.

Definition userFromJson (o : QJsonObject) : SelfHostedUserServerConfig :=
  let description := toStringJ "" (jvalue o "description") in
  let hostName := toStringJ "" (jvalue o "hostName") in
  UserConfig description (if isEmpty description then hostName else description) hostName
    (containersOf o) (defaultContainerOf o)
    (toStringJ "" (jvalue o "dns1")) (toStringJ "" (jvalue o "dns2")).

(** [NativeServerConfig::fromJson] reads the same fields. *)
Definition nativeFromJson (o : QJsonObject) : SelfHostedUserServerConfig := userFromJson o.

Record SelfHostedAdminServerConfig := AdminConfig {
  shared : SelfHostedUserServerConfig; userName : string; password : string; port : Z;
}.

Definition adminFromJson (o : QJsonObject) : SelfHostedAdminServerConfig :=
  AdminConfig (userFromJson o) (toStringJ "" (jvalue o "userName")) (toStringJ "" (jvalue o "password"))
    (if qcontains o "port" then toIntJ (jvalue o "port") else 0)%Z.

Definition hasCredentials (c : SelfHostedAdminServerConfig) : bool :=
  negb (isEmpty (userName c)) && negb (isEmpty (password c)) && (0 <? port c)%Z.

(** The objects of the subscription and of the authentication are kept as they are. *)
Record ApiV2ServerConfig := ApiV2Config {
  v2Name : string; v2NameOverriddenByUser : bool; v2Description : string; v2DisplayName : string;
  v2ConfigVersion : Z; v2HostName : string;
  v2Containers : list DockerContainer; v2DefaultContainer : DockerContainer; v2Dns1 : string; v2Dns2 : string;
  v2SendPayload : list json; v2Crc : Z; v2ApiConfig : QJsonObject; v2AuthData : QJsonObject;
}.

Definition apiV2FromJson (o : QJsonObject) : ApiV2ServerConfig :=
  let name := toStringJ "" (jvalue o "name") in
  let description := toStringJ "" (jvalue o "description") in
  ApiV2Config name (toBoolJ (jvalue o "nameOverriddenByUser")) description (if isEmpty name then description else name)
    (toIntOrJ 2 (jvalue o "config_version")) (toStringJ "" (jvalue o "hostName"))
    (containersOf o) (defaultContainerOf o)
    (toStringJ "" (jvalue o "dns1")) (toStringJ "" (jvalue o "dns2"))
    (toArrayJ (jvalue o "send_payload")) (toIntJ (jvalue o "crc"))
    (toObjectJ (jvalue o "api_config")) (toObjectJ (jvalue o "auth_data")).

(** The field [name] is never read from the document. *)
Record LegacyApiServerConfig := LegacyConfig {
  legacyName : string; legacyDescription : string; legacyDisplayName : string; legacyHostName : string;
  legacyCrc : Z; legacyConfigVersion : Z; legacyApiEndpoint : string;
}.

Definition legacyFromJson (o : QJsonObject) : LegacyApiServerConfig :=
  let name := "" in
  let description := toStringJ "" (jvalue o "description") in
  LegacyConfig name description (if isEmpty name then description else name)
    (toStringJ "" (jvalue o "hostName")) (toIntJ (jvalue o "crc")) (toIntOrJ 1 (jvalue o "config_version"))
    (toStringJ "" (jvalue o "api_endpoint")).

(** ** The kind of a document *)

(** The addresses that are put in when the application is built. *)
Class BuildEndpoints := { freeV2Endpoint : string; premiumV1Endpoint : string }.

Definition serviceKind (o : QJsonObject) : option ConfigType :=
  let serviceType := toStringJ "" (jvalue (toObjectJ (jvalue o "api_config")) "service_type") in
  if bool_decide (serviceType = "amnezia-premium") then Some AmneziaPremiumV2
  else if bool_decide (serviceType = "amnezia-free") then Some AmneziaFreeV3
  else if bool_decide (serviceType = "external-premium") then Some ExternalPremium
  else None.

Definition endpointKind `{BuildEndpoints} (o : QJsonObject) : option ConfigType :=
  let endpoint := toStringJ "" (jvalue o "api_endpoint") in
  if contains endpoint premiumV1Endpoint then Some AmneziaPremiumV1
  else if contains endpoint freeV2Endpoint then Some AmneziaFreeV2
  else None.

(** The switch falls through from the first source to the second. *)
Definition configTypeFromJson `{BuildEndpoints} (o : QJsonObject) : ConfigType :=
  let configVersion := toIntJ (jvalue o "config_version") in
  let api :=
    if (configVersion =? Telegram)%Z then
      match endpointKind o with Some t => Some t | None => serviceKind o end
    else if (configVersion =? AmneziaGateway)%Z then serviceKind o
    else None in
  match api with
  | Some t => t
  | None =>
      if hasThirdPartyConfig o then Native
      else if hasCredentials (adminFromJson o) then SelfHostedAdmin else SelfHostedUser
  end.

(** ** DNS servers *)

Section dns.
Context `{HostAddressText}.

Definition amneziaDnsIp : string := "172.29.172.254".

Definition usableDns (dns : string) : bool := negb (isEmpty dns) && checkIPv4Format dns.

(** [getDnsPair] of a server of the user's own. *)
Definition adminDnsPair (c : SelfHostedAdminServerConfig) (isAmneziaDnsEnabled : bool) (primaryDns secondaryDns : string) :
    string * string :=
  let dnsOnServer := bool_decide (Docker.Dns ∈ containers (shared c)) in
  (if usableDns (dns1 (shared c)) then dns1 (shared c)
   else if isAmneziaDnsEnabled && dnsOnServer then amneziaDnsIp else primaryDns,
   if usableDns (dns2 (shared c)) then dns2 (shared c) else secondaryDns).

(** [getDnsPair] of the others. *)
Definition userDnsPair (c : SelfHostedUserServerConfig) (primaryDns secondaryDns : string) : string * string :=
  (if usableDns (dns1 c) then dns1 c else primaryDns, if usableDns (dns2 c) then dns2 c else secondaryDns).
End dns.

(** ** Facts *)

(** Two kinds of the enumeration are never found. *)
Lemma configTypeFromJson_range `{BuildEndpoints} o :
  configTypeFromJson o ≠ Invalid ∧ configTypeFromJson o ≠ SelfHosted.
Proof.
  unfold configTypeFromJson, endpointKind, serviceKind.
  repeat case_match; simplify_eq; split_and?; done.
Qed.

Section dnsFacts.
Context `{HostAddressText}.

Lemma amneziaDnsIp_address : checkIPv4Format amneziaDnsIp = true.
Proof. apply (checkIPv4Format_dotted 172 29 172 254); split; lia. Qed.

Lemma usableDns_address dns fallback :
  checkIPv4Format fallback = true → checkIPv4Format (if usableDns dns then dns else fallback) = true.
Proof. intros Hf. destruct (usableDns dns) eqn:Hu; [|done]. unfold usableDns in Hu. by reflect_bools. Qed.

(** The DNS servers of a connection are IPv4 addresses, whatever the document of
    the server says: an entry that is not one is replaced by the server's own
    resolver, when it has one and it is enabled, or by the user's setting. *)
Lemma dnsPair_addresses o isAmneziaDnsEnabled primaryDns secondaryDns :
  checkIPv4Format primaryDns = true → checkIPv4Format secondaryDns = true →
  let admin := adminDnsPair (adminFromJson o) isAmneziaDnsEnabled primaryDns secondaryDns in
  let user := userDnsPair (userFromJson o) primaryDns secondaryDns in
  checkIPv4Format admin.1 = true ∧ checkIPv4Format admin.2 = true ∧
  checkIPv4Format user.1 = true ∧ checkIPv4Format user.2 = true.
Proof.
  intros Hp Hs admin user. subst admin user. cbn [adminDnsPair userDnsPair fst snd].
  split_and!; apply usableDns_address; try done. destruct (_ && _); [apply amneziaDnsIp_address|done].
Qed.
End dnsFacts.

#[local] Existing Instance quadText.

Lemma dnsPair_addresses_example :
  let o : QJsonObject := <["dns1" := JString "no address"]> (<["containers" := JArray [JObject (<["container" := JString "amnezia-dns"]> ∅)]]> ∅) in
  adminDnsPair (adminFromJson o) true "1.1.1.1" "1.0.0.1" = ("172.29.172.254", "1.0.0.1") ∧
  checkIPv4Format (adminDnsPair (adminFromJson o) true "1.1.1.1" "1.0.0.1").1 = true.
Proof.
  intros o. split; [vm_compute; reflexivity|].
  apply (dnsPair_addresses o true "1.1.1.1" "1.0.0.1"); vm_compute; reflexivity.
Defined.
