(* ===== verification/ServersRepository.v ===== *)
(** * The list of servers ([core/repositories/secureServersRepository.cpp])

    The repository keeps the servers in memory, as documents by identifier and as a
    list of identifiers in the order of the user interface, together with the
    default server, and writes both to the settings after every change.  The list is
    one of the encrypted settings; what the repository needs of the store is the
    class [ServersStore], and the store of [SecureSettings] is an instance.

    Identifiers that the code generates are arguments.  Signals are returned in the
    order in which they are emitted. *)

From Stdlib Require Import Ascii.
From S2P Require Import Prelude QtCore Variant NetworkUtilities SecureSettings AppSettings Containers ServerConfig.
From stdpp Require Import options.

#[local] Set Default Proof Using "Type*".

Definition serversListKey : string := "Servers/serversList".
Definition defaultServerIdKey : string := "Servers/defaultServerId".
Definition defaultServerIndexKey : string := "Servers/defaultServerIndex".

(** What the repository needs of the store, besides [SettingsStore]: while the store
    is ready, the list of servers that is written is read back, and a new process
    reads what the old one read. *)
Class ServersStore (S : Type) `{SettingsStore S} := {
  sReady : S → Prop;
  sRestart : S → S;
  sReady_list s text : sReady s → sReady (sSet s serversListKey (VByteArray ("[" +:+ text)));
  sReady_default s id : sReady s → sReady (sSet s defaultServerIdKey (VString id));
  sReady_restart s : sReady s → sReady (sRestart s);
  sList_eq s text d :
    sReady s → sValue (sSet s serversListKey (VByteArray ("[" +:+ text))) serversListKey d = VByteArray ("[" +:+ text);
  sList_ne s v k d :
    sReady s → k ≠ serversListKey → sValue (sSet s serversListKey v) k d = sValue s k d;
  sRestart_value s k d : sReady s → sValue (sRestart s) k d = sValue s k d;
}.

(** [QJsonDocument] for arrays: reading and printing.  [printable] are the values a
    document can hold. *)
Class ArrayText := {
  parseArray : string → list json;
  printArray : list json → string;
  printable : json → Prop;
  parse_print l : Forall printable l → parseArray (printArray l) = l;
  print_bracket l : ∃ text, printArray l = "[" +:+ text;
  printable_insert o id :
    printable (JObject o) → printable (JObject (<["storageServerId" := JString id]> o));
  printable_delete o : printable (JObject o) → printable (JObject (delete "storageServerId" o));
}.

Inductive serversSignal :=
  | serverAdded (id : string)
  | serverEdited (id : string)
  | serverRemoved (id : string) (index : Z)
  | defaultServerChanged (id : string).

(** ** Documents with an identifier *)

Definition readStorageServerId (o : QJsonObject) : string :=
  trimmed (toStringJ "" (jvalue o "storageServerId")).

Definition withoutStorageServerId (o : QJsonObject) : QJsonObject := delete "storageServerId" o.

Definition embedStorageServerId (id : string) (o : QJsonObject) : QJsonObject :=
  <["storageServerId" := JString id]> o.

Record repository (S : Type) := Repo {
  settings : S;
  serverJsonById : gmap string QJsonObject;
  orderedServerIds : list string;
  defaultServer : string;
  unsupportedFormatConfigsCount : Z;
}.

#[global] Arguments Repo {S} _ _ _ _ _.
#[global] Arguments settings {S} _.
#[global] Arguments serverJsonById {S} _.
#[global] Arguments orderedServerIds {S} _.
#[global] Arguments defaultServer {S} _.
#[global] Arguments unsupportedFormatConfigsCount {S} _.

Section repository.
Context {S : Type} `{ServersStore S} `{ArrayText} `{BuildEndpoints}.

Notation repo := (repository S).

(** ** Queries *)

Definition indexOfServerId (r : repo) (id : string) : Z :=
  match list_find (eq id) (orderedServerIds r) with Some (i, _) => Z.of_nat i | None => -1 end.

Definition serversCount (r : repo) : Z := Z.of_nat (length (orderedServerIds r)).

Definition serverIdAt (r : repo) (index : Z) : string :=
  if (index <? 0)%Z || (serversCount r <=? index)%Z then ""
  else default "" (orderedServerIds r !! Z.to_nat index).

Definition defaultServerIndex (r : repo) : Z :=
  match orderedServerIds r with
  | [] => 0
  | _ => let idx := indexOfServerId r (defaultServer r) in if (0 <=? idx)%Z then idx else 0
  end.

Definition serverKind (r : repo) (id : string) : ConfigType :=
  match serverJsonById r !! id with
  | None => Invalid
  | Some o => configTypeFromJson (withoutStorageServerId o)
  end.

(** The body the five accessors share: a document of a kind they accept, parsed. *)
Definition configOf {C} (accepts : ConfigType → bool) (parse : QJsonObject → C) (r : repo) (id : string) : option C :=
  match serverJsonById r !! id with
  | None => None
  | Some o =>
      let stripped := withoutStorageServerId o in
      if negb (accepts (configTypeFromJson stripped)) then None else Some (parse stripped)
  end.

Definition selfHostedAdminConfig : repo → string → option SelfHostedAdminServerConfig :=
  configOf (λ t, bool_decide (t = SelfHostedAdmin)) adminFromJson.
Definition selfHostedUserConfig : repo → string → option SelfHostedUserServerConfig :=
  configOf (λ t, bool_decide (t = SelfHostedUser)) userFromJson.
Definition nativeConfig : repo → string → option SelfHostedUserServerConfig :=
  configOf (λ t, bool_decide (t = Native)) nativeFromJson.
Definition apiV2Config : repo → string → option ApiV2ServerConfig := configOf isApiV2Subscription apiV2FromJson.
Definition legacyApiConfig : repo → string → option LegacyApiServerConfig :=
  configOf isLegacyApiSubscription legacyFromJson.

Definition storedServerDisplayName (r : repo) (id : string) : string :=
  match serverKind r id with
  | SelfHostedAdmin => from_option (λ c, displayName (shared c)) "" (selfHostedAdminConfig r id)
  | SelfHostedUser => from_option displayName "" (selfHostedUserConfig r id)
  | Native => from_option displayName "" (nativeConfig r id)
  | AmneziaPremiumV2 | AmneziaFreeV3 | ExternalPremium => from_option v2DisplayName "" (apiV2Config r id)
  | AmneziaPremiumV1 | AmneziaFreeV2 => from_option legacyDisplayName "" (legacyApiConfig r id)
  | _ => ""
  end.

(** ** Names for new servers *)

Definition usedNames (r : repo) : list string :=
  filter (λ n, n ≠ "") (storedServerDisplayName r <$> orderedServerIds r).

(** [tr("Server")] is [word]. *)
Definition serverName (word : string) (i : nat) : string := word +:+ " " +:+ pretty i.

Fixpoint nameLoop (fuel : nat) (word : string) (used : list string) (i : nat) : option string :=
  match fuel with
  | O => None
  | Datatypes.S fuel =>
      let i := Datatypes.S i in
      let candidate := serverName word i in
      if listContains used candidate then nameLoop fuel word used i else Some candidate
  end.

(** One more name than there are servers. *)
Definition nextAvailableServerName (word : string) (r : repo) : option string :=
  nameLoop (Datatypes.S (length (orderedServerIds r))) word (usedNames r) 0%nat.

(** ** Storage *)

Definition normalizedOrGeneratedServerId (byId : gmap string QJsonObject) (candidateId uuid : string) : string :=
  let t := trimmed candidateId in
  if negb (isEmpty t) && negb (bool_decide (is_Some (byId !! t))) then t else uuid.

Definition setSettings (s : S) (r : repo) : repo :=
  Repo s (serverJsonById r) (orderedServerIds r) (defaultServer r) (unsupportedFormatConfigsCount r).
Definition setDefaultId (id : string) (r : repo) : repo :=
  Repo (settings r) (serverJsonById r) (orderedServerIds r) id (unsupportedFormatConfigsCount r).
Definition setServers (byId : gmap string QJsonObject) (ids : list string) (r : repo) : repo :=
  Repo (settings r) byId ids (defaultServer r) (unsupportedFormatConfigsCount r).

Definition updateDefaultServerFromStorage (r : repo) : repo :=
  let storedDefaultId := toStringV (sValue (settings r) defaultServerIdKey (VString "")) in
  if negb (isEmpty storedDefaultId) && bool_decide (is_Some (serverJsonById r !! storedDefaultId)) then
    setDefaultId storedDefaultId r
  else
    let storedDefaultIndex := toIntV (sValue (settings r) defaultServerIndexKey (VInt 0)) in
    if (0 <=? storedDefaultIndex)%Z && (storedDefaultIndex <? serversCount r)%Z then
      setDefaultId (default "" (orderedServerIds r !! Z.to_nat storedDefaultIndex)) r
    else setDefaultId (default "" (head (orderedServerIds r))) r.

Definition persistDefaultServerFields (r : repo) : repo :=
  let r :=
    match orderedServerIds r with
    | [] => setDefaultId "" r
    | first :: _ => if listContains (orderedServerIds r) (defaultServer r) then r else setDefaultId first r
    end in
  setSettings (sSet (settings r) defaultServerIdKey (VString (defaultServer r))) r.

(** One element of the stored list. *)
Definition loadServer (uuids : nat → string) (r : repo) (element : nat * json) : repo :=
  let o := toObjectJ element.2 in
  let serverId := normalizedOrGeneratedServerId (serverJsonById r) (readStorageServerId o) (uuids element.1) in
  let stripped := withoutStorageServerId o in
  if negb (isConfigFormatVersionSupported stripped) then
    Repo (settings r) (serverJsonById r) (orderedServerIds r) (defaultServer r)
      (unsupportedFormatConfigsCount r + 1)
  else if bool_decide (is_Some (serverJsonById r !! serverId)) || bool_decide (configTypeFromJson stripped = Invalid) then r
  else setServers (<[serverId := embedStorageServerId serverId stripped]> (serverJsonById r))
         (orderedServerIds r ++ [serverId]) r.

(** The stored list. *)
Definition storedServers (s : S) : list json :=
  parseArray (toByteArrayV (sValue s serversListKey (VByteArray ""))).

Definition loadFromStorage (uuids : nat → string) (r : repo) : repo :=
  let r := Repo (settings r) ∅ [] (defaultServer r) 0 in
  updateDefaultServerFromStorage (foldl (loadServer uuids) r (imap pair (storedServers (settings r)))).

Definition syncToStorage (r : repo) : repo :=
  let serversArray := JObject <$> omap (λ id, serverJsonById r !! id) (orderedServerIds r) in
  persistDefaultServerFields (setSettings (sSet (settings r) serversListKey (VByteArray (printArray serversArray))) r).

Definition construct (uuids : nat → string) (s : S) : repo :=
  persistDefaultServerFields (loadFromStorage uuids (Repo s ∅ [] "" 0)).

Definition invalidateCache (uuids : nat → string) (r : repo) : repo := loadFromStorage uuids r.

(** ** Changes *)

Definition clearServers (r : repo) : repo :=
  syncToStorage (setDefaultId "" (setServers ∅ [] r)).

(** The identifier that is returned, the repository and the signals. *)
Definition addServer (serverId : string) (serverJson : QJsonObject) (kind : ConfigType) (uuid : string) (r : repo) :
    string * repo * list serversSignal :=
  let id := normalizedOrGeneratedServerId (serverJsonById r) serverId uuid in
  if bool_decide (is_Some (serverJsonById r !! id)) || bool_decide (kind = Invalid) then (id, r, [])
  else
    let stripped := withoutStorageServerId serverJson in
    if negb (isConfigFormatVersionSupported stripped) || negb (bool_decide (configTypeFromJson stripped = kind))
    then (id, r, [])
    else
      let r := setServers (<[id := embedStorageServerId id stripped]> (serverJsonById r)) (orderedServerIds r ++ [id]) r in
      let r := if isEmpty (defaultServer r) then setDefaultId id r else r in
      (id, syncToStorage r, [serverAdded id]).

Definition editServer (serverId : string) (serverJson : QJsonObject) (kind : ConfigType) (r : repo) :
    repo * list serversSignal :=
  if (indexOfServerId r serverId <? 0)%Z || bool_decide (kind = Invalid) then (r, [])
  else
    match serverJsonById r !! serverId with
    | None => (r, [])
    | Some oldJson =>
        let oldKind := configTypeFromJson (withoutStorageServerId oldJson) in
        let removed := delete serverId (serverJsonById r) in
        let strippedNew := withoutStorageServerId serverJson in
        if negb (bool_decide (configTypeFromJson strippedNew = kind)) then
          let strippedOld := withoutStorageServerId oldJson in
          if negb (bool_decide (oldKind = Invalid)) && bool_decide (configTypeFromJson strippedOld = oldKind) then
            (setServers (<[serverId := embedStorageServerId serverId strippedOld]> removed) (orderedServerIds r) r, [])
          else (setServers removed (orderedServerIds r) r, [])
        else
          (syncToStorage (setServers (<[serverId := embedStorageServerId serverId strippedNew]> removed)
             (orderedServerIds r) r), [serverEdited serverId])
    end.

Definition removeServer (serverId : string) (r : repo) : repo * list serversSignal :=
  let removedIndex := indexOfServerId r serverId in
  if (removedIndex <? 0)%Z then (r, [])
  else if negb (bool_decide (is_Some (serverJsonById r !! serverId))) then (r, [])
  else
    let previousDefaultId := defaultServer r in
    let previousDefaultIndex := defaultServerIndex r in
    let r := setServers (delete serverId (serverJsonById r)) (delete (Z.to_nat removedIndex) (orderedServerIds r)) r in
    let r :=
      match orderedServerIds r with
      | [] => setDefaultId "" r
      | first :: _ =>
          if bool_decide (defaultServer r = serverId) then
            let fallbackIndex := Z.min removedIndex (serversCount r - 1) in
            setDefaultId (default "" (orderedServerIds r !! Z.to_nat fallbackIndex)) r
          else if listContains (orderedServerIds r) (defaultServer r) then r
          else setDefaultId first r
      end in
    let newDefaultIndex := defaultServerIndex r in
    let changed :=
      if negb (bool_decide (previousDefaultId = defaultServer r)) || negb (previousDefaultIndex =? newDefaultIndex)%Z
      then [defaultServerChanged (defaultServer r)] else [] in
    (syncToStorage r, changed ++ [serverRemoved serverId removedIndex]).

Definition setDefaultServer (serverId : string) (r : repo) : repo * list serversSignal :=
  match orderedServerIds r with
  | [] => (r, [])
  | _ =>
      if negb (bool_decide (is_Some (serverJsonById r !! serverId))) then (r, [])
      else if (indexOfServerId r serverId <? 0)%Z then (r, [])
      else if bool_decide (defaultServer r = serverId) then (r, [])
      else
        let r := persistDefaultServerFields (setDefaultId serverId r) in
        (r, [defaultServerChanged (defaultServer r)])
  end.

(** ** Runs *)

Inductive serverOp :=
  | AddServer (id : string) (o : QJsonObject) (kind : ConfigType) (uuid : string)
  | EditServer (id : string) (o : QJsonObject) (kind : ConfigType)
  | RemoveServer (id : string)
  | SetDefaultServer (id : string)
  | ClearServers
  | InvalidateCache (uuids : nat → string)
  | RestartApplication (uuids : nat → string).

Definition perform (r : repo) (op : serverOp) : repo :=
  match op with
  | AddServer id o kind uuid => (addServer id o kind uuid r).1.2
  | EditServer id o kind => (editServer id o kind r).1
  | RemoveServer id => (removeServer id r).1
  | SetDefaultServer id => (setDefaultServer id r).1
  | ClearServers => clearServers r
  | InvalidateCache uuids => invalidateCache uuids r
  | RestartApplication uuids => construct uuids (sRestart (settings r))
  end.

(** ** The invariant *)

(** Identifiers are not empty and have no blanks around them. *)
Definition validId (id : string) : Prop := id ≠ "" ∧ trimmed id = id.

(** The list names the documents, each once, and every document carries its
    identifier. *)
Record consistent (byId : gmap string QJsonObject) (ids : list string) : Prop := {
  ids_distinct : NoDup ids;
  ids_documents id : id ∈ ids ↔ is_Some (byId !! id);
  documents_named id o : byId !! id = Some o → o !! "storageServerId" = Some (JString id) ∧ validId id;
}.

Definition defaultOk (ids : list string) (d : string) : Prop := d ∈ ids ∨ ids = [] ∧ d = "".

Definition invariant (r : repo) : Prop :=
  consistent (serverJsonById r) (orderedServerIds r) ∧ defaultOk (orderedServerIds r) (defaultServer r).

Lemma consistent_empty : consistent ∅ [].
Proof.
  split; [constructor| |].
  - intros id. rewrite lookup_empty. split; [set_solver|by intros []].
  - intros id o. by rewrite lookup_empty.
Qed.

Lemma embed_named id o : embedStorageServerId id o !! "storageServerId" = Some (JString id).
Proof. apply lookup_insert_eq. Qed.

(** Storing a document under its identifier, old or new. *)
Lemma consistent_insert byId ids id o :
  consistent byId ids → validId id →
  consistent (<[id := embedStorageServerId id o]> byId) (append_new ids id).
Proof.
  intros [Hnd Hids Hdoc] Hid. split; [by apply NoDup_append_new| |].
  - intros id'. rewrite elem_of_append_new, Hids, lookup_insert_is_Some'. intuition congruence.
  - intros id' o' [[<- <-]|[_ Ho]]%lookup_insert_Some; [split; [apply embed_named|done]|by apply Hdoc].
Qed.

Lemma normalized_valid byId candidate uuid :
  validId uuid → validId (normalizedOrGeneratedServerId byId candidate uuid).
Proof.
  intros Hu. unfold normalizedOrGeneratedServerId. destruct (_ && _) eqn:Hc; [|done]. reflect_bools.
  split; [by intros Ht; rewrite Ht in *|apply trimmed_trimmed].
Qed.

Lemma consistent_fresh byId ids id : consistent byId ids → ¬ is_Some (byId !! id) → append_new ids id = ids ++ [id].
Proof. intros Hc Hid. apply append_new_fresh. by rewrite (ids_documents _ _ Hc). Qed.

Lemma consistent_loadServer uuids r e :
  (∀ n, validId (uuids n)) → consistent (serverJsonById r) (orderedServerIds r) →
  consistent (serverJsonById (loadServer uuids r e)) (orderedServerIds (loadServer uuids r e)).
Proof.
  intros Hu Hc. unfold loadServer. destruct (negb _); [done|]. destruct (_ || _) eqn:Hk; [done|]. reflect_bools.
  cbn [serverJsonById orderedServerIds setServers]. rewrite <-(consistent_fresh (serverJsonById r)) by done.
  apply consistent_insert; [done|by apply normalized_valid].
Qed.

Lemma consistent_load uuids r es :
  (∀ n, validId (uuids n)) → consistent (serverJsonById r) (orderedServerIds r) →
  consistent (serverJsonById (foldl (loadServer uuids) r es)) (orderedServerIds (foldl (loadServer uuids) r es)).
Proof.
  intros Hu. revert r. induction es as [|e es IH]; intros r Hc; [done|]. cbn [foldl]. by apply IH, consistent_loadServer.
Qed.

Lemma head_ok ids : defaultOk ids (default "" (head ids)).
Proof. destruct ids; [by right|left; apply elem_of_cons; by left]. Qed.

Lemma lookup_ok ids n : (n < length ids)%nat → defaultOk ids (default "" (ids !! n)).
Proof.
  intros Hn. left. destruct (lookup_lt_is_Some_2 ids n Hn) as [x Hx]. rewrite Hx. by eapply list_elem_of_lookup_2.
Qed.

Lemma invariant_update r :
  consistent (serverJsonById r) (orderedServerIds r) → invariant (updateDefaultServerFromStorage r).
Proof.
  intros Hc. unfold updateDefaultServerFromStorage. destruct (_ && _) eqn:Hid.
  { reflect_bools. split; [exact Hc|]. left. by apply (ids_documents _ _ Hc). }
  clear Hid. destruct (_ && _) eqn:Hix; (split; [exact Hc|]); [|apply head_ok].
  apply andb_true_iff in Hix as [??]. apply lookup_ok. unfold serversCount in *. lia.
Qed.

Lemma invariant_loadFromStorage uuids r : (∀ n, validId (uuids n)) → invariant (loadFromStorage uuids r).
Proof. intros Hu. apply invariant_update, consistent_load; [done|]. apply consistent_empty. Qed.

(** Writing the default server repairs it when it is not in the list. *)
Lemma invariant_persist r :
  consistent (serverJsonById r) (orderedServerIds r) → invariant (persistDefaultServerFields r).
Proof.
  intros Hc. unfold persistDefaultServerFields. destruct (orderedServerIds r) as [|first ids] eqn:Hids.
  - split; cbn [serverJsonById orderedServerIds defaultServer setSettings setDefaultId]; rewrite Hids; [done|by right].
  - unfold listContains. case_bool_decide as Hin.
    + split; cbn [serverJsonById orderedServerIds defaultServer setSettings setDefaultId]; rewrite Hids; [done|by left].
    + split; cbn [serverJsonById orderedServerIds defaultServer setSettings setDefaultId]; rewrite Hids; [done|].
      left. apply elem_of_cons. by left.
Qed.

Lemma invariant_construct uuids s : (∀ n, validId (uuids n)) → invariant (construct uuids s).
Proof. intros Hu. by apply invariant_persist, invariant_loadFromStorage. Qed.

Lemma invariant_sync r :
  consistent (serverJsonById r) (orderedServerIds r) → invariant (syncToStorage r).
Proof. intros Hc. by apply invariant_persist. Qed.

Lemma indexOf_elem r id : (0 ≤ indexOfServerId r id)%Z ↔ id ∈ orderedServerIds r.
Proof.
  unfold indexOfServerId. destruct (list_find _ _) as [[i x]|] eqn:Hf.
  - apply list_find_Some in Hf as (Hx & <- & _). split; [intros _; by eapply list_elem_of_lookup_2|lia].
  - apply list_find_None in Hf. split; [lia|]. intros Hin. rewrite Forall_forall in Hf. by destruct (Hf id Hin).
Qed.

Lemma indexOf_lookup r id :
  id ∈ orderedServerIds r → ∃ i, indexOfServerId r id = Z.of_nat i ∧ orderedServerIds r !! i = Some id.
Proof.
  rewrite <-indexOf_elem. unfold indexOfServerId. destruct (list_find _ _) as [[i x]|] eqn:Hf; [|lia].
  apply list_find_Some in Hf as (Hx & <- & _). eauto.
Qed.

Lemma consistent_delete byId ids i id :
  consistent byId ids → ids !! i = Some id → consistent (delete id byId) (delete i ids).
Proof.
  intros [Hnd Hids Hdoc] Hi. rewrite (delete_take_drop ids i).
  rewrite <-(take_drop_middle ids i id Hi), NoDup_app, NoDup_cons in Hnd. destruct Hnd as (Hn1 & Hn2 & Hn3 & Hn4).
  split.
  - apply NoDup_app. split_and!; [done|set_solver|done].
  - intros id'. rewrite lookup_delete_is_Some, <-Hids. rewrite <-(take_drop_middle ids i id Hi) at 3.
    rewrite !elem_of_app, elem_of_cons. set_solver.
  - intros id' o [_ Ho]%lookup_delete_Some. by apply Hdoc.
Qed.

(** Identifiers that are generated for new servers are valid. *)
Definition opOk (op : serverOp) : Prop :=
  match op with
  | AddServer _ _ _ uuid => validId uuid
  | InvalidateCache uuids | RestartApplication uuids => ∀ n, validId (uuids n)
  | _ => True
  end.

(** A server is added completely or not at all. *)
Lemma addServer_cases serverId o kind uuid r :
  let id := normalizedOrGeneratedServerId (serverJsonById r) serverId uuid in
  let stripped := withoutStorageServerId o in
  addServer serverId o kind uuid r = (id, r, []) ∨
  ∃ r', ¬ is_Some (serverJsonById r !! id) ∧ isConfigFormatVersionSupported stripped = true ∧
    addServer serverId o kind uuid r = (id, syncToStorage r', [serverAdded id]) ∧ settings r' = settings r ∧
    serverJsonById r' = <[id := embedStorageServerId id stripped]> (serverJsonById r) ∧
    orderedServerIds r' = orderedServerIds r ++ [id] ∧
    defaultServer r' = (if isEmpty (defaultServer r) then id else defaultServer r).
Proof.
  intros id stripped. unfold addServer. fold id. destruct (bool_decide (is_Some _) || _) eqn:Hk; [by left|].
  reflect_bools. fold stripped. destruct (_ || _) eqn:Hv; [by left|]. reflect_bools. right.
  eexists. split_and!; [done|done|done|..]; by destruct (isEmpty _).
Qed.

Lemma invariant_addServer id o kind uuid r : validId uuid → invariant r → invariant (addServer id o kind uuid r).1.2.
Proof.
  intros Hu [Hc Hd]. destruct (addServer_cases id o kind uuid r) as [->|(r' & Hfresh & _ & -> & _ & Hb & Hi & _)]; [done|].
  apply invariant_sync. rewrite Hb, Hi, <-(consistent_fresh (serverJsonById r)) by done.
  apply consistent_insert; [done|by apply normalized_valid].
Qed.

Lemma consistent_replace byId ids id o :
  consistent byId ids → id ∈ ids →
  consistent (<[id := embedStorageServerId id o]> (delete id byId)) ids.
Proof.
  intros Hc Hin. rewrite insert_delete_eq. assert (ids = append_new ids id) as -> by by rewrite append_new_elem.
  apply consistent_insert; [done|]. apply (ids_documents _ _ Hc) in Hin as [o' Ho].
  by apply (documents_named _ _ Hc) in Ho as [_ ?].
Qed.

Lemma invariant_editServer id o kind r : invariant r → invariant (editServer id o kind r).1.
Proof.
  intros [Hc Hd]. unfold editServer. destruct (_ || _) eqn:Hk; [done|].
  destruct (serverJsonById r !! id) as [old|] eqn:Hold; [|done].
  assert (id ∈ orderedServerIds r) as Hin by by apply (ids_documents _ _ Hc).
  destruct (negb _).
  - rewrite (bool_decide_eq_false_2 (_ = Invalid)) by apply configTypeFromJson_range.
    rewrite bool_decide_eq_true_2 by done. split; [|done]. by apply consistent_replace.
  - apply invariant_sync. by apply consistent_replace.
Qed.

(** The server that takes over as the default one. *)
Definition nextDefault (ids : list string) (i : nat) (id d : string) : string :=
  match delete i ids with
  | [] => ""
  | first :: _ =>
      if bool_decide (d = id) then default "" (delete i ids !! Nat.min i (length (delete i ids) - 1))
      else if listContains (delete i ids) d then d else first
  end.

(** Removing a server removes its document and its place in the list. *)
Lemma removeServer_cases id r :
  consistent (serverJsonById r) (orderedServerIds r) →
  id ∉ orderedServerIds r ∧ removeServer id r = (r, []) ∨
  ∃ i, orderedServerIds r !! i = Some id ∧
    (removeServer id r).1 = syncToStorage (setDefaultId (nextDefault (orderedServerIds r) i id (defaultServer r))
      (setServers (delete id (serverJsonById r)) (delete i (orderedServerIds r)) r)).
Proof.
  intros Hc. unfold removeServer. destruct (Z.ltb_spec (indexOfServerId r id) 0) as [Hix|Hix].
  { left. split; [|done]. rewrite <-indexOf_elem. lia. }
  apply indexOf_elem in Hix. pose proof Hix as (i & -> & Hi)%indexOf_lookup.
  rewrite bool_decide_eq_true_2 by by apply (ids_documents _ _ Hc). cbn [negb fst]. right. exists i. split; [done|].
  rewrite Nat2Z.id. f_equal. unfold nextDefault. cbn [orderedServerIds setServers defaultServer]. unfold serversCount.
  cbn [orderedServerIds setServers]. destruct (delete i (orderedServerIds r)) as [|first rest] eqn:Hdel; [done|].
  case_bool_decide; [|by destruct (listContains _ _)].
  replace (Z.to_nat _) with (Nat.min i (length (first :: rest) - 1)) by lia. done.
Qed.

Lemma invariant_removeServer id r : invariant r → invariant (removeServer id r).1.
Proof.
  intros [Hc Hd]. destruct (removeServer_cases id r Hc) as [[_ ->]|(i & Hi & ->)]; [done|].
  apply invariant_sync. by apply consistent_delete.
Qed.

Lemma invariant_perform r op : opOk op → invariant r → invariant (perform r op).
Proof.
  intros Hop Hr. destruct op as [id o kind uuid|id o kind|id|id| |uuids|uuids]; cbn [perform].
  - by apply invariant_addServer.
  - by apply invariant_editServer.
  - by apply invariant_removeServer.
  - unfold setDefaultServer. repeat (case_match; [done|]). apply invariant_persist, Hr.
  - apply invariant_sync, consistent_empty.
  - by apply invariant_loadFromStorage.
  - by apply invariant_construct.
Qed.

Lemma invariant_run r ops : Forall opOk ops → invariant r → invariant (foldl perform r ops).
Proof.
  intros Hops. revert r. induction Hops as [|op ops Hop _ IH]; intros r Hr; [done|].
  cbn [foldl]. by apply IH, invariant_perform.
Qed.

(** C15: whatever the settings hold when the application starts and whatever is done
    with the servers afterwards, the list of identifiers names the documents that
    are kept, each once, every document carries its own identifier, and the default
    server is a server of the list, or there is none when the list is empty. *)
Theorem servers_invariant uuids s ops :
  (∀ n, validId (uuids n)) → Forall opOk ops → invariant (foldl perform (construct uuids s) ops).
Proof.
  intros Hu Hops. apply invariant_run; [done|]. by apply invariant_construct.
Qed.

(** ** Storage *)

Definition documents (r : repo) : list QJsonObject := omap (λ id, serverJsonById r !! id) (orderedServerIds r).

(** Every document is one that is loaded again. *)
Definition documentsOk (r : repo) : Prop :=
  ∀ id o, serverJsonById r !! id = Some o →
    isConfigFormatVersionSupported (withoutStorageServerId o) = true ∧ printable (JObject o).

Definition storedDefault (s : S) : string := toStringV (sValue s defaultServerIdKey (VString "")).

(** The settings hold what is in memory. *)
Definition stored (r : repo) : Prop :=
  sReady (settings r) ∧ storedServers (settings r) = JObject <$> documents r ∧
  storedDefault (settings r) = defaultServer r.

(** What a client sees. *)
Definition sameServers (r r' : repo) : Prop :=
  serverJsonById r = serverJsonById r' ∧ orderedServerIds r = orderedServerIds r' ∧ defaultServer r = defaultServer r'.

Lemma default_plain : defaultServerIdKey ∉ encryptedKeys.
Proof. unfold encryptedKeys. rewrite list_elem_of_singleton. discriminate. Qed.

Lemma embed_without id o :
  o !! "storageServerId" = Some (JString id) → embedStorageServerId id (withoutStorageServerId o) = o.
Proof. intros Ho. unfold embedStorageServerId, withoutStorageServerId. rewrite insert_delete_eq. by apply insert_id. Qed.

Lemma documents_printable r : documentsOk r → Forall printable (JObject <$> documents r).
Proof.
  intros Hok. apply Forall_fmap, Forall_forall. intros o Ho. unfold documents in Ho.
  apply list_elem_of_omap in Ho as (id & _ & Hid). apply (Hok _ _ Hid).
Qed.

Lemma stored_persist r :
  sReady (settings r) → storedServers (settings r) = JObject <$> documents r → stored (persistDefaultServerFields r).
Proof.
  intros Hs Hl. unfold stored, storedServers, storedDefault, persistDefaultServerFields.
  set (r' := match orderedServerIds r with [] => _ | _ => _ end).
  assert (settings r' = settings r ∧ documents r' = documents r) as [Hs' Hd'] by (subst r'; repeat case_match; done).
  cbn [settings setSettings serverJsonById orderedServerIds defaultServer]. rewrite Hs'. split_and!.
  - by apply sReady_default.
  - rewrite (sValue_set_ne _ defaultServerIdKey serversListKey) by (apply default_plain || done).
    etrans; [exact Hl|]. by rewrite <-Hd'.
  - by rewrite sValue_set_eq by apply default_plain.
Qed.

Lemma stored_sync r : sReady (settings r) → documentsOk r → stored (syncToStorage r).
Proof.
  intros Hs Hok. apply documents_printable in Hok. unfold syncToStorage.
  fold (documents r). destruct (print_bracket (JObject <$> documents r)) as [text Htext].
  apply stored_persist; cbn [settings setSettings]; rewrite Htext; [by apply sReady_list|].
  unfold storedServers. rewrite sList_eq by done. cbn [toByteArrayV]. rewrite <-Htext. by apply parse_print.
Qed.

(** Loading documents that were stored by the repository. *)
Lemma load_documents uuids (byId : gmap string QJsonObject) ids f s m done d n :
  NoDup (done ++ ids) → (∀ id, id ∈ done ↔ is_Some (m !! id)) →
  (∀ id, id ∈ ids → ∃ o, byId !! id = Some o ∧ o !! "storageServerId" = Some (JString id) ∧ validId id ∧
    isConfigFormatVersionSupported (withoutStorageServerId o) = true) →
  ∃ m', foldl (loadServer uuids) (Repo s m done d n)
          (imap (λ i j, (f i, j)) (JObject <$> omap (λ id, byId !! id) ids)) = Repo s m' (done ++ ids) d n ∧
    ∀ id, m' !! id = if decide (id ∈ ids) then byId !! id else m !! id.
Proof.
  revert f m done. induction ids as [|id ids IH]; intros f m done Hnd Hm Hids.
  { exists m. rewrite (right_id_L [] (++)). split; [done|]. intros id. by rewrite decide_False by set_solver. }
  destruct (Hids id) as (o & Ho & Hname & [Hne Htrim] & Hsup); [set_solver|].
  cbn [omap list_omap]. rewrite Ho. cbn [fmap list_fmap imap foldl].
  assert (id ∉ done) as Hfresh by (apply NoDup_app in Hnd; set_solver).
  assert (¬ is_Some (m !! id)) as Hnone by by rewrite <-Hm.
  assert (loadServer uuids (Repo s m done d n) (f 0%nat, JObject o) = Repo s (<[id := o]> m) (done ++ [id]) d n) as ->.
  { unfold loadServer. cbn [fst snd toObjectJ serverJsonById orderedServerIds].
    assert (normalizedOrGeneratedServerId m (readStorageServerId o) (uuids (f 0%nat)) = id) as ->.
    { unfold normalizedOrGeneratedServerId, readStorageServerId, jvalue, qvalue. rewrite Hname.
      cbn [from_option toStringJ Datatypes.id]. rewrite !Htrim. rewrite bool_decide_eq_false_2 by done. by destruct id. }
    rewrite Hsup, bool_decide_eq_false_2, bool_decide_eq_false_2 by (done || apply configTypeFromJson_range).
    cbn [negb orb setServers settings serverJsonById orderedServerIds defaultServer unsupportedFormatConfigsCount].
    by rewrite embed_without. }
  destruct (IH (f ∘ Datatypes.S) (<[id := o]> m) (done ++ [id])) as (m' & Heq & Hm').
  - by rewrite <-app_assoc.
  - intros id'. rewrite elem_of_app, list_elem_of_singleton, Hm, lookup_insert_is_Some'. intuition congruence.
  - intros id' Hid'. apply Hids. set_solver.
  - exists m'. rewrite <-app_assoc in Heq. split; [exact Heq|]. intros id'. rewrite Hm'.
    destruct (decide (id' ∈ ids)); [rewrite decide_True by set_solver; done|].
    destruct (decide (id' = id)) as [->|Hne'].
    + rewrite decide_True by set_solver. by rewrite lookup_insert_eq.
    + rewrite decide_False by set_solver. by rewrite lookup_insert_ne.
Qed.

(** A store that holds the servers of [r] is loaded as [r]. *)
Lemma load_stored uuids r r0 :
  invariant r → documentsOk r → storedServers (settings r0) = JObject <$> documents r →
  storedDefault (settings r0) = defaultServer r →
  sameServers (loadFromStorage uuids r0) r ∧ settings (loadFromStorage uuids r0) = settings r0.
Proof.
  intros [[Hnd Hids Hdoc] Hd] Hok Hl Hdef. unfold loadFromStorage. cbn [settings]. rewrite Hl. unfold documents.
  destruct (load_documents uuids (serverJsonById r) (orderedServerIds r) (λ i, i) (settings r0) ∅ [] (defaultServer r0) 0)
    as (m & Heq & Hm); [done| | |].
  { intros id. rewrite lookup_empty. split; [set_solver|by intros []]. }
  { intros id Hid. pose proof Hid as [o Ho]%Hids. exists o. split; [done|].
    destruct (Hdoc _ _ Ho). by destruct (Hok _ _ Ho). }
  replace (imap pair _) with (imap (λ i j, (i, j)) (JObject <$> omap (λ id, serverJsonById r !! id) (orderedServerIds r)))
    by done.
  rewrite Heq. assert (m = serverJsonById r) as ->.
  { apply map_eq. intros id. rewrite Hm. case_decide as Hin; [done|]. rewrite lookup_empty. symmetry.
    apply eq_None_not_Some. by rewrite <-Hids. }
  unfold updateDefaultServerFromStorage. cbn [settings serverJsonById orderedServerIds app].
  unfold storedDefault in Hdef. rewrite Hdef. unfold sameServers. destruct Hd as [Hin|[Hnil Hempty]].
  - pose proof Hin as [o Ho]%Hids. destruct (Hdoc _ _ Ho) as [_ [Hne _]].
    rewrite bool_decide_eq_true_2 by by apply Hids. replace (isEmpty (defaultServer r)) with false by by destruct (defaultServer r).
    done.
  - rewrite Hempty, Hnil. cbn [isEmpty negb andb]. by destruct (_ && _).
Qed.

(** ** Runs that keep the storage *)

(** The documents that are given can be written, and an edit does not bring a newer
    format. *)
Definition opStorable (op : serverOp) : Prop :=
  match op with
  | AddServer _ o _ _ => printable (JObject o)
  | EditServer _ o _ => printable (JObject o) ∧ isConfigFormatVersionSupported (withoutStorageServerId o) = true
  | _ => True
  end.

(** Memory and storage agree. *)
Definition kept (r : repo) : Prop := invariant r ∧ documentsOk r ∧ stored r.

Lemma without_embed id o : withoutStorageServerId (embedStorageServerId id (withoutStorageServerId o)) = withoutStorageServerId o.
Proof. unfold embedStorageServerId, withoutStorageServerId. by rewrite delete_insert_eq, delete_delete_eq. Qed.

Lemma documentsOk_insert r r' id o :
  documentsOk r → printable (JObject o) → isConfigFormatVersionSupported (withoutStorageServerId o) = true →
  serverJsonById r' = <[id := embedStorageServerId id (withoutStorageServerId o)]> (serverJsonById r) → documentsOk r'.
Proof.
  intros Hok Hp Hv Hr' id' o'. rewrite Hr'. intros [[<- <-]|[_ Ho]]%lookup_insert_Some; [|by apply (Hok id')].
  rewrite without_embed. split; [done|]. by apply printable_insert, printable_delete.
Qed.

Lemma documentsOk_same r r' : documentsOk r → serverJsonById r' = serverJsonById r → documentsOk r'.
Proof. intros Hok Heq id o. rewrite Heq. apply Hok. Qed.

(** Writing the default server changes no document. *)
Lemma persist_documents r : serverJsonById (persistDefaultServerFields r) = serverJsonById r.
Proof. unfold persistDefaultServerFields. by repeat case_match. Qed.

Lemma kept_sync r :
  consistent (serverJsonById r) (orderedServerIds r) → sReady (settings r) → documentsOk r → kept (syncToStorage r).
Proof.
  intros Hc Hs Hok. split_and!; [by apply invariant_sync| |by apply stored_sync].
  eapply documentsOk_same; [exact Hok|]. unfold syncToStorage. by rewrite persist_documents.
Qed.

(** An edit replaces a document or changes nothing. *)
Lemma editServer_cases id o kind r :
  invariant r →
  sameServers (editServer id o kind r).1 r ∧ settings (editServer id o kind r).1 = settings r ∨
  id ∈ orderedServerIds r ∧
  (editServer id o kind r).1 =
    syncToStorage (setServers (<[id := embedStorageServerId id (withoutStorageServerId o)]> (serverJsonById r))
      (orderedServerIds r) r).
Proof.
  intros [Hc Hd]. unfold editServer. destruct (_ || _); [by left|].
  destruct (serverJsonById r !! id) as [old|] eqn:Hold; [|by left]. rewrite !insert_delete_eq. destruct (negb _).
  - left. rewrite (bool_decide_eq_false_2 (_ = Invalid)) by apply configTypeFromJson_range.
    rewrite bool_decide_eq_true_2 by done. split; [|done]. split; [|done]. cbn [fst andb negb serverJsonById setServers].
    rewrite insert_id; [done|]. rewrite embed_without; [done|]. by apply (documents_named _ _ Hc).
  - right. split; [by apply (ids_documents _ _ Hc)|done].
Qed.

Lemma kept_same r r' : kept r → sameServers r' r → settings r' = settings r → kept r'.
Proof.
  unfold kept, invariant, stored, documents, documentsOk. intros Hk (-> & -> & ->) ->. exact Hk.
Qed.

Lemma kept_load uuids r r0 :
  kept r → storedServers (settings r0) = storedServers (settings r) → storedDefault (settings r0) = storedDefault (settings r) →
  sameServers (loadFromStorage uuids r0) r ∧ settings (loadFromStorage uuids r0) = settings r0.
Proof. intros (Hinv & Hok & Hs & Hl & Hd) Hl' Hd'. by apply load_stored; [..|rewrite Hl'|rewrite Hd']. Qed.

(** A new process has the same servers. *)
Lemma kept_restart uuids r :
  kept r → sameServers (construct uuids (sRestart (settings r))) r ∧ kept (construct uuids (sRestart (settings r))).
Proof.
  intros Hk. pose proof Hk as (Hinv & Hok & Hs & Hl & Hd). unfold construct.
  set (r0 := Repo (sRestart (settings r)) ∅ [] "" 0).
  assert (storedServers (settings r0) = storedServers (settings r)) as Hl'
    by (unfold storedServers; cbn [settings r0]; by rewrite sRestart_value).
  assert (storedDefault (settings r0) = storedDefault (settings r)) as Hd'
    by (unfold storedDefault; cbn [settings r0]; by rewrite sRestart_value).
  destruct (kept_load uuids r r0 Hk Hl' Hd') as [(Hb & Hi & Hde) Hset].
  set (r1 := loadFromStorage uuids r0) in *.
  assert (stored r1) as Hst.
  { unfold stored, documents. rewrite Hb, Hi, Hde, Hset, Hl', Hd'. split_and!; [by apply sReady_restart|done..]. }
  assert (invariant r1) as Hinv1 by (unfold invariant; by rewrite Hb, Hi, Hde).
  assert (defaultServer (persistDefaultServerFields r1) = defaultServer r1 ∧
          orderedServerIds (persistDefaultServerFields r1) = orderedServerIds r1) as [Hd1 Hi1].
  { unfold persistDefaultServerFields. destruct Hinv1 as [_ Hdok]. destruct (orderedServerIds r1) as [|x ids] eqn:Hx.
    - cbn. rewrite Hx. destruct Hdok as [Hin|[_ ->]]; [set_solver|done].
    - unfold listContains. rewrite bool_decide_eq_true_2 by (by destruct Hdok as [|[]]). done. }
  split.
  - split_and!; [by rewrite persist_documents|by rewrite Hi1|by rewrite Hd1].
  - split_and!; [by apply invariant_persist, Hinv1| |apply stored_persist; [apply Hst|apply Hst]].
    eapply documentsOk_same; [exact Hok|]. by rewrite persist_documents.
Qed.

Lemma kept_perform r op : opOk op → opStorable op → kept r → kept (perform r op).
Proof.
  intros Hop Hsto Hk. pose proof Hk as ([Hc Hd] & Hok & Hs & Hl & Hdef).
  destruct op as [id o kind uuid|id o kind|id|id| |uuids|uuids]; cbn [perform opOk opStorable] in *.
  - destruct (addServer_cases id o kind uuid r) as [->|(r' & Hfresh & Hv & -> & Hset & Hb & Hi & _)]; [done|].
    apply kept_sync; [|by rewrite Hset|by eapply documentsOk_insert].
    rewrite Hb, Hi, <-(consistent_fresh (serverJsonById r)) by done. apply consistent_insert; [done|by apply normalized_valid].
  - destruct (editServer_cases id o kind r (conj Hc Hd)) as [[Hsame Hset]|[Hin ->]]; [by eapply kept_same|].
    apply kept_sync; [|done|by eapply documentsOk_insert; [done|apply Hsto..|]].
    rewrite <-insert_delete_eq. by apply consistent_replace.
  - destruct (removeServer_cases id r Hc) as [[_ ->]|(i & Hi & ->)]; [done|].
    apply kept_sync; [by apply consistent_delete|done|].
    intros id' o'. cbn [serverJsonById setDefaultId setServers]. intros [_ Ho]%lookup_delete_Some. by apply (Hok id').
  - unfold setDefaultServer. repeat (case_match; [done|]). split_and!; [apply invariant_persist, Hk| |exact (stored_persist (setDefaultId id r) Hs Hl)].
    eapply documentsOk_same; [exact Hok|]. cbn [fst]. by rewrite persist_documents.
  - apply kept_sync; [apply consistent_empty|done|]. intros id o Ho. cbn in Ho. by rewrite lookup_empty in Ho.
  - destruct (kept_load uuids r r Hk) as [Hsame Hset]; [done..|]. by eapply kept_same.
  - by apply kept_restart.
Qed.


(** ** New names *)

Lemma serverName_inj word i j : serverName word i = serverName word j → i = j.
Proof. unfold serverName. intros Heq. simplify_eq. done. Qed.

(** The loop stops at the first name that is not used. *)
Lemma nameLoop_first fuel word used i k :
  (∀ j, (i < j < k)%nat → serverName word j ∈ used) → (i < k ≤ i + fuel)%nat → serverName word k ∉ used →
  nameLoop fuel word used i = Some (serverName word k).
Proof.
  revert i. induction fuel as [|fuel IH]; intros i Hused Hk Hfree; [lia|]. cbn [nameLoop]. unfold listContains.
  destruct (decide (k = Datatypes.S i)) as [->|Hne].
  - by rewrite bool_decide_eq_false_2.
  - rewrite bool_decide_eq_true_2 by (apply Hused; lia). apply IH; [intros; apply Hused; lia|lia|done].
Qed.

(** Among one more names than there are used ones, one is free: the first one. *)
Lemma free_name word used :
  ∃ k, (0 < k ≤ Datatypes.S (length used))%nat ∧ serverName word k ∉ used ∧
    ∀ j, (0 < j < k)%nat → serverName word j ∈ used.
Proof.
  destruct (list_find (λ k, serverName word k ∉ used) (seq 1 (Datatypes.S (length used)))) as [[i k]|] eqn:Hfind.
  - apply list_find_Some in Hfind as (Hk & Hfree & Hbefore). apply lookup_seq in Hk as [-> Hi].
    exists (1 + i)%nat. split_and!; [lia|lia|done|]. intros j Hj. apply dec_stable.
    apply (Hbefore (j - 1)%nat); [|lia]. apply lookup_seq. lia.
  - exfalso. apply list_find_None in Hfind. rewrite Forall_forall in Hfind.
    assert (serverName word <$> seq 1 (Datatypes.S (length used)) ⊆+ used) as Hsub.
    { apply NoDup_submseteq.
      - apply NoDup_fmap_2_strong; [|apply NoDup_seq]. intros x y _ _. apply serverName_inj.
      - intros n (k & -> & Hk)%list_elem_of_fmap. apply dec_stable. by apply Hfind. }
    apply submseteq_length in Hsub. rewrite length_fmap, length_seq in Hsub. lia.
Qed.

(** A name for a new server is always found, within one more attempts than there
    are servers; no server has it, and every name with a smaller number is taken. *)
Lemma nextAvailableServerName_free word r :
  ∃ k, nextAvailableServerName word r = Some (serverName word k) ∧
    (∀ id, id ∈ orderedServerIds r → storedServerDisplayName r id ≠ serverName word k) ∧
    ∀ j, (0 < j < k)%nat → ∃ id, id ∈ orderedServerIds r ∧ storedServerDisplayName r id = serverName word j.
Proof.
  assert (length (usedNames r) ≤ length (orderedServerIds r))%nat as Hlen.
  { unfold usedNames. etrans; [apply length_filter|]. by rewrite length_fmap. }
  destruct (free_name word (usedNames r)) as (k & Hk & Hfree & Hbefore). exists k. split_and!.
  - apply nameLoop_first; [done|lia|done].
  - intros id Hid Heq. apply Hfree. apply list_elem_of_filter. split; [unfold serverName; by destruct word|].
    rewrite <-Heq. by apply list_elem_of_fmap_2.
  - intros j Hj. specialize (Hbefore j Hj). apply list_elem_of_filter in Hbefore as [_ (id & -> & Hid)%list_elem_of_fmap].
    by exists id.
Qed.

(** ** The default server after a removal *)

Lemma defaultServer_sync r :
  defaultOk (orderedServerIds r) (defaultServer r) → defaultServer (syncToStorage r) = defaultServer r.
Proof.
  intros Hd. unfold syncToStorage, persistDefaultServerFields. cbn [orderedServerIds setSettings defaultServer].
  destruct (orderedServerIds r) as [|x ids] eqn:Hids; cbn [defaultServer setSettings setDefaultId].
  - destruct Hd as [Hin|[_ ->]]; [set_solver|done].
  - unfold listContains. rewrite bool_decide_eq_true_2 by (by destruct Hd as [|[]]). done.
Qed.

Lemma elem_of_delete_ne (ids : list string) i id d : ids !! i = Some id → d ∈ ids → d ≠ id → d ∈ delete i ids.
Proof.
  intros Hi Hd Hne. rewrite delete_take_drop. rewrite <-(take_drop_middle ids i id Hi) in Hd. set_solver.
Qed.

Lemma nextDefault_ok ids i id d : defaultOk (delete i ids) (nextDefault ids i id d).
Proof.
  unfold nextDefault. destruct (delete i ids) as [|x l] eqn:Hdel; [by right|].
  case_bool_decide; [apply lookup_ok; simpl; lia|]. unfold listContains. case_bool_decide; left; [done|].
  apply elem_of_cons. by left.
Qed.

(** Removing a server leaves the default server alone unless it is the one that
    is removed; then the server that follows it in the list takes its place, or the
    one before it when it was the last. *)
Lemma removeServer_default r i id :
  invariant r → orderedServerIds r !! i = Some id →
  let r' := (removeServer id r).1 in
  orderedServerIds r' = delete i (orderedServerIds r) ∧
  (defaultServer r ≠ id → defaultServer r' = defaultServer r) ∧
  (defaultServer r = id → ∀ next,
     orderedServerIds r !! Datatypes.S i = Some next ∨
     (Datatypes.S i = length (orderedServerIds r) ∧ 0 < i)%nat ∧ orderedServerIds r !! (i - 1)%nat = Some next →
     defaultServer r' = next).
Proof.
  intros [Hc Hd] Hi r'. subst r'.
  destruct (removeServer_cases id r Hc) as [[Hno _]|(i' & Hi' & ->)].
  { by apply list_elem_of_lookup_2 in Hi. }
  assert (i' = i) as -> by by eapply NoDup_lookup; [apply Hc|..]. split.
  { unfold syncToStorage, persistDefaultServerFields. by repeat case_match. }
  rewrite defaultServer_sync by apply nextDefault_ok. cbn [defaultServer setDefaultId].
  assert (i < length (orderedServerIds r))%nat as Hlt by by eapply lookup_lt_Some. unfold nextDefault. split.
  - intros Hne. rewrite bool_decide_eq_false_2 by done. destruct Hd as [Hin|[Hnil _]]; [|by rewrite Hnil in Hi].
    pose proof (elem_of_delete_ne _ _ _ _ Hi Hin Hne) as Hin'. destruct (delete i _); [set_solver|].
    unfold listContains. by rewrite bool_decide_eq_true_2.
  - intros Heq next Hnext. rewrite bool_decide_eq_true_2 by done.
    assert (delete i (orderedServerIds r) !! Nat.min i (length (delete i (orderedServerIds r)) - 1) = Some next) as Hlook.
    { rewrite length_delete by done. destruct Hnext as [Hnext|[[Hlast Hpos] Hnext]].
      - pose proof (lookup_lt_Some _ _ _ Hnext). rewrite Nat.min_l by lia. by rewrite list_lookup_delete_ge.
      - rewrite Nat.min_r by lia. rewrite list_lookup_delete_lt by lia. rewrite <-Hnext. f_equal. lia. }
    destruct (delete i _); [done|]. by rewrite Hlook.
Qed.
End repository.


#[global] Arguments serverOp : clear implicits.

(** ** The store of [SecureSettings] *)

Section instance.
Context {KC : Type} `{Keychain KC} `{SettingsCodec} (platformEncrypts : bool).

(** Byte arrays have a stream format. *)
Hypothesis bytes_serializable : ∀ b, serializable (VByteArray b).

Notation store := (secureQSettings KC).

(** The keychain holds both keys. *)
Definition keychainFull (kc : KC) : Prop :=
  ∃ key iv, kcRead kc settingsKeyTag = (NoError, key) ∧ key ≠ "" ∧ kcRead kc settingsIvTag = (NoError, iv) ∧ iv ≠ "".

Definition secureReady (s : store) : Prop :=
  coherent s ∧ keychainHolds s ∧ (encIv s ≠ "" → encKey s ≠ "") ∧
  (encryptionRequired platformEncrypts s = false ∨ keychainFull (keychain s)).

Lemma loadTag_full tag member kc v :
  kcRead kc tag = (NoError, v) → v ≠ "" → (member ≠ "" → member = v) → loadTag tag member kc = (v, v, kc).
Proof.
  intros Hr Hv Hm. unfold loadTag. destruct member as [|c m]; cbn [isEmpty negb]; [by rewrite Hr|]. by rewrite Hm.
Qed.

Lemma keysAvailable_full s :
  keychainHolds s → keychainFull (keychain s) →
  ∃ key iv, key ≠ "" ∧ iv ≠ "" ∧
    keysAvailable s = (true, Settings (disk s) (cache s) key iv (encryptionEnabled s) (keychain s)) ∧
    kcRead (keychain s) settingsKeyTag = (NoError, key) ∧ kcRead (keychain s) settingsIvTag = (NoError, iv).
Proof.
  intros [Hk Hi] (key & iv & Hkr & Hkey & Hir & Hiv). exists key, iv. split_and!; [done..| |done|done].
  unfold keysAvailable, getEncKey, getEncIv. rewrite (loadTag_full _ _ _ key) by (done || intros Hne; specialize (Hk Hne); congruence).
  cbn [setEncKey encIv keychain]. replace (isEmpty key) with false by by destruct key.
  rewrite (loadTag_full _ _ _ iv) by (done || intros Hne; specialize (Hi Hne); congruence). by destruct iv.
Qed.

(** A write keeps the keys, and a write of a secret is carried out. *)
Lemma setValue_ready s k v :
  secureReady s → isMarked v = false → (k ∈ encryptedKeys → serializable v) →
  secureReady (SecureSettings.setValue platformEncrypts s k v) ∧ cache (SecureSettings.setValue platformEncrypts s k v) = <[k := v]> (cache s).
Proof.
  intros (Hc & Hkc & Hboth & Hready) Hm Hser.
  assert (coherent (SecureSettings.setValue platformEncrypts s k v)) as Hc' by (apply coherent_setValue; auto).
  unfold SecureSettings.setValue in *. destruct (encryptionRequired platformEncrypts s) eqn:Hreq; cbn [andb] in *;
    [|split; [split_and!; [exact Hc'|exact Hkc|exact Hboth|by left]|done]].
  destruct Hready as [|Hfull]; [done|]. destruct (listContains encryptedKeys k);
    [|split; [split_and!; [exact Hc'|exact Hkc|exact Hboth|by right]|done]].
  destruct (keysAvailable_full s Hkc Hfull) as (key & iv & Hkey & Hiv & Hka & Hkr & Hir).
  rewrite Hka, encryptText_ready in * by done. cbn [setDisk setCache disk cache encKey encIv encryptionEnabled keychain] in *.
  split; [|done]. split_and!; [exact Hc'|done|done|by right].
Qed.

Lemma readValue_cached (s : store) k v d : cache s !! k = Some v → readValue s k d = (v, s).
Proof. unfold readValue. by intros ->. Qed.

(** A new process loads the keys that were in use. *)
Lemma loadTag_again tag member kc :
  (member ≠ "" → kcRead kc tag = (NoError, member)) → loadTag tag "" kc = loadTag tag member kc.
Proof. intros Hm. unfold loadTag. destruct member as [|c m]; [done|]. cbn [isEmpty negb]. by rewrite Hm. Qed.

Lemma readValue_restart_same s k d :
  coherent s → keychainHolds s → (encIv s ≠ "" → encKey s ≠ "") →
  (readValue (restart s) k d).1 = (readValue s k d).1.
Proof.
  intros Hc Hkc Hboth. destruct (cache s !! k) as [v|] eqn:Hv.
  { rewrite (readValue_cached s k v) by done. destruct (Hc _ _ Hv) as (raw & Hraw & Hdec). by eapply readValue_restart. }
  unfold readValue. cbn [restart cache disk]. rewrite lookup_empty, Hv. destruct (disk s !! k) as [raw|]; [|done].
  destruct (isMarked raw); [|done]. destruct Hkc as [Hk Hi]. destruct s as [dk ca key iv en kc].
  cbn [encKey encIv keychain restart cache disk encryptionEnabled] in *.
  unfold keysAvailable, getEncKey, decryptText, getEncKey, getEncIv, restart.
  cbn [encKey encIv keychain setEncKey setEncIv setCache setDisk disk cache].
  rewrite (loadTag_again settingsKeyTag key) by done.
  destruct (loadTag settingsKeyTag key kc) as [[key1 member1] kc1] eqn:Hload. cbn [encKey encIv keychain setEncKey setCache].
  destruct (isEmpty key1); [done|].
  assert (loadTag settingsIvTag "" kc1 = loadTag settingsIvTag iv kc1) as ->.
  { destruct iv as [|c iv]; [done|]. apply loadTag_again. intros Hne. specialize (Hboth Hne).
    destruct (loadTag_member _ _ _ _ _ _ Hload) as [Hmem _]. destruct (Hmem Hboth) as (_ & _ & ->). by apply Hi. }
  destruct (loadTag settingsIvTag iv kc1) as [[iv1 member2] kc2]. cbn [encKey encIv keychain setEncKey setEncIv].
  destruct (isEmpty iv1); [done|]. cbn [negb encKey encIv keychain setEncKey setEncIv].
  destruct (loadTag settingsKeyTag member1 kc2) as [[key2 member3] kc3]. cbn [encKey encIv keychain setEncKey setEncIv].
  by destruct (loadTag settingsIvTag member2 kc3) as [[iv3 member4] kc4].
Qed.

Lemma list_secret : serversListKey ∈ encryptedKeys.
Proof. by apply list_elem_of_singleton. Qed.

Lemma secure_ready_restart s : secureReady s → secureReady (restart s).
Proof.
  intros (Hc & _ & _ & Hready). split_and!; [|split; done|done|exact Hready].
  intros k v Hk. cbn in Hk. by rewrite lookup_empty in Hk.
Qed.

Lemma secure_list_ne s v k d :
  secureReady s → k ≠ serversListKey →
  (readValue (SecureSettings.setValue platformEncrypts s serversListKey v) k d).1 = (readValue s k d).1.
Proof.
  intros (_ & Hkc & _ & Hready) Hne. destruct (encryptionRequired platformEncrypts s) eqn:Hreq;
    [|by apply secure_value_set_plain; [rewrite Hreq|]].
  destruct Hready as [|Hfull]; [done|]. pose proof (keysAvailable_full s Hkc Hfull) as (key & iv & Hkey & Hiv & Hka & _ & _).
  unfold SecureSettings.setValue, listContains. rewrite Hreq, (bool_decide_true _ list_secret). cbn [andb].
  rewrite Hka, encryptText_ready by done. unfold readValue.
  cbn [setDisk setCache disk cache encKey encIv encryptionEnabled keychain]. rewrite !lookup_insert_ne by done.
  destruct (cache s !! k); [done|]. destruct (disk s !! k) as [raw|]; [|done]. destruct (isMarked raw); [|done].
  rewrite Hka. cbn [negb]. rewrite decryptText_ready by done.
  unfold keysAvailable. rewrite getEncKey_cached by done. cbn [setDisk setCache encKey].
  replace (isEmpty key) with false by by destruct key.
  rewrite getEncIv_cached by done. cbn [setDisk setCache encIv]. replace (isEmpty iv) with false by by destruct iv.
  cbn [negb]. by rewrite decryptText_ready.
Qed.

Lemma secure_ready_list s text :
  secureReady s → secureReady (SecureSettings.setValue platformEncrypts s serversListKey (VByteArray ("[" +:+ text))).
Proof. intros Hs. by apply setValue_ready. Qed.

Lemma secure_ready_default s id :
  secureReady s → secureReady (SecureSettings.setValue platformEncrypts s defaultServerIdKey (VString id)).
Proof. intros Hs. apply setValue_ready; [done|done|]. intros Hin. by destruct default_plain. Qed.

Lemma secure_list_eq s text d :
  secureReady s →
  (readValue (SecureSettings.setValue platformEncrypts s serversListKey (VByteArray ("[" +:+ text))) serversListKey d).1 =
    VByteArray ("[" +:+ text).
Proof.
  intros Hs. rewrite (readValue_cached _ _ (VByteArray ("[" +:+ text))); [done|].
  destruct (setValue_ready s serversListKey (VByteArray ("[" +:+ text))) as [_ ->]; [done..|]. apply lookup_insert_eq.
Qed.

Lemma secure_restart_value s k d : secureReady s → (readValue (restart s) k d).1 = (readValue s k d).1.
Proof. intros (Hc & Hk & Hb & _). by apply readValue_restart_same. Qed.

(** The encrypted store gives the repository what it needs. *)
Definition secureServersStore : @ServersStore store (secureStore platformEncrypts) :=
  @Build_ServersStore store (secureStore platformEncrypts) secureReady restart secure_ready_list secure_ready_default
    secure_ready_restart secure_list_eq secure_list_ne secure_restart_value.
End instance.

(** ** Witnesses *)

(** A text for arrays of objects that hold strings: the code of the array in binary. *)

Definition stringFields (j : json) : gmap string string :=
  omap (λ v, match v with JString s => Some s | _ => None end) (toObjectJ j).

Definition samplePrint (l : list json) : string := "[" +:+ binary (encode (stringFields <$> l)).

Definition sampleParse (s : string) : list json :=
  match s with
  | EmptyString => []
  | String _ t => (λ m, JObject (JString <$> m)) <$> default [] (decode (unbinary t))
  end.

Definition samplePrintable (j : json) : Prop := ∃ m : gmap string string, j = JObject (JString <$> m).

Lemma sampleParse_print l : Forall samplePrintable l → sampleParse (samplePrint l) = l.
Proof.
  intros Hl. change (sampleParse (samplePrint l)) with
    ((λ m, JObject (JString <$> m)) <$>
     default ([] : list (gmap string string)) (decode (unbinary (binary (encode (stringFields <$> l)))))).
  rewrite unbinary_binary, decode_encode. cbn [from_option id].
  induction Hl as [|j l [m ->] _ IH]; [done|]. cbn. rewrite IH. do 4 f_equal. apply map_eq. intros k.
  unfold stringFields. cbn [toObjectJ]. rewrite lookup_omap, lookup_fmap. by destruct (m !! k).
Qed.

Lemma samplePrintable_insert o id :
  samplePrintable (JObject o) → samplePrintable (JObject (<["storageServerId" := JString id]> o)).
Proof. intros [m [= ->]]. exists (<["storageServerId" := id]> m). by rewrite fmap_insert. Qed.

Lemma samplePrintable_delete o : samplePrintable (JObject o) → samplePrintable (JObject (delete "storageServerId" o)).
Proof. intros [m [= ->]]. exists (delete "storageServerId" m). by rewrite fmap_delete. Qed.

#[local] Instance sampleText : ArrayText := {|
  parseArray := sampleParse;
  printArray := samplePrint;
  printable := samplePrintable;
  parse_print := sampleParse_print;
  print_bracket l := ex_intro _ _ eq_refl;
  printable_insert := samplePrintable_insert;
  printable_delete := samplePrintable_delete;
|}.

#[local] Instance sampleEndpoints : BuildEndpoints :=
  {| freeV2Endpoint := "https://free.example"; premiumV1Endpoint := "https://premium.example" |}.

(** A stream format for byte arrays. *)
Definition bytesDecode (s : string) : variant :=
  match s with String _ t => VByteArray t | EmptyString => VInvalid end.

Lemma bytesDecode_bytes v : (∃ b, v = VByteArray b) → bytesDecode ("b" +:+ toByteArrayV v) = v.
Proof. by intros [b ->]. Qed.

#[local] Instance bytesCodec : SettingsCodec := {|
  serialize v := "b" +:+ toByteArrayV v;
  deserialize := bytesDecode;
  encryptAes256Cbc t key iv := key +:+ t;
  decryptAes256Cbc t key iv := midFrom (String.length key) t;
  serializable v := ∃ b, v = VByteArray b;
  deserialize_serialize := bytesDecode_bytes;
  decrypt_encrypt t key iv _ _ := midFrom_app key t;
|}.

Lemma bytes_stored b : serializable (VByteArray b).
Proof. by exists b. Qed.

#[local] Existing Instance sampleKeychain.
#[local] Instance bytesStore : SettingsStore (secureQSettings unit) := secureStore true.
#[local] Instance sampleServersStore : ServersStore (secureQSettings unit) :=
  secureServersStore true bytes_stored.

Definition sampleUuids (n : nat) : string := "a6d2".

Definition sampleServer (host : string) : QJsonObject := JString <$> (<["hostName" := host]> ∅ : gmap string string).

Definition sampleServerOps : list serverOp :=
  [AddServer "" (sampleServer "a.example") SelfHostedUser "id1";
   AddServer " id2 " (sampleServer "b.example") SelfHostedUser "id3";
   SetDefaultServer "id2"; EditServer "id1" (sampleServer "c.example") SelfHostedUser;
   AddServer "id5" (sampleServer "d.example") SelfHostedUser "id6";
   InvalidateCache sampleUuids; RestartApplication sampleUuids].

Definition emptySettings : secureQSettings unit := Settings ∅ ∅ "" "" true tt.

Lemma sampleUuids_valid n : validId (sampleUuids n).
Proof. split; done. Qed.

Lemma sampleServerOps_ok : Forall opOk sampleServerOps.
Proof. repeat (apply Forall_cons_2; [done|]). apply Forall_nil_2. Qed.

Lemma servers_invariant_witness :
  orderedServerIds (foldl perform (construct sampleUuids emptySettings) sampleServerOps) = ["id1"; "id2"; "id5"] ∧
  invariant (foldl perform (construct sampleUuids emptySettings) sampleServerOps).
Proof.
  split; [vm_compute; reflexivity|]. apply (servers_invariant sampleUuids); [exact sampleUuids_valid|exact sampleServerOps_ok].
Defined.

Lemma sampleServer_printable host : samplePrintable (JObject (sampleServer host)).
Proof. eexists. reflexivity. Qed.

Lemma sampleServerOps_storable : Forall opStorable sampleServerOps.
Proof.
  repeat (apply Forall_cons_2; [first [exact I|apply sampleServer_printable|split; [apply sampleServer_printable|done]]|]).
  apply Forall_nil_2.
Qed.

Lemma emptySettings_ready : sReady emptySettings.
Proof.
  split_and!; [|split; done|done|right].
  - intros k v Hk. cbn in Hk. by rewrite lookup_empty in Hk.
  - exists "k", "k". split_and!; done.
Qed.


Lemma removeServer_default_example :
  let r := foldl perform (construct sampleUuids emptySettings) sampleServerOps in
  defaultServer (removeServer "id2" r).1 = "id5" ∧ defaultServer (removeServer "id1" r).1 = "id2".
Proof.
  intros r. assert (invariant r) as Hr
    by exact (invariant_run _ _ sampleServerOps_ok (invariant_construct _ emptySettings sampleUuids_valid)).
  assert (orderedServerIds r = ["id1"; "id2"; "id5"]) as Hids by (vm_compute; reflexivity).
  assert (defaultServer r = "id2") as Hd by (vm_compute; reflexivity). clearbody r. split.
  - destruct (removeServer_default r 1 "id2" Hr) as (_ & _ & Hnext); [rewrite Hids; reflexivity|].
    apply Hnext; [exact Hd|]. left. rewrite Hids. reflexivity.
  - destruct (removeServer_default r 0 "id1" Hr) as (_ & Hkeep & _); [rewrite Hids; reflexivity|].
    rewrite <-Hd. apply Hkeep. rewrite Hd. discriminate.
Defined.
