(* ===== verification/VpnProtocol.v ===== *)
(** * Protocol objects ([core/protocols/vpnProtocol.cpp])

    The state that every protocol object shares: its connection state, its last
    error and the traffic counters.  An operation returns the object and the signals
    it emits.  Counters are [quint64]: differences are taken modulo 2^64. *)

From S2P Require Import Prelude ConnectionHealth.
From stdpp Require Import options.
#[local] Open Scope Z_scope.

Inductive protocolSignal :=
  | BytesChanged (received sent : Z)
  | StateChanged (state : Vpn.ConnectionState)
  | ProtocolError (error : ErrorCode).

Record vpnProtocol := Object {
  protocolState : Vpn.ConnectionState;
  protocolLastError : ErrorCode;
  receivedBytes : Z;
  sentBytes : Z;
}.

(** The constructor. *)
Definition newProtocol : vpnProtocol := Object Vpn.Unknown ErrorCode.NoError 0 0.

Definition quint64 (z : Z) : Z := z mod 2 ^ 64.

Definition setBytesChanged (received sent : Z) (p : vpnProtocol) : vpnProtocol * list protocolSignal :=
  let rxDiff := quint64 (received - receivedBytes p) in
  let txDiff := quint64 (sent - sentBytes p) in
  (Object (protocolState p) (protocolLastError p) received sent, [BytesChanged rxDiff txDiff]).

Definition setProtocolState (state : Vpn.ConnectionState) (p : vpnProtocol) : vpnProtocol * list protocolSignal :=
  if bool_decide (protocolState p = state) then (p, [])
  else if bool_decide (protocolState p = Vpn.Disconnected) && bool_decide (state = Vpn.Disconnecting)
  then (p, [])
  else
    (if bool_decide (state = Vpn.Disconnected)
     then Object state (protocolLastError p) 0 0
     else Object state (protocolLastError p) (receivedBytes p) (sentBytes p),
     [StateChanged state]).

Definition setLastError (error : ErrorCode) (p : vpnProtocol) : vpnProtocol * list protocolSignal :=
  let p := Object (protocolState p) error (receivedBytes p) (sentBytes p) in
  if bool_decide (error = ErrorCode.NoError) then (p, []) else setProtocolState Vpn.Error p.

Definition isConnected (p : vpnProtocol) : bool := bool_decide (protocolState p = Vpn.Connected).
Definition isDisconnected (p : vpnProtocol) : bool := bool_decide (protocolState p = Vpn.Disconnected).

Definition textConnectionState (state : Vpn.ConnectionState) : string :=
  match state with
  | Vpn.Unknown => "Unknown"
  | Vpn.Disconnected => "Disconnected"
  | Vpn.Preparing => "Preparing"
  | Vpn.Connecting => "Connecting..."
  | Vpn.Connected => "Connected"
  | Vpn.Disconnecting => "Disconnecting..."
  | Vpn.Reconnecting => "Reconnecting..."
  | Vpn.Error => "Error"
  end.

(** ** Runs *)

Inductive protocolOp :=
  | OpBytes (received sent : Z)
  | OpState (state : Vpn.ConnectionState)
  | OpError (error : ErrorCode).

Definition applyOp (op : protocolOp) : vpnProtocol → vpnProtocol * list protocolSignal :=
  match op with
  | OpBytes received sent => setBytesChanged received sent
  | OpState state => setProtocolState state
  | OpError error => setLastError error
  end.

Fixpoint applyOps (ops : list protocolOp) (p : vpnProtocol) : vpnProtocol * list protocolSignal :=
  match ops with
  | [] => (p, [])
  | op :: ops =>
      let '(p, signals) := applyOp op p in
      let '(p, rest) := applyOps ops p in
      (p, signals ++ rest)
  end.

(** The states that were announced, and the traffic since the last disconnection. *)
Definition announcedStates (signals : list protocolSignal) : list Vpn.ConnectionState :=
  omap (λ s, match s with StateChanged st => Some st | _ => None end) signals.

Definition addTraffic (total : Z * Z) (s : protocolSignal) : Z * Z :=
  match s with
  | BytesChanged received sent => (total.1 + received, total.2 + sent)
  | StateChanged Vpn.Disconnected => (0, 0)
  | _ => total
  end.

Definition traffic (total : Z * Z) (signals : list protocolSignal) : Z * Z := foldl addTraffic total signals.

(** ** Properties *)

Lemma quint64_difference total counter reported :
  quint64 total = quint64 counter → quint64 (total + quint64 (reported - counter)) = quint64 reported.
Proof.
  unfold quint64. intros Heq. rewrite Zplus_mod_idemp_r, <-Zplus_mod_idemp_l, Heq, Zplus_mod_idemp_l.
  by replace (counter + (reported - counter)) with reported by lia.
Qed.

(** The counters of the object and a running total agree modulo 2^64. *)
Definition counted (p : vpnProtocol) (total : Z * Z) : Prop :=
  quint64 total.1 = quint64 (receivedBytes p) ∧ quint64 total.2 = quint64 (sentBytes p).

Lemma counted_state st p total :
  counted p total → counted (setProtocolState st p).1 (traffic total (setProtocolState st p).2).
Proof.
  intros Hc. unfold setProtocolState. case_bool_decide; [done|].
  destruct (_ && _); [done|]. unfold traffic. cbn [fst snd foldl addTraffic].
  case_bool_decide; subst; [done|]. by destruct st.
Qed.

Lemma counted_op op p total :
  counted p total → counted (applyOp op p).1 (traffic total (applyOp op p).2).
Proof.
  intros Hc. destruct op as [received sent|st|err]; [|by apply counted_state|].
  - destruct Hc as [Hr Hs]. unfold traffic, applyOp, setBytesChanged. cbn.
    split; cbn [fst snd]; by apply quint64_difference.
  - unfold applyOp, setLastError. case_bool_decide; [done|]. by apply counted_state.
Qed.

(** The announced differences add up: at any time the traffic announced since the
    last disconnection equals, modulo 2^64, the counters that the backend reported
    last. *)
Lemma traffic_adds_up ops :
  let '(p, signals) := applyOps ops newProtocol in
  quint64 (traffic (0, 0) signals).1 = quint64 (receivedBytes p) ∧
  quint64 (traffic (0, 0) signals).2 = quint64 (sentBytes p).
Proof.
  assert (∀ p total, counted p total →
    counted (applyOps ops p).1 (traffic total (applyOps ops p).2)) as Hgen.
  { induction ops as [|op ops IH]; intros p total Hc; [done|]. cbn [applyOps].
    pose proof (counted_op op p total Hc) as Hop. destruct (applyOp op p) as [p1 s1].
    specialize (IH p1 _ Hop). destruct (applyOps ops p1) as [p2 s2].
    cbn [fst snd] in *. unfold traffic in *. by rewrite foldl_app. }
  specialize (Hgen newProtocol (0, 0)). destruct (applyOps ops newProtocol). by apply Hgen.
Qed.

(** An object announces only changes of its state: the announced states never
    repeat, start with a state other than the initial one, and the last of them is
    the state of the object. *)
Lemma states_change ops p :
  let '(p', signals) := applyOps ops p in
  last (protocolState p :: announcedStates signals) = Some (protocolState p') ∧
  ∀ i st st', (protocolState p :: announcedStates signals) !! i = Some st →
    (protocolState p :: announcedStates signals) !! S i = Some st' → st ≠ st'.
Proof.
  revert p. induction ops as [|op ops IH]; intros p; cbn [applyOps]; [by split; [|intros []]|].
  assert (announcedStates (applyOp op p).2 = [] ∧ protocolState (applyOp op p).1 = protocolState p ∨
    announcedStates (applyOp op p).2 = [protocolState (applyOp op p).1] ∧
    protocolState (applyOp op p).1 ≠ protocolState p) as Hop.
  { destruct op as [received sent|st|err]; cbn [applyOp]; [by left| |].
    - unfold setProtocolState. case_bool_decide; [by left|]. destruct (_ && _); [by left|].
      right. case_bool_decide; subst; cbn; naive_solver.
    - unfold setLastError, setProtocolState. case_bool_decide; [by left|]. cbn [protocolState].
      case_bool_decide as Hs; [by left|]. rewrite andb_false_r. right. cbn. naive_solver. }
  destruct (applyOp op p) as [p1 s1]. specialize (IH p1). destruct (applyOps ops p1) as [p2 s2].
  cbn [fst snd] in *. unfold announcedStates in *. rewrite omap_app. destruct IH as [Hlast Hne].
  destruct Hop as [[-> Heq]|[-> Hneq]]; cbn [app]; [by rewrite <-Heq|]. split; [done|].
  intros [|i] st st' H1 H2; cbn in H1, H2; [naive_solver|]. by apply (Hne i).
Qed.
