(* ===== verification/VpnConfig.v ===== *)
(** * The configuration of a connection

    What [VpnConnection] ([vpnConnection.cpp]) adds to the configuration of a server
    before a protocol is started: the kill switch options
    ([appendKillSwitchConfig]) and the split tunnelling options
    ([appendSplitTunnelingConfig]).  [None] stands for a rule text without a host or
    a stored route mode that is not one ([SplitTunnel.fromText],
    [AppSettings.routeMode]). *)

From Stdlib Require Import Ascii.
From S2P Require Import Prelude QtCore Regex Variant NetworkUtilities SplitTunnel SecureSettings AppSettings Containers.
From stdpp Require Import options.

(** [QString::split] with a separator of several characters; [skip] characters of a
    separator are still to be dropped. *)
Fixpoint splitGo (sep : string) (skip : nat) (s : string) : list string :=
  match s with
  | "" => [""]
  | String c s' =>
      match skip with
      | S skip => splitGo sep skip s'
      | O =>
          if startsWith s sep then "" :: splitGo sep (pred (String.length sep)) s'
          else match splitGo sep 0 s' with
               | part :: parts => String c part :: parts
               | [] => [String c ""]
               end
      end
  end.

Definition splitText (sep s : string) : list string := splitGo sep 0 s.

(** ** Configuration keys *)

Definition keyKillSwitchOption : string := "killSwitchOption".
Definition keyAllowedDnsServers : string := "allowedDnsServers".
Definition keyAllowedIps : string := "allowed_ips".
Definition keyConfig : string := "config".
Definition keyPersistentKeepAlive : string := "persistent_keep_alive".
Definition keyDns1 : string := "dns1".
Definition keyDns2 : string := "dns2".
Definition keyHostName : string := "hostName".
Definition keySplitTunnelType : string := "splitTunnelType".
Definition keySplitTunnelSites : string := "splitTunnelSites".
Definition keySplitTunnelDnsRules : string := "splitTunnelDnsRules".
Definition keyAppSplitTunnelType : string := "appSplitTunnelType".
Definition keySplitTunnelApps : string := "splitTunnelApps".

(** ** Native WireGuard configurations *)

(** The loop over the lines of a native configuration that looks for a key. *)
Definition nativeValue (key nativeConfig : string) : option string :=
  head (omap (λ line,
    match splitChar "=" line with
    | name :: ((_ :: _) as rest) =>
        if bool_decide (trimmed name = key) then Some (trimmed (join "=" rest)) else None
    | _ => None
    end) (splitChar newline nativeConfig)).

Definition jsonStrings (l : list string) : json := JArray (JString <$> l).

(** The addresses that a WireGuard configuration allows, as an array.  The
    configuration and the protocol's part of it, which is written back when it
    changes. *)
Definition appendAllowedIps (dataKey : string) (cfg data : QJsonObject) : QJsonObject * QJsonObject :=
  let write (data : QJsonObject) := (<[dataKey := JObject data]> cfg, data) in
  let allowedIps := jvalue data keyAllowedIps in
  if isStringJ allowedIps then
    write (<[keyAllowedIps := jsonStrings (splitText ", " (toStringJ "" allowedIps))]> data)
  else if isUndefinedJ allowedIps then
    match nativeValue "AllowedIPs" (toStringJ "" (jvalue data keyConfig)) with
    | Some ips => write (<[keyAllowedIps := jsonStrings (trimmed <$> skipEmpty (splitChar "," ips))]> data)
    | None => (cfg, data)
    end
  else (cfg, data).

Definition appendKeepAlive (dataKey : string) (cfg data : QJsonObject) : QJsonObject * QJsonObject :=
  if isUndefinedJ (jvalue data keyPersistentKeepAlive) then
    match nativeValue "PersistentKeepalive" (toStringJ "" (jvalue data keyConfig)) with
    | Some v =>
        let data := <[keyPersistentKeepAlive := JString v]> data in
        (<[dataKey := JObject data]> cfg, data)
    | None => (cfg, data)
    end
  else (cfg, data).

(** Whether sites can be split off: always, except for a WireGuard configuration
    that does not route everything through the tunnel. *)
Definition normalizeWireGuard (container : DockerContainer) (cfg : QJsonObject) : bool * QJsonObject :=
  let protocolName := protoToString (defaultProtocol container) in
  if bool_decide (protocolName = protoToString Protocol.Awg) ||
     bool_decide (protocolName = protoToString Protocol.WireGuard)
  then
    let dataKey := protocolName +:+ "_config_data" in
    let data := toObjectJ (jvalue cfg dataKey) in
    let '(cfg, data) := appendAllowedIps dataKey cfg data in
    let '(cfg, data) := appendKeepAlive dataKey cfg data in
    let allowedIps := toArrayJ (jvalue data keyAllowedIps) in
    (arrayContains allowedIps "0.0.0.0/0" && arrayContains allowedIps "::/0", cfg)
  else (true, cfg).

(** ** Sites and applications *)

Section config.
Context {S : Type} `{SettingsStore S} `{HostAddressText}.

(** What the loop over the sites collects. *)
Record siteRules := SiteRules { ruleSites : list string; ruleHosts : list string; dynamicRules : bool }.

Definition collectSite (acc : siteRules) (entry : string * variant) : option siteRules :=
  rule ← fromText entry.1;
  Some (if negb (isValid rule) then acc
        else if bool_decide (type rule = IpSubnet) then
          SiteRules (ruleSites acc ++ [normalizedText rule]) (ruleHosts acc) (dynamicRules acc)
        else
          SiteRules
            (ruleSites acc ++ filter (λ ip, checkIpSubnetFormat ip = true) (siteIpList entry.2))
            (ruleHosts acc ++ [normalizedText rule])
            (dynamicRules acc || isDynamicHostRule rule)).

Fixpoint collectSites (acc : siteRules) (entries : list (string * variant)) : option siteRules :=
  match entries with
  | [] => Some acc
  | entry :: entries => acc ← collectSite acc entry; collectSites acc entries
  end.

Definition dnsServers (cfg : QJsonObject) : list string :=
  [toStringJ "" (jvalue cfg keyDns1); toStringJ "" (jvalue cfg keyDns2)].

(** The route mode, the sites and the rules for the resolver. *)
Definition splitSites (r : appSettings S) (allowSites : bool) (cfg : QJsonObject) :
    option (RouteMode * list string * list string) :=
  '(mode, sites, hosts) ←
    (if isSitesSplitTunnelingEnabled r then
       mode ← routeMode r;
       if allowSites then
         rules ← collectSites (SiteRules [] [] false) (qitems (vpnSites r mode));
         let sites := dedup (ruleSites rules) in
         let hosts := dedup (ruleHosts rules) in
         Some (if bool_decide (sites = []) && negb (dynamicRules rules) && bool_decide (hosts = [])
               then (VpnAllSites, sites, hosts)
               else if bool_decide (mode = VpnOnlyForwardSites) && useAmneziaDns r
               then (mode, sites ++ dnsServers cfg, hosts)
               else (mode, sites, hosts))
       else Some (mode, [], [])
     else Some (VpnAllSites, [], []));
  Some (if negb (useAmneziaDns r) && negb (bool_decide (mode = VpnOnlyForwardSites))
        then (VpnAllExceptSites, sites ++ dnsServers cfg, hosts)
        else (mode, sites, hosts)).

Definition splitApps (r : appSettings S) : option (AppsRouteMode * list string) :=
  if isAppsSplitTunnelingEnabled r then
    mode ← appsRouteMode r;
    let apps := (λ app, if isEmpty (appPath app) then packageName app else appPath app) <$> vpnApps r mode in
    Some (if bool_decide (apps = []) then (VpnAllApps, apps) else (mode, apps))
  else Some (VpnAllApps, []).

Definition appendKillSwitchConfig (r : appSettings S) (cfg : QJsonObject) : QJsonObject :=
  <[keyAllowedDnsServers := jsonStrings (getAllowedDnsServers r)]>
    (<[keyKillSwitchOption := JString (toStringV (VBool (isKillSwitchEnabled r)))]> cfg).

Definition appendSplitTunnelingConfig (r : appSettings S) (container : DockerContainer) (cfg : QJsonObject) :
    option QJsonObject :=
  let '(allowSites, cfg) := normalizeWireGuard container cfg in
  '(mode, sites, hosts) ← splitSites r allowSites cfg;
  let cfg := <[keySplitTunnelDnsRules := jsonStrings hosts]>
    (<[keySplitTunnelSites := jsonStrings sites]>
      (<[keySplitTunnelType := JNumber (routeModeInt mode)]> cfg)) in
  '(appsMode, apps) ← splitApps r;
  Some (<[keySplitTunnelApps := jsonStrings apps]>
    (<[keyAppSplitTunnelType := JNumber (appsRouteModeInt appsMode)]> cfg)).

(** ** Properties *)

(** The entry [k], [v] of the stored sites is a valid rule. *)
Definition validRule (r : appSettings S) (mode : RouteMode) (v : variant) (rule : SplitTunnelRule) : Prop :=
  ∃ k, vpnSites r mode !! k = Some v ∧ fromText k = Some rule ∧ isValid rule = true.

(** The addresses that a rule stands for. *)
Definition provides (rule : SplitTunnelRule) (v : variant) (ip : string) : Prop :=
  match type rule with
  | IpSubnet => ip = normalizedText rule
  | _ => ip ∈ siteIpList v ∧ checkIpSubnetFormat ip = true
  end.

Lemma exists_entry k v entries rule (P : variant → SplitTunnelRule → Prop) :
  fromText k = Some rule →
  (∃ k' v' rule', (k', v') ∈ (k, v) :: entries ∧ fromText k' = Some rule' ∧ P v' rule') ↔
    P v rule ∨ ∃ k' v' rule', (k', v') ∈ entries ∧ fromText k' = Some rule' ∧ P v' rule'.
Proof.
  intros Hr. split.
  - intros (k' & v' & rule' & [[= -> ->]|Hin]%elem_of_cons & Hr' & HP); [left; congruence|right; eauto 10].
  - intros [HP|(k' & v' & rule' & Hin & Hr' & HP)]; [exists k, v, rule|exists k', v', rule'];
      rewrite elem_of_cons; auto.
Qed.

Lemma collectSites_spec entries acc rules :
  collectSites acc entries = Some rules →
  (∀ ip, ip ∈ ruleSites rules ↔ ip ∈ ruleSites acc ∨
     ∃ k v rule, (k, v) ∈ entries ∧ fromText k = Some rule ∧ isValid rule = true ∧ provides rule v ip) ∧
  (∀ h, h ∈ ruleHosts rules ↔ h ∈ ruleHosts acc ∨
     ∃ k v rule, (k, v) ∈ entries ∧ fromText k = Some rule ∧ isValid rule = true ∧
       type rule ≠ IpSubnet ∧ h = normalizedText rule) ∧
  (dynamicRules rules = true → dynamicRules acc = true ∨ ruleHosts rules ≠ []).
Proof.
  revert acc. induction entries as [|[k v] entries IH]; intros acc Hc; simpl in Hc.
  { simplify_eq. split_and!; [set_solver..|auto]. }
  apply bind_Some in Hc as (acc1 & H1 & Hc). apply IH in Hc as (Hs & Hh & Hd).
  unfold collectSite in H1. apply bind_Some in H1 as (rule & Hr & [= <-]). cbn [fst snd] in *.
  assert (Hp : ∀ ip, provides rule v ip ↔ if bool_decide (type rule = IpSubnet) then ip = normalizedText rule
    else ip ∈ siteIpList v ∧ checkIpSubnetFormat ip = true) by (intros ip; unfold provides; by destruct (type rule)).
  split_and!.
  - intros ip. rewrite Hs, (exists_entry _ _ _ _ (λ v rule, isValid rule = true ∧ provides rule v ip) Hr), Hp.
    rewrite (assoc (∨)). apply Morphisms_Prop.or_iff_morphism; [|done].
    destruct (isValid rule); cbn [negb]; [|intuition congruence].
    case_bool_decide; cbn [ruleSites]; rewrite elem_of_app; [rewrite list_elem_of_singleton|rewrite list_elem_of_filter]; tauto.
  - intros h. rewrite Hh, (exists_entry _ _ _ _ (λ _ rule, isValid rule = true ∧ type rule ≠ IpSubnet ∧
      h = normalizedText rule) Hr), (assoc (∨)).
    apply Morphisms_Prop.or_iff_morphism; [|done]. destruct (isValid rule); cbn [negb]; [|intuition congruence].
    case_bool_decide; cbn [ruleHosts]; [tauto|]. rewrite elem_of_app, list_elem_of_singleton. tauto.
  - intros Hd'. destruct (Hd Hd') as [Hacc|Hne]; [|auto]. destruct (isValid rule); cbn [negb] in *; [|auto].
    case_bool_decide; [auto|]. right. intros Hnil. apply (not_elem_of_nil (normalizedText rule)).
    rewrite <-Hnil. apply Hh. left. cbn [ruleHosts]. set_solver.
Qed.

Lemma splitSites_nothing r stored sites hosts dynamic :
  (∀ ip, ip ∈ sites ↔ ∃ v rule, validRule r stored v rule ∧ provides rule v ip) →
  (∀ h, h ∈ hosts ↔ ∃ v rule, validRule r stored v rule ∧ type rule ≠ IpSubnet ∧ h = normalizedText rule) →
  (dynamic = true → hosts ≠ []) →
  if bool_decide (sites = []) && negb dynamic && bool_decide (hosts = [])
  then ¬ ∃ v rule, validRule r stored v rule else ∃ v rule, validRule r stored v rule.
Proof.
  intros Hsites Hhosts Hd. destruct sites as [|ip sites]; cbn.
  2:{ destruct (proj1 (Hsites ip)) as (v & rule & Hv & _); [set_solver|eauto]. }
  destruct hosts as [|h hosts]; cbn.
  2:{ rewrite andb_false_r. destruct (proj1 (Hhosts h)) as (v & rule & Hv & _); [set_solver|eauto]. }
  destruct dynamic; [by destruct Hd|]. cbn. intros (v & rule & Hv).
  destruct (decide (type rule = IpSubnet)) as [Ht|Ht].
  - apply (not_elem_of_nil (normalizedText rule)), Hsites. exists v, rule. split; [done|].
    unfold provides. by rewrite Ht.
  - apply (not_elem_of_nil (normalizedText rule)), Hhosts. eauto.
Qed.

(** The split tunnelling options of a connection.  The resolver gets exactly the
    host rules of the stored list.  The tunnel is used only for the listed sites
    exactly when that mode is stored and the list has a valid rule; all but the
    listed sites are tunnelled when that mode is stored with a valid rule, or when
    the user's own DNS servers are in use.  The listed sites are exactly the
    addresses of the valid rules, and the DNS servers when they must be reached on the
    side of the list. *)
Lemma splitSites_exact r cfg stored mode sites hosts :
  isSitesSplitTunnelingEnabled r = true → routeMode r = Some stored →
  splitSites r true cfg = Some (mode, sites, hosts) →
  (∀ h, h ∈ hosts ↔ ∃ v rule, validRule r stored v rule ∧ type rule ≠ IpSubnet ∧ h = normalizedText rule) ∧
  (mode = VpnOnlyForwardSites ↔ stored = VpnOnlyForwardSites ∧ ∃ v rule, validRule r stored v rule) ∧
  (mode = VpnAllExceptSites ↔ mode ≠ VpnOnlyForwardSites ∧
     (useAmneziaDns r = false ∨ stored = VpnAllExceptSites ∧ ∃ v rule, validRule r stored v rule)) ∧
  (∀ ip, ip ∈ sites ↔ (∃ v rule, validRule r stored v rule ∧ provides rule v ip) ∨
     ip ∈ dnsServers cfg ∧ (mode = VpnOnlyForwardSites ↔ useAmneziaDns r = true)).
Proof.
  intros Hen Hstored Hs. unfold splitSites in Hs. rewrite Hen, Hstored in Hs. cbn [mbind option_bind] in Hs.
  apply bind_Some in Hs as ([[mode0 sites0] hosts0] & Hs & Hfinal).
  apply bind_Some in Hs as (rules & Hrules & Hs).
  apply collectSites_spec in Hrules as (HS & HH & HD). cbn [ruleSites ruleHosts dynamicRules] in *.
  assert (Hsites : ∀ ip, ip ∈ dedup (ruleSites rules) ↔ ∃ v rule, validRule r stored v rule ∧ provides rule v ip).
  { intros ip. rewrite elem_of_dedup, HS. unfold validRule. setoid_rewrite elem_of_qitems. set_solver. }
  assert (Hhosts : ∀ h, h ∈ dedup (ruleHosts rules) ↔
    ∃ v rule, validRule r stored v rule ∧ type rule ≠ IpSubnet ∧ h = normalizedText rule).
  { intros h. rewrite elem_of_dedup, HH. unfold validRule. setoid_rewrite elem_of_qitems. set_solver. }
  set (nothing := bool_decide (dedup (ruleSites rules) = []) && negb (dynamicRules rules) &&
    bool_decide (dedup (ruleHosts rules) = [])) in *.
  set (listed := ∃ v rule, validRule r stored v rule) in *.
  assert (Hnothing : if nothing then ¬ listed else listed).
  { apply splitSites_nothing with (r := r) (stored := stored); [done..|].
    intros Hd. destruct (HD Hd) as [?|Hne]; [done|]. intros Hnil. by apply Hne, dedup_nil. }
  clear HS HH HD. clearbody listed.
  enough (hosts = dedup (ruleHosts rules) ∧ (mode = VpnOnlyForwardSites ↔ stored = VpnOnlyForwardSites ∧ listed) ∧
    (mode = VpnAllExceptSites ↔ mode ≠ VpnOnlyForwardSites ∧
      (useAmneziaDns r = false ∨ stored = VpnAllExceptSites ∧ listed)) ∧
    ∃ extra, sites = dedup (ruleSites rules) ++ extra ∧
      ∀ ip, ip ∈ extra ↔ ip ∈ dnsServers cfg ∧ (mode = VpnOnlyForwardSites ↔ useAmneziaDns r = true))
    as (-> & Hmode & Hexcept & extra & -> & Hextra).
  { split_and!; [done..|]. intros ip. by rewrite elem_of_app, Hsites, Hextra. }
  clear Hsites Hhosts. set (found := dedup (ruleSites rules)) in *. clearbody nothing found.
  destruct nothing, stored, (useAmneziaDns r); cbn in Hs; injection Hs as <- <- <-; cbn in Hfinal; injection Hfinal as <- <- <-;
    (split_and!; [done|naive_solver|naive_solver|]);
    first [ exists []; split; [by rewrite (right_id_L [] (++))|];
            intros ip; split; [by intros ?%not_elem_of_nil|intuition congruence]
          | exists (dnsServers cfg); split; [done|intuition congruence] ].
Qed.

End config.

(** ** Concrete instances *)

#[local] Existing Instance sampleStore.
#[local] Existing Instance quadText.

Definition sampleSplit : appSettings (secureQSettings unit) :=
  setVpnSites (setRouteMode (setSitesSplitTunnelingEnabled sampleRepository true).1 VpnOnlyForwardSites).1
    VpnOnlyForwardSites (<["a.com" := VStringList ["1.1.1.1"]]> ∅).

Definition sampleRule : SplitTunnelRule := Rule ExactHost "a.com" "a.com".

Lemma splitSites_exact_example :
  ∃ mode sites hosts, splitSites sampleSplit true ∅ = Some (mode, sites, hosts) ∧
    mode = VpnOnlyForwardSites ∧ "1.1.1.1" ∈ sites ∧ "a.com" ∈ hosts.
Proof.
  assert (Hv : validRule sampleSplit VpnOnlyForwardSites (VStringList ["1.1.1.1"]) sampleRule).
  { exists "a.com". split; [vm_compute; reflexivity|]. split; vm_compute; reflexivity. }
  assert (Hp : provides sampleRule (VStringList ["1.1.1.1"]) "1.1.1.1").
  { split; [apply (bool_decide_unpack _); vm_compute; exact I|vm_compute; reflexivity]. }
  destruct (splitSites sampleSplit true ∅) as [[[mode sites] hosts]|] eqn:Hs; [|exfalso; vm_compute in Hs; discriminate].
  destruct (splitSites_exact sampleSplit ∅ VpnOnlyForwardSites mode sites hosts) as (Hh & Hm & _ & Hip);
    [vm_compute; reflexivity|vm_compute; reflexivity|exact Hs|].
  exists mode, sites, hosts. split; [reflexivity|]. split; [|split].
  - apply Hm. split; [reflexivity|]. exists (VStringList ["1.1.1.1"]), sampleRule. exact Hv.
  - apply Hip. left. exists (VStringList ["1.1.1.1"]), sampleRule. split; [exact Hv|exact Hp].
  - apply Hh. exists (VStringList ["1.1.1.1"]), sampleRule. split; [exact Hv|]. split; [discriminate|reflexivity].
Defined.
