(* ===== verification/DnsParser.v ===== *)
(** * Reading DNS messages ([core/utils/dnsMessageParser.cpp])

    The parser looks at the messages that pass the local DNS proxy to learn which
    addresses a host rule has to route.  A message is a list of bytes; a read
    outside of it, which would be undefined behaviour in the source, is [None], and
    the theorems show that it does not happen.  Counts and lengths are kept at
    their width of 16 bits. *)

From Stdlib Require Import Ascii.
From S2P Require Import Prelude QtCore.
From stdpp Require Import options.

Open Scope Z_scope.

Notation QByteArray := (list Z).

Definition isByte (b : Z) : Prop := 0 ≤ b < 256.

Definition size (m : QByteArray) : Z := Z.of_nat (length m).

(** [message.at(i)]. *)
Definition byteAt (m : QByteArray) (i : Z) : option Z :=
  if 0 <=? i then m !! Z.to_nat i else None.

(** [message.mid(pos, len)] as a Latin-1 string. *)
Definition latin1 (bs : list Z) : string :=
  foldr (λ b s, String (ascii_of_N (Z.to_N b)) s) "" bs.

Definition midLatin1 (m : QByteArray) (pos len : Z) : string :=
  latin1 (take (Z.to_nat len) (drop (Z.to_nat pos) m)).

(** ** Numbers *)

Definition readUint16 (m : QByteArray) (offset : Z) : option Z :=
  hi ← byteAt m offset;
  lo ← byteAt m (offset + 1);
  Some (Z.lor (Z.shiftl hi 8) lo).

Definition readUint32 (m : QByteArray) (offset : Z) : option Z :=
  b0 ← byteAt m offset;
  b1 ← byteAt m (offset + 1);
  b2 ← byteAt m (offset + 2);
  b3 ← byteAt m (offset + 3);
  Some (Z.lor (Z.lor (Z.shiftl b0 24) (Z.shiftl b1 16)) (Z.lor (Z.shiftl b2 8) b3)).

Definition quint16 (z : Z) : Z := z mod 2 ^ 16.

(** ** Names *)

(** The loop of [readName].  The outer option is [None] for a read outside the
    message or when the fuel is used up; the inner one is the returned boolean with
    the new offset and the name. *)
Fixpoint readNameLoop (fuel : nat) (m : QByteArray) (currentOffset offset : Z) (jumped : bool)
    (depth : Z) (labels : list string) : option (option (Z * string)) :=
  match fuel with
  | O => None
  | S fuel =>
      if size m <=? currentOffset then Some None
      else
        length ← byteAt m currentOffset;
        if length =? 0 then
          let offset := if jumped then offset else currentOffset + 1 in
          let name := join "." labels in
          Some (if isEmpty name then None else Some (offset, name))
        else if Z.land length 0xC0 =? 0xC0 then
          if size m <=? currentOffset + 1 then Some None
          else
            lo ← byteAt m (currentOffset + 1);
            let pointer := Z.lor (Z.shiftl (Z.land length 0x3F) 8) lo in
            let offset := if jumped then offset else currentOffset + 2 in
            if 8 <? depth + 1 then Some None
            else readNameLoop fuel m pointer offset true (depth + 1) labels
        else if negb (Z.land length 0xC0 =? 0) || (size m <? currentOffset + 1 + length) then Some None
        else readNameLoop fuel m (currentOffset + 1 + length) offset jumped depth
               (labels ++ [midLatin1 m (currentOffset + 1) length])
  end.

(** Nine stretches (eight jumps), each of at most [size m] steps and a last test. *)
Definition nameFuel (m : QByteArray) : nat := 10 * S (length m).

Definition readName (m : QByteArray) (offset depth : Z) : option (option (Z * string)) :=
  if (8 <? depth) || (offset <? 0) || (size m <=? offset) then Some None
  else readNameLoop (nameFuel m) m offset offset false depth [].

(** ** Messages *)

Record DnsIpv4Answer := Answer { address : string; ttlSeconds : Z }.

Definition queryHost (m : QByteArray) : option string :=
  if size m <? 12 then Some ""
  else
    questions ← readUint16 m 4;
    if questions =? 0 then Some ""
    else
      name ← readName m 12 0;
      Some (match name with Some (_, host) => toLower host | None => "" end).

(** The loop over the questions; the inner [None] is the early return. *)
Fixpoint skipQuestions (count : nat) (m : QByteArray) (offset : Z) : option (option Z) :=
  match count with
  | O => Some (Some offset)
  | S count =>
      name ← readName m offset 0;
      match name with
      | None => Some None
      | Some (offset, _) =>
          if size m <? offset + 4 then Some None else skipQuestions count m (offset + 4)
      end
  end.

(** The [A] record of class [IN] at [offset], added unless its address is known. *)
Definition addAnswer (m : QByteArray) (offset ttl : Z) (result : list DnsIpv4Answer) :
    option (list DnsIpv4Answer) :=
  p0 ← byteAt m offset;
  p1 ← byteAt m (offset + 1);
  p2 ← byteAt m (offset + 2);
  p3 ← byteAt m (offset + 3);
  let address' := dotted p0 p1 p2 p3 in
  Some (if existsb (λ answer, bool_decide (address answer = address')) result
        then result else result ++ [Answer address' (Z.min ttl intMax)]).

(** The loop over the resource records. *)
Fixpoint readRecords (count : nat) (m : QByteArray) (offset : Z) (result : list DnsIpv4Answer) :
    option (list DnsIpv4Answer) :=
  match count with
  | O => Some result
  | S count =>
      name ← readName m offset 0;
      match name with
      | None => Some result
      | Some (offset, _) =>
          if size m <? offset + 10 then Some result
          else
            type ← readUint16 m offset;
            klass ← readUint16 m (offset + 2);
            ttl ← readUint32 m (offset + 4);
            dataLength ← readUint16 m (offset + 8);
            let offset := offset + 10 in
            if size m <? offset + dataLength then Some result
            else
              result ← (if (type =? 1) && (klass =? 1) && (dataLength =? 4)
                        then addAnswer m offset ttl result else Some result);
              readRecords count m (offset + dataLength) result
      end
  end.

(** [const quint16 recordCount = answerCount + authorityCount + additionalCount]. *)
Definition recordCount (answerCount authorityCount additionalCount : Z) : Z :=
  quint16 (answerCount + authorityCount + additionalCount).

Definition responseIpv4Answers (m : QByteArray) : option (list DnsIpv4Answer) :=
  if size m <? 12 then Some []
  else
    questionCount ← readUint16 m 4;
    answerCount ← readUint16 m 6;
    authorityCount ← readUint16 m 8;
    additionalCount ← readUint16 m 10;
    start ← skipQuestions (Z.to_nat questionCount) m 12;
    match start with
    | None => Some []
    | Some offset =>
        readRecords (Z.to_nat (recordCount answerCount authorityCount additionalCount)) m offset []
    end.

Definition responseIpv4Addresses (m : QByteArray) : option (list string) :=
  option_map (map address) (responseIpv4Answers m).

(** ** Reads inside the message *)

Lemma byteAt_inside m i :
  Forall isByte m → 0 ≤ i < size m → ∃ b, byteAt m i = Some b ∧ isByte b.
Proof.
  unfold size, byteAt. intros Hm Hi. rewrite (proj2 (Z.leb_le 0 i)) by lia.
  destruct (lookup_lt_is_Some_2 m (Z.to_nat i)) as [b Hb]; [lia|].
  exists b. split; [done|]. by eapply Forall_lookup_1.
Qed.

(** A shifted number and a byte do not overlap. *)
Lemma lor_shiftl a b n : 0 ≤ n → 0 ≤ b < 2 ^ n → Z.lor (Z.shiftl a n) b = a * 2 ^ n + b.
Proof.
  intros Hn Hb. rewrite <-Z.shiftl_mul_pow2 by done. rewrite <-Z.add_lor_land.
  assert (Z.land (Z.shiftl a n) b = 0) as ->; [|lia].
  apply Z.bits_inj'. intros i Hi. rewrite Z.land_spec, Z.bits_0.
  destruct (Z.lt_ge_cases i n) as [Hlt|Hge].
  - rewrite Z.shiftl_spec_low by done. done.
  - rewrite <-(Z.mod_small b (2 ^ n)), Z.mod_pow2_bits_high by lia.
    apply andb_false_r.
Qed.

Lemma readUint16_inside m i :
  Forall isByte m → 0 ≤ i → i + 2 ≤ size m → ∃ v, readUint16 m i = Some v ∧ 0 ≤ v < 2 ^ 16.
Proof.
  intros Hm Hi Hs. unfold readUint16.
  destruct (byteAt_inside m i) as (hi & -> & Hhi); [done|lia|].
  destruct (byteAt_inside m (i + 1)) as (lo & -> & Hlo); [done|lia|].
  unfold isByte in *. eexists. split; [reflexivity|]. rewrite lor_shiftl by lia. lia.
Qed.

Lemma readUint32_inside m i :
  Forall isByte m → 0 ≤ i → i + 4 ≤ size m → ∃ v, readUint32 m i = Some v ∧ 0 ≤ v.
Proof.
  intros Hm Hi Hs. unfold readUint32.
  destruct (byteAt_inside m i) as (b0 & -> & H0); [done|lia|].
  destruct (byteAt_inside m (i + 1)) as (b1 & -> & H1); [done|lia|].
  destruct (byteAt_inside m (i + 2)) as (b2 & -> & H2); [done|lia|].
  destruct (byteAt_inside m (i + 3)) as (b3 & -> & H3); [done|lia|].
  unfold isByte in *. eexists. split; [reflexivity|].
  apply Z.lor_nonneg; split; apply Z.lor_nonneg; split; rewrite ?Z.shiftl_nonneg; lia.
Qed.

(** ** Names end *)

Definition nameMeasure (m : QByteArray) (depth currentOffset : Z) : Z :=
  (8 - depth) * (size m + 1) + Z.max 0 (size m - currentOffset).

Lemma readNameLoop_total fuel m cur off jumped depth labels :
  Forall isByte m → 0 ≤ cur → depth ≤ 8 → nameMeasure m depth cur < Z.of_nat fuel →
  ∃ r, readNameLoop fuel m cur off jumped depth labels = Some r ∧
    ∀ o n, r = Some (o, n) → n ≠ "" ∧ if jumped then o = off else cur < o ≤ size m.
Proof.
  intros Hm. unfold nameMeasure. revert cur off jumped depth labels.
  induction fuel as [|fuel IH]; intros cur off jumped depth labels Hcur Hdepth Hfuel; [unfold size in *; nia|].
  cbn [readNameLoop]. destruct (Z.leb_spec (size m) cur) as [Hge|Hlt]; [by eexists|].
  destruct (byteAt_inside m cur) as (len & -> & Hlen); [done|lia|]. cbn [mbind option_bind].
  unfold isByte in Hlen. destruct (Z.eqb_spec len 0) as [->|Hnz].
  { eexists. split; [done|]. intros o n Hon. destruct (isEmpty (join "." labels)) eqn:He; [done|].
    simplify_eq. split; [by intros Hj; rewrite Hj in He|]. destruct jumped; [done|lia]. }
  destruct (Z.eqb_spec (Z.land len 0xC0) 0xC0) as [Hptr|Hlab].
  - destruct (Z.leb_spec (size m) (cur + 1)) as [Hge|Hlt1]; [by eexists|].
    destruct (byteAt_inside m (cur + 1)) as (lo & -> & Hlo); [done|lia|]. cbn [mbind option_bind].
    destruct (Z.ltb_spec 8 (depth + 1)) as [Hd|Hd]; [by eexists|].
    set (ptr := Z.lor _ _).
    assert (0 ≤ ptr) as Hp.
    { unfold isByte in Hlo. apply Z.lor_nonneg. split; [|lia].
      apply Z.shiftl_nonneg, Z.land_nonneg. lia. }
    destruct (IH ptr (if jumped then off else cur + 2) true (depth + 1) labels) as (r & -> & Hr);
      [done|lia|nia|].
    eexists. split; [done|]. intros o n Hon. destruct (Hr o n Hon) as [Hn ->].
    split; [done|]. destruct jumped; [done|lia].
  - destruct (negb _ || _) eqn:Hbad; [by eexists|]. apply orb_false_iff in Hbad as [_ Hend%Z.ltb_ge].
    destruct (IH (cur + 1 + len) off jumped depth (labels ++ [midLatin1 m (cur + 1) len]))
      as (r & -> & Hr); [lia|done|lia|].
    eexists. split; [done|]. intros o n Hon. destruct (Hr o n Hon) as [Hn Ho].
    split; [done|]. destruct jumped; [done|lia].
Qed.

Lemma readName_total m off :
  Forall isByte m →
  ∃ r, readName m off 0 = Some r ∧ ∀ o n, r = Some (o, n) → n ≠ "" ∧ off < o ≤ size m.
Proof.
  intros Hm. unfold readName. destruct (_ || _) eqn:Hout; [by eexists|].
  apply orb_false_iff in Hout as [[_ Hneg%Z.ltb_ge]%orb_false_iff Hin%Z.leb_gt].
  apply (readNameLoop_total _ m off off false 0 []); [done|done|lia|].
  unfold nameMeasure, nameFuel, size in *. lia.
Qed.

(** ** Messages are read to the end *)

(** The answers found so far: distinct dotted quads with a lifetime in [int]. *)
Definition answersOk (l : list DnsIpv4Answer) : Prop :=
  NoDup (address <$> l) ∧
  Forall (λ a, (∃ p0 p1 p2 p3, isByte p0 ∧ isByte p1 ∧ isByte p2 ∧ isByte p3 ∧
                  address a = dotted p0 p1 p2 p3) ∧ 0 ≤ ttlSeconds a ≤ intMax) l.

Lemma existsb_address l s :
  existsb (λ answer, bool_decide (address answer = s)) l = true ↔ s ∈ address <$> l.
Proof.
  rewrite existsb_exists, list_elem_of_fmap. setoid_rewrite <-list_elem_of_In.
  setoid_rewrite bool_decide_eq_true. naive_solver.
Qed.

Lemma answersOk_add l s ttl p0 p1 p2 p3 :
  answersOk l → isByte p0 → isByte p1 → isByte p2 → isByte p3 → s = dotted p0 p1 p2 p3 → 0 ≤ ttl →
  answersOk (if existsb (λ answer, bool_decide (address answer = s)) l
             then l else l ++ [Answer s (Z.min ttl intMax)]).
Proof.
  intros [Hnd Hall] H0 H1 H2 H3 Hs Httl. destruct (existsb _ l) eqn:He; [done|].
  assert (s ∉ address <$> l) as Hnew by (rewrite <-existsb_address, He; done).
  split.
  - rewrite fmap_app. apply NoDup_app. split_and!; [done| |apply NoDup_singleton].
    intros x Hx ->%list_elem_of_singleton. done.
  - apply Forall_app. split; [done|]. apply Forall_singleton. split; [by exists p0, p1, p2, p3|].
    unfold intMax. simpl. lia.
Qed.

Lemma addAnswer_ok m off ttl l :
  Forall isByte m → 0 ≤ off → off + 4 ≤ size m → 0 ≤ ttl → answersOk l →
  ∃ l', addAnswer m off ttl l = Some l' ∧ answersOk l'.
Proof.
  intros Hm Hoff Hend Httl Hl. unfold addAnswer.
  destruct (byteAt_inside m off) as (b0 & -> & H0); [done|lia|].
  destruct (byteAt_inside m (off + 1)) as (b1 & -> & H1); [done|lia|].
  destruct (byteAt_inside m (off + 2)) as (b2 & -> & H2); [done|lia|].
  destruct (byteAt_inside m (off + 3)) as (b3 & -> & H3); [done|lia|].
  eexists. split; [reflexivity|]. by apply (answersOk_add l _ ttl b0 b1 b2 b3).
Qed.

Lemma skipQuestions_total count m off :
  Forall isByte m → 0 ≤ off ≤ size m →
  ∃ r, skipQuestions count m off = Some r ∧ ∀ o, r = Some o → 0 ≤ o ≤ size m.
Proof.
  intros Hm. revert off. induction count as [|count IH]; intros off Hoff; cbn [skipQuestions].
  { eexists. split; [done|]. by intros o [= <-]. }
  destruct (readName_total m off Hm) as (r & -> & Hr). cbn [mbind option_bind].
  destruct r as [[o n]|]; [|by eexists]. destruct (Hr o n eq_refl) as [_ Ho].
  destruct (Z.ltb_spec (size m) (o + 4)); [by eexists|]. apply IH. lia.
Qed.

Lemma readRecords_total count m off l :
  Forall isByte m → 0 ≤ off → answersOk l →
  ∃ l', readRecords count m off l = Some l' ∧ answersOk l'.
Proof.
  intros Hm. revert off l. induction count as [|count IH]; intros off l Hoff Hl; cbn [readRecords]; [eauto|].
  destruct (readName_total m off Hm) as (r & -> & Hr). cbn [mbind option_bind].
  destruct r as [[o n]|]; [|by eauto]. destruct (Hr o n eq_refl) as [_ Ho].
  destruct (Z.ltb_spec (size m) (o + 10)); [by eauto|].
  destruct (readUint16_inside m o) as (type & -> & _); [done|lia|lia|].
  destruct (readUint16_inside m (o + 2)) as (klass & -> & _); [done|lia|lia|].
  destruct (readUint32_inside m (o + 4)) as (ttl & -> & Httl); [done|lia|lia|].
  destruct (readUint16_inside m (o + 8)) as (len & -> & Hlen); [done|lia|lia|].
  cbn [mbind option_bind]. destruct (Z.ltb_spec (size m) (o + 10 + len)); [by eauto|].
  destruct ((type =? 1) && (klass =? 1) && (len =? 4)) eqn:HA; [|apply IH; [lia|done]].
  rewrite !andb_true_iff, !Z.eqb_eq in HA. destruct HA as [_ ->].
  destruct (addAnswer_ok m (o + 10) ttl l) as (l' & -> & Hl'); [done|lia|lia|done|done|].
  apply IH; [lia|done].
Qed.

(** ** Encoding *)

Definition bytesOf (s : string) : list Z :=
  (fix go s := match s with EmptyString => [] | String c s => Z.of_N (N_of_ascii c) :: go s end) s.

(** A label is a length byte and its characters; a name ends with an empty label. *)
Definition encodeLabel (l : string) : list Z := Z.of_nat (String.length l) :: bytesOf l.

Definition encodeName (labels : list string) : list Z := concat (encodeLabel <$> labels) ++ [0].

Definition validLabel (l : string) : Prop := 1 ≤ Z.of_nat (String.length l) ≤ 63.

Definition bytes16 (z : Z) : list Z := [z / 2 ^ 8; z mod 2 ^ 8].

Definition bytes32 (z : Z) : list Z :=
  [z / 2 ^ 24; z / 2 ^ 16 mod 2 ^ 8; z / 2 ^ 8 mod 2 ^ 8; z mod 2 ^ 8].

Lemma latin1_bytesOf s : latin1 (bytesOf s) = s.
Proof.
  induction s as [|c s IH]; [done|]. cbn [bytesOf latin1 foldr]. f_equal; [|done].
  by rewrite N2Z.id, ascii_N_embedding.
Qed.

Lemma length_bytesOf s : length (bytesOf s) = String.length s.
Proof. induction s as [|c s IH]; [done|]. simpl. by rewrite <-IH. Qed.

Lemma byteAt_app pre mid post k b :
  0 ≤ k → mid !! Z.to_nat k = Some b → byteAt (pre ++ mid ++ post) (size pre + k) = Some b.
Proof.
  intros Hk Hb. unfold byteAt, size. rewrite (proj2 (Z.leb_le _ _)) by lia.
  rewrite Z2Nat.inj_add, Nat2Z.id by lia.
  rewrite lookup_app_r by lia. replace (length pre + Z.to_nat k - length pre)%nat with (Z.to_nat k) by lia.
  by apply lookup_app_l_Some.
Qed.

Lemma byteAt_app0 pre mid post b :
  mid !! 0%nat = Some b → byteAt (pre ++ mid ++ post) (size pre) = Some b.
Proof. intros Hb. rewrite <-(Z.add_0_r (size pre)). by apply byteAt_app. Qed.

Lemma size_app m1 m2 : size (m1 ++ m2) = size m1 + size m2.
Proof. unfold size. rewrite length_app. lia. Qed.

Lemma size_nonneg m : 0 ≤ size m.
Proof. unfold size. lia. Qed.

Lemma label_bits len : 1 ≤ len ≤ 63 → (Z.land len 0xC0 =? 0xC0) = false ∧ (Z.land len 0xC0 =? 0) = true.
Proof.
  intros Hlen. assert (Z.land len 0xC0 = 0) as ->; [|done].
  replace 0xC0 with (Z.shiftl 3 6) by done. apply Z.bits_inj'. intros i Hi.
  rewrite Z.land_spec, Z.bits_0. destruct (Z.lt_ge_cases i 6).
  - rewrite Z.shiftl_spec_low by done. apply andb_false_r.
  - rewrite <-(Z.mod_small len (2 ^ 6)), Z.mod_pow2_bits_high by lia. done.
Qed.

Lemma midLatin1_label pre l post :
  midLatin1 (pre ++ encodeLabel l ++ post) (size pre + 1) (Z.of_nat (String.length l)) = l.
Proof.
  unfold midLatin1, size, encodeLabel. rewrite Nat2Z.id.
  replace (Z.to_nat (Z.of_nat (length pre) + 1)) with (length pre + 1)%nat by lia.
  rewrite <-drop_drop, drop_app_length. cbn [drop app]. rewrite drop_0.
  rewrite <-length_bytesOf, take_app_length. apply latin1_bytesOf.
Qed.

(** Reading the encoding of a name, in place or after a jump. *)
Lemma readNameLoop_encoded fuel labels pre post off jumped depth acc :
  Forall validLabel labels → (length labels < fuel)%nat → isEmpty (join "." (acc ++ labels)) = false →
  readNameLoop fuel (pre ++ encodeName labels ++ post) (size pre) off jumped depth acc =
    Some (Some (if jumped then off else size pre + size (encodeName labels), join "." (acc ++ labels))).
Proof.
  revert fuel pre acc. induction labels as [|l labels IH]; intros fuel pre acc Hl Hf Hne;
    destruct fuel as [|fuel]; try (simpl in Hf; lia); cbn [readNameLoop].
  - rewrite (proj2 (Z.leb_gt _ _)) by (rewrite !size_app; unfold encodeName, size; simpl; lia).
    rewrite (byteAt_app0 pre _ post 0) by done. cbn [mbind option_bind Z.eqb].
    rewrite app_nil_r in *. rewrite Hne. done.
  - apply Forall_cons in Hl as [Hlab Hl]. unfold validLabel in Hlab.
    unfold encodeName. rewrite fmap_cons. cbn [concat]. rewrite <-!app_assoc.
    change (concat (encodeLabel <$> labels) ++ [0] ++ post) with
      (concat (encodeLabel <$> labels) ++ ([0] ++ post)).
    rewrite (app_assoc (concat _)). change (concat (encodeLabel <$> labels) ++ [0]) with (encodeName labels).
    set (rest := encodeName labels ++ post).
    assert (Hsz : size (pre ++ encodeLabel l ++ rest) = size pre + 1 + Z.of_nat (String.length l) + size rest).
    { rewrite !size_app. unfold encodeLabel, size. simpl. rewrite length_bytesOf. lia. }
    pose proof (size_nonneg rest) as Hrest.
    rewrite (proj2 (Z.leb_gt _ _)) by lia.
    rewrite (byteAt_app0 pre _ rest (Z.of_nat (String.length l))) by done. cbn [mbind option_bind].
    rewrite (proj2 (Z.eqb_neq _ _)) by lia. destruct (label_bits _ Hlab) as [-> ->].
    rewrite (proj2 (Z.ltb_ge _ _)) by lia. cbn [negb orb].
    rewrite midLatin1_label.
    replace (size pre + 1 + Z.of_nat (String.length l)) with (size (pre ++ encodeLabel l))
      by (rewrite size_app; unfold encodeLabel, size; simpl; rewrite length_bytesOf; lia).
    rewrite app_assoc. unfold rest. rewrite IH; [|done|simpl in Hf; lia|by rewrite <-app_assoc].
    rewrite <-app_assoc. cbn [app]. do 2 f_equal. f_equal. destruct jumped; [done|].
    rewrite !size_app. lia.
Qed.

Lemma join_not_empty labels :
  Forall validLabel labels → labels ≠ [] → isEmpty (join "." labels) = false.
Proof.
  intros Hl Hne. destruct labels as [|l labels]; [done|]. apply Forall_cons in Hl as [Hl _].
  unfold validLabel in Hl. destruct l as [|c l]; [simpl in Hl; lia|].
  destruct labels; cbn [join]; rewrite ?scons_app; done.
Qed.

Lemma length_encodeName labels : (length labels < length (encodeName labels))%nat.
Proof.
  unfold encodeName. rewrite length_app. cbn [length].
  induction labels as [|l labels IH]; [simpl; lia|].
  rewrite fmap_cons. cbn [concat length]. rewrite length_app. unfold encodeLabel at 1. cbn [length]. lia.
Qed.

Lemma readName_encoded labels pre post :
  Forall validLabel labels → labels ≠ [] →
  readName (pre ++ encodeName labels ++ post) (size pre) 0 =
    Some (Some (size pre + size (encodeName labels), join "." labels)).
Proof.
  intros Hl Hne. unfold readName. pose proof (length_encodeName labels) as Hlen.
  assert (size pre < size (pre ++ encodeName labels ++ post)) as Hlt.
  { rewrite !size_app. pose proof (size_nonneg post). unfold size. lia. }
  pose proof (size_nonneg pre) as Hpre.
  change (8 <? 0) with false. rewrite (proj2 (Z.ltb_ge (size pre) 0)), (proj2 (Z.leb_gt _ _)) by done.
  cbn [orb].
  rewrite readNameLoop_encoded; [done|done| |by apply join_not_empty].
  unfold nameFuel. rewrite !length_app. lia.
Qed.

(** A compressed name: a pointer to a name earlier in the message. *)
Lemma readName_pointer labels pre1 post1 pre2 post2 hi lo :
  pre1 ++ encodeName labels ++ post1 = pre2 ++ [hi; lo] ++ post2 →
  Forall validLabel labels → labels ≠ [] →
  hi = 192 → lo = size pre1 →
  readName (pre2 ++ [hi; lo] ++ post2) (size pre2) 0 = Some (Some (size pre2 + 2, join "." labels)).
Proof.
  intros Hm Hl Hne -> Hlo. unfold readName. pose proof (length_encodeName labels) as Hlen.
  assert (Hsz : size (pre2 ++ [192; lo] ++ post2) = size pre2 + 2 + size post2).
  { rewrite !size_app. unfold size. simpl. lia. }
  pose proof (size_nonneg pre2) as Hpre. pose proof (size_nonneg post2) as Hpost.
  change (8 <? 0) with false. rewrite (proj2 (Z.ltb_ge (size pre2) 0)), (proj2 (Z.leb_gt _ _)) by lia.
  cbn [orb].
  unfold nameFuel. rewrite <-Hm at 1.
  destruct (10 * S (length (pre1 ++ encodeName labels ++ post1)))%nat as [|fuel] eqn:Hfuel; [lia|].
  cbn [readNameLoop]. rewrite (proj2 (Z.leb_gt _ _)) by lia.
  rewrite (byteAt_app0 pre2 _ post2 192) by done. cbn [mbind option_bind].
  change (192 =? 0) with false. change (Z.land 192 0xC0 =? 0xC0) with true. cbn iota.
  rewrite (proj2 (Z.leb_gt _ _)) by lia.
  rewrite (byteAt_app pre2 _ post2 1 lo) by done. cbn [mbind option_bind].
  change (8 <? 0 + 1) with false. cbn iota.
  replace (Z.lor (Z.shiftl (Z.land 192 0x3F) 8) lo) with (size pre1) by (by rewrite <-Hlo).
  rewrite <-Hm.
  rewrite readNameLoop_encoded; [done|done| |by apply join_not_empty].
  rewrite !length_app in Hfuel. lia.
Qed.

Lemma readUint16_app pre mid post k a b :
  0 ≤ k → mid !! Z.to_nat k = Some a → mid !! Z.to_nat (k + 1) = Some b → isByte b →
  readUint16 (pre ++ mid ++ post) (size pre + k) = Some (a * 2 ^ 8 + b).
Proof.
  intros Hk Ha Hb Hbyte. unfold readUint16. rewrite (byteAt_app _ _ _ _ a) by done.
  rewrite <-Z.add_assoc, (byteAt_app _ _ _ _ b) by (done || lia). cbn [mbind option_bind].
  unfold isByte in Hbyte. by rewrite lor_shiftl by lia.
Qed.

Lemma bytes16_value z : 0 ≤ z → z / 2 ^ 8 * 2 ^ 8 + z mod 2 ^ 8 = z.
Proof. intros. rewrite (Z.div_mod z (2 ^ 8)) at 3 by done. lia. Qed.

Lemma uint32_value b0 b1 b2 b3 :
  isByte b0 → isByte b1 → isByte b2 → isByte b3 →
  Z.lor (Z.lor (Z.shiftl b0 24) (Z.shiftl b1 16)) (Z.lor (Z.shiftl b2 8) b3) =
    b0 * 2 ^ 24 + b1 * 2 ^ 16 + b2 * 2 ^ 8 + b3.
Proof.
  unfold isByte. intros H0 H1 H2 H3. rewrite (lor_shiftl b2 b3 8) by lia.
  rewrite (Z.shiftl_mul_pow2 b1) by lia. rewrite (lor_shiftl b0) by lia.
  replace (b0 * 2 ^ 24 + b1 * 2 ^ 16) with (Z.shiftl (b0 * 2 ^ 8 + b1) 16)
    by (rewrite Z.shiftl_mul_pow2 by lia; lia).
  rewrite lor_shiftl, Z.shiftl_mul_pow2 by lia. lia.
Qed.

Lemma bytes32_value z :
  z / 2 ^ 24 * 2 ^ 24 + z / 2 ^ 16 mod 2 ^ 8 * 2 ^ 16 + z / 2 ^ 8 mod 2 ^ 8 * 2 ^ 8 + z mod 2 ^ 8 = z.
Proof. Z.to_euclidean_division_equations. lia. Qed.

(** An [A] record of a response: its address bytes and lifetime. *)
Record wireRecord := Wire { w0 : Z; w1 : Z; w2 : Z; w3 : Z; wTtl : Z }.

Definition wireOk (r : wireRecord) : Prop :=
  isByte (w0 r) ∧ isByte (w1 r) ∧ isByte (w2 r) ∧ isByte (w3 r) ∧ 0 ≤ wTtl r < 2 ^ 32.

(** The record for the name at offset 12, with a compressed name. *)
Definition encodeRecord (r : wireRecord) : list Z :=
  [192; 12] ++ (bytes16 1 ++ bytes16 1 ++ bytes32 (wTtl r) ++ bytes16 4 ++ [w0 r; w1 r; w2 r; w3 r]).

Definition encodeMessage (start : list Z) (labels : list string) (tail : list Z)
    (rs : list wireRecord) : list Z :=
  (start ++ bytes16 1 ++ bytes16 (Z.of_nat (length rs)) ++ bytes16 0 ++ bytes16 0) ++
  encodeName labels ++ (tail ++ concat (encodeRecord <$> rs)).

(** The answers of a response in order, the first one for each address. *)
Definition addWire (l : list DnsIpv4Answer) (r : wireRecord) : list DnsIpv4Answer :=
  let s := dotted (w0 r) (w1 r) (w2 r) (w3 r) in
  if existsb (λ answer, bool_decide (address answer = s)) l
  then l else l ++ [Answer s (Z.min (wTtl r) intMax)].

Lemma readRecords_step count m labels pre1 post1 pre r post l :
  m = pre ++ encodeRecord r ++ post → m = pre1 ++ encodeName labels ++ post1 → size pre1 = 12 →
  Forall validLabel labels → labels ≠ [] → wireOk r →
  readRecords (S count) m (size pre) l =
    readRecords count m (size (pre ++ encodeRecord r)) (addWire l r).
Proof.
  intros Hm Hm1 Hsize Hl Hne (H0 & H1 & H2 & H3 & Httl). cbn [readRecords].
  assert (Hm2 : m = pre ++ [192; 12] ++ (drop 2 (encodeRecord r) ++ post)) by (rewrite Hm; done).
  rewrite Hm2 at 1. rewrite (readName_pointer labels pre1 post1) by (done || congruence).
  cbn [mbind option_bind].
  set (body := drop 2 (encodeRecord r)) in *. set (pre' := pre ++ [192; 12]).
  assert (Hm3 : m = pre' ++ body ++ post) by (unfold pre'; by rewrite <-app_assoc).
  assert (Hpre' : size pre + 2 = size pre') by (unfold pre'; rewrite size_app; done).
  assert (Hsz : size m = size pre' + 14 + size post) by (rewrite Hm3, !size_app; unfold size; simpl; lia).
  pose proof (size_nonneg post) as Hpost. rewrite Hpre'.
  rewrite (proj2 (Z.ltb_ge (size m) (size pre' + 10))) by lia.
  assert (Htype : readUint16 m (size pre') = Some 1).
  { rewrite Hm3, <-(Z.add_0_r (size pre')). by rewrite (readUint16_app pre' body post 0 0 1). }
  assert (Hclass : readUint16 m (size pre' + 2) = Some 1)
    by (rewrite Hm3; by rewrite (readUint16_app pre' body post 2 0 1)).
  assert (Hlen : readUint16 m (size pre' + 8) = Some 4)
    by (rewrite Hm3; by rewrite (readUint16_app pre' body post 8 0 4)).
  assert (Hbyte : ∀ k b, 0 ≤ k → body !! Z.to_nat k = Some b → byteAt m (size pre' + k) = Some b)
    by (intros; rewrite Hm3; by apply byteAt_app).
  assert (Ht : readUint32 m (size pre' + 4) = Some (wTtl r)).
  { unfold readUint32. rewrite <-!Z.add_assoc.
    rewrite (Hbyte (4) _ ltac:(lia) eq_refl), (Hbyte (4 + 1) _ ltac:(lia) eq_refl),
      (Hbyte (4 + 2) _ ltac:(lia) eq_refl), (Hbyte (4 + 3) _ ltac:(lia) eq_refl).
    cbn [mbind option_bind]. rewrite uint32_value, bytes32_value; [done|..];
      unfold isByte; Z.to_euclidean_division_equations; lia. }
  rewrite Htype, Hclass, Ht, Hlen. cbn [mbind option_bind].
  rewrite (proj2 (Z.ltb_ge (size m) (size pre' + 10 + 4))) by lia.
  change ((1 =? 1) && (1 =? 1) && (4 =? 4)) with true. cbn iota.
  unfold addAnswer. rewrite <-!Z.add_assoc.
  rewrite (Hbyte 10 _ ltac:(lia) eq_refl), (Hbyte (10 + 1) _ ltac:(lia) eq_refl),
    (Hbyte (10 + 2) _ ltac:(lia) eq_refl), (Hbyte (10 + 3) _ ltac:(lia) eq_refl).
  cbn [mbind option_bind]. f_equal. unfold pre'. rewrite !size_app. unfold size. simpl. lia.
Qed.

Lemma readRecords_encoded rs m labels pre1 post1 pre l :
  m = pre ++ concat (encodeRecord <$> rs) → m = pre1 ++ encodeName labels ++ post1 → size pre1 = 12 →
  Forall validLabel labels → labels ≠ [] → Forall wireOk rs →
  readRecords (length rs) m (size pre) l = Some (foldl addWire l rs).
Proof.
  intros Hm Hm1 Hsize Hl Hne. revert pre l Hm. induction rs as [|r rs IH]; intros pre l Hm Hrs; [done|].
  apply Forall_cons in Hrs as [Hr Hrs]. rewrite fmap_cons in Hm. cbn [concat] in Hm.
  cbn [length foldl]. erewrite readRecords_step by done. apply IH; [|done].
  by rewrite <-app_assoc.
Qed.

(** The counts in the header of an encoded message. *)
Lemma encodeMessage_header start labels tail rs (m := encodeMessage start labels tail rs) :
  length start = 4%nat → Z.of_nat (length rs) < 2 ^ 16 →
  readUint16 m 4 = Some 1 ∧ readUint16 m 6 = Some (Z.of_nat (length rs)) ∧
  readUint16 m 8 = Some 0 ∧ readUint16 m 10 = Some 0.
Proof.
  intros Hstart Hn. unfold m, encodeMessage. rewrite <-(app_assoc start).
  set (counts := bytes16 1 ++ _). set (rest := encodeName labels ++ _).
  assert (H4 : size start = 4) by (unfold size; lia).
  replace 4 with (size start + 0) by lia. replace 6 with (size start + 2) by lia.
  replace 8 with (size start + 4) by lia. replace 10 with (size start + 6) by lia.
  rewrite (readUint16_app start counts rest 0 0 1) by done.
  rewrite (readUint16_app start counts rest 2 (Z.of_nat (length rs) / 2 ^ 8) (Z.of_nat (length rs) mod 2 ^ 8))
    by (done || (unfold isByte; Z.to_euclidean_division_equations; lia)).
  rewrite (readUint16_app start counts rest 4 0 0) by done.
  rewrite (readUint16_app start counts rest 6 0 0) by done.
  rewrite bytes16_value by lia. done.
Qed.

Lemma queryHost_total m : Forall isByte m → ∃ host, queryHost m = Some host.
Proof.
  intros Hm. unfold queryHost. destruct (Z.ltb_spec (size m) 12) as [|Hsize]; [by eauto|].
  destruct (readUint16_inside m 4) as (qd & -> & _); [done|lia|lia|]. cbn [mbind option_bind].
  destruct (qd =? 0); [by eauto|]. destruct (readName_total m 12 Hm) as (r & -> & _). by eexists.
Qed.

Lemma responseIpv4Answers_total m :
  Forall isByte m → ∃ answers, responseIpv4Answers m = Some answers ∧ answersOk answers.
Proof.
  intros Hm. unfold responseIpv4Answers.
  assert (Hnil : answersOk []) by (split; constructor).
  destruct (Z.ltb_spec (size m) 12) as [|Hsize]; [by eauto|].
  destruct (readUint16_inside m 4) as (qd & -> & _); [done|lia|lia|].
  destruct (readUint16_inside m 6) as (an & -> & _); [done|lia|lia|].
  destruct (readUint16_inside m 8) as (ns & -> & _); [done|lia|lia|].
  destruct (readUint16_inside m 10) as (ar & -> & _); [done|lia|lia|].
  cbn [mbind option_bind].
  destruct (skipQuestions_total (Z.to_nat qd) m 12) as (r & -> & Hr); [done|lia|].
  cbn [mbind option_bind]. destruct r as [o|]; [|by eauto].
  apply readRecords_total; [done| |done]. by apply (Hr o).
Qed.

(** ** Properties *)

(** C36: the parser is safe on every input: it reads no byte outside the message
    and ends, whatever the bytes are (pointer loops included), and the answers it
    returns are distinct dotted quads with lifetimes from 0 to the largest [int]. *)
Theorem parser_total m :
  Forall isByte m →
  (∃ host, queryHost m = Some host) ∧
  ∃ answers, responseIpv4Answers m = Some answers ∧ answersOk answers.
Proof. intros Hm. split; [by apply queryHost_total | by apply responseIpv4Answers_total]. Qed.

(** The host of a query is read back: for a message with a question for the
    given labels the parser returns them joined by dots, in lower case. *)
Lemma query_roundtrip start labels tail rs :
  length start = 4%nat → Z.of_nat (length rs) < 2 ^ 16 → Forall validLabel labels → labels ≠ [] →
  queryHost (encodeMessage start labels tail rs) = Some (toLower (join "." labels)).
Proof.
  intros Hstart Hn Hl Hne. unfold queryHost.
  destruct (encodeMessage_header start labels tail rs Hstart Hn) as (Hqd & _).
  unfold encodeMessage in *. set (header := start ++ _) in *. set (rest := tail ++ _) in *.
  assert (Hh : size header = 12) by (unfold header, size; rewrite !length_app, Hstart; done).
  assert (12 ≤ size (header ++ encodeName labels ++ rest)) as Hsize.
  { rewrite size_app, Hh. pose proof (size_nonneg (encodeName labels ++ rest)). lia. }
  rewrite (proj2 (Z.ltb_ge _ _)) by lia.
  rewrite Hqd. cbn [mbind option_bind]. change (1 =? 0) with false. cbn iota.
  rewrite <-Hh at 1. rewrite readName_encoded by done. done.
Qed.

(** The answers of a response are read back in order: for a message with a
    question and [A] records with compressed names the parser returns the address
    and lifetime of each record, keeping the first record of an address. *)
Lemma response_roundtrip start labels tail rs :
  length start = 4%nat → length tail = 4%nat → Forall validLabel labels → labels ≠ [] →
  Forall wireOk rs → Z.of_nat (length rs) < 2 ^ 16 →
  responseIpv4Answers (encodeMessage start labels tail rs) = Some (foldl addWire [] rs).
Proof.
  intros Hstart Htail Hl Hne Hrs Hn. unfold responseIpv4Answers.
  destruct (encodeMessage_header start labels tail rs Hstart) as (Hqd & Han & Hns & Har); [lia|].
  unfold encodeMessage in *. set (header := start ++ _) in *. set (rest := concat _) in *.
  assert (Hh : size header = 12) by (unfold header, size; rewrite !length_app, Hstart; done).
  set (m := header ++ encodeName labels ++ tail ++ rest) in *.
  assert (Hm : m = (header ++ encodeName labels ++ tail) ++ rest) by (unfold m; by rewrite <-!app_assoc).
  assert (Hsize : size m = 12 + size (encodeName labels) + 4 + size rest).
  { unfold m. rewrite !size_app, Hh. unfold size at 2. rewrite Htail. lia. }
  pose proof (size_nonneg (encodeName labels)). pose proof (size_nonneg rest).
  rewrite (proj2 (Z.ltb_ge _ _)) by lia. rewrite Hqd, Han, Hns, Har. cbn [mbind option_bind].
  change (Z.to_nat 1) with 1%nat. cbn [skipQuestions].
  assert (readName m 12 0 = Some (Some (12 + size (encodeName labels), join "." labels))) as ->
    by (rewrite <-Hh; by apply readName_encoded).
  cbn [mbind option_bind]. rewrite (proj2 (Z.ltb_ge _ _)) by lia. cbn [skipQuestions mbind option_bind].
  unfold recordCount, quint16. rewrite !Z.add_0_r, Z.mod_small, Nat2Z.id by lia.
  replace (12 + size (encodeName labels) + 4) with (size (header ++ encodeName labels ++ tail))
    by (rewrite !size_app, Hh; unfold size at 2; rewrite Htail; lia).
  by apply (readRecords_encoded rs m labels header (tail ++ rest)).
Qed.

(** The number of records is added up in 16 bits: when the three counts of the
    header add up to 65536, no record is read at all. *)
Lemma record_count_wraps m an ns ar :
  12 ≤ size m → readUint16 m 4 = Some 0 →
  readUint16 m 6 = Some an → readUint16 m 8 = Some ns → readUint16 m 10 = Some ar →
  an + ns + ar = 2 ^ 16 →
  responseIpv4Answers m = Some [].
Proof.
  intros Hsize Hqd Han Hns Har Hsum. unfold responseIpv4Answers.
  rewrite (proj2 (Z.ltb_ge _ _)) by lia. rewrite Hqd, Han, Hns, Har. cbn [mbind option_bind].
  unfold recordCount. rewrite Hsum. done.
Qed.

(** ** Witnesses *)

(** A response for [www.example.com] with two records, the first one twice. *)
Definition sampleLabels : list string := ["www"; "Example"; "com"].
Definition sampleRecords : list wireRecord :=
  [Wire 93 184 216 34 300; Wire 93 184 216 34 60; Wire 1 2 3 4 4294967295].
Definition sampleResponse : QByteArray :=
  encodeMessage [18; 52; 129; 128] sampleLabels [0; 1; 0; 1] sampleRecords.

Lemma parser_total_witness :
  (∃ host, queryHost sampleResponse = Some host) ∧
  ∃ answers, responseIpv4Answers sampleResponse = Some answers ∧ answersOk answers.
Proof.
  apply (parser_total sampleResponse).
  unfold isByte. apply (bool_decide_unpack (Forall (λ b, 0 ≤ b < 256) sampleResponse)).
  vm_compute. exact I.
Defined.

Lemma query_roundtrip_example :
  queryHost sampleResponse = Some "www.example.com" ∧
  queryHost sampleResponse = Some (toLower (join "." sampleLabels)).
Proof.
  split; [vm_compute; reflexivity|].
  apply (query_roundtrip [18; 52; 129; 128] sampleLabels);
    [reflexivity | simpl; lia | | discriminate].
  repeat constructor; simpl; lia.
Defined.

Lemma response_roundtrip_example :
  responseIpv4Answers sampleResponse =
    Some [Answer "93.184.216.34" 300; Answer "1.2.3.4" 2147483647] ∧
  responseIpv4Answers sampleResponse = Some (foldl addWire [] sampleRecords).
Proof.
  split; [vm_compute; reflexivity|].
  apply (response_roundtrip [18; 52; 129; 128] sampleLabels [0; 1; 0; 1]);
    [reflexivity | reflexivity | | discriminate | | simpl; lia].
  - repeat constructor; simpl; lia.
  - repeat constructor; unfold isByte; simpl; lia.
Defined.

(** One answer is announced and present, and 65535 authority records. *)
Definition wrappedResponse : QByteArray :=
  [18; 52; 129; 128] ++ bytes16 0 ++ bytes16 1 ++ bytes16 65535 ++ bytes16 0 ++
  encodeName ["a"] ++ drop 2 (encodeRecord (Wire 1 2 3 4 60)).

Lemma record_count_wraps_example : responseIpv4Answers wrappedResponse = Some [].
Proof.
  apply (record_count_wraps wrappedResponse 1 65535 0);
    [vm_compute; discriminate | vm_compute; reflexivity..].
Defined.
