(* ===== verification/DnsObserver.v ===== *)
(** * The local DNS proxy of macOS ([platforms/macos/daemon/dnssplitrouteobserver.cpp])

    While split tunnelling by host is on, the daemon answers on 127.0.0.1:53.  It
    forwards every query to all upstream servers under a fresh message identifier,
    returns the first response to the client under the identifier the client chose,
    and announces the addresses of hosts that a rule matches.  Datagrams are lists
    of bytes; the sockets are the two flags and the lists of datagrams that the
    handlers read; what is sent and emitted is a list of outputs.

    [query_answered] follows one query to its answer, [answers_bounded] counts the
    answers of a whole run, and [nextQueryId_ends] says when the search for an
    identifier ends.  The last section has the inputs on which it does not end or
    on which the handler is undefined. *)

From S2P Require Import Prelude QtCore NetworkUtilities SplitTunnel DnsParser.
From stdpp Require Import gmap options.

Open Scope Z_scope.

(** ** Results *)

(** A handler returns, meets undefined behaviour, or never returns. *)
Inductive result (A : Type) :=
  | Ok (a : A)
  | Undefined
  | Hangs.
Arguments Ok {A} _.
Arguments Undefined {A}.
Arguments Hangs {A}.

#[export] Instance result_bind : MBind result := λ A B f r,
  match r with Ok a => f a | Undefined => Undefined | Hangs => Hangs end.

Definition defined {A} (x : option A) : result A :=
  match x with Some a => Ok a | None => Undefined end.

(** ** State *)

#[export] Instance hostAddress_countable : Countable hostAddress.
Proof.
  apply (inj_countable'
    (λ a, match a with HNull => inl () | HIPv4 n => inr (inl n) | HIPv6 bs => inr (inr bs) end)
    (λ s, match s with inl _ => HNull | inr (inl n) => HIPv4 n | inr (inr bs) => HIPv6 bs end)).
  by intros [].
Defined.

Record PendingQuery := Pending {
  clientAddress : hostAddress;
  clientPort : Z;
  originalId : Z;
  pendingHost : string;
  requestKey : QByteArray;
  matched : bool;
}.

Record observer := Observer {
  clientBound : bool;
  upstreamBound : bool;
  upstreamServers : list hostAddress;
  matchedUpstreamServers : list hostAddress;
  rules : list SplitTunnelRule;
  pendingQueries : gmap Z PendingQuery;
  lastQueryId : Z;
}.

(** A new object: [m_nextQueryId] starts at 1. *)
Definition newObserver : observer := Observer false false [] [] [] ∅ 1.

Definition withQueries (pending : gmap Z PendingQuery) (last : Z) (o : observer) : observer :=
  Observer (clientBound o) (upstreamBound o) (upstreamServers o) (matchedUpstreamServers o)
    (rules o) pending last.

(** What the object sends to the upstream servers (port 53) and to the clients, and
    its signal [hostResolved]. *)
Inductive emission :=
  | Forwarded (message : QByteArray) (server : hostAddress)
  | Answered (message : QByteArray) (client : hostAddress) (port : Z)
  | Resolved (host : string) (answers : list DnsIpv4Answer).

(** ** Messages *)

Definition messageId (m : QByteArray) : Z :=
  match m with
  | b0 :: b1 :: _ => Z.lor (Z.shiftl b0 8) b1
  | _ => 0
  end.

Definition setMessageId (m : QByteArray) (id : Z) : QByteArray :=
  match m with
  | _ :: _ :: rest => Z.shiftr id 8 :: Z.land id 0xFF :: rest
  | _ => m
  end.

(** ** Configuration *)

Fixpoint activeRules (texts : list string) : option (list SplitTunnelRule) :=
  match texts with
  | [] => Some []
  | text :: texts =>
      rule ← fromText text;
      rest ← activeRules texts;
      Some (if isValid rule && negb (bool_decide (type rule = IpSubnet)) then rule :: rest else rest)
  end.

Definition setRules (texts : list string) (o : observer) : result observer :=
  active ← defined (activeRules texts);
  Ok (Observer (clientBound o) (upstreamBound o) (upstreamServers o) (matchedUpstreamServers o)
        active (pendingQueries o) (lastQueryId o)).

Definition LocalHost : hostAddress := HIPv4 (ofOctets 127 0 0 1).

(** [appendUsableServers] with an empty target. *)
Definition usableServers (servers : list hostAddress) : list hostAddress :=
  foldl (λ target server,
    if isIPv4 server && negb (bool_decide (server = LocalHost)) &&
       negb (bool_decide (server ∈ target))
    then target ++ [server] else target) [] servers.

Definition stop (o : observer) : observer :=
  Observer false false [] [] (rules o) ∅ (lastQueryId o).

(** [start]; the two flags are the results of binding the sockets. *)
Definition start (bindUpstream bindClient : bool) (upstream matchedUpstream : list hostAddress)
    (o : observer) : bool * observer :=
  let o := stop o in
  let o := Observer false false (usableServers upstream) (usableServers matchedUpstream)
             (rules o) (pendingQueries o) (lastQueryId o) in
  if bool_decide (rules o = []) || bool_decide (upstreamServers o = []) then (false, o)
  else if negb bindUpstream then (false, stop o)
  else if negb bindClient then (false, stop o)
  else (true, Observer true true (upstreamServers o) (matchedUpstreamServers o) (rules o)
                (pendingQueries o) (lastQueryId o)).

Definition isActive (o : observer) : bool := clientBound o && upstreamBound o.

(** ** Queries *)

(** [matchesRules]; [None] is the undefined [first()] of [matchesHost]. *)
Fixpoint matchesRules (rules : list SplitTunnelRule) (host : string) : option bool :=
  match rules with
  | [] => Some false
  | rule :: rules =>
      m ← matchesHost rule host;
      if m : bool then Some true else matchesRules rules host
  end.

(** The increments of one round of [nextQueryId], in 16 bits. *)
Definition nextId (id : Z) : Z :=
  let id := quint16 (id + 1) in
  if id =? 0 then quint16 (id + 1) else id.

Fixpoint nextQueryIdLoop (fuel : nat) (pending : gmap Z PendingQuery) (id : Z) : option Z :=
  match fuel with
  | O => None
  | S fuel =>
      let id := nextId id in
      if bool_decide (is_Some (pending !! id)) then nextQueryIdLoop fuel pending id else Some id
  end.

(** There are 65535 identifiers besides zero; [nextQueryId_ends] shows that the loop
    does not end when it has not ended after as many rounds. *)
Definition idFuel : nat := Z.to_nat 65535.

Definition nextQueryId (o : observer) : option Z :=
  nextQueryIdLoop idFuel (pendingQueries o) (lastQueryId o).

(** The loop over the upstream servers. *)
Fixpoint forwardTo (upstreams : list hostAddress) (request : QByteArray) (pending : PendingQuery)
    (o : observer) : result (observer * list emission) :=
  match upstreams with
  | [] => Ok (o, [])
  | upstream :: upstreams =>
      match nextQueryId o with
      | None => Hangs
      | Some forwardedId =>
          let o := withQueries (<[forwardedId := pending]> (pendingQueries o)) forwardedId o in
          '(o, sent) ← forwardTo upstreams request pending o;
          Ok (o, Forwarded (setMessageId request forwardedId) upstream :: sent)
      end
  end.

(** The upstream servers of a query. *)
Definition serversFor (isMatched : bool) (o : observer) : list hostAddress :=
  if isMatched && negb (bool_decide (matchedUpstreamServers o = []))
  then matchedUpstreamServers o else upstreamServers o.

(** One round of the loop of [readClientDatagrams]. *)
Definition readClientDatagram (o : observer) (datagram : hostAddress * Z * QByteArray) :
    result (observer * list emission) :=
  let '(client, port, request) := datagram in
  host ← defined (queryHost request);
  if isEmpty host || bool_decide (upstreamServers o = []) then Ok (o, [])
  else
    isMatched ← defined (matchesRules (rules o) host);
    let pending := Pending client port (messageId request) host (setMessageId request 0) isMatched in
    forwardTo (serversFor isMatched o) request pending o.

(** ** Responses *)

(** The test of the loop that drops the other copies of an answered query. *)
Definition sameRequest (other pending : PendingQuery) : bool :=
  bool_decide (originalId other = originalId pending) &&
  bool_decide (clientAddress other = clientAddress pending) &&
  bool_decide (clientPort other = clientPort pending) &&
  bool_decide (requestKey other = requestKey pending).

(** One round of the loop of [readUpstreamDatagrams]. *)
Definition readUpstreamDatagram (o : observer) (response : QByteArray) :
    result (observer * list emission) :=
  let forwardedId := messageId response in
  match pendingQueries o !! forwardedId with
  | None => Ok (o, [])
  | Some pending =>
      let rest := filter (λ kv, sameRequest kv.2 pending = false)
                    (delete forwardedId (pendingQueries o)) in
      answers ← defined (responseIpv4Answers response);
      let signal := if matched pending && negb (bool_decide (answers = []))
                    then [Resolved (pendingHost pending) answers] else [] in
      Ok (withQueries rest (lastQueryId o) o,
          signal ++ [Answered (setMessageId response (originalId pending))
                       (clientAddress pending) (clientPort pending)])
  end.

(** The loops of the two handlers over the datagrams that are waiting. *)
Fixpoint readAll {A} (read : observer → A → result (observer * list emission)) (o : observer)
    (datagrams : list A) : result (observer * list emission) :=
  match datagrams with
  | [] => Ok (o, [])
  | d :: datagrams =>
      '(o, out) ← read o d;
      '(o, out') ← readAll read o datagrams;
      Ok (o, out ++ out')
  end.

Definition readClientDatagrams := readAll readClientDatagram.
Definition readUpstreamDatagrams := readAll readUpstreamDatagram.

(** ** Runs *)

Inductive event :=
  | SetRules (texts : list string)
  | Start (bindUpstream bindClient : bool) (upstream matchedUpstream : list hostAddress)
  | Stop
  | ClientReady (datagrams : list (hostAddress * Z * QByteArray))
  | UpstreamReady (datagrams : list QByteArray).

(** A socket that is not bound signals no datagrams. *)
Definition step (o : observer) (e : event) : result (observer * list emission) :=
  match e with
  | SetRules texts => o ← setRules texts o; Ok (o, [])
  | Start bu bc up mup => Ok ((start bu bc up mup o).2, [])
  | Stop => Ok (stop o, [])
  | ClientReady ds => if clientBound o then readClientDatagrams o ds else Ok (o, [])
  | UpstreamReady ds => if upstreamBound o then readUpstreamDatagrams o ds else Ok (o, [])
  end.

Definition run := readAll step.

(** ** Identifiers *)

Definition isId (id : Z) : Prop := 1 ≤ id < 2 ^ 16.

Lemma nextId_mod id : 0 ≤ id < 2 ^ 16 → nextId id = id mod 65535 + 1.
Proof.
  intros Hid. unfold nextId, quint16.
  destruct (decide (id = 65535)) as [->|Hne]; [done|].
  destruct (decide (id = 65534)) as [->|]; [done|].
  rewrite !(Z.mod_small _ (2 ^ 16)), (Z.mod_small id) by lia.
  destruct (Z.eqb_spec (id + 1) 0); lia.
Qed.

Lemma nextId_isId id : 0 ≤ id < 2 ^ 16 → isId (nextId id).
Proof.
  intros Hid. rewrite nextId_mod by done. unfold isId.
  pose proof (Z.mod_pos_bound id 65535). lia.
Qed.

(** The identifier of the round [k]. *)
Definition idAfter (id : Z) (k : nat) : Z := (id + Z.of_nat k) mod 65535 + 1.

Lemma idAfter_next id k : 0 ≤ id < 2 ^ 16 → idAfter (nextId id) k = idAfter id (S k).
Proof.
  intros Hid. rewrite nextId_mod by done. unfold idAfter. f_equal.
  replace (id mod 65535 + 1 + Z.of_nat k) with (id mod 65535 + (1 + Z.of_nat k)) by lia.
  rewrite Z.add_mod_idemp_l by lia. f_equal. lia.
Qed.

(** 65535 rounds visit every identifier. *)
Lemma idAfter_all id i : 0 ≤ id < 2 ^ 16 → isId i → ∃ k, (k < idFuel)%nat ∧ idAfter id k = i.
Proof.
  unfold isId, idAfter, idFuel. intros Hid Hi. exists (Z.to_nat ((i - 1 - id) mod 65535)).
  pose proof (Z.mod_pos_bound (i - 1 - id) 65535) as Hb. split; [lia|].
  rewrite Z2Nat.id by lia. rewrite Z.add_mod_idemp_r by lia.
  replace (id + (i - 1 - id)) with (i - 1) by lia. rewrite Z.mod_small by lia. lia.
Qed.

Lemma nextQueryIdLoop_Some fuel pending id i :
  0 ≤ id < 2 ^ 16 → nextQueryIdLoop fuel pending id = Some i → isId i ∧ pending !! i = None.
Proof.
  revert id. induction fuel as [|fuel IH]; intros id Hid; cbn [nextQueryIdLoop]; [done|].
  pose proof (nextId_isId id Hid) as Hn. case_bool_decide as Hp.
  - apply IH. unfold isId in Hn. lia.
  - intros [= <-]. split; [done|]. by apply eq_None_not_Some.
Qed.

Lemma nextQueryIdLoop_None fuel pending id :
  0 ≤ id < 2 ^ 16 →
  nextQueryIdLoop fuel pending id = None ↔ ∀ k, (k < fuel)%nat → is_Some (pending !! idAfter id k).
Proof.
  revert id. induction fuel as [|fuel IH]; intros id Hid; cbn [nextQueryIdLoop].
  { split; [lia|done]. }
  assert (H0 : idAfter id 0 = nextId id)
    by (rewrite nextId_mod by done; unfold idAfter; by rewrite Z.add_0_r).
  pose proof (nextId_isId id Hid) as Hn. unfold isId in Hn. case_bool_decide as Hp.
  - rewrite IH by lia. split.
    + intros Hk [|k] Hlt; [by rewrite H0|]. rewrite <-idAfter_next by done. apply Hk. lia.
    + intros Hk k Hlt. rewrite idAfter_next by done. apply Hk. lia.
  - split; [done|]. intros Hk. destruct Hp. rewrite <-H0. apply Hk. lia.
Qed.

(** ** The invariant *)

Definition queryOk (q : PendingQuery) : Prop := 0 ≤ originalId q < 2 ^ 16.

Definition observerOk (o : observer) : Prop :=
  0 ≤ lastQueryId o < 2 ^ 16 ∧ map_Forall (λ id q, isId id ∧ queryOk q) (pendingQueries o).

Lemma observerOk_new : observerOk newObserver.
Proof. split; [done|]. apply map_Forall_empty. Qed.

(** With fewer than 65535 queries in flight one of the identifiers is free. *)
Lemma id_free (pending : gmap Z PendingQuery) :
  (size pending < idFuel)%nat → ∃ id, isId id ∧ pending !! id = None.
Proof.
  intros Hsize.
  destruct (decide (Exists (λ id, pending !! id = None) (seqZ 1 65535))) as [He|Hn].
  - apply Exists_exists in He as (id & Hid & Hp). apply elem_of_seqZ in Hid.
    exists id. split; [unfold isId; lia|done].
  - apply not_Exists_Forall in Hn; [|apply _]. exfalso.
    assert (list_to_set (seqZ 1 65535) ⊆ dom pending) as Hsub.
    { intros id Hid%elem_of_list_to_set. apply elem_of_dom, not_eq_None_Some.
      rewrite Forall_forall in Hn. by apply Hn. }
    apply subseteq_size in Hsub. rewrite size_list_to_set in Hsub by apply NoDup_seqZ.
    rewrite length_seqZ, size_dom in Hsub. unfold idFuel in Hsize. lia.
Qed.

Lemma nextQueryId_Some o :
  observerOk o → (size (pendingQueries o) < idFuel)%nat →
  ∃ id, nextQueryId o = Some id ∧ isId id ∧ pendingQueries o !! id = None.
Proof.
  intros [Hlast _] Hsize. unfold nextQueryId.
  destruct (nextQueryIdLoop _ _ _) as [id|] eqn:Hloop.
  - exists id. split; [done|]. by apply nextQueryIdLoop_Some in Hloop.
  - exfalso. rewrite nextQueryIdLoop_None in Hloop by done.
    destruct (id_free _ Hsize) as (id & Hid & Hfree).
    destruct (idAfter_all _ id Hlast Hid) as (k & Hk & Heq).
    destruct (Hloop k Hk) as [q Hq]. rewrite Heq, Hfree in Hq. done.
Qed.

(** ** Messages under another identifier *)

Lemma messageId_range m : Forall isByte m → 0 ≤ messageId m < 2 ^ 16.
Proof.
  intros Hm. destruct m as [|b0 [|b1 m]]; [done..|]. cbn [messageId].
  inversion_clear Hm as [|? ? H0 Hm']. inversion_clear Hm' as [|? ? H1 _].
  unfold isByte in *. rewrite lor_shiftl by lia. lia.
Qed.

Lemma messageId_set m id : 2 ≤ DnsParser.size m → 0 ≤ id < 2 ^ 16 → messageId (setMessageId m id) = id.
Proof.
  intros Hm Hid. destruct m as [|b0 [|b1 m]]; [done..|]. cbn [setMessageId messageId].
  change 0xFF with (Z.ones 8). rewrite Z.land_ones, Z.shiftr_div_pow2 by lia.
  rewrite lor_shiftl by (try apply Z.mod_pos_bound; lia). apply bytes16_value. lia.
Qed.

Lemma size_messageId m : messageId m ≠ 0 → 2 ≤ DnsParser.size m.
Proof. destruct m as [|b0 [|b1 m]]; [done..|]. intros _. unfold DnsParser.size. cbn [length]. lia. Qed.

(** ** Forwarding *)

Lemma observerOk_insert o id q :
  observerOk o → isId id → queryOk q →
  observerOk (withQueries (<[id := q]> (pendingQueries o)) id o).
Proof.
  intros [_ Hp] Hid Hq. split; [unfold isId in Hid; cbn; lia|].
  by apply map_Forall_insert_2.
Qed.

(** Each server gets the request under its own fresh identifier. *)
Lemma forwardTo_spec upstreams request q o :
  observerOk o → queryOk q → (size (pendingQueries o) + length upstreams ≤ idFuel)%nat →
  ∃ ids pending last,
    forwardTo upstreams request q o =
      Ok (withQueries pending last o,
          zip_with (λ id server, Forwarded (setMessageId request id) server) ids upstreams) ∧
    length ids = length upstreams ∧ NoDup ids ∧
    Forall (λ id, isId id ∧ pendingQueries o !! id = None) ids ∧
    (∀ id, pending !! id = if bool_decide (id ∈ ids) then Some q else pendingQueries o !! id) ∧
    size pending = (size (pendingQueries o) + length upstreams)%nat ∧
    observerOk (withQueries pending last o).
Proof.
  intros Ho Hq. revert o Ho. induction upstreams as [|u us IH]; intros o Ho Hsize.
  { exists [], (pendingQueries o), (lastQueryId o). destruct o. cbn in *.
    split_and!; [done|done|constructor|constructor| |lia|done]. intros id. by rewrite bool_decide_false by apply not_elem_of_nil. }
  cbn [length] in Hsize.
  destruct (nextQueryId_Some o) as (id & Hid & Hrange & Hfree); [done|lia|].
  cbn [forwardTo]. rewrite Hid.
  set (o1 := withQueries _ _ _).
  assert (Hsize1 : size (pendingQueries o1) = S (size (pendingQueries o)))
    by (by apply map_size_insert_None).
  destruct (IH o1) as (ids & p & last & -> & Hlen & Hnd & Hids & Hp & Hps & Hok);
    [by apply observerOk_insert|lia|].
  assert (Hids' : Forall (λ i, isId i ∧ pendingQueries o !! i = None ∧ i ≠ id) ids).
  { eapply Forall_impl; [done|]. intros i [Hi Hn]. cbn in Hn.
    apply lookup_insert_None in Hn as [? ?]. done. }
  exists (id :: ids), p, last. cbn [length zip_with]. split_and!; [done|by f_equal| | | |lia|done].
  - constructor; [|done]. intros Hin. rewrite Forall_forall in Hids'. by apply Hids' in Hin as (_ & _ & []).
  - constructor; [done|]. eapply Forall_impl; [done|]. naive_solver.
  - intros i. rewrite Hp. cbn. destruct (decide (i = id)) as [->|Hne].
    + rewrite lookup_insert_eq, (bool_decide_true (id ∈ id :: ids)) by (by left).
      by case_bool_decide.
    + rewrite lookup_insert_ne by done.
      rewrite (bool_decide_ext (i ∈ id :: ids) (i ∈ ids)); [done|]. rewrite elem_of_cons. naive_solver.
Qed.

Definition isForwarded (out : emission) : Prop :=
  match out with Forwarded _ _ => True | _ => False end.

(** However it ends, forwarding only adds copies of the query and only sends to
    the servers. *)
Lemma forwardTo_Ok upstreams request q o o' out :
  forwardTo upstreams request q o = Ok (o', out) → observerOk o → queryOk q →
  observerOk o' ∧
  (∀ id q', pendingQueries o' !! id = Some q' → pendingQueries o !! id = Some q' ∨ q' = q) ∧
  Forall isForwarded out.
Proof.
  revert o out. induction upstreams as [|u us IH]; intros o out; cbn [forwardTo].
  { intros [= <- <-] Ho Hq. split_and!; [done|by left|constructor]. }
  destruct (nextQueryId o) as [id|] eqn:Hid; [|done].
  destruct (forwardTo us _ _ _) as [[o1 out1]| |] eqn:Hrest; [|done..].
  intros [= <- <-] Ho Hq. apply nextQueryIdLoop_Some in Hid as [Hid Hfree]; [|apply Ho].
  apply IH in Hrest as (Hok & Hp & Hout); [|by apply observerOk_insert|done].
  split_and!; [done| |by constructor].
  intros i q' [Hi| ->]%Hp; [|by right]. cbn in Hi.
  apply lookup_insert_Some in Hi as [[_ <-]|[_ Hi]]; [by right|by left].
Qed.

Lemma forwardTo_rules upstreams request q o o' out :
  forwardTo upstreams request q o = Ok (o', out) → rules o' = rules o.
Proof.
  revert o out. induction upstreams as [|u us IH]; intros o out; cbn [forwardTo]; [congruence|].
  destruct (nextQueryId o) as [id|]; [|done].
  destruct (forwardTo us _ _ _) as [[o1 out1]| |] eqn:Hrest; [|done..].
  intros [= <- <-]. by apply IH in Hrest.
Qed.

(** ** Requests in flight *)

(** A client's request: who asked under which identifier, and the question. *)
Notation tag := (hostAddress * Z * Z)%type.

Definition tagOf (q : PendingQuery) : tag := (clientAddress q, clientPort q, originalId q).
Definition keyOf (q : PendingQuery) : tag * QByteArray := (tagOf q, requestKey q).

Lemma sameRequest_keyOf q q' : sameRequest q q' = true ↔ keyOf q = keyOf q'.
Proof.
  unfold sameRequest, keyOf, tagOf. rewrite !andb_true_iff, !bool_decide_eq_true.
  split; [intros [[[-> ->] ->] ->]; done | by intros [= -> -> -> ->]].
Qed.

Definition openRequests (o : observer) : gset (tag * QByteArray) :=
  map_to_set (λ _ q, keyOf q) (pendingQueries o).

Definition openFor (t : tag) (o : observer) : gset (tag * QByteArray) :=
  filter (λ k, k.1 = t) (openRequests o).

Lemma elem_of_openRequests k o :
  k ∈ openRequests o ↔ ∃ id q, pendingQueries o !! id = Some q ∧ keyOf q = k.
Proof. unfold openRequests. rewrite elem_of_map_to_set. done. Qed.

Lemma openFor_grows t k o o' :
  openRequests o' ⊆ openRequests o ∪ {[k]} →
  (size (openFor t o') ≤ size (openFor t o) + if decide (k.1 = t) then 1 else 0)%nat.
Proof.
  intros Hsub. unfold openFor.
  assert (filter (λ k, k.1 = t) (openRequests o') ⊆
          filter (λ k, k.1 = t) (openRequests o) ∪ if decide (k.1 = t) then {[k]} else ∅) as Hs.
  { case_decide; set_solver. }
  apply subseteq_size in Hs. etrans; [done|]. rewrite size_union_alt.
  apply Nat.add_le_mono_l. case_decide.
  - rewrite <-(size_singleton (C := gset (tag * QByteArray)) k). apply subseteq_size. set_solver.
  - rewrite <-(size_empty (C := gset (tag * QByteArray))). apply subseteq_size. set_solver.
Qed.

Lemma openFor_shrinks t k o o' :
  openRequests o' ⊆ openRequests o ∖ {[k]} → k ∈ openRequests o →
  ((if decide (k.1 = t) then 1 else 0) + size (openFor t o') ≤ size (openFor t o))%nat.
Proof.
  intros Hsub Hk. unfold openFor. case_decide as Ht.
  - rewrite <-(size_singleton (C := gset (tag * QByteArray)) k), <-size_union by set_solver.
    apply subseteq_size. set_solver.
  - apply subseteq_size. set_solver.
Qed.

(** ** Counting queries and answers *)

Definition isAnswerTo (t : tag) (out : emission) : bool :=
  match out with
  | Answered m client port => bool_decide ((client, port, messageId m) = t)
  | _ => false
  end.

Definition answersTo (t : tag) (outs : list emission) : nat :=
  length (filter (λ out, isAnswerTo t out = true) outs).

(** The clients' queries of an event that carry [t]. *)
Definition isQueryOf (t : tag) (d : hostAddress * Z * QByteArray) : bool :=
  bool_decide ((d.1, messageId d.2) = t).

Definition queriesIn (t : tag) (e : event) : nat :=
  match e with
  | ClientReady ds => length (filter (λ d, isQueryOf t d = true) ds)
  | _ => 0
  end.

Definition queriesOf (t : tag) (es : list event) : nat := sum_list_with (queriesIn t) es.

(** Datagrams are bytes. *)
Definition eventOk (e : event) : Prop :=
  match e with
  | ClientReady ds => Forall (λ d, Forall isByte d.2) ds
  | UpstreamReady ds => Forall (Forall isByte) ds
  | _ => True
  end.

(** A reader that keeps the invariant and pays for the answers to [t] with the
    requests of [t] in flight, at the cost of what it reads. *)
Definition pays {A} (t : tag) (cost : A → nat) (good : A → Prop)
    (read : observer → A → result (observer * list emission)) : Prop :=
  ∀ o a o' out, observerOk o → good a → read o a = Ok (o', out) →
    observerOk o' ∧ (answersTo t out + size (openFor t o') ≤ size (openFor t o) + cost a)%nat.

Lemma answersTo_app t l1 l2 : answersTo t (l1 ++ l2) = (answersTo t l1 + answersTo t l2)%nat.
Proof. unfold answersTo. by rewrite filter_app, length_app. Qed.

Lemma readAll_pays {A} t (cost : A → nat) good read :
  pays t cost good read → pays t (sum_list_with cost) (Forall good) (readAll read).
Proof.
  intros Hread o ds. revert o. induction ds as [|d ds IH]; intros o o' out Ho Hds; cbn [readAll].
  { intros [= <- <-]. split; [done|]. cbn. lia. }
  inversion_clear Hds as [|? ? Hd Hds'].
  destruct (read o d) as [[o1 out1]| |] eqn:H1; [|done..]. cbn [mbind result_bind].
  destruct (readAll read o1 ds) as [[o2 out2]| |] eqn:H2; [|done..]. intros [= <- <-].
  apply Hread in H1 as [Ho1 Hc1]; [|done..]. apply IH in H2 as [Ho2 Hc2]; [|done..].
  split; [done|]. rewrite answersTo_app. cbn [sum_list_with]. lia.
Qed.

Lemma answersTo_forwarded t outs : Forall isForwarded outs → answersTo t outs = 0%nat.
Proof.
  unfold answersTo. induction 1 as [|out outs Hout _ IH]; [done|].
  rewrite filter_cons_False; [done|]. by destruct out.
Qed.

Lemma readClientDatagram_pays t :
  pays t (λ d, if isQueryOf t d then 1 else 0)%nat (λ d, Forall isByte d.2) readClientDatagram.
Proof.
  intros o [[client port] request] o' out Ho Hbytes. cbn [snd] in Hbytes. unfold readClientDatagram.
  destruct (queryHost request) as [host|]; [|done]. cbn [defined mbind result_bind].
  destruct (isEmpty host || _). { intros [= <- <-]. split; [done|]. cbn. lia. }
  destruct (matchesRules (rules o) host) as [b|]; [|done]. cbn [defined mbind result_bind].
  set (q := Pending _ _ _ _ _ _). intros Hf.
  apply forwardTo_Ok in Hf as (Ho' & Hp & Hout);
    [|done|by apply messageId_range].
  split; [done|]. rewrite answersTo_forwarded by done.
  assert (Hsub : openRequests o' ⊆ openRequests o ∪ {[keyOf q]}).
  { intros k (id & q' & Hq' & <-)%elem_of_openRequests. apply Hp in Hq' as [Hq'| ->]; [|set_solver].
    apply elem_of_union_l, elem_of_openRequests. eauto. }
  apply (openFor_grows t) in Hsub. unfold isQueryOf. cbn [fst snd].
  change ((keyOf q).1) with (client, port, messageId request) in Hsub.
  rewrite <-decide_bool_decide. destruct (decide _); cbn [bool_decide] in *; lia.
Qed.

Lemma readUpstreamDatagram_pays t :
  pays t (λ _, 0%nat) (Forall isByte) readUpstreamDatagram.
Proof.
  intros o response o' out Ho Hbytes. unfold readUpstreamDatagram.
  destruct (pendingQueries o !! messageId response) as [q|] eqn:Hq;
    [|intros [= <- <-]; split; [done|cbn; lia]].
  destruct Ho as [Hlast Hpend]. destruct (Hpend _ _ Hq) as [Hid Hqok].
  destruct (responseIpv4Answers response) as [answers|]; [|done]. cbn [defined mbind result_bind].
  set (rest := filter _ _). intros [= <- <-]. split.
  { split; [done|]. intros id q' [Hq' _]%map_lookup_filter_Some.
    apply lookup_delete_Some in Hq' as [_ Hq']. by apply Hpend. }
  rewrite answersTo_app.
  assert (answersTo t (if matched q && negb (bool_decide (answers = []))
                       then [Resolved (pendingHost q) answers] else []) = 0%nat) as -> by by destruct (_ && _).
  assert (answersTo t [Answered (setMessageId response (originalId q)) (clientAddress q) (clientPort q)] =
          if decide ((keyOf q).1 = t) then 1 else 0)%nat as ->.
  { unfold answersTo. rewrite filter_cons. cbn [isAnswerTo]. rewrite messageId_set;
      [|apply size_messageId; unfold isId in Hid; lia|done].
    change ((keyOf q).1) with (clientAddress q, clientPort q, originalId q).
    case_bool_decide; by repeat case_decide. }
  rewrite Nat.add_0_r. apply openFor_shrinks.
  - intros k (id & q' & Hq' & <-)%elem_of_openRequests. cbn in Hq'.
    apply map_lookup_filter_Some in Hq' as [[_ Hq']%lookup_delete_Some Hne]. cbn in Hne.
    apply elem_of_difference. split; [apply elem_of_openRequests; eauto|].
    intros Heq%elem_of_singleton%sameRequest_keyOf. congruence.
  - apply elem_of_openRequests. eauto.
Qed.

Lemma silent_pays t o o' :
  openRequests o' ⊆ openRequests o →
  (answersTo t [] + size (openFor t o') ≤ size (openFor t o) + 0)%nat.
Proof.
  intros Hsub. change (answersTo t []) with 0%nat. rewrite Nat.add_0_r, Nat.add_0_l.
  apply subseteq_size. unfold openFor. set_solver.
Qed.

Lemma step_pays t : pays t (queriesIn t) eventOk step.
Proof.
  intros o e o' out Ho He. destruct e as [texts|bu bc up mup| |ds|ds]; cbn [step queriesIn].
  - unfold setRules. destruct (activeRules texts); [|done]. cbn [defined mbind result_bind].
    intros [= <- <-]. split; [done|]. by apply silent_pays.
  - intros [= <- <-]. split; [destruct Ho; unfold start; repeat case_match; by split|].
    apply silent_pays. unfold start, openRequests. repeat case_match; set_solver.
  - intros [= <- <-]. split; [by destruct Ho|]. apply silent_pays. unfold openRequests. set_solver.
  - destruct (clientBound o); [|intros [= <- <-]; split; [done|cbn; lia]].
    intros [Ho' Hc]%(readAll_pays t _ _ _ (readClientDatagram_pays t)); [|done..].
    split; [done|]. etrans; [done|]. apply Nat.add_le_mono_l. clear. induction ds as [|d ds IH]; [done|].
    rewrite filter_cons. cbn [sum_list_with]. destruct (isQueryOf t d); repeat case_decide; cbn; lia.
  - destruct (upstreamBound o); [|intros [= <- <-]; split; [done|cbn; lia]].
    intros [Ho' Hc]%(readAll_pays t _ _ _ (readUpstreamDatagram_pays t)); [|done..].
    split; [done|]. etrans; [done|]. apply Nat.add_le_mono_l. clear. induction ds; [done|]. done.
Qed.

(** ** Following a query *)

(** The query of a host is forwarded. *)
Lemma readClientDatagram_forward o client port request host b :
  queryHost request = Some host → host ≠ "" → matchesRules (rules o) host = Some b →
  upstreamServers o ≠ [] →
  readClientDatagram o (client, port, request) =
    forwardTo (serversFor b o) request
      (Pending client port (messageId request) host (setMessageId request 0) b) o.
Proof.
  intros Hhost Hne Hmatch Hup. unfold readClientDatagram. rewrite Hhost.
  cbn [defined mbind result_bind]. replace (isEmpty host) with false by (by destruct host).
  rewrite bool_decide_false by done. cbn [orb]. by rewrite Hmatch.
Qed.

(** A response under an identifier in flight answers the request in flight, drops
    its other copies and touches no other request. *)
Lemma readUpstreamDatagram_spec o q response :
  Forall isByte response → pendingQueries o !! messageId response = Some q →
  ∃ answers rest,
    responseIpv4Answers response = Some answers ∧ answersOk answers ∧
    readUpstreamDatagram o response =
      Ok (withQueries rest (lastQueryId o) o,
          (if matched q && negb (bool_decide (answers = [])) then [Resolved (pendingHost q) answers] else []) ++
          [Answered (setMessageId response (originalId q)) (clientAddress q) (clientPort q)]) ∧
    ∀ id q', rest !! id = Some q' ↔ pendingQueries o !! id = Some q' ∧ keyOf q' ≠ keyOf q.
Proof.
  intros Hbytes Hq. destruct (responseIpv4Answers_total response Hbytes) as (answers & Hans & Hok).
  unfold readUpstreamDatagram. rewrite Hq, Hans. cbn [defined mbind result_bind].
  eexists answers, _. split_and!; [done|done|reflexivity|].
  intros id q'. rewrite map_lookup_filter_Some, lookup_delete_Some. cbn [snd].
  rewrite <-not_true_iff_false, sameRequest_keyOf. split; [tauto|].
  intros [Hq' Hne]. split_and!; [|done|done]. intros <-. congruence.
Qed.

(** ** Which hosts are announced *)

(** An invariant of the reader that all datagrams of a list preserve. *)
Lemma readAll_inv {A} (I : observer → Prop) (Q : emission → Prop) read (ds : list A) :
  (∀ o d o' out, d ∈ ds → I o → read o d = Ok (o', out) → I o' ∧ Forall Q out) →
  ∀ o o' out, I o → readAll read o ds = Ok (o', out) → I o' ∧ Forall Q out.
Proof.
  intros Hread. induction ds as [|d ds IH]; intros o o' out Ho; cbn [readAll].
  { intros [= <- <-]. by split. }
  destruct (read o d) as [[o1 out1]| |] eqn:H1; [|done..]. cbn [mbind result_bind].
  destruct (readAll read o1 ds) as [[o2 out2]| |] eqn:H2; [|done..]. intros [= <- <-].
  apply Hread in H1 as [Ho1 Hq1]; [|by left|done].
  apply IH in H2 as [Ho2 Hq2]; [|intros ?????; apply Hread; by right|done].
  split; [done|]. by apply Forall_app.
Qed.

Section announced.
Context (es : list event).

(** [rule] is a host rule that was configured. *)
Definition configured (rule : SplitTunnelRule) : Prop :=
  ∃ texts text, SetRules texts ∈ es ∧ text ∈ texts ∧ fromText text = Some rule ∧
    isValid rule = true ∧ type rule ≠ IpSubnet.

(** A client asked for [host], and a configured rule matches it. *)
Definition asked (host : string) : Prop :=
  (∃ ds client port request, ClientReady ds ∈ es ∧ (client, port, request) ∈ ds ∧
     queryHost request = Some host) ∧
  ∃ rule, configured rule ∧ matchesHost rule host = Some true.

(** An announced host was asked for, with the addresses of a response. *)
Definition announcedOk (out : emission) : Prop :=
  match out with
  | Resolved host answers =>
      asked host ∧ answers ≠ [] ∧
      ∃ ds response, UpstreamReady ds ∈ es ∧ response ∈ ds ∧
        responseIpv4Answers response = Some answers ∧ answersOk answers
  | _ => True
  end.

Definition matchedOk (o : observer) : Prop :=
  Forall configured (rules o) ∧
  map_Forall (λ _ q, matched q = true → asked (pendingHost q)) (pendingQueries o) ∧ observerOk o.

Lemma activeRules_configured texts rs :
  activeRules texts = Some rs →
  ∀ rule, rule ∈ rs → ∃ text, text ∈ texts ∧ fromText text = Some rule ∧
    isValid rule = true ∧ type rule ≠ IpSubnet.
Proof.
  revert rs. induction texts as [|text texts IH]; intros rs; cbn [activeRules].
  { intros [= <-] rule []%not_elem_of_nil. }
  destruct (fromText text) as [r|] eqn:Hr; [|done]. cbn [mbind option_bind].
  destruct (activeRules texts) as [rest|]; [|done]. intros [= <-] rule Hin.
  destruct (isValid r && _) eqn:Hv.
  - apply elem_of_cons in Hin as [->|Hin].
    + apply andb_true_iff in Hv as [Hv Ht]. apply negb_true_iff, bool_decide_eq_false in Ht.
      exists text. split_and!; [by left|done..].
    + destruct (IH rest eq_refl rule Hin) as (t & Ht & ?). exists t. split; [by right|done].
  - destruct (IH rest eq_refl rule Hin) as (t & Ht & ?). exists t. split; [by right|done].
Qed.

Lemma matchesRules_true rs host :
  matchesRules rs host = Some true → ∃ rule, rule ∈ rs ∧ matchesHost rule host = Some true.
Proof.
  induction rs as [|r rs IH]; cbn [matchesRules]; [done|].
  destruct (matchesHost r host) as [[]|] eqn:Hm; [|cbn [mbind option_bind]|done].
  - exists r. split; [by left|done].
  - intros (rule & Hin & Hrule)%IH. exists rule. split; [by right|done].
Qed.

Lemma readClientDatagram_announced ds d o o' out :
  ClientReady ds ∈ es → d ∈ ds → Forall isByte d.2 → matchedOk o →
  readClientDatagram o d = Ok (o', out) → matchedOk o' ∧ Forall announcedOk out.
Proof.
  destruct d as [[client port] request]. cbn [snd]. intros Hds Hd Hbytes (Hrules & Hpend & Ho).
  unfold readClientDatagram.
  destruct (queryHost request) as [host|] eqn:Hhost; [|done]. cbn [defined mbind result_bind].
  destruct (isEmpty host || _). { intros [= <- <-]. by split. }
  destruct (matchesRules (rules o) host) as [b|] eqn:Hb; [|done]. cbn [defined mbind result_bind].
  intros Hf. pose proof (forwardTo_rules _ _ _ _ _ _ Hf) as Hr.
  apply forwardTo_Ok in Hf as (Ho' & Hp & Hout); [|done|by apply messageId_range].
  split; [|by eapply Forall_impl; [done|intros []]].
  split_and!; [by rewrite Hr| |done]. intros id q' [Hq'| ->]%Hp; [by apply (Hpend id)|].
  cbn. intros ->. split; [by exists ds, client, port, request|].
  apply matchesRules_true in Hb as (rule & Hin & Hrule). exists rule. split; [|done].
  rewrite Forall_forall in Hrules. by apply Hrules.
Qed.

Lemma readUpstreamDatagram_announced ds d o o' out :
  UpstreamReady ds ∈ es → d ∈ ds → Forall isByte d → matchedOk o →
  readUpstreamDatagram o d = Ok (o', out) → matchedOk o' ∧ Forall announcedOk out.
Proof.
  intros Hds Hd Hbytes (Hrules & Hpend & Ho) Hread.
  destruct (readUpstreamDatagram_pays (HNull, 0, 0) _ _ _ _ Ho Hbytes Hread) as [Ho' _].
  destruct (pendingQueries o !! messageId d) as [q|] eqn:Hq.
  - destruct (readUpstreamDatagram_spec o q d Hbytes Hq) as (answers & rest & Hans & Hok & Heq & Hrest).
    rewrite Heq in Hread. injection Hread as <- <-. split.
    + split_and!; [done| |done]. intros id q' [Hq' _]%Hrest. by apply (Hpend id).
    + apply Forall_app. split; [|by constructor].
      destruct (matched q) eqn:Hm; [|constructor]. cbn [andb].
      case_bool_decide as Hne; constructor; [|constructor].
      split_and!; [by apply (Hpend _ _ Hq)|done|]. by exists ds, d.
  - unfold readUpstreamDatagram in Hread. rewrite Hq in Hread. injection Hread as <- <-. by split.
Qed.

Lemma step_announced o e o' out :
  e ∈ es → eventOk e → matchedOk o → step o e = Ok (o', out) → matchedOk o' ∧ Forall announcedOk out.
Proof.
  intros He Hok Ho. pose proof Ho as (Hrules & Hpend & Hobs).
  destruct e as [texts|bu bc up mup| |ds|ds]; cbn [step].
  - unfold setRules. destruct (activeRules texts) as [rs|] eqn:Hrs; [|done].
    cbn [defined mbind result_bind]. intros [= <- <-]. split; [|constructor].
    split_and!; [|done|done]. apply Forall_forall. intros rule Hin.
    destruct (activeRules_configured _ _ Hrs rule Hin) as (text & ? & ?). by exists texts, text.
  - intros Hstep. destruct (step_pays (HNull, 0, 0) _ _ _ _ Hobs Hok Hstep) as [Hobs' _].
    injection Hstep as <- <-. split; [|constructor]. revert Hobs'.
    unfold start. intros Hobs'. repeat case_match; (split_and!; [done|apply map_Forall_empty|done]).
  - intros [= <- <-]. split; [|constructor]. split_and!; [done|apply map_Forall_empty|].
    by destruct Hobs.
  - destruct (clientBound o); [|intros [= <- <-]; by split].
    apply (readAll_inv matchedOk announcedOk); [|done]. intros o1 d o2 out' Hd Ho1.
    apply (readClientDatagram_announced ds); [done|done| |done].
    cbn [eventOk] in Hok. rewrite Forall_forall in Hok. by apply Hok.
  - destruct (upstreamBound o); [|intros [= <- <-]; by split].
    apply (readAll_inv matchedOk announcedOk); [|done]. intros o1 d o2 out' Hd Ho1.
    apply (readUpstreamDatagram_announced ds); [done|done| |done].
    cbn [eventOk] in Hok. rewrite Forall_forall in Hok. by apply Hok.
Qed.

End announced.

(** ** Properties *)

(** C21: a query is answered: while an identifier is free for each upstream server,
    a query for a host is sent to every server (to the ones for matched hosts when
    a rule matches and there are such) unchanged but for a fresh identifier, and
    whichever server responds first, the client gets that response under its own
    identifier, the addresses of a matched host are announced, the other copies are
    forgotten and the queries of others stay in flight. *)
Theorem query_answered o client port request host isMatched :
  let servers := serversFor isMatched o in
  observerOk o → Forall isByte request → queryHost request = Some host → host ≠ "" →
  matchesRules (rules o) host = Some isMatched → upstreamServers o ≠ [] →
  (size (pendingQueries o) + length servers ≤ idFuel)%nat →
  ∃ o1 ids,
    readClientDatagram o (client, port, request) =
      Ok (o1, zip_with (λ id server, Forwarded (setMessageId request id) server) ids servers) ∧
    observerOk o1 ∧ length ids = length servers ∧ NoDup ids ∧
    Forall (λ id, isId id ∧ pendingQueries o !! id = None) ids ∧
    ∀ response, Forall isByte response → messageId response ∈ ids →
      ∃ answers rest,
        responseIpv4Answers response = Some answers ∧
        readUpstreamDatagram o1 response =
          Ok (withQueries rest (lastQueryId o1) o1,
              (if isMatched && negb (bool_decide (answers = [])) then [Resolved host answers] else []) ++
              [Answered (setMessageId response (messageId request)) client port]) ∧
        (∀ id, id ∈ ids → rest !! id = None) ∧
        ∀ id q, pendingQueries o !! id = Some q →
          keyOf q ≠ ((client, port, messageId request), setMessageId request 0) →
          rest !! id = Some q.
Proof.
  intros servers Ho Hbytes Hhost Hne Hmatch Hup Hsize.
  rewrite (readClientDatagram_forward _ _ _ _ host isMatched) by done. set (q := Pending _ _ _ _ _ _).
  destruct (forwardTo_spec servers request q o)
    as (ids & p & last & Hf & Hlen & Hnd & Hids & Hp & _ & Hok); [done|by apply messageId_range|done|].
  exists (withQueries p last o), ids. split_and!; [done..|].
  intros response Hresp Hid.
  destruct (readUpstreamDatagram_spec (withQueries p last o) q response)
    as (answers & rest & Hans & _ & Heq & Hrest); [done|cbn; by rewrite Hp, bool_decide_true|].
  exists answers, rest. split_and!; [done|done| |].
  - intros id Hin. destruct (rest !! id) as [q'|] eqn:Hq'; [|done].
    apply Hrest in Hq' as [Hq' Hk]. cbn in Hq'. rewrite Hp, bool_decide_true in Hq' by done. congruence.
  - intros id q' Hq' Hk. apply Hrest. split; [|done]. cbn. rewrite Hp, bool_decide_false; [done|].
    intros Hin. rewrite Forall_forall in Hids. apply Hids in Hin as [_ Hn]. congruence.
Qed.

(** C24: in every run, a client gets at most as many answers under an identifier as
    it has sent queries with it, however many servers respond and however often. *)
Theorem answers_bounded es o outs t :
  Forall eventOk es → run newObserver es = Ok (o, outs) →
  (answersTo t outs ≤ queriesOf t es)%nat.
Proof.
  intros Hes Hrun.
  apply (readAll_pays t _ _ _ (step_pays t)) in Hrun as [_ Hc]; [|apply observerOk_new|done].
  change (size (openFor t newObserver)) with 0%nat in Hc. unfold queriesOf. lia.
Qed.

(** C25: in every run, the hosts that are announced are hosts that a client asked
    for and that a configured, valid host rule matches, and their addresses are
    the distinct IPv4 addresses of a response. *)
Theorem resolved_by_rule es o outs host answers :
  Forall eventOk es → run newObserver es = Ok (o, outs) → Resolved host answers ∈ outs →
  asked es host ∧ answers ≠ [] ∧
  ∃ ds response, UpstreamReady ds ∈ es ∧ response ∈ ds ∧
    responseIpv4Answers response = Some answers ∧ answersOk answers.
Proof.
  intros Hes Hrun Hin.
  apply (readAll_inv (matchedOk es) (announcedOk es)) in Hrun as [_ Hout].
  - rewrite Forall_forall in Hout. by apply Hout in Hin.
  - intros o1 e o2 out He. apply step_announced; [done|]. rewrite Forall_forall in Hes. by apply Hes.
  - split_and!; [constructor|apply map_Forall_empty|apply observerOk_new].
Qed.

(** The search for an identifier ends within 65535 rounds with one that is in
    range and free, or every identifier is in flight and it never ends. *)
Lemma nextQueryId_ends o :
  observerOk o →
  match nextQueryId o with
  | Some id => isId id ∧ pendingQueries o !! id = None
  | None => (∀ id, isId id → is_Some (pendingQueries o !! id)) ∧
            ∀ fuel, nextQueryIdLoop fuel (pendingQueries o) (lastQueryId o) = None
  end.
Proof.
  intros [Hlast _]. unfold nextQueryId. destruct (nextQueryIdLoop _ _ _) as [id|] eqn:Hloop.
  { by apply nextQueryIdLoop_Some in Hloop. }
  assert (Hall : ∀ id, isId id → is_Some (pendingQueries o !! id)).
  { intros id Hid. destruct (idAfter_all _ id Hlast Hid) as (k & Hk & <-).
    rewrite nextQueryIdLoop_None in Hloop by done. by apply Hloop. }
  split; [done|]. intros fuel. apply nextQueryIdLoop_None; [done|]. intros k _. apply Hall.
  unfold isId, idAfter. pose proof (Z.mod_pos_bound (lastQueryId o + Z.of_nat k) 65535). lia.
Qed.

(** ** Where the proxy stops answering *)

(** Queries that no server answers are never dropped: each one of a host without a
    rule keeps as many identifiers as there are servers. *)
Lemma queries_pile_up n o client port request host :
  observerOk o → Forall isByte request → queryHost request = Some host → host ≠ "" →
  matchesRules (rules o) host = Some false → length (upstreamServers o) = 1%nat →
  (size (pendingQueries o) + n ≤ idFuel)%nat →
  ∃ pending last outs,
    readClientDatagrams o (replicate n (client, port, request)) = Ok (withQueries pending last o, outs) ∧
    size pending = (size (pendingQueries o) + n)%nat ∧ observerOk (withQueries pending last o).
Proof.
  intros Ho Hbytes Hhost Hne Hmatch Hup. revert o Ho Hmatch Hup.
  induction n as [|n IH]; intros o Ho Hmatch Hup Hsize.
  { exists (pendingQueries o), (lastQueryId o), []. rewrite Nat.add_0_r. by destruct o. }
  unfold readClientDatagrams. cbn [replicate readAll].
  rewrite (readClientDatagram_forward _ _ _ _ host false); [|done..|by intros Hnil; rewrite Hnil in Hup].
  change (serversFor false o) with (upstreamServers o). set (q := Pending _ _ _ _ _ _).
  destruct (forwardTo_spec (upstreamServers o) request q o)
    as (ids & p & last & -> & _ & _ & _ & _ & Hp & Hok); [done|by apply messageId_range|lia|].
  destruct (IH (withQueries p last o)) as (p' & last' & outs & Hrest & Hp' & Hok');
    [done..|cbn; lia|]. cbn in Hp'.
  unfold readClientDatagrams in Hrest. cbn [mbind result_bind]. rewrite Hrest.
  eexists p', last', _. split_and!; [reflexivity|lia|done].
Qed.

(** Once every identifier is in flight, the next query is the last one. *)
Lemma exhausted_hangs o client port request host :
  observerOk o → queryHost request = Some host → host ≠ "" →
  matchesRules (rules o) host = Some false → upstreamServers o ≠ [] →
  size (pendingQueries o) = idFuel →
  readClientDatagram o (client, port, request) = Hangs.
Proof.
  intros [Hlast Hpend] Hhost Hne Hmatch Hup Hsize.
  rewrite (readClientDatagram_forward _ _ _ _ host false) by done.
  change (serversFor false o) with (upstreamServers o).
  destruct (upstreamServers o) as [|u us]; [done|]. cbn [forwardTo].
  destruct (nextQueryId o) as [id|] eqn:Hid; [|done]. exfalso.
  apply nextQueryIdLoop_Some in Hid as [Hid Hfree]; [|done].
  assert (Hsub : dom (<[id := Pending HNull 0 0 "" [] false]> (pendingQueries o)) ⊆
                 (list_to_set (seqZ 1 65535) : gset Z)).
  { intros i [q Hq]%elem_of_dom. apply elem_of_list_to_set, elem_of_seqZ.
    apply lookup_insert_Some in Hq as [[<- _]|[_ [Hi _]%Hpend]]; unfold isId in *; lia. }
  apply subseteq_size in Hsub. rewrite size_list_to_set in Hsub by apply NoDup_seqZ.
  rewrite length_seqZ, size_dom, map_size_insert_None, Hsize in Hsub by done.
  unfold idFuel in Hsub. lia.
Qed.

(** ** Examples *)

Definition sampleQuery : QByteArray := encodeMessage [18; 52; 1; 0] ["www"; "Example"; "com"] [0; 1; 0; 1] [].
Definition otherQuery : QByteArray := encodeMessage [0; 7; 1; 0] ["qt"; "io"] [0; 1; 0; 1] [].
Definition sampleClient : hostAddress := HIPv4 (ofOctets 127 0 0 1).

Definition sampleServers : list hostAddress := [HIPv4 (ofOctets 9 9 9 9); HIPv4 (ofOctets 8 8 8 8)].
Definition sampleMatched : list hostAddress := [HIPv4 (ofOctets 10 0 0 1); HIPv4 (ofOctets 10 0 0 2)].

(** A response under the given identifier. *)
Definition answerUnder (id : Z) (labels : list string) : QByteArray :=
  setMessageId (encodeMessage [0; 0; 129; 128] labels [0; 1; 0; 1] [Wire 93 184 216 34 300]) id.

Definition sampleObserver : observer :=
  Observer true true sampleServers sampleMatched
    [Rule WildcardHost "*.example.com" "*.example.com"] ∅ 1.

(** Both servers of a matched query respond; the first response is sent on. *)
Definition sampleRun : list event :=
  [SetRules ["*.example.com"; "10.0.0.0/8"];
   Start true true sampleServers sampleMatched;
   ClientReady [(sampleClient, 5353, sampleQuery); (sampleClient, 5353, otherQuery)];
   UpstreamReady [answerUnder 3 sampleLabels; answerUnder 2 sampleLabels; answerUnder 9 sampleLabels];
   Stop].

Definition sampleOutputs : list emission :=
  [Forwarded (setMessageId sampleQuery 2) (HIPv4 (ofOctets 10 0 0 1));
   Forwarded (setMessageId sampleQuery 3) (HIPv4 (ofOctets 10 0 0 2));
   Forwarded (setMessageId otherQuery 4) (HIPv4 (ofOctets 9 9 9 9));
   Forwarded (setMessageId otherQuery 5) (HIPv4 (ofOctets 8 8 8 8));
   Resolved "www.example.com" [Answer "93.184.216.34" 300];
   Answered (answerUnder 0x1234 sampleLabels) sampleClient 5353].

Lemma sampleRun_outputs : ∃ o, run newObserver sampleRun = Ok (o, sampleOutputs).
Proof. eexists. vm_compute. reflexivity. Qed.

(** A name that is a single slash or a single space is a valid DNS name; matching
    it takes the first element of an empty list. *)
Example slash_query_undefined :
  readClientDatagram sampleObserver
    (sampleClient, 5353, encodeMessage [18; 52; 1; 0] ["/"] [0; 1; 0; 1] []) = Undefined ∧
  readClientDatagram sampleObserver
    (sampleClient, 5353, encodeMessage [18; 52; 1; 0] [" "] [0; 1; 0; 1] []) = Undefined.
Proof. split; vm_compute; reflexivity. Qed.

(** The question of a response is not compared with the query: the addresses of any
    response under an identifier in flight are announced for the host in flight. *)
Example question_not_compared :
  ∃ o, run newObserver
    [SetRules ["*.example.com"]; Start true true sampleServers [];
     ClientReady [(sampleClient, 5353, sampleQuery)];
     UpstreamReady [answerUnder 2 ["attacker"; "test"]]] =
  Ok (o, [Forwarded (setMessageId sampleQuery 2) (HIPv4 (ofOctets 9 9 9 9));
          Forwarded (setMessageId sampleQuery 3) (HIPv4 (ofOctets 8 8 8 8));
          Resolved "www.example.com" [Answer "93.184.216.34" 300];
          Answered (answerUnder 0x1234 ["attacker"; "test"]) sampleClient 5353]).
Proof. eexists. vm_compute. reflexivity. Qed.

(** 65535 unanswered queries, and the handler does not return from the next one. *)
Example unanswered_queries_hang :
  ∃ o outs,
    readClientDatagrams (Observer true true [HIPv4 (ofOctets 9 9 9 9)] []
        [Rule WildcardHost "*.example.com" "*.example.com"] ∅ 1)
      (replicate idFuel (sampleClient, 5353, otherQuery)) = Ok (o, outs) ∧
    readClientDatagram o (sampleClient, 5353, otherQuery) = Hangs.
Proof.
  destruct (queries_pile_up idFuel (Observer true true [HIPv4 (ofOctets 9 9 9 9)] []
        [Rule WildcardHost "*.example.com" "*.example.com"] ∅ 1) sampleClient 5353 otherQuery "qt.io")
    as (p & last & outs & Hrun & Hsize & Hok).
  - split; [done|]. apply map_Forall_empty.
  - decide_closed.
  - vm_compute. reflexivity.
  - done.
  - vm_compute. reflexivity.
  - reflexivity.
  - reflexivity.
  - eexists _, outs. split; [exact Hrun|].
    apply (exhausted_hangs _ _ _ _ "qt.io"); [done|vm_compute; reflexivity|done| |done|].
    + vm_compute. reflexivity.
    + exact Hsize.
Qed.

(** ** Witnesses *)

Lemma query_answered_witness :
  ∃ o1 ids,
    readClientDatagram sampleObserver (sampleClient, 5353, sampleQuery) =
      Ok (o1, zip_with (λ id server, Forwarded (setMessageId sampleQuery id) server) ids sampleMatched).
Proof.
  destruct (query_answered sampleObserver sampleClient 5353 sampleQuery "www.example.com" true)
    as (o1 & ids & Hread & _).
  - split; [done|]. apply map_Forall_empty.
  - decide_closed.
  - vm_compute. reflexivity.
  - discriminate.
  - vm_compute. reflexivity.
  - discriminate.
  - apply (bool_decide_unpack _). vm_compute. exact I.
  - exists o1, ids. exact Hread.
Defined.

Lemma sampleRun_ok : Forall eventOk sampleRun.
Proof. unfold sampleRun. repeat apply Forall_cons_2; try apply Forall_nil_2; cbn [eventOk]; try done; decide_closed. Qed.

Lemma answers_bounded_witness :
  (answersTo (sampleClient, 5353%Z, 0x1234%Z) sampleOutputs ≤ 1)%nat.
Proof.
  destruct sampleRun_outputs as [o Hrun].
  exact (answers_bounded sampleRun o sampleOutputs (sampleClient, 5353, 0x1234) sampleRun_ok Hrun).
Defined.

Lemma resolved_by_rule_witness : asked sampleRun "www.example.com".
Proof.
  destruct sampleRun_outputs as [o Hrun].
  refine (proj1 (resolved_by_rule sampleRun o sampleOutputs "www.example.com"
    [Answer "93.184.216.34" 300] sampleRun_ok Hrun _)).
  do 4 right. left.
Defined.

Lemma nextQueryId_ends_example :
  nextQueryId sampleObserver = Some 2 ∧ isId 2 ∧ pendingQueries sampleObserver !! 2 = None.
Proof.
  assert (H2 : nextQueryId sampleObserver = Some 2) by (vm_compute; reflexivity).
  split; [exact H2|]. assert (Hok : observerOk sampleObserver) by (split; [done|apply map_Forall_empty]).
  pose proof (nextQueryId_ends sampleObserver Hok) as Hends. rewrite H2 in Hends. exact Hends.
Defined.
