(* ===== verification/DnsResolvers.v ===== *)
(** * The resolvers of macOS ([platforms/macos/daemon/dnsutilsmacos.cpp])

    While the tunnel is up the daemon replaces the DNS configuration of every network
    service in the system's dynamic store, and puts the old one back afterwards.  The
    store is a map from keys to property lists; how it answers during one operation
    (whether keys are listed, which writes it accepts) and whether the proxy of
    [DnsObserver] can bind its sockets are arguments of the operation.

    [resolvers_restored] compares the machine with one on which the daemon never ran,
    through any sequence of operations and of changes made by others, and
    [resolvers_taken_over] says where queries go while the tunnel is up.  The last
    section has the configurations that are not put back. *)

From Stdlib Require Import Ascii.
From S2P Require Import Prelude QtCore Regex NetworkUtilities DnsObserver.
From stdpp Require Import options.

#[local] Open Scope Z_scope.
#[local] Set Default Proof Using "Type*".

(** ** Property lists *)

(** An item of an array that is not a string is [None]. *)
Inductive cfValue :=
  | CFString (s : string)
  | CFArray (items : list (option string))
  | CFOther.

#[export] Instance cfValue_eq_dec : EqDecision cfValue.
Proof. solve_decision. Defined.

Notation cfDictionary := (gmap string cfValue).

(** A value of the store, a dictionary or of another type. *)
Inductive storeValue :=
  | SDictionary (d : cfDictionary)
  | SOther.

#[export] Instance storeValue_eq_dec : EqDecision storeValue.
Proof. solve_decision. Defined.

Notation dynamicStore := (gmap string storeValue).

Definition kSCPropNetDNSServerAddresses := "ServerAddresses".
Definition kSCPropNetDNSDomainName := "DomainName".
Definition kSCPropNetDNSSearchDomains := "SearchDomains".
Definition kSCPropNetDNSSortList := "SortList".

(** What is not a string is read as the null string, as the empty string is. *)
Definition cfParseString (ref : option cfValue) : string :=
  match ref with Some (CFString s) => s | _ => "" end.

Definition cfParseStringList (ref : option cfValue) : list string :=
  match ref with Some (CFArray items) => default "" <$> items | _ => [] end.

(** [CFStringCreateWithCString] reads up to the first zero. *)
Fixpoint cString (s : string) : string :=
  match s with
  | EmptyString => EmptyString
  | String c s => if eqChar c Ascii.zero then EmptyString else String c (cString s)
  end.

Definition cfDictSetString (name value : string) (d : cfDictionary) : cfDictionary :=
  if isEmpty value then d else <[name := CFString (cString value)]> d.

Definition cfDictSetStringList (name : string) (values : list string) (d : cfDictionary) : cfDictionary :=
  if bool_decide (values = []) then d
  else <[name := CFArray (Some ∘ cString <$> values)]> d.

(** ** The object *)

Record DnsBackup := Backup {
  m_domain : string;
  m_search : list string;
  m_servers : list string;
  m_sortlist : list string;
}.

Definition isValid (b : DnsBackup) : bool :=
  negb (isEmpty (m_domain b)) || negb (bool_decide (m_search b = [])) ||
  negb (bool_decide (m_servers b = [])) || negb (bool_decide (m_sortlist b = [])).

Record machine := Machine {
  m_prevServices : gmap string DnsBackup;
  m_currentResolvers : list hostAddress;
  m_splitRouteObserver : observer;
  store : dynamicStore;
}.

Definition withStore (s : dynamicStore) (m : machine) : machine :=
  Machine (m_prevServices m) (m_currentResolvers m) (m_splitRouteObserver m) s.

(** How the system answers during one operation. *)
Record answers := Answers {
  lists : bool;
  accepts : string → bool;
  bindUpstream : bool;
  bindClient : bool;
}.

Definition setValue (a : answers) (path : string) (v : option storeValue) (s : dynamicStore) : dynamicStore :=
  if accepts a path then partial_alter (λ _, v) path s else s.

(** ** Keys *)

Definition isUuidChar (c : ascii) : bool := isDigit c || inRange 65 70 c || eqChar c "-"%char.

Definition serviceKey : regex := Cat (word "Setup:/Network/Service/") (atLeast 1 (Chr isUuidChar)).

Definition dnsKey : regex :=
  Cat (Alt (word "Setup") (word "State"))
      (Cat (word ":/Network/Service/") (Cat (atLeast 1 (Chr isUuidChar)) (word "/DNS"))).

(** [SCDynamicStoreCopyKeyList]: the keys that a pattern matches as a whole. *)
Definition keyList (pattern : regex) (s : dynamicStore) : list string :=
  filter (λ k, exactMatch pattern k = true) (map_to_list s).*1.

(** [section('/', 3, 3)]. *)
Definition uuidOf (service : string) : string := default "" (splitChar "/"%char service !! 3%nat).

Definition dnsPath (uuid : string) : string := "Setup:/Network/Service/" +:+ uuid +:+ "/DNS".

(** ** Operations *)

(** [SERVICE_NAME] is chosen when the project is built. *)
Class ServiceName := SERVICE_NAME : string.

Section operations.
Context `{ServiceName, HostAddressText}.

Definition localResolverDomain : string :=
  if bool_decide (SERVICE_NAME = "AmneziaVPN-service") then "lan" else "alzheimervpn.lan".

Definition isAmneziaLocalResolverConfig (ref : option storeValue) : bool :=
  match ref with
  | Some (SDictionary config) =>
      bool_decide (cfParseStringList (config !! kSCPropNetDNSServerAddresses) = ["127.0.0.1"]) &&
      bool_decide (cfParseString (config !! kSCPropNetDNSDomainName) = localResolverDomain)
  | _ => false
  end.

Definition removeStale (a : answers) (s : dynamicStore) (path : string) : dynamicStore :=
  if isAmneziaLocalResolverConfig (s !! path) then setValue a path None s else s.

Definition removeStaleLocalResolverOverrides (a : answers) (s : dynamicStore) : dynamicStore :=
  if lists a then foldl (removeStale a) s (keyList dnsKey s) else s.

(** The constructor; [created] is whether there is a session with the store. *)
Definition newDnsUtils (created : bool) (a : answers) (s : dynamicStore) : machine :=
  Machine ∅ [] newObserver (if created then removeStaleLocalResolverOverrides a s else s).

Definition backedUpResolvers (m : machine) : list hostAddress :=
  foldl (λ result server,
    let address := parseHost server in
    if isIPv4 address && negb (bool_decide (address = LocalHost)) && negb (bool_decide (address ∈ result))
    then result ++ [address] else result)
  [] (concat (m_servers <$> (qitems (m_prevServices m)).*2)).

Definition backupOf (config : option cfDictionary) : DnsBackup :=
  match config with
  | Some d =>
      Backup (cfParseString (d !! kSCPropNetDNSDomainName))
             (cfParseStringList (d !! kSCPropNetDNSSearchDomains))
             (cfParseStringList (d !! kSCPropNetDNSServerAddresses))
             (cfParseStringList (d !! kSCPropNetDNSSortList))
  | None => Backup "" [] [] []
  end.

(** A value that is not a dictionary is cast to one all the same. *)
Definition backupService (uuid : string) (m : machine) : result machine :=
  if bool_decide (is_Some (m_prevServices m !! uuid)) then Ok m
  else
    config ← match store m !! dnsPath uuid with
             | Some (SDictionary d) => Ok (Some d)
             | Some SOther => Undefined
             | None => Ok None
             end;
    Ok (Machine (<[uuid := backupOf config]> (m_prevServices m)) (m_currentResolvers m)
          (m_splitRouteObserver m) (store m)).

Definition dnsConfig (resolverList : list string) : cfDictionary :=
  cfDictSetString kSCPropNetDNSDomainName localResolverDomain
    (cfDictSetStringList kSCPropNetDNSServerAddresses resolverList ∅).

(** One round of the loop over the network services. *)
Definition takeOver (a : answers) (config : cfDictionary) (m : machine) (service : string) : result machine :=
  let uuid := uuidOf service in
  if isEmpty uuid then Ok m
  else
    m ← backupService uuid m;
    Ok (withStore (setValue a (dnsPath uuid) (Some (SDictionary config)) (store m)) m).

Fixpoint takeOverAll (a : answers) (config : cfDictionary) (m : machine) (services : list string) : result machine :=
  match services with
  | [] => Ok m
  | service :: services => m ← takeOver a config m service; takeOverAll a config m services
  end.

(** The proxy is started, and the servers that the system is to use follow. *)
Definition chooseResolvers (a : answers) (resolvers : list hostAddress) (m : machine) : list string * machine :=
  let '(started, o) := start (bindUpstream a) (bindClient a) resolvers (backedUpResolvers m) (m_splitRouteObserver m) in
  let '(resolverList, o) := if started then (["127.0.0.1"], o) else (printHost <$> resolvers, stop o) in
  (resolverList, Machine (m_prevServices m) resolvers o (store m)).

Definition updateResolvers (a : answers) (resolvers : list hostAddress) (m : machine) : result (bool * machine) :=
  let '(resolverList, m) := chooseResolvers a resolvers m in
  if negb (lists a) then Ok (false, m)
  else
    m ← takeOverAll a (dnsConfig resolverList) m (keyList serviceKey (store m));
    Ok (true, m).

(** What the loop of [restoreResolvers] writes for one service. *)
Definition restored (b : DnsBackup) : option storeValue :=
  if isValid b then
    Some (SDictionary
      (cfDictSetStringList kSCPropNetDNSSortList (m_sortlist b)
        (cfDictSetStringList kSCPropNetDNSServerAddresses (m_servers b)
          (cfDictSetStringList kSCPropNetDNSSearchDomains (m_search b)
            (cfDictSetString kSCPropNetDNSDomainName (m_domain b) ∅)))))
  else None.

Definition restoreService (a : answers) (s : dynamicStore) (service : string * DnsBackup) : dynamicStore :=
  setValue a (dnsPath service.1) (restored service.2) s.

Definition restoreResolvers (a : answers) (m : machine) : machine :=
  Machine ∅ [] (stop (m_splitRouteObserver m))
    (removeStaleLocalResolverOverrides a (foldl (restoreService a) (store m) (qitems (m_prevServices m)))).

Definition configureSplitTunnelRules (a : answers) (texts : list string) (m : machine) : result machine :=
  o ← setRules texts (m_splitRouteObserver m);
  let m := Machine (m_prevServices m) (m_currentResolvers m) o (store m) in
  if bool_decide (m_currentResolvers m = []) then Ok m
  else '(_, m) ← updateResolvers a (m_currentResolvers m) m; Ok m.
End operations.

(** ** Writes to the store *)

Definition accepting (a : answers) : Prop := lists a = true ∧ ∀ path, accepts a path = true.

Lemma setValue_lookup a path v s : accepts a path = true → setValue a path v s !! path = v.
Proof. intros Ha. unfold setValue. rewrite Ha. apply lookup_partial_alter_eq. Qed.

Lemma setValue_lookup_ne a path v s p : p ≠ path → setValue a path v s !! p = s !! p.
Proof. intros Hp. unfold setValue. destruct (accepts a path); [|done]. by apply lookup_partial_alter_ne. Qed.

Lemma elem_of_keyList pattern s k : k ∈ keyList pattern s ↔ exactMatch pattern k = true ∧ is_Some (s !! k).
Proof.
  unfold keyList. rewrite list_elem_of_filter, list_elem_of_fmap. f_equiv. split.
  - intros ([k' v] & -> & Hin%elem_of_map_to_list). eauto.
  - intros [v Hv]. exists (k, v). by rewrite elem_of_map_to_list.
Qed.

Lemma length_append s t : String.length (s +:+ t) = (String.length s + String.length t)%nat.
Proof. induction s as [|c s IH]; [done|]. exact (f_equal S IH). Qed.

#[local] Instance append_inj_r s : Inj (=) (=) (λ t, t +:+ s).
Proof.
  intros t1 t2. revert t2. induction t1 as [|c t1 IH]; intros [|c2 t2] Heq; [done| | |].
  - apply (f_equal String.length) in Heq. rewrite !length_append in Heq. cbn in Heq. lia.
  - apply (f_equal String.length) in Heq. rewrite !length_append in Heq. cbn in Heq. lia.
  - injection Heq as -> Heq. f_equal. by apply IH.
Qed.

#[local] Instance dnsPath_inj : Inj (=) (=) dnsPath.
Proof. intros u1 u2 Heq. injection Heq as Heq. by apply (inj (λ t, t +:+ "/DNS")) in Heq. Qed.

Section restoring.
Context `{ServiceName, HostAddressText}.

(** ** Sweeping the local overrides *)

Lemma removeStale_fold a keys s p :
  accepting a → 
  foldl (removeStale a) s keys !! p =
    if decide (p ∈ keys) then (if isAmneziaLocalResolverConfig (s !! p) then None else s !! p) else s !! p.
Proof.
  intros [_ Ha]. revert s. induction keys as [|k keys IH]; intros s; [done|]. cbn [foldl]. rewrite IH.
  unfold removeStale. destruct (decide (p = k)) as [->|Hne].
  - rewrite (decide_True (P := k ∈ k :: keys)) by set_solver.
    destruct (isAmneziaLocalResolverConfig (s !! k)) eqn:E.
    + rewrite setValue_lookup by done. cbn. by destruct (decide _).
    + rewrite E. by destruct (decide _).
  - rewrite (decide_ext (p ∈ k :: keys) (p ∈ keys)) by set_solver.
    destruct (isAmneziaLocalResolverConfig (s !! k)); [|done]. by rewrite setValue_lookup_ne.
Qed.

(** A sweep that the store accepts removes the local overrides and nothing else. *)
Lemma removeStale_lookup a s p :
  accepting a →
  removeStaleLocalResolverOverrides a s !! p =
    if exactMatch dnsKey p && isAmneziaLocalResolverConfig (s !! p) then None else s !! p.
Proof.
  intros Ha. unfold removeStaleLocalResolverOverrides. rewrite (proj1 Ha), removeStale_fold by done.
  destruct (decide _) as [[-> _]%elem_of_keyList|Hout]; [done|].
  destruct (exactMatch dnsKey p) eqn:Ek; [|done]. destruct (s !! p) eqn:Es; [|done].
  destruct Hout. apply elem_of_keyList. by rewrite Es.
Qed.

(** ** What is put back *)

Definition listKeys : list string :=
  [kSCPropNetDNSServerAddresses; kSCPropNetDNSSearchDomains; kSCPropNetDNSSortList].

(** A text without a zero. *)
Definition plain (s : string) : bool := bool_decide (cString s = s).

Definition plainItem (item : option string) : bool :=
  match item with Some s => plain s | None => false end.

(** An entry that the backup keeps: a domain, or a list under one of three keys. *)
Definition keptEntry (k : string) (v : cfValue) : bool :=
  match v with
  | CFString s => bool_decide (k = kSCPropNetDNSDomainName) && negb (isEmpty s) && plain s
  | CFArray items => bool_decide (k ∈ listKeys) && negb (bool_decide (items = [])) && forallb plainItem items
  | CFOther => false
  end.

(** A DNS configuration of a machine that consists of such entries and is not an
    override of the daemon, or none. *)
Definition ordinary (v : option storeValue) : Prop :=
  match v with
  | Some (SDictionary d) => d ≠ ∅ ∧ map_Forall (λ k v, keptEntry k v = true) d
  | Some SOther => False
  | None => True
  end ∧ isAmneziaLocalResolverConfig v = false.

Lemma plain_items items :
  forallb plainItem items = true → CFArray (Some ∘ cString <$> (default "" <$> items)) = CFArray items.
Proof.
  intros Hp. f_equal. induction items as [|[s|] items IH]; [done| |done]. cbn in *.
  apply andb_true_iff in Hp as [Hs%bool_decide_eq_true Hp]. rewrite Hs. f_equal. by apply IH.
Qed.

Lemma setString_lookup (d e : cfDictionary) k :
  map_Forall (λ k v, keptEntry k v = true) d →
  cfDictSetString kSCPropNetDNSDomainName (cfParseString (d !! kSCPropNetDNSDomainName)) e !! k =
    if decide (k = kSCPropNetDNSDomainName) then d !! k ∪ e !! k else e !! k.
Proof.
  intros Hd. unfold cfDictSetString. destruct (decide (k = _)) as [->|Hne].
  - destruct (d !! kSCPropNetDNSDomainName) as [v|] eqn:E; [|by rewrite (left_id_L None (∪))].
    specialize (Hd _ _ E). rewrite union_Some_l. destruct v as [s|items|]; cbn in Hd; [|discriminate|discriminate].
    apply andb_true_iff in Hd as [Hs Hp%bool_decide_eq_true]. apply andb_true_iff in Hs as [_ Hs].
    cbn [cfParseString]. apply negb_true_iff in Hs. rewrite Hs, Hp. apply lookup_insert_eq.
  - destruct (isEmpty _); [done|]. by apply lookup_insert_ne.
Qed.

Lemma setList_lookup (d e : cfDictionary) name k :
  map_Forall (λ k v, keptEntry k v = true) d → name ∈ listKeys →
  cfDictSetStringList name (cfParseStringList (d !! name)) e !! k =
    if decide (k = name) then d !! k ∪ e !! k else e !! k.
Proof.
  intros Hd Hname. unfold cfDictSetStringList. destruct (decide (k = name)) as [->|Hne].
  - destruct (d !! name) as [v|] eqn:E; [|by rewrite (left_id_L None (∪))].
    specialize (Hd _ _ E). rewrite union_Some_l. destruct v as [s|items|]; cbn in Hd; [|..|discriminate].
    + apply andb_true_iff in Hd as [Hs _]. apply andb_true_iff in Hs as [->%bool_decide_eq_true _].
      exfalso. revert Hname. decide_closed.
    + apply andb_true_iff in Hd as [Hs Hp]. apply andb_true_iff in Hs as [_ Hs].
      apply negb_true_iff, bool_decide_eq_false in Hs. cbn [cfParseStringList].
      rewrite bool_decide_false by (by intros ?%fmap_nil_inv). rewrite plain_items by done. apply lookup_insert_eq.
  - destruct (bool_decide _); [done|]. by apply lookup_insert_ne.
Qed.

Lemma kept_key (d : cfDictionary) k v :
  map_Forall (λ k v, keptEntry k v = true) d → d !! k = Some v → k = kSCPropNetDNSDomainName ∨ k ∈ listKeys.
Proof. 
  intros Hd Hk. specialize (Hd _ _ Hk). destruct v; cbn in Hd; [| |discriminate];
    apply andb_true_iff in Hd as [Hd _]; apply andb_true_iff in Hd as [Hd%bool_decide_eq_true _]; auto.
Qed.

Lemma isValid_kept (d : cfDictionary) : d ≠ ∅ → map_Forall (λ k v, keptEntry k v = true) d → isValid (backupOf (Some d)) = true.
Proof.
  intros (k & v & Hk)%map_choose Hd. pose proof (kept_key d k v Hd Hk) as Hkey. specialize (Hd _ _ Hk).
  unfold isValid, backupOf. cbn [m_domain m_search m_servers m_sortlist].
  destruct v as [s|items|]; cbn in Hd; [| |discriminate]; apply andb_true_iff in Hd as [Hd _];
    apply andb_true_iff in Hd as [Hin%bool_decide_eq_true Hs].
  - subst k. rewrite Hk. cbn [cfParseString]. by rewrite Hs.
  - assert (bool_decide (cfParseStringList (d !! k) = []) = false) as Hl.
    { rewrite Hk. apply bool_decide_eq_false. intros ?%fmap_nil_inv. by subst. }
    revert Hl. unfold listKeys in Hin. rewrite !elem_of_cons in Hin.
    destruct Hin as [->|[->|[->|[]%not_elem_of_nil]]]; intros ->; cbn; by rewrite ?orb_true_r.
Qed.

(** Backing up an ordinary configuration and writing it back changes nothing. *)
Lemma restored_backup v :
  ordinary v →
  restored (backupOf match v with Some (SDictionary d) => Some d | _ => None end) = v.
Proof.
  intros [Hv _]. destruct v as [[d|]|]; [|done|done]. destruct Hv as [Hne Hd]. unfold restored.
  rewrite isValid_kept by done. cbn [backupOf m_domain m_search m_servers m_sortlist]. do 2 f_equal.
  apply map_eq. intros k. rewrite !setList_lookup, setString_lookup by (done || decide_closed).
  rewrite lookup_empty, !(right_id_L None (∪)).
  destruct (d !! k) as [v|] eqn:E; [|by repeat destruct (decide _)].
  apply (kept_key d k v Hd) in E. unfold listKeys in E. rewrite !elem_of_cons in E.
  destruct E as [->|[->|[->|[->|[]%not_elem_of_nil]]]]; vm_compute; done.
Qed.

(** ** Beside a machine on which the daemon never ran *)

Definition takenOver (m : machine) (path : string) : Prop :=
  ∃ uuid, path = dnsPath uuid ∧ is_Some (m_prevServices m !! uuid).

(** A key that holds, or may come to hold, the DNS configuration of a service. *)
Definition dnsEntry (path : string) : Prop := exactMatch dnsKey path = true ∨ ∃ uuid, path = dnsPath uuid.

(** [m] is the machine and [g] the store of the machine without the daemon.  The
    system may list no keys, reject writes and refuse the sockets, except that a
    restoration is carried out.  Others write ordinary configurations, and leave
    alone the services that the daemon has taken over. *)
Inductive dnsStep : machine * dynamicStore → machine * dynamicStore → Prop :=
  | did_update a resolvers m m' b g :
      updateResolvers a resolvers m = Ok (b, m') → dnsStep (m, g) (m', g)
  | did_configure a texts m m' g :
      configureSplitTunnelRules a texts m = Ok m' → dnsStep (m, g) (m', g)
  | did_restore a m g :
      accepting a → dnsStep (m, g) (restoreResolvers a m, g)
  | others_wrote path v m g :
      ¬ takenOver m path → (dnsEntry path → ordinary v) →
      dnsStep (m, g) (withStore (partial_alter (λ _, v) path (store m)) m, partial_alter (λ _, v) path g).

Definition besides (mg : machine * dynamicStore) : Prop :=
  let '(m, g) := mg in
  (∀ path, dnsEntry path → ordinary (g !! path)) ∧
  (∀ path, ¬ takenOver m path → store m !! path = g !! path) ∧
  (∀ uuid b, m_prevServices m !! uuid = Some b → restored b = g !! dnsPath uuid).

Lemma besides_state m m' g :
  m_prevServices m' = m_prevServices m → store m' = store m → besides (m, g) → besides (m', g).
Proof. unfold besides, takenOver. by intros -> ->. Qed.

Lemma besides_backup uuid m m' g :
  backupService uuid m = Ok m' → besides (m, g) →
  besides (m', g) ∧ is_Some (m_prevServices m' !! uuid) ∧ m_splitRouteObserver m' = m_splitRouteObserver m.
Proof.
  unfold backupService. case_bool_decide as Hin; [by intros [= <-]|]. intros Hm (Hord & Hout & Hb).
  assert (¬ takenOver m (dnsPath uuid)) as Hfree by (intros (u & ->%dnsPath_inj & Hu); done).
  pose proof (Hord (dnsPath uuid) ltac:(right; eauto)) as Hv. pose proof (restored_backup _ Hv) as Hr.
  rewrite <-(Hout _ Hfree) in Hr, Hv.
  assert (m' = Machine (<[uuid := backupOf match store m !! dnsPath uuid with
      | Some (SDictionary d) => Some d | _ => None end]> (m_prevServices m))
      (m_currentResolvers m) (m_splitRouteObserver m) (store m)) as ->.
  { destruct (store m !! dnsPath uuid) as [[d|]|]; [|by destruct Hv as [[] _]|]; by injection Hm as <-. }
  split_and!; [|cbn; rewrite lookup_insert_eq; eauto|done]. cbn. split; [done|]. split.
  - intros path Hp. apply Hout. intros (u & -> & Hu). apply Hp. exists u. split; [done|]. cbn.
    destruct (decide (u = uuid)) as [->|]; [rewrite lookup_insert_eq; eauto|by rewrite lookup_insert_ne].
  - intros u b. destruct (decide (u = uuid)) as [->|].
    + rewrite lookup_insert_eq. intros [= <-]. by rewrite Hr, Hout.
    + rewrite lookup_insert_ne by done. apply Hb.
Qed.

Lemma besides_write a uuid v m g :
  is_Some (m_prevServices m !! uuid) → besides (m, g) →
  besides (withStore (setValue a (dnsPath uuid) v (store m)) m, g).
Proof.
  intros Hu (Hord & Hout & Hb). split; [done|]. split; [|done]. intros path Hp. cbn [store withStore].
  rewrite setValue_lookup_ne; [by apply Hout|]. intros ->. apply Hp. by exists uuid.
Qed.

Lemma besides_takeOverAll a config services m m' g :
  takeOverAll a config m services = Ok m' → besides (m, g) → besides (m', g).
Proof.
  revert m. induction services as [|service services IH]; intros m; cbn [takeOverAll]; [by intros [= <-]|].
  unfold takeOver at 1. destruct (isEmpty _); [apply IH|].
  destruct (backupService _ m) as [m1| |] eqn:E; cbn; [|discriminate|discriminate]. intros Hm Hinv.
  destruct (besides_backup _ _ _ _ E Hinv) as (Hinv1 & Hu & _). eapply IH; [exact Hm|]. by apply besides_write.
Qed.

Lemma besides_update a resolvers m m' b g :
  updateResolvers a resolvers m = Ok (b, m') → besides (m, g) → besides (m', g).
Proof.
  unfold updateResolvers. destruct (chooseResolvers a resolvers m) as [l m1] eqn:E. intros Hm Hinv.
  assert (besides (m1, g)) as Hinv1.
  { eapply besides_state; [..|exact Hinv]; unfold chooseResolvers in E;
      destruct (start _ _ _ _ _) as [[] o]; by injection E as <- <-. }
  destruct (lists a); cbn [negb] in Hm; [|by injection Hm as <- <-].
  destruct (takeOverAll _ _ _ _) as [m2| |] eqn:Et; cbn in Hm; [|discriminate|discriminate].
  injection Hm as <- <-. by eapply besides_takeOverAll.
Qed.

Lemma restore_fold a items s p :
  accepting a → NoDup items.*1 →
  (∀ uuid b, (uuid, b) ∈ items → p = dnsPath uuid → foldl (restoreService a) s items !! p = restored b) ∧
  ((∀ uuid, uuid ∈ items.*1 → p ≠ dnsPath uuid) → foldl (restoreService a) s items !! p = s !! p).
Proof.
  intros [_ Ha]. revert s. induction items as [|[u b] items IH]; intros s Hnd; [by split; [intros ?? ?%not_elem_of_nil|]|].
  cbn [fmap list_fmap fst] in Hnd. apply NoDup_cons in Hnd as [Hu Hnd]. cbn [foldl].
  destruct (IH (restoreService a s (u, b)) Hnd) as [IHin IHout]. split.
  - intros uuid b' [[= -> ->]|Hin]%elem_of_cons ->; [|by eapply IHin].
    rewrite IHout; [|intros u' Hu' ->%dnsPath_inj; done]. by apply setValue_lookup.
  - intros Hp. cbn [fmap list_fmap fst] in Hp. rewrite IHout by set_solver.
    apply setValue_lookup_ne. apply Hp. set_solver.
Qed.

(** A restoration gives the store of the machine without the daemon. *)
Lemma restore_store a m g : accepting a → besides (m, g) → store (restoreResolvers a m) = g.
Proof.
  intros Ha (Hord & Hout & Hb). cbn.
  assert (foldl (restoreService a) (store m) (qitems (m_prevServices m)) = g) as ->.
  { apply map_eq. intros p. destruct (restore_fold a (qitems (m_prevServices m)) (store m) p Ha (NoDup_qkeys _)) as [Hin Hno].
    destruct (decide (Exists (λ kv, p = dnsPath kv.1) (qitems (m_prevServices m)))) as [Hu|Hfree].
    - apply list.Exists_exists in Hu as ([u b] & Hu & ->). rewrite (Hin u b Hu) by done. by apply Hb, elem_of_qitems.
    - rewrite Hno; [apply Hout; intros (u & -> & [b Hu])|intros u ([u' b] & -> & Hu)%list_elem_of_fmap ->];
        apply Hfree, list.Exists_exists.
      + exists (u, b). by rewrite elem_of_qitems.
      + by exists (u', b). }
  apply map_eq. intros p. rewrite removeStale_lookup by done.
  destruct (exactMatch dnsKey p) eqn:E; [|done]. by destruct (Hord p ltac:(by left)) as [_ ->].
Qed.

Lemma besides_step mg mg' : dnsStep mg mg' → besides mg → besides mg'.
Proof.
  intros [a resolvers m m' b g Hu|a texts m m' g Hc|a m g Ha|path v m g Hfree Hv] Hinv.
  - by eapply besides_update.
  - unfold configureSplitTunnelRules in Hc. destruct (setRules _ _) as [o| |]; cbn in Hc; [|discriminate|discriminate].
    assert (besides (Machine (m_prevServices m) (m_currentResolvers m) o (store m), g)) as Hinv1
      by (by eapply besides_state; [..|exact Hinv]).
    case_bool_decide; [by injection Hc as <-|].
    destruct (updateResolvers _ _ _) as [[b m2]| |] eqn:E; cbn in Hc; [|discriminate|discriminate].
    injection Hc as <-. by eapply besides_update.
  - pose proof (restore_store a m g Ha Hinv) as Hs. split; [apply Hinv|]. split; [by rewrite Hs|].
    intros uuid b. cbn. by rewrite lookup_empty.
  - destruct Hinv as (Hord & Hout & Hb). split_and!.
    + intros p Hp. destruct (decide (p = path)) as [->|];
        [rewrite lookup_partial_alter_eq|rewrite lookup_partial_alter_ne by done]; auto.
    + intros p Hp. cbn. destruct (decide (p = path)) as [->|];
        [by rewrite !lookup_partial_alter_eq|rewrite !lookup_partial_alter_ne by done]. by apply Hout.
    + intros uuid b Hu. rewrite lookup_partial_alter_ne; [by apply Hb|].
      intros ->. apply Hfree. exists uuid. split; [done|]. by eexists.
Qed.

Lemma besides_run mg mg' : rtc dnsStep mg mg' → besides mg → besides mg'.
Proof. induction 1 as [|mg1 mg2 mg3 Hstep _ IH]; [done|]. intros Hinv. by apply IH, (besides_step _ _ Hstep). Qed.

(** What the constructor leaves of a store whose DNS configurations are ordinary
    ones and overrides of a daemon that did not end properly. *)
Definition leftOver (s : dynamicStore) : Prop :=
  ∀ path, dnsEntry path → ordinary (s !! path) ∨
    exactMatch dnsKey path = true ∧ isAmneziaLocalResolverConfig (s !! path) = true.

Lemma besides_new a s :
  accepting a → leftOver s → besides (newDnsUtils true a s, removeStaleLocalResolverOverrides a s).
Proof.
  intros Ha Hs. split; [|by split]. intros path Hp. rewrite removeStale_lookup by done.
  destruct (Hs path Hp) as [Ho|[-> ->]]; [|done]. destruct (_ && _); [done|exact Ho].
Qed.

(** ** Where queries go *)

Lemma chooseResolvers_spec a resolvers m l m' :
  chooseResolvers a resolvers m = (l, m') →
  store m' = store m ∧ m_currentResolvers m' = resolvers ∧
  (isActive (m_splitRouteObserver m') = true ∧ l = ["127.0.0.1"] ∧
     upstreamServers (m_splitRouteObserver m') = usableServers resolvers ∨
   isActive (m_splitRouteObserver m') = false ∧ l = printHost <$> resolvers).
Proof.
  unfold chooseResolvers, start. cbn [rules upstreamServers stop].
  destruct (bool_decide _ || bool_decide _); [intros [= <- <-]; cbn; auto|].
  destruct (bindUpstream a); cbn [negb]; [|intros [= <- <-]; cbn; auto].
  destruct (bindClient a); cbn [negb]; intros [= <- <-]; cbn; auto 6.
Qed.

Lemma takeOver_lookup a config services m m' :
  accepting a → takeOverAll a config m services = Ok m' →
  (m_splitRouteObserver m' = m_splitRouteObserver m ∧ m_currentResolvers m' = m_currentResolvers m) ∧
  (∀ p, (p ∈ dnsPath ∘ uuidOf <$> filter (λ s, isEmpty (uuidOf s) = false) services →
         store m' !! p = Some (SDictionary config)) ∧
        (p ∉ dnsPath ∘ uuidOf <$> filter (λ s, isEmpty (uuidOf s) = false) services →
         store m' !! p = store m !! p)).
Proof.
  intros [_ Ha]. revert m. induction services as [|service services IH]; intros m; cbn [takeOverAll].
  { intros [= <-]. split; [done|]. intros p. split; [by intros ?%not_elem_of_nil|done]. }
  unfold takeOver at 1. rewrite filter_cons. destruct (isEmpty (uuidOf service)) eqn:Eu; cbn [mbind result_bind].
  { rewrite decide_False by done. apply IH. }
  rewrite decide_True by done. destruct (backupService _ m) as [m1| |] eqn:E; cbn; [|discriminate|discriminate].
  assert (store m1 = store m ∧ m_splitRouteObserver m1 = m_splitRouteObserver m ∧
          m_currentResolvers m1 = m_currentResolvers m) as (Hs & Ho & Hc).
  { unfold backupService in E. case_bool_decide; [by injection E as <-|].
    destruct (store m !! dnsPath (uuidOf service)) as [[d|]|]; [|discriminate E|]; by injection E as <-. }
  intros ([Hobs Hcur] & Hp)%IH. split; [by rewrite Hobs, Hcur|]. intros p. cbn [store withStore] in Hp. rewrite Hs in Hp.
  destruct (Hp p) as [Hin Hout].
  destruct (decide (p ∈ dnsPath ∘ uuidOf <$> filter (λ s, isEmpty (uuidOf s) = false) services)) as [Hi|Ho'].
  { split; [auto|set_solver]. }
  rewrite Hout by done. split.
  - intros [->|]%elem_of_cons; [|done]. by apply setValue_lookup.
  - intros Hne. apply setValue_lookup_ne. intros ->. apply Hne. set_solver.
Qed.
End restoring.



(** ** Examples *)

Section examples.

#[local] Instance serviceName : ServiceName := "AlzheimerVPN-service".
#[local] Existing Instance quadText.

Definition willing : answers := Answers true (λ _, true) true true.

Definition lookups (m : machine) : list (option storeValue) :=
  (λ uuid, store m !! dnsPath uuid) <$> ["A-1"; "B-2"].

Definition dictionary (entries : list (string * cfValue)) : storeValue := SDictionary (list_to_map entries).

Definition homeDns : storeValue :=
  dictionary [("ServerAddresses", CFArray [Some "192.168.1.1"]); ("SearchDomains", CFArray [Some "home"])].

(** Two services, the second without a DNS configuration of its own. *)
Definition twoServices (dns : storeValue) : dynamicStore :=
  list_to_map [("Setup:/Network/Service/A-1", SOther); ("Setup:/Network/Service/B-2", SOther);
               ("Setup:/Network/Service/A-1/DNS", dns)].

Lemma noDnsEntry uuid :
  String.length uuid = 3%nat → exactMatch dnsKey ("Setup:/Network/Service/" +:+ uuid) = false →
  ¬ dnsEntry ("Setup:/Network/Service/" +:+ uuid).
Proof.
  intros Hlen Hm [Hp|[u Hp]]; [congruence|]. apply (f_equal String.length) in Hp.
  unfold dnsPath in Hp. rewrite !length_append, Hlen in Hp. cbn in Hp. lia.
Qed.

Lemma twoServices_leftOver : leftOver (twoServices homeDns).
Proof.
  intros path Hp. left. destruct (twoServices homeDns !! path) as [v|] eqn:E; [|done].
  apply elem_of_list_to_map_2 in E. rewrite !elem_of_cons in E.
  destruct E as [[= -> ->]|[[= -> ->]|[[= -> ->]|[]%not_elem_of_nil]]].
  - destruct (noDnsEntry "A-1" eq_refl eq_refl Hp).
  - destruct (noDnsEntry "B-2" eq_refl eq_refl Hp).
  - split; [|reflexivity]. split; [discriminate|]. intros k v Hk. apply elem_of_list_to_map_2 in Hk.
    rewrite !elem_of_cons in Hk. by destruct Hk as [[= -> ->]|[[= -> ->]|[]%not_elem_of_nil]].
Qed.

Definition tunnelDns : list hostAddress := [HIPv4 (ofOctets 10 8 0 1)].

Definition returned {A} (r : result A) (d : A) : A := match r with Ok a => a | _ => d end.

(** A start on a store with an ordinary configuration, rules for split tunnelling,
    the tunnel's resolvers, and an unrelated write of the system. *)
Definition started : machine := newDnsUtils true willing (twoServices homeDns).
Definition withRules : machine := returned (configureSplitTunnelRules willing ["example.com"] started) started.
Definition connected : machine := (returned (updateResolvers willing tunnelDns withRules) (false, withRules)).2.
Definition unrelated : string := "State:/Network/Global/DNS".
Definition written : machine := withStore (partial_alter (λ _, Some SOther) unrelated (store connected)) connected.
Definition withoutDaemon : dynamicStore :=
  partial_alter (λ _, Some SOther) unrelated (removeStaleLocalResolverOverrides willing (twoServices homeDns)).



(** A process that was killed while it had no rules for split tunnelling leaves the
    tunnel's resolvers behind.  The next start does not recognise them, backs them up
    as if they were the user's, and puts them back in the end. *)
Definition killed : dynamicStore := store ((returned (updateResolvers willing tunnelDns started) (false, started)).2).

Example killed_process_keeps_tunnel_dns :
  let next := newDnsUtils true willing killed in
  let next := (returned (updateResolvers willing tunnelDns next) (false, next)).2 in
  lookups (restoreResolvers willing next) = replicate 2 (Some (SDictionary (dnsConfig ["10.8.0.1"]))).
Proof. by vm_compute. Qed.

(** Entries under other keys of a configuration are lost. *)
Example other_entries_are_lost :
  let dns := dictionary [("ServerAddresses", CFArray [Some "192.168.1.1"]); ("Options", CFString "edns0")] in
  let m := newDnsUtils true willing (twoServices dns) in
  let m := (returned (updateResolvers willing tunnelDns m) (false, m)).2 in
  lookups (restoreResolvers willing m) = [Some (dictionary [("ServerAddresses", CFArray [Some "192.168.1.1"])]); None].
Proof. by vm_compute. Qed.

(** The proxy takes the user's own servers for matched hosts from the backups, which
    the first update makes only after the proxy has been started: it is the next
    update, with which the daemon follows a change of rules, that finds them. *)
Example first_update_has_no_matched_servers :
  matchedUpstreamServers (m_splitRouteObserver connected) = [] ∧
  matchedUpstreamServers (m_splitRouteObserver
    (returned (updateResolvers willing tunnelDns connected) (false, connected)).2) = [HIPv4 (ofOctets 192 168 1 1)].
Proof. by vm_compute. Qed.

(** A DNS entry that is not a dictionary is used as one. *)
Example other_types_are_undefined :
  updateResolvers willing tunnelDns (newDnsUtils true willing (twoServices SOther)) = Undefined.
Proof. by vm_compute. Qed.
End examples.
