(* ===== verification/QrCodes.v ===== *)
(** * Configurations in series of QR codes

    [client/core/utils/qrCodeUtils.cpp] cuts a configuration into chunks, each with a
    header and its place, and [client/core/controllers/selfhosted/importController.cpp]
    puts scanned chunks together again.  The header is written and read with
    [QDataStream] in the version of the Qt that the project is built with.  The
    drawing of the codes and the URL-safe Base64 are parameters; what becomes of the
    assembled data ([extractConfigFromQr]) is an argument, so that the theorems hold
    for every reader of configurations. *)

From S2P Require Import Prelude QtCore DnsParser.
From stdpp Require Import options.

#[local] Open Scope Z_scope.
#[local] Set Default Proof Using "Type*".

(** ** QDataStream *)

Definition beValue (bs : list Z) : Z := foldl (λ acc b, acc * 256 + b) 0 bs.

(** A number of [n] bytes; zero, and the stream is used up, when there are fewer. *)
Definition readNumber (n : nat) (s : list Z) : Z * list Z :=
  if (n <=? length s)%nat then (beValue (take n s), drop n s) else (0, []).

Definition signed (bits z : Z) : Z := if z <? 2 ^ (bits - 1) then z else z - 2 ^ bits.

(** A [QByteArray] is its length in 32 bits and its bytes.  The length 0xffffffff
    stands for a null array, and 0xfffffffe announces a length of 64 bits.  An array
    that is not complete is read as an empty one. *)
Definition readArray (s : list Z) : list Z * list Z :=
  let '(len, s) := readNumber 4 s in
  let '(len, s) :=
    if len =? 0xFFFFFFFF then (-1, s)
    else if len =? 0xFFFFFFFE then let '(n, s) := readNumber 8 s in (signed 64 n, s)
    else (len, s) in
  if len <? 0 then ([], s)
  else if len <=? size s then (take (Z.to_nat len) s, drop (Z.to_nat len) s) else ([], []).

Definition writeArray (bs : list Z) : list Z := bytes32 (size bs) ++ bs.

(** ** Writing a series *)

Definition qrMagicCode : Z := 1984.
Definition chunkSize : Z := 850.

(** A conversion of a double to [quint8], undefined outside its range. *)
Definition quint8 (z : Z) : option Z := if (0 <=? z) && (z <? 256) then Some z else None.

(** [std::ceil(size / k)]. *)
Definition chunksIn (n : Z) : Z := (n + (chunkSize - 1)) / chunkSize.

Definition chunkBytes (chunksCount chunkId : Z) (part : list Z) : list Z :=
  bytes16 qrMagicCode ++ [chunksCount; chunkId] ++ writeArray part.

(** The loop, from the byte [i], which is a multiple of the size of a chunk: its
    rounded quotient is exact. *)
Fixpoint seriesLoop (fuel : nat) (chunksCount i : Z) (data : list Z) : option (list (list Z)) :=
  match fuel with
  | O => None
  | S fuel =>
      if size data <=? i then Some []
      else
        id ← quint8 (i / chunkSize);
        rest ← seriesLoop fuel chunksCount (i + chunkSize) data;
        Some (chunkBytes chunksCount id (take (Z.to_nat chunkSize) (drop (Z.to_nat i) data)) :: rest)
  end.

(** The bytes of the codes; [None] is the undefined conversion. *)
Definition chunkSeries (data : list Z) : option (list (list Z)) :=
  chunksCount ← quint8 (chunksIn (size data));
  seriesLoop (S (length data)) chunksCount 0 data.

(** URL-safe Base64 without padding. *)
Class Base64Url := {
  toBase64Url : list Z → string;
  fromBase64Url : string → list Z;
  fromBase64Url_toBase64Url b : Forall isByte b → fromBase64Url (toBase64Url b) = b;
}.

(** [generateQrCodeImageSeries], as the texts that the codes carry. *)
Definition generateQrCodeImageSeries `{Base64Url} (data : list Z) : option (list string) :=
  option_map (map toBase64Url) (chunkSeries data).

(** ** Reading a series *)

Record qrDecoder := Decoder {
  qrCodeChunks : gmap Z (list Z);
  totalQrCodeChunksCount : Z;
  receivedQrCodeChunksCount : Z;
  isQrCodeProcessed : bool;
}.

Record QrParseResult (R : Type) := ParseResult {
  importResult : option R;
  chunksReceived : Z;
  chunksTotal : Z;
}.
Arguments ParseResult {R}.
Arguments importResult {R}.
Arguments chunksReceived {R}.
Arguments chunksTotal {R}.

Definition startDecodingQr : qrDecoder := Decoder ∅ 0 0 true.

Definition countOf (chunks : gmap Z (list Z)) : Z := Z.of_nat (base.size chunks).

(** The chunks in order; a missing one is read as an empty array. *)
Definition assemble (chunks : gmap Z (list Z)) (total : Z) : list Z :=
  concat ((λ i, default [] (chunks !! i)) <$> seqZ 0 total).

Section decoding.
Context `{Base64Url} {R : Type}.

(** [extractConfigFromQr]: the configuration in the data, when there is one, and
    the UTF-8 of a text. *)
Context (extractConfigFromQr : list Z → option R) (toUtf8 : string → list Z).

(** A chunk that carries the magic number; [s] is the rest of the stream. *)
Definition receiveChunk (d : qrDecoder) (s : list Z) : QrParseResult R * qrDecoder :=
  let '(chunksCount, s) := readNumber 1 s in
  let chunks := if totalQrCodeChunksCount d =? chunksCount then qrCodeChunks d else ∅ in
  let '(chunkId, s) := readNumber 1 s in
  let '(part, _) := readArray s in
  let chunks := <[chunkId := part]> chunks in
  let received := countOf chunks in
  if received =? chunksCount then
    match extractConfigFromQr (assemble chunks chunksCount) with
    | Some r => (ParseResult (Some r) received chunksCount, Decoder chunks chunksCount received false)
    | None => (ParseResult None received chunksCount, Decoder ∅ 0 0 true)
    end
  else (ParseResult None received chunksCount, Decoder chunks chunksCount received true).

(** Any other code is tried as a configuration, as text and decoded. *)
Definition receivePlain (d : qrDecoder) (code : string) (ba : list Z) : QrParseResult R * qrDecoder :=
  let result := match extractConfigFromQr (toUtf8 code) with
                | Some r => Some r
                | None => extractConfigFromQr ba
                end in
  (ParseResult result (receivedQrCodeChunksCount d) (totalQrCodeChunksCount d),
   match result with
   | Some _ => Decoder (qrCodeChunks d) (totalQrCodeChunksCount d) (receivedQrCodeChunksCount d) false
   | None => d
   end).

Definition parseQrCodeChunk (d : qrDecoder) (code : string) : QrParseResult R * qrDecoder :=
  if negb (isQrCodeProcessed d)
  then (ParseResult None (receivedQrCodeChunksCount d) (totalQrCodeChunksCount d), d)
  else
    let ba := fromBase64Url code in
    let '(magic, s) := readNumber 2 ba in
    if signed 16 magic =? qrMagicCode then receiveChunk d s else receivePlain d code ba.

(** The codes that the camera sees one after the other. *)
Fixpoint scan (d : qrDecoder) (codes : list string) : list (QrParseResult R) * qrDecoder :=
  match codes with
  | [] => ([], d)
  | code :: codes =>
      let '(r, d) := parseQrCodeChunk d code in
      let '(rs, d) := scan d codes in
      (r :: rs, d)
  end.
End decoding.

(** ** The stream reads what it wrote *)

Lemma beValue_bytes16 z : 0 ≤ z → beValue (bytes16 z) = z.
Proof. intros Hz. unfold beValue, bytes16. cbn [foldl]. pose proof (bytes16_value z Hz). lia. Qed.

Lemma beValue_bytes32 z : beValue (bytes32 z) = z.
Proof. unfold beValue, bytes32. cbn [foldl]. pose proof (bytes32_value z). lia. Qed.

Lemma readNumber_app n bs rest : length bs = n → readNumber n (bs ++ rest) = (beValue bs, rest).
Proof.
  intros <-. unfold readNumber. rewrite length_app, (proj2 (Nat.leb_le _ _)) by lia.
  by rewrite take_app_length, drop_app_length.
Qed.

Lemma readNumber_byte b rest : readNumber 1 (b :: rest) = (b, rest).
Proof. exact (readNumber_app 1 [b] rest eq_refl). Qed.

Lemma readArray_writeArray bs rest :
  size bs < 0xFFFFFFFE → readArray (writeArray bs ++ rest) = (bs, rest).
Proof.
  intros Hs. pose proof (size_nonneg bs). unfold readArray, writeArray. rewrite <-app_assoc.
  rewrite readNumber_app by done. rewrite beValue_bytes32.
  rewrite (proj2 (Z.eqb_neq _ _)), (proj2 (Z.eqb_neq _ _)), (proj2 (Z.ltb_ge _ _)) by lia.
  rewrite size_app, (proj2 (Z.leb_le _ _)) by (pose proof (size_nonneg rest); lia).
  unfold size. by rewrite Nat2Z.id, take_app_length, drop_app_length.
Qed.

(** ** The series *)

Definition part (data : list Z) (id : nat) : list Z := take 850 (drop (850 * id) data).

Lemma seriesLoop_spec fuel count i data :
  (length data + 850 ≤ 850 * (i + fuel))%nat → (850 * i < length data + 850)%nat → size data ≤ 255 * 850 →
  seriesLoop fuel count (850 * Z.of_nat i) data =
    Some ((λ id, chunkBytes count (Z.of_nat id) (part data id)) <$>
          seq i (Z.to_nat (chunksIn (size data)) - i)).
Proof.
  revert i. induction fuel as [|fuel IH]; intros i Hfuel Hi Hsize; [lia|]. cbn [seriesLoop].
  unfold size, chunksIn, chunkSize in *. destruct (Z.leb_spec (Z.of_nat (length data)) (850 * Z.of_nat i)) as [Hend|Hin].
  - replace (Z.to_nat _ - i)%nat with 0%nat; [done|]. symmetry. apply Nat.sub_0_le.
    Z.to_euclidean_division_equations; lia.
  - rewrite Z.mul_comm, Z.div_mul by lia. unfold quint8.
    rewrite (proj2 (Z.leb_le _ _)), (proj2 (Z.ltb_lt _ _)) by lia. cbn [andb mbind option_bind].
    replace (Z.of_nat i * 850 + 850) with (850 * Z.of_nat (S i)) by lia. rewrite IH by lia.
    cbn [mbind option_bind].
    replace (Z.to_nat ((Z.of_nat (length data) + (850 - 1)) / 850) - i)%nat
      with (S (Z.to_nat ((Z.of_nat (length data) + (850 - 1)) / 850) - S i))
      by (Z.to_euclidean_division_equations; lia).
    cbn [seq fmap list_fmap]. unfold part. change (Z.to_nat 850) with 850%nat.
    by replace (Z.to_nat (Z.of_nat i * 850)) with (850 * i)%nat by lia.
Qed.

Lemma concat_parts data n i :
  (length data ≤ 850 * (i + n))%nat → concat (part data <$> seq i n) = drop (850 * i) data.
Proof.
  revert i. induction n as [|n IH]; intros i Hlen; cbn [seq fmap list_fmap concat].
  - rewrite drop_ge; [done|lia].
  - rewrite IH by lia. unfold part. rewrite <-(take_drop 850 (drop (850 * i) data)) at 2. f_equal.
    rewrite drop_drop. f_equal. lia.
Qed.

Lemma length_part data id : (length (part data id) ≤ 850)%nat.
Proof. unfold part. rewrite length_take. lia. Qed.

Lemma chunkBytes_bytes count id bs :
  isByte count → isByte id → Forall isByte bs → (length bs ≤ 850)%nat → Forall isByte (chunkBytes count id bs).
Proof.
  intros Hc Hi Hb Hlen. unfold chunkBytes, writeArray. rewrite !Forall_app. split_and!; [by repeat constructor| | |done].
  - apply Forall_cons_2; [done|]. apply Forall_cons_2; [done|]. apply Forall_nil_2.
  - unfold bytes32, size, isByte in *.
    repeat (apply Forall_cons_2; [Z.to_euclidean_division_equations; lia|]). apply Forall_nil_2.
Qed.

Section series.
Context `{Base64Url} (data : list Z).
Context (Hbytes : Forall isByte data) (Hsize : 0 < size data ≤ 255 * 850).

Let n : nat := Z.to_nat (chunksIn (size data)).

Definition codeOf (id : nat) : string :=
  toBase64Url (chunkBytes (chunksIn (size data)) (Z.of_nat id) (part data id)).

Lemma n_bounds : chunksIn (size data) = Z.of_nat n ∧ (1 ≤ n ≤ 255)%nat ∧ (length data ≤ 850 * n)%nat.
Proof using Hsize.
  clear -Hsize. unfold n, chunksIn, chunkSize, size in *. Z.to_euclidean_division_equations; lia.
Qed.

Lemma series_codes : generateQrCodeImageSeries data = Some (codeOf <$> seq 0 n).
Proof.
  destruct n_bounds as (Hn & Hle & _). unfold generateQrCodeImageSeries, chunkSeries. rewrite Hn.
  unfold quint8. rewrite (proj2 (Z.leb_le _ _)), (proj2 (Z.ltb_lt _ _)) by lia. cbn [andb mbind option_bind].
  change 0 with (850 * Z.of_nat 0) at 1. rewrite seriesLoop_spec by (unfold size in *; lia).
  cbn [option_map]. f_equal. fold n. rewrite Nat.sub_0_r. change (map toBase64Url) with (fmap (M := list) toBase64Url).
  rewrite <-list_fmap_compose. apply list_fmap_ext. intros i id _. unfold codeOf. cbn. by rewrite Hn.
Qed.

(** A code of the series is read back. *)
Lemma codeOf_read id :
  (id < n)%nat →
  fromBase64Url (codeOf id) = bytes16 qrMagicCode ++ [Z.of_nat n; Z.of_nat id] ++ writeArray (part data id).
Proof.
  intros Hid. destruct n_bounds as (Hn & Hle & _). unfold codeOf. rewrite Hn, fromBase64Url_toBase64Url; [done|].
  apply chunkBytes_bytes; [unfold isByte; lia|unfold isByte; lia| |apply length_part].
  unfold part. by apply Forall_take, Forall_drop.
Qed.

Lemma codeOf_inj i j : (i < n)%nat → (j < n)%nat → codeOf i = codeOf j → i = j.
Proof.
  intros Hi Hj Heq. pose proof (codeOf_read i Hi) as Ei. rewrite Heq, codeOf_read in Ei by done.
  injection Ei as Ez _. lia.
Qed.

(** The chunks of the codes seen so far, the last one first. *)
Definition collected (ids : list nat) : gmap Z (list Z) :=
  list_to_map ((λ id, (Z.of_nat id, part data id)) <$> ids).

Lemma collected_lookup ids id : id ∈ ids → collected ids !! Z.of_nat id = Some (part data id).
Proof.
  unfold collected. induction ids as [|i ids IH]; [by intros ?%not_elem_of_nil|]. intros Hin.
  cbn [fmap list_fmap list_to_map foldr]. destruct (decide (i = id)) as [->|Hne]; [by rewrite lookup_insert_eq|].
  rewrite lookup_insert_ne by (cbn; lia). apply IH. set_solver.
Qed.

Lemma collected_none ids id : id ∉ ids → collected ids !! Z.of_nat id = None.
Proof.
  intros Hid. apply not_elem_of_list_to_map_1. rewrite <-list_fmap_compose, list_elem_of_fmap.
  intros (j & Hj & Hin). cbn in Hj. apply Nat2Z.inj in Hj. by subst.
Qed.

Lemma countOf_collected ids : countOf (collected ids) = Z.of_nat (length (remove_dups ids)).
Proof.
  unfold countOf. f_equal. induction ids as [|i ids IH]; [done|].
  change (collected (i :: ids)) with (<[Z.of_nat i := part data i]> (collected ids)). cbn [remove_dups].
  destruct (decide_rel _ i ids) as [Hin|Hout].
  - rewrite map_size_insert_Some; [done|]. rewrite collected_lookup by done. by eexists.
  - rewrite map_size_insert_None by (by apply collected_none). cbn [length]. by rewrite IH.
Qed.

Lemma complete_iff ids :
  Forall (λ id, id < n)%nat ids → length (remove_dups ids) = n ↔ seq 0 n ⊆ ids.
Proof.
  intros Hids. pose proof (NoDup_remove_dups ids) as Hnd. split.
  - intros Hlen. assert (Hperm : remove_dups ids ≡ₚ seq 0 n).
    { apply submseteq_length_Permutation; [|by rewrite length_seq, Hlen].
      apply NoDup_submseteq; [done|]. intros id. rewrite elem_of_remove_dups. intros Hid. rewrite Forall_forall in Hids.
      apply Hids in Hid. apply elem_of_seq. lia. }
    intros id Hid. apply elem_of_remove_dups. by rewrite Hperm.
  - intros Hall. apply Nat.le_antisymm.
    + rewrite <-(length_seq n 0). apply submseteq_length, NoDup_submseteq; [done|].
      intros id. rewrite elem_of_remove_dups. intros Hid. rewrite Forall_forall in Hids. apply Hids in Hid. apply elem_of_seq. lia.
    + rewrite <-(length_seq n 0) at 1. apply submseteq_length, NoDup_submseteq; [apply NoDup_seq|].
      intros id Hid%Hall. by apply elem_of_remove_dups.
Qed.

Lemma assemble_collected ids : seq 0 n ⊆ ids → assemble (collected ids) (Z.of_nat n) = data.
Proof.
  intros Hall. destruct n_bounds as (_ & _ & Hlen). unfold assemble.
  trans (drop (850 * 0) data); [|done]. rewrite <-(concat_parts data n 0) by lia. f_equal.
  unfold seqZ. rewrite Nat2Z.id, <-list_fmap_compose. apply list_fmap_ext. intros i id Hid. cbn.
  apply list_elem_of_lookup_2 in Hid. rewrite Z.add_0_r, collected_lookup by auto. done.
Qed.

Lemma codes_ids seen : seen ⊆ codeOf <$> seq 0 n → ∃ ids, seen = codeOf <$> ids ∧ Forall (λ id, id < n)%nat ids.
Proof.
  induction seen as [|c seen IH]; intros Hsub; [by exists []|].
  destruct IH as (ids & -> & Hids); [set_solver|].
  assert (c ∈ codeOf <$> seq 0 n) as (id & -> & Hid%elem_of_seq)%list_elem_of_fmap by set_solver.
  exists (id :: ids). split; [done|]. constructor; [lia|done].
Qed.

Lemma codes_subset ids :
  Forall (λ id, id < n)%nat ids → (codeOf <$> seq 0 n) ⊆ (codeOf <$> ids) ↔ seq 0 n ⊆ ids.
Proof.
  intros Hids. rewrite Forall_forall in Hids. split; intros Hsub.
  - intros id Hid. assert (codeOf id ∈ codeOf <$> ids) as (j & Heq & Hj)%list_elem_of_fmap
      by (by apply Hsub, list_elem_of_fmap_2).
    apply elem_of_seq in Hid. apply codeOf_inj in Heq; [by subst|lia|by apply Hids].
  - intros c (id & -> & Hid%Hsub)%list_elem_of_fmap. by apply list_elem_of_fmap_2.
Qed.

Section scanning.
Context {R : Type} (extractConfigFromQr : list Z → option R) (toUtf8 : string → list Z).

Local Notation parse := (parseQrCodeChunk extractConfigFromQr toUtf8).
Local Notation scans := (scan extractConfigFromQr toUtf8).

(** The decoder after the codes of [ids], of which some are still missing. *)
Definition waiting (ids : list nat) : qrDecoder :=
  Decoder (collected ids) (if ids is [] then 0 else Z.of_nat n) (countOf (collected ids)) true.

Lemma parse_code ids id :
  (id < n)%nat → Forall (λ id, id < n)%nat ids → ¬ seq 0 n ⊆ ids →
  parse (waiting ids) (codeOf id) =
    let received := countOf (collected (id :: ids)) in
    if decide (seq 0 n ⊆ id :: ids) then
      match extractConfigFromQr data with
      | Some r => (ParseResult (Some r) (Z.of_nat n) (Z.of_nat n),
                   Decoder (collected (id :: ids)) (Z.of_nat n) (Z.of_nat n) false)
      | None => (ParseResult None (Z.of_nat n) (Z.of_nat n), startDecodingQr)
      end
    else (ParseResult None received (Z.of_nat n), waiting (id :: ids)).
Proof.
  intros Hid Hids Hmiss. destruct n_bounds as (_ & Hn & _). unfold parseQrCodeChunk. cbn [isQrCodeProcessed waiting negb].
  rewrite codeOf_read by done. rewrite readNumber_app by done. rewrite beValue_bytes16 by done.
  change (signed 16 qrMagicCode =? qrMagicCode) with true. cbv iota.
  unfold receiveChunk. cbn [app]. rewrite !readNumber_byte.
  rewrite <-(app_nil_r (writeArray _)), readArray_writeArray
    by (pose proof (length_part data id); unfold size; lia).
  cbn [totalQrCodeChunksCount qrCodeChunks waiting].
  assert ((if (if ids is [] then 0 else Z.of_nat n) =? Z.of_nat n then collected ids else ∅) = collected ids) as ->.
  { destruct ids; [by destruct (0 =? Z.of_nat n)|by rewrite Z.eqb_refl]. }
  change (<[Z.of_nat id := part data id]> (collected ids)) with (collected (id :: ids)).
  assert (Hall : Forall (λ id, id < n)%nat (id :: ids)) by (by constructor).
  pose proof (complete_iff _ Hall) as Hiff. rewrite countOf_collected.
  destruct (decide (seq 0 n ⊆ id :: ids)) as [Hc|Hc].
  - rewrite (proj2 Hiff Hc), Z.eqb_refl, assemble_collected by done. done.
  - rewrite (proj2 (Z.eqb_neq _ _)) by (intros Heq%Nat2Z.inj; tauto). unfold waiting. by rewrite countOf_collected.
Qed.
Lemma scan_codes ids new :
  Forall (λ id, id < n)%nat ids → Forall (λ id, id < n)%nat new → ¬ seq 0 n ⊆ reverse new ++ ids →
  (scans (waiting ids) (codeOf <$> new)).2 = waiting (reverse new ++ ids) ∧
  Forall (λ r, importResult r = None) (scans (waiting ids) (codeOf <$> new)).1.
Proof.
  intros Hids Hnew. revert ids Hids. induction Hnew as [|id new Hid Hnew IH]; intros ids Hids Hmiss; [done|].
  rewrite reverse_cons, <-app_assoc in *. cbn [app] in *. cbn [fmap list_fmap scan].
  assert (¬ seq 0 n ⊆ id :: ids) as Hpre by (intros Hsub; apply Hmiss; set_solver).
  rewrite parse_code, decide_False by (done || intros Hsub; set_solver).
  specialize (IH (id :: ids) ltac:(by constructor) Hmiss).
  destruct (scans _ _) as [rs d]. cbn in *. destruct IH as [-> Hrs]. split; [done|]. by constructor.
Qed.

Lemma series_read seen c :
  seen ⊆ codeOf <$> seq 0 n → c ∈ codeOf <$> seq 0 n →
  ¬ (codeOf <$> seq 0 n) ⊆ seen → (codeOf <$> seq 0 n) ⊆ c :: seen →
  let '(rs, d) := scans startDecodingQr seen in
  let '(r, d') := parse d c in
  Forall (λ r, importResult r = None) rs ∧
  importResult r = extractConfigFromQr data ∧ chunksReceived r = Z.of_nat n ∧ chunksTotal r = Z.of_nat n ∧
  (extractConfigFromQr data = None → d' = startDecodingQr) ∧
  (extractConfigFromQr data ≠ None → isQrCodeProcessed d' = false).
Proof.
  intros (ids & -> & Hids)%codes_ids (id & -> & Hid%elem_of_seq)%list_elem_of_fmap Hmiss Hall.
  change (codeOf id :: (codeOf <$> ids)) with (codeOf <$> (id :: ids)) in Hall.
  rewrite codes_subset in Hmiss by done.
  rewrite codes_subset in Hall by (constructor; [lia|done]).
  change startDecodingQr with (waiting []).
  destruct (scan_codes [] ids) as [Hd Hrs]; [constructor|done| |].
  { rewrite app_nil_r. intros Hsub. apply Hmiss. intros x Hx%Hsub. by apply elem_of_reverse. }
  destruct (scans _ _) as [rs d]. cbn in Hd, Hrs. subst d. rewrite app_nil_r.
  rewrite parse_code; [|lia|by apply Forall_reverse|].
  - cbv zeta. rewrite decide_True by (intros x Hx%Hall; set_solver).
    destruct (extractConfigFromQr data) as [r|]; cbn; naive_solver.
  - intros Hsub. apply Hmiss. intros x Hx%Hsub. by apply elem_of_reverse.
Qed.
End scanning.
End series.

(** C26: a configuration of up to 216750 bytes is shown as one code for every 850
    bytes, and whatever order the camera sees the codes in, and however often it
    sees one, nothing is imported before the last missing code is seen, and that
    one hands exactly the original bytes to the reader of configurations; when the
    reader rejects them the decoder starts again. *)
Theorem qr_series_roundtrip `{Base64Url} {R : Type} (extractConfigFromQr : list Z → option R)
    (toUtf8 : string → list Z) (data : list Z) :
  Forall isByte data → 0 < size data ≤ 255 * 850 →
  ∃ codes, generateQrCodeImageSeries data = Some codes ∧
    Z.of_nat (length codes) = chunksIn (size data) ∧
    ∀ seen c, seen ⊆ codes → c ∈ codes → ¬ codes ⊆ seen → codes ⊆ c :: seen →
      let '(rs, d) := scan extractConfigFromQr toUtf8 startDecodingQr seen in
      let '(r, d') := parseQrCodeChunk extractConfigFromQr toUtf8 d c in
      Forall (λ r, importResult r = None) rs ∧
      importResult r = extractConfigFromQr data ∧
      chunksReceived r = Z.of_nat (length codes) ∧ chunksTotal r = Z.of_nat (length codes) ∧
      (extractConfigFromQr data = None → d' = startDecodingQr) ∧
      (extractConfigFromQr data ≠ None → isQrCodeProcessed d' = false).
Proof.
  intros Hbytes Hsize. exists (codeOf data <$> seq 0 (Z.to_nat (chunksIn (size data)))).
  rewrite length_fmap, length_seq. split_and!; [by apply series_codes|symmetry; apply n_bounds; done|].
  intros seen c. by apply series_read.
Qed.

(** A Base64 that only keeps the bytes of short texts apart is enough to see the
    hypotheses hold: here bytes become characters. *)
#[local] Instance bytesAsText : Base64Url.
Proof.
  refine {| toBase64Url := λ b, String.string_of_list_ascii (Ascii.ascii_of_nat ∘ Z.to_nat <$> b);
            fromBase64Url := λ s, Z.of_nat ∘ Ascii.nat_of_ascii <$> String.list_ascii_of_string s |}.
  intros b Hb. rewrite String.list_ascii_of_string_of_list_ascii, <-list_fmap_compose.
  rewrite <-(list_fmap_id b) at 2. apply list_fmap_ext. intros i z Hz.
  eapply Forall_lookup_1 in Hb; [|exact Hz]. unfold isByte in Hb. cbn.
  rewrite Ascii.nat_ascii_embedding by lia. lia.
Defined.

Definition twoChunks : list Z := replicate 850 1 ++ [2; 3].

Lemma qr_series_roundtrip_witness :
  ∃ codes, generateQrCodeImageSeries twoChunks = Some codes ∧ length codes = 2%nat ∧
    importResult (parseQrCodeChunk (R := list Z) Some (λ _, [])
      (scan Some (λ _, []) startDecodingQr [codes !!! 1%nat; codes !!! 1%nat]).2 (codes !!! 0%nat)).1 = Some twoChunks.
Proof.
  destruct (qr_series_roundtrip (R := list Z) Some (λ _, []) twoChunks) as (codes & Hc & Hlen & Hread).
  - apply Forall_app_2; [apply Forall_replicate; unfold isByte; lia|].
    repeat (apply Forall_cons_2; [unfold isByte; lia|]). apply Forall_nil_2.
  - vm_compute. split; congruence.
  - assert (length codes = 2%nat) as Hl by (apply Nat2Z.inj; rewrite Hlen; by vm_compute).
    destruct codes as [|c0 [|c1 [|]]]; try discriminate Hl. exists [c0; c1]. split; [done|]. split; [done|].
    assert (c0 ≠ c1) as Hne.
    { vm_compute in Hc. injection Hc as <- <-. discriminate. }
    assert (¬ [c0; c1] ⊆ [c1; c1]) as Hmiss.
    { intros Hsub. specialize (Hsub c0 ltac:(set_solver)). set_solver. }
    specialize (Hread [c1; c1] c0 ltac:(set_solver) ltac:(set_solver) Hmiss ltac:(set_solver)).
    change ([c0; c1] !!! 0%nat) with c0. change ([c0; c1] !!! 1%nat) with c1. revert Hread.
    destruct (scan _ _ _ _) as [rs d]. cbn [snd]. destruct (parseQrCodeChunk _ _ _ _) as [r d']. cbn [fst].
    naive_solver.
Defined.

(** Above 255 chunks the number of chunks does not fit its byte, and the conversion
    that computes it is undefined. *)
Lemma series_too_long `{Base64Url} data : 255 * 850 < size data → generateQrCodeImageSeries data = None.
Proof.
  intros Hs. unfold generateQrCodeImageSeries, chunkSeries, quint8, chunksIn, chunkSize.
  rewrite (proj2 (Z.ltb_ge _ 256)); [by rewrite andb_false_r|]. Z.to_euclidean_division_equations; lia.
Qed.

(** A chunk does not say which configuration it belongs to: scanning one code of a
    configuration of two chunks and then the other code of another such
    configuration hands over a mixture of both. *)
Example mixed_series :
  let first := replicate 850 1 ++ [2; 3] in
  let second := replicate 850 7 ++ [8; 9] in
  option_map (λ codes, importResult (parseQrCodeChunk (R := list Z) Some (λ _, [])
      (scan Some (λ _, []) startDecodingQr (take 1 codes.1)).2 (codes.2 !!! 1%nat)).1)
    (a ← generateQrCodeImageSeries first; b ← generateQrCodeImageSeries second; Some (a, b)) =
  Some (Some (replicate 850 1 ++ [8; 9])).
Proof. vm_compute. reflexivity. Qed.
