(* ===== verification/Effects.v ===== *)
(** * Effects

    A component that talks to its surroundings is a [prog]: a tree of requests over
    a state, which can also throw or run out of the fuel that bounds its loops.  An
    [interface] says which requests there are and what their answers are.  The
    surroundings are an [oracle] that answers requests and may look at the whole
    history of the run; statements that quantify over oracles hold for every
    behaviour of the surroundings.

    [run] executes a program against an oracle; [wp] is the weakest precondition over
    all answers an environment allows, sound for [run] ([wp_run_env]).  [only] and
    [completes] are syntactic approximations of what a program can request and how it
    can end. *)

From S2P Require Import Prelude.
From stdpp Require Import options.

Structure interface := Interface {
  call : Type;
  ans : call → Type;
}.

#[global] Arguments ans {_} _.

Record event (I : interface) := Ev { evCall : call I; evAns : ans evCall }.

#[global] Arguments Ev {I} _ _.
#[global] Arguments evCall {I} _.
#[global] Arguments evAns {I} _.

Notation trace I := (list (event I)).

(** ** Scripts *)

Section prog.
Context {I : interface} {G : Type}.

Inductive prog (A : Type) : Type :=
  | Ret (a : A)
  | Throw
  | OutOfFuel
  | Update (f : G → G) (k : G → prog A)
  | Vis (c : call I) (k : ans c → prog A).

#[global] Arguments Ret {A} a.
#[global] Arguments Throw {A}.
#[global] Arguments OutOfFuel {A}.
#[global] Arguments Update {A} f k.
#[global] Arguments Vis {A} c k.

Fixpoint bind {A B : Type} (p : prog A) (f : A → prog B) : prog B :=
  match p with
  | Ret a => f a
  | Throw => Throw
  | OutOfFuel => OutOfFuel
  | Update u k => Update u (λ g, bind (k g) f)
  | Vis c k => Vis c (λ x, bind (k x) f)
  end.

Definition request (c : call I) : prog (ans c) := Vis c Ret.
Definition getGlobals : prog G := Update id Ret.
Definition setGlobals (f : G → G) : prog unit := Update f (λ _, Ret tt).

(** How a run ends. *)
Inductive outcome (A : Type) : Type :=
  | Returned (a : A)
  | Thrown
  | Unfinished.

#[global] Arguments Returned {A} a.
#[global] Arguments Thrown {A}.
#[global] Arguments Unfinished {A}.

(** The framework, the user and the system: the answer to a request may depend
    on everything that happened before. *)
Definition oracle : Type := trace I → ∀ c : call I, ans c.

Record result (A : Type) : Type := Result {
  resOutcome : outcome A;
  resGlobals : G;
  resTrace : trace I;
}.

#[global] Arguments Result {A} _ _ _.
#[global] Arguments resOutcome {A} _.
#[global] Arguments resGlobals {A} _.
#[global] Arguments resTrace {A} _.

Fixpoint run {A : Type} (o : oracle) (p : prog A) (g : G) (h : trace I) : result A :=
  match p with
  | Ret a => Result (Returned a) g h
  | Throw => Result Thrown g h
  | OutOfFuel => Result Unfinished g h
  | Update u k => run o (k (u g)) (u g) h
  | Vis c k => let x := o h c in run o (k x) g (h ++ [Ev c x])
  end.

(** ** Weakest preconditions

    An environment says which answers are possible after a history; [wp E p Q]
    holds when every run of [p] with such answers ends in [Q]. *)

Definition environment : Type := trace I → ∀ c : call I, ans c → Prop.

Definition anything : environment := λ _ _ _, True.

Definition exactly (o : oracle) : environment := λ h c x, x = o h c.

Fixpoint wp {A : Type} (E : environment) (p : prog A) (Q : outcome A → G → trace I → Prop)
    (g : G) (h : trace I) : Prop :=
  match p with
  | Ret a => Q (Returned a) g h
  | Throw => Q Thrown g h
  | OutOfFuel => Q Unfinished g h
  | Update u k => wp E (k (u g)) Q (u g) h
  | Vis c k => ∀ x, E h c x → wp E (k x) Q g (h ++ [Ev c x])
  end.

Lemma wp_run_env {A} (E : environment) (o : oracle) (p : prog A) Q g h :
  (∀ h c, E h c (o h c)) → wp E p Q g h →
  Q (resOutcome (run o p g h)) (resGlobals (run o p g h)) (resTrace (run o p g h)).
Proof.
  intros HE. revert g h. induction p as [a| | |u k IH|c k IH]; intros g h Hp; simpl; auto.
Qed.

Lemma wp_run {A} (o : oracle) (p : prog A) Q g h :
  wp anything p Q g h →
  Q (resOutcome (run o p g h)) (resGlobals (run o p g h)) (resTrace (run o p g h)).
Proof. by apply wp_run_env. Qed.

Lemma wp_exactly {A} (o : oracle) (p : prog A) Q g h :
  wp (exactly o) p Q g h →
  Q (resOutcome (run o p g h)) (resGlobals (run o p g h)) (resTrace (run o p g h)).
Proof. by apply wp_run_env. Qed.

Lemma wp_mono {A} E (p : prog A) (Q Q' : outcome A → G → trace I → Prop) g h :
  (∀ o g' h', Q o g' h' → Q' o g' h') → wp E p Q g h → wp E p Q' g h.
Proof. intros HQ. revert g h. induction p as [a| | |u k IH|c k IH]; intros g h Hp; simpl; eauto. Qed.

(** The rest of a sequence runs only after a normal return. *)
Definition andThen {A B} E (f : A → prog B) (Q : outcome B → G → trace I → Prop)
    (r : outcome A) (g : G) (h : trace I) : Prop :=
  match r with
  | Returned a => wp E (f a) Q g h
  | Thrown => Q Thrown g h
  | Unfinished => Q Unfinished g h
  end.

Lemma wp_bind {A B} E (p : prog A) (f : A → prog B) Q g h :
  wp E (bind p f) Q g h ↔ wp E p (andThen E f Q) g h.
Proof.
  revert g h. induction p as [a| | |u k IH|c k IH]; intros g h; simpl; [done..| |].
  - apply IH.
  - split; intros Hx x Ex; apply IH, Hx, Ex.
Qed.

(** Sequencing with an assertion on what the first part establishes. *)
Lemma wp_seq {A B} E (p : prog A) (f : A → prog B) (R : outcome A → G → trace I → Prop) Q g h :
  wp E p R g h → (∀ o g' h', R o g' h' → andThen E f Q o g' h') → wp E (bind p f) Q g h.
Proof. intros Hp HR. apply wp_bind. by eapply wp_mono. Qed.

Lemma run_bind {A B} (o : oracle) (p : prog A) (f : A → prog B) g h :
  run o (bind p f) g h =
  match resOutcome (run o p g h) with
  | Returned a => run o (f a) (resGlobals (run o p g h)) (resTrace (run o p g h))
  | Thrown => Result Thrown (resGlobals (run o p g h)) (resTrace (run o p g h))
  | Unfinished => Result Unfinished (resGlobals (run o p g h)) (resTrace (run o p g h))
  end.
Proof. revert g h. induction p as [a| | |u k IH|c k IH]; intros g h; simpl; auto. Qed.

(** The history only grows. *)
Lemma run_prefix {A} (o : oracle) (p : prog A) g h : h `prefix_of` resTrace (run o p g h).
Proof.
  revert g h. induction p as [a| | |u k IH|c k IH]; intros g h; simpl; auto.
  etrans; [|apply IH]. by apply prefix_app_r.
Qed.

(** ** The requests a script can make *)

Fixpoint only {A : Type} (ok : call I → bool) (p : prog A) : Prop :=
  match p with
  | Ret _ | Throw | OutOfFuel => True
  | Update _ k => ∀ g, only ok (k g)
  | Vis c k => ok c = true ∧ ∀ x, only ok (k x)
  end.

Definition allCalls (ok : call I → bool) (h : trace I) : Prop := Forall (λ e, ok (evCall e) = true) h.

Lemma only_bind {A B} ok (p : prog A) (f : A → prog B) :
  only ok p → (∀ a, only ok (f a)) → only ok (bind p f).
Proof. intros Hp Hf. induction p as [a| | |u k IH|c k IH]; simpl in *; naive_solver. Qed.

Lemma only_mono {A} (ok ok' : call I → bool) (p : prog A) :
  (∀ c, ok c = true → ok' c = true) → only ok p → only ok' p.
Proof. intros Hok. induction p as [a| | |u k IH|c k IH]; simpl; naive_solver. Qed.

(** A script extends the history by requests it can make. *)
Lemma only_wp {A} E ok (p : prog A) g h :
  only ok p → wp E p (λ _ _ h', ∃ t, h' = h ++ t ∧ allCalls ok t) g h.
Proof.
  revert g h. induction p as [a| | |u k IH|c k IH]; intros g h Hp; simpl in *;
    [exists []; rewrite app_nil_r; split; [done|constructor]..| |].
  - apply IH, Hp.
  - intros x _. destruct Hp as [Hc Hk]. eapply wp_mono; [|apply (IH x), Hk].
    intros o g' h' (t & -> & Ht). exists (Ev c x :: t).
    split; [by rewrite <-app_assoc | by constructor].
Qed.

(** ** Scripts that always end

    [completes true p]: [p] cannot run out of fuel; [completes false p]: it cannot
    throw either. *)

Fixpoint completes {A : Type} (throws : bool) (p : prog A) : Prop :=
  match p with
  | Ret _ => True
  | Throw => throws = true
  | OutOfFuel => False
  | Update _ k => ∀ g, completes throws (k g)
  | Vis _ k => ∀ x, completes throws (k x)
  end.

Lemma completes_bind {A B} throws (p : prog A) (f : A → prog B) :
  completes throws p → (∀ a, completes throws (f a)) → completes throws (bind p f).
Proof. intros Hp Hf. induction p as [a| | |u k IH|c k IH]; simpl in *; naive_solver. Qed.

Lemma completes_wp {A} E throws (p : prog A) g h :
  completes throws p → wp E p (λ r _ h', r ≠ Unfinished ∧ h `prefix_of` h') g h.
Proof.
  revert g h. induction p as [a| | |u k IH|c k IH]; intros g h Hp; simpl in *; [done..| |].
  - apply IH, Hp.
  - intros x _. eapply wp_mono; [|by apply (IH x)].
    intros r g' h' [Hr Hpre]. split; [done|]. etrans; [|done]. by apply prefix_app_r.
Qed.

(** A script that always returns extends the history by requests it can make. *)
Lemma only_returns_wp {A} E ok (p : prog A) g h :
  only ok p → completes false p →
  wp E p (λ r _ h', ∃ a t, r = Returned a ∧ h' = h ++ t ∧ allCalls ok t) g h.
Proof.
  intros Ho Hc. revert g h. induction p as [a| | |u k IH|c k IH]; intros g h; simpl in *; [|done..| |].
  - exists a, []. rewrite app_nil_r. split_and!; [done|done|constructor].
  - by apply IH.
  - intros x _. destruct Ho as [Hok Hk]. eapply wp_mono; [|by apply (IH x)].
    intros r g' h' (a & t & -> & -> & Ht). exists a, (Ev c x :: t).
    split_and!; [done | by rewrite <-app_assoc | by constructor].
Qed.

End prog.

#[global] Arguments prog I G A : clear implicits.
#[global] Arguments oracle I : clear implicits.
#[global] Arguments environment I : clear implicits.

#[export] Hint Resolve only_bind : vpn.

(** ** Programs with a contract

    [hoare ok P p Q]: from a state in [P] the program returns, whatever the answers
    are, has made only requests in [ok], and result and state are in [Q]. *)

Section hoare.
Context {I : interface} {G : Type}.

Definition hoare {A} (ok : call I → bool) (P : G → Prop) (p : prog I G A) (Q : A → G → Prop) : Prop :=
  ∀ g h, P g →
    wp anything p (λ r g' h', ∃ a t, r = Returned a ∧ h' = h ++ t ∧ allCalls ok t ∧ Q a g') g h.

Lemma hoare_bind {A B} ok P (p : prog I G A) (f : A → prog I G B) Q R :
  hoare ok P p Q → (∀ a, hoare ok (Q a) (f a) R) → hoare ok P (bind p f) R.
Proof.
  intros Hp Hf g h HP. eapply wp_seq; [by apply Hp|]. intros r g1 h1 (a & t & -> & -> & Ht & Hq). simpl.
  eapply wp_mono; [|by apply (Hf a)]. intros r g2 h2 (b & t' & -> & -> & Ht' & Hr).
  exists b, (t ++ t'). rewrite app_assoc. split_and!; [done|done|by apply Forall_app|done].
Qed.

Lemma hoare_ret {A} ok (P : G → Prop) (a : A) (Q : A → G → Prop) :
  (∀ g, P g → Q a g) → hoare ok P (Ret a) Q.
Proof. intros HQ g h HP. exists a, []. rewrite app_nil_r. split_and!; [done|done|constructor|auto]. Qed.

(** Reading the state: the rest starts in the state that was read. *)
Lemma hoare_get {A} ok (P : G → Prop) (k : G → prog I G A) Q :
  (∀ g0, P g0 → hoare ok (λ g, g = g0) (k g0) Q) → hoare ok P (bind getGlobals k) Q.
Proof. intros Hk g h HP. by apply (Hk g HP). Qed.

Lemma hoare_set ok (P : G → Prop) (f : G → G) (Q : unit → G → Prop) :
  (∀ g, P g → Q tt (f g)) → hoare ok P (setGlobals f) Q.
Proof. intros HQ g h HP. exists tt, []. rewrite app_nil_r. split_and!; [done|done|constructor|auto]. Qed.

(** An update whose result the rest starts from. *)
Lemma hoare_update {A} ok (P : G → Prop) (f : G → G) (k : unit → prog I G A) Q :
  hoare ok (λ g', ∃ g, P g ∧ g' = f g) (k tt) Q → hoare ok P (bind (setGlobals f) k) Q.
Proof. intros Hk g h HP. apply Hk. eauto. Qed.

Lemma hoare_request ok (P : G → Prop) (c : call I) (Q : ans c → G → Prop) :
  ok c = true → (∀ g x, P g → Q x g) → hoare ok P (request c) Q.
Proof.
  intros Hc HQ g h HP x _. exists x, [Ev c x]. split_and!; [done|done| |auto].
  constructor; [done|constructor].
Qed.

Lemma hoare_conseq {A} ok ok' (P P' : G → Prop) (p : prog I G A) (Q Q' : A → G → Prop) :
  (∀ c, ok c = true → ok' c = true) → (∀ g, P' g → P g) → (∀ a g, Q a g → Q' a g) →
  hoare ok P p Q → hoare ok' P' p Q'.
Proof.
  intros Hok HP HQ Hp g h Hg. eapply wp_mono; [|by apply Hp, HP].
  intros r g' h' (a & t & -> & -> & Ht & Hq). exists a, t. split_and!; [done|done| |auto].
  eapply Forall_impl; [exact Ht|]. auto.
Qed.

Lemma hoare_pre {A} ok (P P' : G → Prop) (p : prog I G A) Q :
  hoare ok P p Q → (∀ g, P' g → P g) → hoare ok P' p Q.
Proof. intros Hp HP. by eapply hoare_conseq. Qed.

Lemma hoare_post {A} ok P (p : prog I G A) (Q Q' : A → G → Prop) :
  hoare ok P p Q → (∀ a g, Q a g → Q' a g) → hoare ok P p Q'.
Proof. intros Hp HQ. by eapply hoare_conseq. Qed.

(** An assumption about the start that does not mention the state later on. *)
Lemma hoare_exists {A B} ok (P : B → G → Prop) (p : prog I G A) Q :
  (∀ b, hoare ok (P b) p Q) → hoare ok (λ g, ∃ b, P b g) p Q.
Proof. intros Hp g h [b HP]. by apply (Hp b). Qed.

Lemma hoare_pure {A} ok (φ : Prop) (P : G → Prop) (p : prog I G A) Q :
  (φ → hoare ok P p Q) → hoare ok (λ g, φ ∧ P g) p Q.
Proof. intros Hp g h [Hφ HP]. by apply Hp. Qed.

End hoare.

(** ** Contracts that speak of the history

    [triple P p Q]: from a state and a history in [P] the program returns, whatever
    the answers are, and result, state and history are in [Q]. *)

Section triple.
Context {I : interface} {G : Type}.

Definition triple {A} (P : G → trace I → Prop) (p : prog I G A) (Q : A → G → trace I → Prop) : Prop :=
  ∀ g h, P g h → wp anything p (λ r g' h', ∃ a, r = Returned a ∧ Q a g' h') g h.

Lemma triple_bind {A B} P (p : prog I G A) (f : A → prog I G B) Q R :
  triple P p Q → (∀ a, triple (Q a) (f a) R) → triple P (bind p f) R.
Proof.
  intros Hp Hf g h HP. eapply wp_seq; [by apply Hp|]. intros r g1 h1 (a & -> & Hq). by apply (Hf a).
Qed.

Lemma triple_ret {A} (P : G → trace I → Prop) (a : A) (Q : A → G → trace I → Prop) :
  (∀ g h, P g h → Q a g h) → triple P (Ret a) Q.
Proof. intros HQ g h HP. exists a. auto. Qed.

Lemma triple_get {A} (P : G → trace I → Prop) (k : G → prog I G A) Q :
  (∀ g0, triple (λ g h, g = g0 ∧ P g h) (k g0) Q) → triple P (bind getGlobals k) Q.
Proof. intros Hk g h HP. by apply (Hk g). Qed.

Lemma triple_set (P : G → trace I → Prop) (f : G → G) (Q : unit → G → trace I → Prop) :
  (∀ g h, P g h → Q tt (f g) h) → triple P (setGlobals f) Q.
Proof. intros HQ g h HP. exists tt. auto. Qed.

Lemma triple_request (P : G → trace I → Prop) (c : call I) (Q : ans c → G → trace I → Prop) :
  (∀ g h x, P g h → Q x g (h ++ [Ev c x])) → triple P (request c) Q.
Proof. intros HQ g h HP x _. exists x. auto. Qed.

Lemma triple_conseq {A} (P P' : G → trace I → Prop) (p : prog I G A) (Q Q' : A → G → trace I → Prop) :
  triple P p Q → (∀ g h, P' g h → P g h) → (∀ a g h, Q a g h → Q' a g h) → triple P' p Q'.
Proof.
  intros Hp HP HQ g h Hg. eapply wp_mono; [|by apply Hp, HP]. intros r g' h' (a & -> & Hq). eauto.
Qed.

Lemma triple_pure {A} (φ : Prop) (P : G → trace I → Prop) (p : prog I G A) Q :
  (φ → triple P p Q) → triple (λ g h, φ ∧ P g h) p Q.
Proof. intros Hp g h [Hφ HP]. by apply Hp. Qed.

(** Two contracts of one program. *)
Lemma triple_and {A} (P P' : G → trace I → Prop) (p : prog I G A) (Q Q' : A → G → trace I → Prop) :
  triple P p Q → triple P' p Q' → triple (λ g h, P g h ∧ P' g h) p (λ a g h, Q a g h ∧ Q' a g h).
Proof.
  intros Hp Hp' g h [HP HP']. specialize (Hp g h HP). specialize (Hp' g h HP'). clear HP HP'.
  revert g h Hp Hp'. induction p as [a| | |u k IH|c k IH]; intros g h Hp Hp'; simpl in *.
  - naive_solver.
  - naive_solver.
  - naive_solver.
  - by apply IH.
  - intros x Hx. by apply IH; auto.
Qed.

(** What has happened stays in the history. *)
Lemma triple_seen {A} (P : G → trace I → Prop) (p : prog I G A) (Q : A → G → trace I → Prop) (e : event I) :
  triple P p Q → triple (λ g h, P g h ∧ e ∈ h) p (λ a g h, Q a g h ∧ e ∈ h).
Proof.
  intros Hp g h [HP He]. specialize (Hp g h HP). clear HP. revert g h He Hp.
  induction p as [a| | |u k IH|c k IH]; intros g h He Hp; simpl in *.
  - naive_solver.
  - naive_solver.
  - naive_solver.
  - by apply IH.
  - intros x Hx. apply IH; [set_solver|auto].
Qed.

(** A contract on the state alone. *)
Lemma triple_state_request (P : G → Prop) (c : call I) : triple (λ g _, P g) (request c) (λ _ g _, P g).
Proof. by apply triple_request. Qed.

(** A run against an oracle. *)
Lemma triple_run {A} (o : oracle I) P (p : prog I G A) Q g h :
  triple P p Q → P g h →
  ∃ a, resOutcome (run o p g h) = Returned a ∧ Q a (resGlobals (run o p g h)) (resTrace (run o p g h)).
Proof. intros Hp HP. apply (wp_run o p (λ r g' h', ∃ a, r = Returned a ∧ Q a g' h')). by apply Hp. Qed.

(** A loop over a list. *)
Fixpoint forEach {A} (l : list A) (f : A → prog I G unit) : prog I G unit :=
  match l with
  | [] => Ret tt
  | x :: l => bind (f x) (λ _, forEach l f)
  end.

Lemma triple_forEach {A} (P : G → trace I → Prop) (l : list A) (f : A → prog I G unit) :
  (∀ x, x ∈ l → triple P (f x) (λ _, P)) → triple P (forEach l f) (λ _, P).
Proof.
  induction l as [|x l IH]; intros Hf; [by apply triple_ret|]. cbn [forEach].
  apply (triple_bind _ _ _ (λ _, P)); [apply Hf; set_solver|]. intros _. apply IH. intros y Hy. apply Hf. set_solver.
Qed.

(** A property of the history that every request of a program keeps, however the
    program ends. *)
Definition always {A} (P : trace I → Prop) (p : prog I G A) : Prop :=
  ∀ g h, P h → wp anything p (λ _ _ h', P h') g h.

Lemma always_bind {A B} P (p : prog I G A) (f : A → prog I G B) :
  always P p → (∀ a, always P (f a)) → always P (bind p f).
Proof.
  intros Hp Hf g h HP. eapply wp_seq; [by apply Hp|]. intros [a| |] g' h' HP'; [by apply Hf|done..].
Qed.

Lemma always_only {A} P ok (p : prog I G A) :
  (∀ h c x, ok c = true → P h → P (h ++ [Ev c x])) → only ok p → always P p.
Proof.
  intros Hok. induction p as [a| | |u k IH|c k IH]; intros Hp g h HP; simpl in *; [done..| |].
  - by apply IH.
  - intros x _. destruct Hp as [Hc Hk]. apply IH; [apply Hk|by apply Hok].
Qed.

Lemma always_request P (c : call I) : (∀ h x, P h → P (h ++ [Ev c x])) → always P (request c).
Proof. intros Hc g h HP x _. by apply Hc. Qed.

Lemma always_get {A} P (k : G → prog I G A) : (∀ g, always P (k g)) → always P (bind getGlobals k).
Proof. intros Hk g h HP. by apply Hk. Qed.

Lemma always_forEach {A} P (l : list A) (f : A → prog I G unit) :
  (∀ x, x ∈ l → always P (f x)) → always P (forEach l f).
Proof.
  induction l as [|x l IH]; intros Hf; [by intros g h|]. cbn [forEach].
  apply always_bind; [apply Hf; set_solver|]. intros _. apply IH. intros y Hy. apply Hf. set_solver.
Qed.

Lemma always_run {A} (o : oracle I) P (p : prog I G A) g h : always P p → P h → P (resTrace (run o p g h)).
Proof. intros Hp HP. apply (wp_run o p (λ _ _ h', P h')). by apply Hp. Qed.

Lemma only_forEach {A} ok (l : list A) (f : A → prog I G unit) : (∀ x, only ok (f x)) → only ok (forEach l f).
Proof. intros Hf. induction l as [|x l IH]; [done|]. by apply only_bind. Qed.
End triple.

Declare Scope script_scope.
Delimit Scope script_scope with script.
Notation "x ← p ; q" := (bind p (λ x, q)) (at level 20, p at level 100, q at level 200) : script_scope.
Notation "p ;; q" := (bind p (λ _, q)) (at level 100, q at level 200, right associativity) : script_scope.

Ltac solve_only :=
  repeat match goal with
  | |- only _ (bind _ _) => apply only_bind
  | |- only _ (forEach _ _) => apply only_forEach
  | |- ∀ _, _ => intro
  | |- only _ (request _) => split; [reflexivity | intro]
  | |- only _ (Vis _ _) => split; [reflexivity | intro]
  | |- only _ (Ret _) => exact I
  | |- only _ Throw => exact I
  | |- only _ OutOfFuel => exact I
  | |- only _ getGlobals => intro; exact I
  | |- only _ (setGlobals _) => intro; exact I
  | |- only _ (if ?b then _ else _) => destruct b
  | |- only _ (match ?x with _ => _ end) => destruct x
  | |- _ => solve [eauto with vpn]
  end.

Ltac solve_completes :=
  repeat match goal with
  | |- completes _ (bind _ _) => apply completes_bind
  | |- ∀ _, _ => intro
  | |- completes _ (request _) => intro
  | |- completes _ (Vis _ _) => intro
  | |- completes _ (Ret _) => exact I
  | |- completes _ Throw => reflexivity
  | |- completes _ getGlobals => intro
  | |- completes _ (setGlobals _) => intro
  | |- completes _ (if ?b then _ else _) => destruct b
  | |- completes _ (match ?x with _ => _ end) => destruct x
  | |- _ => solve [eauto with vpn]
  end.
