(* ===== verification/InterfaceConfig.v ===== *)
(** * Messages to the daemon

    The client sends the daemon one JSON object per line.  The object that activates
    a tunnel is built by [LocalSocketController::activate]
    ([client/mozilla/localsocketcontroller.cpp]) and read by [Daemon::parseConfig]
    ([client/daemon/daemon.cpp]) into an [InterfaceConfig]
    ([client/daemon/interfaceconfig.h]); both ends are here, on the macOS build, and
    the theorem says what configuration arrives.

    The parameters of AmneziaWG, one member of the class each, are a map from the key
    of the message to the text. *)

From Stdlib Require Import Ascii.
From S2P Require Import Prelude QtCore Variant NetworkUtilities IpAddress.
From stdpp Require Import options.

#[local] Set Default Proof Using "Type*".

Inductive HopType := SingleHop | MultiHopEntry | MultiHopExit.

#[export] Instance HopType_eq_dec : EqDecision HopType.
Proof. solve_decision. Defined.

(** A null string is [None], where the code distinguishes it from the empty one. *)
Record InterfaceConfig := Config {
  hopType : HopType;
  protocolName : string;
  privateKey : string;
  deviceIpv4Address : option string;
  deviceIpv6Address : option string;
  serverIpv4Gateway : string;
  serverIpv6Gateway : string;
  serverPublicKey : string;
  serverIpv4AddrIn : option string;
  serverIpv6AddrIn : option string;
  serverPskKey : option string;
  primaryDnsServer : string;
  secondaryDnsServer : string;
  serverPort : Z;
  deviceMTU : Z;
  persistentKeepalive : string;
  allowedIPAddressRanges : list IPAddress;
  excludedAddresses : list string;
  splitTunnelDnsRules : list string;
  vpnDisabledApps : list string;
  allowedDnsServers : list string;
  killSwitchEnabled : bool;
  awgParameters : gmap string string;
}.

(** [configKey::awgProtocolKeys]. *)
Definition awgProtocolKeys : list string :=
  ["Jc"; "Jmin"; "Jmax"; "S1"; "S2"; "S3"; "S4"; "H1"; "H2"; "H3"; "H4"; "I1"; "I2"; "I3"; "I4"; "I5";
   "HeaderProtectionKey"; "ContentPaddingAddition"; "RekeyAfterTime"; "RekeyTimeout"; "RejectAfterTime";
   "KeepaliveTimeout"; "MaxHandshakeAttempts"; "RandomTrailers"; "DisableCookies"].

(** ** The client's side *)

(** [atoi]: blanks, a sign and the leading digits. *)
Fixpoint leadingDigits (acc : Z) (s : string) : Z :=
  match s with
  | EmptyString => acc
  | String c s => if isDigit c then leadingDigits (acc * 10 + (Z.of_N (code c) - 48)) s else acc
  end.

Definition atoi (s : string) : Z :=
  match trimLeft s with
  | String c t =>
      if eqChar c "-" then - leadingDigits 0 t
      else if eqChar c "+" then leadingDigits 0 t
      else leadingDigits 0 (String c t)
  | EmptyString => 0
  end.

Definition rangeObject (address : string) (range : Z) (isIpv6 : bool) : json :=
  JObject (jinsert "isIpv6" (JBool isIpv6) (jinsert "range" (JNumber range) (jinsert "address" (JString address) ∅))).

(** A range of the configuration or of the list of sites. *)
Definition rangeOfText (ipRange : string) : json :=
  match splitChar "/" ipRange with
  | address :: range :: _ => rangeObject address (atoi range) false
  | _ => rangeObject ipRange 32 false
  end.

Definition isDefaultAllowedIp (l : list json) : bool :=
  match l with
  | [JString a; JString b] => bool_decide (a = "0.0.0.0/0") && bool_decide (b = "::/0")
  | _ => false
  end.

Definition allowedRanges (plainAllowedIP : list json) (splitTunnelType : Z) (splitTunnelSites : list json) : list json :=
  if negb (isDefaultAllowedIp plainAllowedIP) && negb (bool_decide (length plainAllowedIP = 0%nat)) then
    (λ v, rangeOfText (toStringJ "" v)) <$> plainAllowedIP
  else
    (if (splitTunnelType =? 0) || (splitTunnelType =? 2)
     then [rangeObject "0.0.0.0" 0 false; rangeObject "::" 0 true] else []) ++
    (if splitTunnelType =? 1 then (λ v, rangeOfText (toStringJ "" v)) <$> splitTunnelSites else []).

Definition excludedRanges (hostName : json) (splitTunnelType : Z) (splitTunnelSites : list json) : list json :=
  JString (trimmed (toStringJ "" hostName)) ::
  (if splitTunnelType =? 2 then
     JString <$> filter (λ t, t ≠ "") ((λ v, trimmed (toStringJ "" v)) <$> splitTunnelSites)
   else []).

(** The parameters that are set. *)
Definition insertAwg (wgConfig : QJsonObject) (o : QJsonObject) (key : string) : QJsonObject :=
  match jvalue wgConfig key with
  | JString v => if isEmpty v then o else jinsert key (JString v) o
  | _ => o
  end.

Definition wgConfigOf (rawConfig : QJsonObject) : QJsonObject :=
  toObjectJ (jvalue rawConfig (toStringJ "" (jvalue rawConfig "protocol") +:+ "_config_data")).

(** The entries of the message before the parameters of AmneziaWG, in the order in
    which they are inserted. *)
Definition activateEntries (rawConfig : QJsonObject) : list (string * json) :=
  let protocolName := toStringJ "" (jvalue rawConfig "protocol") in
  let splitTunnelType := toIntJ (jvalue rawConfig "splitTunnelType") in
  let splitTunnelSites := toArrayJ (jvalue rawConfig "splitTunnelSites") in
  let wgConfig := wgConfigOf rawConfig in
  [("type", JString "activate");
   ("protocol", JString protocolName);
   ("privateKey", jvalue wgConfig "client_priv_key");
   ("deviceIpv4Address", jvalue wgConfig "client_ip");
   ("deviceIpv6Address", JString "fd58:baa6:dead::1");
   ("serverPublicKey", jvalue wgConfig "server_pub_key");
   ("serverPskKey", jvalue wgConfig "psk_key");
   ("serverIpv4AddrIn", jvalue wgConfig "hostName");
   ("deviceMTU", jvalue wgConfig "mtu");
   ("serverPort", JNumber (toIntJ (jvalue wgConfig "port")));
   ("serverIpv4Gateway", jvalue wgConfig "hostName")] ++
  (if qcontains wgConfig "persistent_keep_alive"
   then [("persistentKeepalive", JString (toStringJ "" (jvalue wgConfig "persistent_keep_alive")))] else []) ++
  [("primaryDnsServer", jvalue rawConfig "dns1")] ++
  (if negb (contains (toStringJ "" (jvalue rawConfig "dns1")) "172.29.172.254")
   then [("secondaryDnsServer", jvalue rawConfig "dns2")] else []) ++
  [("allowedIPAddressRanges",
    JArray (allowedRanges (toArrayJ (jvalue wgConfig "allowed_ips")) splitTunnelType splitTunnelSites));
   ("excludedAddresses", JArray (excludedRanges (jvalue wgConfig "hostName") splitTunnelType splitTunnelSites));
   ("splitTunnelDnsRules", JArray (toArrayJ (jvalue rawConfig "splitTunnelDnsRules")));
   ("vpnDisabledApps", JArray (toArrayJ (jvalue rawConfig "splitTunnelApps")));
   ("allowedDnsServers", JArray (toArrayJ (jvalue rawConfig "allowedDnsServers")));
   ("killSwitchOption", jvalue rawConfig "killSwitchOption")].

Definition activateMessage (rawConfig : QJsonObject) : QJsonObject :=
  foldl (insertAwg (wgConfigOf rawConfig))
    (foldl (λ o kv, jinsert kv.1 kv.2 o) ∅ (activateEntries rawConfig)) awgProtocolKeys.

(** ** The daemon's side *)

(** [GETVALUE] for strings and numbers. *)
Definition getString (o : QJsonObject) (name : string) : option string :=
  if negb (qcontains o name) then None else toStringN (jvalue o name).

Definition getDouble (o : QJsonObject) (name : string) : option Z :=
  if negb (qcontains o name) then None else match jvalue o name with JNumber z => Some z | _ => None end.

(** A string that may be missing. *)
Definition getOptional (o : QJsonObject) (name : string) : option string :=
  if negb (qcontains o name) then Some "" else toStringN (jvalue o name).

Definition parseStringList (o : QJsonObject) (name : string) : option (list string) :=
  if qcontains o name then
    if negb (isArrayJ (jvalue o name)) then None else mapM toStringN (toArrayJ (jvalue o name))
  else Some [].

Definition hopTypeOf (o : QJsonObject) : option HopType :=
  if negb (qcontains o "hopType") then Some SingleHop
  else key ← toStringN (jvalue o "hopType");
       if bool_decide (key = "SingleHop") then Some SingleHop
       else if bool_decide (key = "MultiHopEntry") then Some MultiHopEntry
       else if bool_decide (key = "MultiHopExit") then Some MultiHopExit
       else None.

Definition mtuOf (o : QJsonObject) : Z :=
  let value := default 0 (toInt (toStringJ "" (jvalue o "deviceMTU"))) in
  if negb (qcontains o "deviceMTU") || (value =? 0) then 1420 else value.

(** The longer prefix first. *)
Definition longerPrefix : relation IPAddress := λ a b, prefixLength b ≤ prefixLength a.

#[export] Instance longerPrefix_dec : RelDecision longerPrefix.
Proof. intros a b. unfold longerPrefix. apply _. Defined.

#[export] Instance longerPrefix_total : Total longerPrefix.
Proof. intros a b. unfold longerPrefix. lia. Qed.

#[export] Instance longerPrefix_trans : Transitive longerPrefix.
Proof. intros a b c. unfold longerPrefix. lia. Qed.

Section daemon.
Context `{HostAddressText}.

(** One range: [None] is an error, an IPv6 range is left out on macOS. *)
Definition parseRange (i : json) : option (list IPAddress) :=
  if negb (isObjectJ i) then None
  else
    let ipObj := toObjectJ i in
    address ← toStringN (jvalue ipObj "address");
    if negb (isDoubleJ (jvalue ipObj "range")) then None
    else if negb (isBoolJ (jvalue ipObj "isIpv6")) then None
    else
      let hostAddress := parseHost address in
      if bool_decide (protocol hostAddress = IPv6Protocol) then Some []
      else Some [IPRange hostAddress (toIntJ (jvalue ipObj "range"))].

(** The code's sort leaves the order of ranges of one length open; here they keep the
    order of the message. *)
Definition parseRanges (o : QJsonObject) : option (list IPAddress) :=
  if negb (qcontains o "allowedIPAddressRanges") then None
  else if negb (isArrayJ (jvalue o "allowedIPAddressRanges")) then None
  else ranges ← mapM parseRange (toArrayJ (jvalue o "allowedIPAddressRanges"));
       Some (merge_sort longerPrefix (concat ranges)).

Definition awgOf (o : QJsonObject) : gmap string string :=
  foldl (λ m key, if isUndefinedJ (jvalue o key) then m else <[key := toStringJ "" (jvalue o key)]> m) ∅ awgProtocolKeys.

Definition parseConfig (o : QJsonObject) : option InterfaceConfig :=
  privateKey ← getString o "privateKey";
  serverPublicKey ← getString o "serverPublicKey";
  serverPort ← getDouble o "serverPort";
  let serverPskKey := toStringN (jvalue o "serverPskKey") in
  let deviceMTU := mtuOf o in
  let persistentKeepalive := toStringJ "" (jvalue o "persistentKeepalive") in
  let deviceIpv4Address := toStringN (jvalue o "deviceIpv4Address") in
  let deviceIpv6Address := None in
  if bool_decide (deviceIpv4Address = None) then None
  else
    let serverIpv4AddrIn := toStringN (jvalue o "serverIpv4AddrIn") in
    let serverIpv6AddrIn := toStringN (jvalue o "serverIpv6AddrIn") in
    if bool_decide (serverIpv4AddrIn = None) && bool_decide (serverIpv6AddrIn = None) then None
    else
      let serverIpv4Gateway := toStringJ "" (jvalue o "serverIpv4Gateway") in
      let serverIpv6Gateway := toStringJ "" (jvalue o "serverIpv6Gateway") in
      primaryDnsServer ← getOptional o "primaryDnsServer";
      secondaryDnsServer ← getOptional o "secondaryDnsServer";
      protocolName ← getString o "protocol";
      hopType ← hopTypeOf o;
      allowedIPAddressRanges ← parseRanges o;
      excludedAddresses ← parseStringList o "excludedAddresses";
      splitTunnelDnsRules ← parseStringList o "splitTunnelDnsRules";
      vpnDisabledApps ← parseStringList o "vpnDisabledApps";
      allowedDnsServers ← parseStringList o "allowedDnsServers";
      let killSwitchEnabled := textToBool (toStringJ "" (jvalue o "killSwitchOption")) in
      Some (Config hopType protocolName privateKey deviceIpv4Address deviceIpv6Address serverIpv4Gateway
              serverIpv6Gateway serverPublicKey serverIpv4AddrIn serverIpv6AddrIn serverPskKey primaryDnsServer
              secondaryDnsServer serverPort deviceMTU persistentKeepalive allowedIPAddressRanges excludedAddresses
              splitTunnelDnsRules vpnDisabledApps allowedDnsServers killSwitchEnabled (awgOf o)).
End daemon.

(** ** Looking up entries *)

Lemma jvalue_jinsert_eq k v o : jvalue (jinsert k v o) k = v.
Proof.
  unfold jvalue, qvalue, jinsert. destruct v; by rewrite ?lookup_delete_eq, ?lookup_insert_eq.
Qed.

Lemma qcontains_jinsert_eq k v o : qcontains (jinsert k v o) k = negb (isUndefinedJ v).
Proof.
  unfold qcontains, jinsert. destruct v; rewrite ?lookup_delete_eq, ?lookup_insert_eq; cbn [isUndefinedJ negb];
    (apply bool_decide_eq_false_2; by intros []) || (apply bool_decide_eq_true_2; eauto).
Qed.

Lemma lookup_jinsert_ne k k' v o : k ≠ k' → jinsert k v o !! k' = o !! k'.
Proof. intros Hne. unfold jinsert. destruct v; by rewrite ?lookup_delete_ne, ?lookup_insert_ne. Qed.

Lemma lookup_entries_other l o k :
  k ∉ l.*1 → foldl (λ o kv, jinsert kv.1 kv.2 o) o l !! k = o !! k.
Proof.
  revert o. induction l as [|[k' v'] l IH]; intros o Hk; [done|]. cbn [fmap list_fmap foldl fst snd] in *.
  rewrite IH by set_solver. apply lookup_jinsert_ne. set_solver.
Qed.

Lemma entries_value l o k v :
  NoDup l.*1 → (k, v) ∈ l →
  jvalue (foldl (λ o kv, jinsert kv.1 kv.2 o) o l) k = v ∧
  qcontains (foldl (λ o kv, jinsert kv.1 kv.2 o) o l) k = negb (isUndefinedJ v).
Proof.
  revert o. induction l as [|[k' v'] l IH]; intros o Hnd Hin; [set_solver|]. cbn [fmap list_fmap foldl fst snd] in *.
  apply NoDup_cons in Hnd as [Hk' Hnd]. apply elem_of_cons in Hin as [[= -> ->]|Hin]; [|by apply IH].
  assert (foldl (λ o kv, jinsert kv.1 kv.2 o) (jinsert k' v' o) l !! k' = jinsert k' v' o !! k') as Hl
    by by apply lookup_entries_other.
  unfold jvalue, qvalue, qcontains. rewrite Hl. split; [apply jvalue_jinsert_eq|apply qcontains_jinsert_eq].
Qed.

Lemma lookup_insertAwg_other wg keys o k : k ∉ keys → foldl (insertAwg wg) o keys !! k = o !! k.
Proof.
  revert o. induction keys as [|key keys IH]; intros o Hk; [done|]. cbn [foldl]. rewrite IH by set_solver.
  unfold insertAwg. destruct (jvalue wg key); try done. destruct (isEmpty s); [done|].
  apply lookup_jinsert_ne. set_solver.
Qed.

(** The parameters of the message are the texts that are set. *)
Lemma lookup_insertAwg wg keys o k :
  NoDup keys → k ∈ keys → o !! k = None →
  foldl (insertAwg wg) o keys !! k =
    match jvalue wg k with JString v => if isEmpty v then None else Some (JString v) | _ => None end.
Proof.
  revert o. induction keys as [|key keys IH]; intros o Hnd Hk Ho; [set_solver|]. cbn [foldl].
  apply NoDup_cons in Hnd as [Hkey Hnd]. apply elem_of_cons in Hk as [->|Hk].
  - rewrite lookup_insertAwg_other by done. unfold insertAwg. destruct (jvalue wg key); try done.
    destruct (isEmpty s); [done|]. unfold jinsert. apply lookup_insert_eq.
  - apply IH; [done..|]. unfold insertAwg. destruct (jvalue wg key); try done. destruct (isEmpty s); [done|].
    rewrite lookup_jinsert_ne; [done|]. intros ->. done.
Qed.

Lemma activateEntries_keys raw :
  NoDup (activateEntries raw).*1 ∧ ∀ k, k ∈ (activateEntries raw).*1 → k ∉ awgProtocolKeys.
Proof.
  unfold activateEntries. destruct (qcontains _ _), (negb _); cbn [fmap list_fmap app fst];
    (split; [decide_closed|]);
    apply Forall_forall; decide_closed.
Qed.

Lemma message_value raw k v :
  (k, v) ∈ activateEntries raw →
  jvalue (activateMessage raw) k = v ∧ qcontains (activateMessage raw) k = negb (isUndefinedJ v).
Proof.
  intros Hin. destruct (activateEntries_keys raw) as [Hnd Hawg]. unfold activateMessage, jvalue, qvalue, qcontains.
  rewrite lookup_insertAwg_other by (apply Hawg; exact (list_elem_of_fmap_2 fst _ _ Hin)).
  by apply entries_value.
Qed.

Lemma message_missing raw k :
  k ∉ awgProtocolKeys → k ∉ (activateEntries raw).*1 →
  jvalue (activateMessage raw) k = JUndefined ∧ qcontains (activateMessage raw) k = false.
Proof.
  intros Hawg Hk. unfold activateMessage, jvalue, qvalue, qcontains.
  rewrite lookup_insertAwg_other, lookup_entries_other, lookup_empty by done. split; [done|].
  apply bool_decide_eq_false_2. by intros [].
Qed.

Lemma message_awg raw k :
  k ∈ awgProtocolKeys →
  activateMessage raw !! k =
    match jvalue (wgConfigOf raw) k with JString v => if isEmpty v then None else Some (JString v) | _ => None end.
Proof.
  intros Hk. unfold activateMessage. apply lookup_insertAwg; [decide_closed|done|].
  rewrite lookup_entries_other; [apply lookup_empty|]. intros Hin.
  destruct (activateEntries_keys raw) as [_ Hno]. by apply (Hno k).
Qed.

(** Finds an entry by its key. *)
Ltac in_entries :=
  lazymatch goal with
  | |- _ ∈ activateEntries _ => unfold activateEntries; in_entries
  | |- _ ∈ _ :: _ => (apply elem_of_cons; left; reflexivity) || (apply elem_of_cons; right; in_entries)
  | |- _ ∈ _ ++ _ => (apply elem_of_app; left; in_entries) || (apply elem_of_app; right; in_entries)
  end.

(** ** What arrives *)

Section message.
Context `{HostAddressText}.

(** A string or nothing. *)
Definition optionalString (j : json) : option string :=
  match j with JUndefined => Some "" | _ => toStringN j end.

Lemma message_string raw k v :
  (k, v) ∈ activateEntries raw → getString (activateMessage raw) k = toStringN v.
Proof. intros [Hv Hc]%message_value. unfold getString. rewrite Hv, Hc. by destruct v. Qed.

Lemma message_optional raw k v :
  (k, v) ∈ activateEntries raw → getOptional (activateMessage raw) k = optionalString v.
Proof. intros [Hv Hc]%message_value. unfold getOptional. rewrite Hv, Hc. by destruct v. Qed.

Lemma message_list raw k l :
  (k, JArray l) ∈ activateEntries raw → parseStringList (activateMessage raw) k = mapM toStringN l.
Proof. intros [Hv Hc]%message_value. unfold parseStringList. by rewrite Hc, Hv. Qed.

Lemma message_text raw k v :
  (k, v) ∈ activateEntries raw → jvalue (activateMessage raw) k = v.
Proof. by intros [? _]%message_value. Qed.

Lemma message_port raw : getDouble (activateMessage raw) "serverPort" = Some (toIntJ (jvalue (wgConfigOf raw) "port")).
Proof.
  destruct (message_value raw "serverPort" (JNumber (toIntJ (jvalue (wgConfigOf raw) "port")))) as [Hv Hc]; [in_entries|].
  unfold getDouble. by rewrite Hv, Hc.
Qed.

Lemma message_secondary raw :
  getOptional (activateMessage raw) "secondaryDnsServer" =
    if contains (toStringJ "" (jvalue raw "dns1")) "172.29.172.254" then Some "" else optionalString (jvalue raw "dns2").
Proof.
  destruct (contains _ _) eqn:Hdns.
  - unfold getOptional. destruct (message_missing raw "secondaryDnsServer") as [_ ->]; [decide_closed| |done].
    unfold activateEntries. rewrite Hdns. destruct (qcontains _ _); cbn [fmap list_fmap app fst negb];
      decide_closed.
  - apply message_optional. unfold activateEntries. rewrite Hdns. cbn [negb]. in_entries.
Qed.

(** The ranges of an object, without the IPv6 ones. *)
Definition v4Range (address : string) (range : Z) : list IPAddress :=
  if bool_decide (protocol (parseHost address) = IPv6Protocol) then []
  else [IPRange (parseHost address) (if inInt range then range else 0)].

Lemma parseRange_object address range b : parseRange (rangeObject address range b) = Some (v4Range address range).
Proof.
  unfold parseRange, rangeObject. cbn [isObjectJ toObjectJ negb].
  set (o := jinsert _ _ _). assert (jvalue o "address" = JString address) as -> by reflexivity.
  assert (jvalue o "range" = JNumber range) as -> by reflexivity.
  assert (jvalue o "isIpv6" = JBool b) as -> by reflexivity.
  cbn. unfold v4Range. by case_bool_decide.
Qed.

Definition textRange (ipRange : string) : list IPAddress :=
  match splitChar "/" ipRange with
  | address :: range :: _ => v4Range address (atoi range)
  | _ => v4Range ipRange 32
  end.

Lemma parseRange_text t : parseRange (rangeOfText t) = Some (textRange t).
Proof. unfold rangeOfText, textRange. destruct (splitChar _ _) as [|? [|? ?]]; apply parseRange_object. Qed.

(** The ranges that the tunnel takes. *)
Definition tunnelRanges (plainAllowedIP : list json) (splitTunnelType : Z) (splitTunnelSites : list json) : list IPAddress :=
  if negb (isDefaultAllowedIp plainAllowedIP) && negb (bool_decide (length plainAllowedIP = 0%nat)) then
    plainAllowedIP ≫= λ v, textRange (toStringJ "" v)
  else
    (if (splitTunnelType =? 0) || (splitTunnelType =? 2) then v4Range "0.0.0.0" 0 ++ v4Range "::" 0 else []) ++
    (if splitTunnelType =? 1 then splitTunnelSites ≫= λ v, textRange (toStringJ "" v) else []).

Lemma parse_texts l :
  ∃ parts, mapM parseRange ((λ v, rangeOfText (toStringJ "" v)) <$> l) = Some parts ∧
    concat parts = l ≫= λ v, textRange (toStringJ "" v).
Proof.
  induction l as [|v l (parts & Hl & Hc)]; [by exists []|]. exists (textRange (toStringJ "" v) :: parts).
  cbn. rewrite parseRange_text. cbn. rewrite Hl. split; [done|]. by rewrite Hc.
Qed.

Lemma parse_allowedRanges plain type sites :
  ∃ parts, mapM parseRange (allowedRanges plain type sites) = Some parts ∧ concat parts = tunnelRanges plain type sites.
Proof.
  unfold allowedRanges, tunnelRanges. destruct (_ && _); [apply parse_texts|].
  destruct ((type =? 0) || (type =? 2)) eqn:Ht.
  - assert (type =? 1 = false) as -> by lia. rewrite app_nil_r. cbn [mapM]. rewrite !parseRange_object. cbn.
    eexists. split; [done|]. cbn. by rewrite !app_nil_r.
  - destruct (type =? 1); cbn [app]; [apply parse_texts|by exists []].
Qed.

Lemma mapM_strings l : mapM toStringN (JString <$> l) = Some l.
Proof. induction l as [|t l IH]; [done|]. cbn. by rewrite IH. Qed.

(** The sites that stay outside the tunnel. *)
Definition outsideSites (splitTunnelType : Z) (sites : list json) : list string :=
  if splitTunnelType =? 2 then filter (λ t, t ≠ "") ((λ v, trimmed (toStringJ "" v)) <$> sites) else [].

Lemma mapM_excluded hostName type sites :
  mapM toStringN (excludedRanges hostName type sites) =
    Some (trimmed (toStringJ "" hostName) :: outsideSites type sites).
Proof.
  unfold excludedRanges, outsideSites. cbn. destruct (type =? 2); [|done]. by rewrite mapM_strings.
Qed.

Lemma message_hopType raw : hopTypeOf (activateMessage raw) = Some SingleHop.
Proof.
  unfold hopTypeOf. destruct (message_missing raw "hopType") as [_ ->]; [decide_closed| |done].
  unfold activateEntries. destruct (qcontains _ _), (negb _); cbn [fmap list_fmap app fst]; decide_closed.
Qed.

Lemma message_no_ipv6 raw : jvalue (activateMessage raw) "serverIpv6AddrIn" = JUndefined.
Proof.
  apply message_missing; [decide_closed|].
  unfold activateEntries. destruct (qcontains _ _), (negb _); cbn [fmap list_fmap app fst]; decide_closed.
Qed.

Notation splitType raw := (toIntJ (jvalue raw "splitTunnelType")).
Notation sitesOf raw := (toArrayJ (jvalue raw "splitTunnelSites")).

Lemma message_ranges raw :
  parseRanges (activateMessage raw) =
    Some (merge_sort longerPrefix
            (tunnelRanges (toArrayJ (jvalue (wgConfigOf raw) "allowed_ips")) (splitType raw) (sitesOf raw))).
Proof.
  unfold parseRanges.
  destruct (message_value raw "allowedIPAddressRanges"
    (JArray (allowedRanges (toArrayJ (jvalue (wgConfigOf raw) "allowed_ips")) (splitType raw) (sitesOf raw))))
    as [-> ->]; [in_entries|]. cbn [isUndefinedJ isArrayJ toArrayJ negb].
  destruct (parse_allowedRanges (toArrayJ (jvalue (wgConfigOf raw) "allowed_ips")) (splitType raw) (sitesOf raw))
    as (parts & -> & Hparts). cbn. by rewrite Hparts.
Qed.

(** The configuration, from what the client was given. *)
Lemma parse_message raw :
  let wg := wgConfigOf raw in
  ∃ psk mtu keepalive gateway6 killSwitch,
  parseConfig (activateMessage raw) =
    (priv ← toStringN (jvalue wg "client_priv_key");
     pub ← toStringN (jvalue wg "server_pub_key");
     ip ← toStringN (jvalue wg "client_ip");
     host ← toStringN (jvalue wg "hostName");
     d1 ← optionalString (jvalue raw "dns1");
     d2 ← (if contains (toStringJ "" (jvalue raw "dns1")) "172.29.172.254" then Some ""
           else optionalString (jvalue raw "dns2"));
     rules ← mapM toStringN (toArrayJ (jvalue raw "splitTunnelDnsRules"));
     apps ← mapM toStringN (toArrayJ (jvalue raw "splitTunnelApps"));
     dns ← mapM toStringN (toArrayJ (jvalue raw "allowedDnsServers"));
     Some (Config SingleHop (toStringJ "" (jvalue raw "protocol")) priv (Some ip) None host gateway6 pub (Some host) None
             psk d1 d2 (toIntJ (jvalue wg "port")) mtu keepalive
             (merge_sort longerPrefix (tunnelRanges (toArrayJ (jvalue wg "allowed_ips")) (splitType raw) (sitesOf raw)))
             (trimmed host :: outsideSites (splitType raw) (sitesOf raw))
             rules apps dns killSwitch (awgOf (activateMessage raw)))).
Proof.
  intros wg. eexists _, _, _, _, _. unfold parseConfig.
  rewrite (message_string raw "privateKey" (jvalue wg "client_priv_key")) by in_entries.
  rewrite (message_string raw "serverPublicKey" (jvalue wg "server_pub_key")) by in_entries.
  rewrite (message_string raw "protocol" (JString (toStringJ "" (jvalue raw "protocol")))) by in_entries.
  rewrite message_port, message_hopType, message_ranges, message_secondary, message_no_ipv6.
  rewrite (message_text raw "deviceIpv4Address" (jvalue wg "client_ip")) by in_entries.
  rewrite (message_text raw "serverIpv4AddrIn" (jvalue wg "hostName")) by in_entries.
  rewrite (message_text raw "serverIpv4Gateway" (jvalue wg "hostName")) by in_entries.
  rewrite (message_optional raw "primaryDnsServer" (jvalue raw "dns1")) by in_entries.
  rewrite (message_list raw "excludedAddresses" (excludedRanges (jvalue wg "hostName") (splitType raw) (sitesOf raw))) by in_entries.
  rewrite (message_list raw "splitTunnelDnsRules" (toArrayJ (jvalue raw "splitTunnelDnsRules"))) by in_entries.
  rewrite (message_list raw "vpnDisabledApps" (toArrayJ (jvalue raw "splitTunnelApps"))) by in_entries.
  rewrite (message_list raw "allowedDnsServers" (toArrayJ (jvalue raw "allowedDnsServers"))) by in_entries.
  rewrite mapM_excluded.
  destruct (toStringN (jvalue wg "client_priv_key")); [cbn [mbind option_bind]|done].
  destruct (toStringN (jvalue wg "server_pub_key")); [cbn [mbind option_bind]|done].
  destruct (toStringN (jvalue wg "client_ip")); [cbn [mbind option_bind]|done].
  rewrite bool_decide_eq_false_2 by done.
  destruct (jvalue wg "hostName"); done.
Qed.

Lemma and_iff_compat_l_pre (P Q R : Prop) : (P → (Q ↔ R)) → P ∧ Q ↔ P ∧ R.
Proof. tauto. Qed.

Lemma isStringJ_some j : isStringJ j = true ↔ is_Some (toStringN j).
Proof. unfold is_Some. destruct j; naive_solver. Qed.

Lemma mapM_some l : Forall (λ j, isStringJ j = true) l ↔ is_Some (mapM toStringN l).
Proof.
  rewrite mapM_is_Some. apply Forall_iff. apply isStringJ_some.
Qed.

Lemma awgOf_lookup o k v :
  awgOf o !! k = Some v ↔ k ∈ awgProtocolKeys ∧ isUndefinedJ (jvalue o k) = false ∧ toStringJ "" (jvalue o k) = v.
Proof.
  unfold awgOf. generalize awgProtocolKeys. intros keys.
  assert (∀ m : gmap string string, foldl (λ m key, if isUndefinedJ (jvalue o key) then m else <[key := toStringJ "" (jvalue o key)]> m) m keys !! k = Some v ↔
    k ∈ keys ∧ isUndefinedJ (jvalue o k) = false ∧ toStringJ "" (jvalue o k) = v ∨
    (k ∉ keys ∨ isUndefinedJ (jvalue o k) = true) ∧ m !! k = Some v) as Hfold; [|rewrite Hfold, lookup_empty; naive_solver].
  induction keys as [|key keys IH]; intros m; cbn [foldl]; [set_solver|]. rewrite IH, elem_of_cons.
  destruct (isUndefinedJ (jvalue o key)) eqn:Hu.
  - destruct (decide (k = key)) as [->|]; [rewrite Hu|]; naive_solver.
  - destruct (decide (k = key)) as [->|Hne]; [rewrite Hu, lookup_insert_eq|rewrite lookup_insert_ne by done; naive_solver].
    destruct (decide (key ∈ keys)); naive_solver.
Qed.

(** The parameters of AmneziaWG that arrive are the ones that are set. *)
Lemma message_awgOf raw k v :
  awgOf (activateMessage raw) !! k = Some v ↔ k ∈ awgProtocolKeys ∧ jvalue (wgConfigOf raw) k = JString v ∧ v ≠ "".
Proof.
  rewrite awgOf_lookup. apply and_iff_compat_l_pre. intros Hk.
  assert (jvalue (activateMessage raw) k = default JUndefined
    match jvalue (wgConfigOf raw) k with JString v => if isEmpty v then None else Some (JString v) | _ => None end) as ->
    by (unfold jvalue at 1, qvalue; by rewrite message_awg).
  destruct (jvalue (wgConfigOf raw) k) as [| | | |t| |]; cbn; try naive_solver. destruct t; naive_solver.
Qed.

Lemma toStringN_some j t : toStringN j = Some t → j = JString t.
Proof. destruct j; naive_solver. Qed.

Lemma v4Range_v4 a n r : r ∈ v4Range a n → protocol (address r) ≠ IPv6Protocol.
Proof. unfold v4Range. case_bool_decide; [set_solver|]. by intros ->%list_elem_of_singleton. Qed.

Lemma textRange_v4 t r : r ∈ textRange t → protocol (address r) ≠ IPv6Protocol.
Proof. unfold textRange. destruct (splitChar _ _) as [|? [|? ?]]; apply v4Range_v4. Qed.

Lemma tunnelRanges_v4 plain type sites r : r ∈ tunnelRanges plain type sites → protocol (address r) ≠ IPv6Protocol.
Proof.
  assert (∀ l, r ∈ l ≫= (λ v, textRange (toStringJ "" v)) → protocol (address r) ≠ IPv6Protocol) as Htexts.
  { intros l (v & Hv & _)%list_elem_of_bind. by eapply textRange_v4. }
  unfold tunnelRanges. destruct (_ && _); [apply Htexts|]. rewrite elem_of_app. intros [Hr|Hr].
  - destruct (_ || _); [|set_solver]. apply elem_of_app in Hr as [?|?]; by eapply v4Range_v4.
  - destruct (_ =? 1); [by eapply Htexts|set_solver].
Qed.

(** The daemon understands the client: the message that activates a tunnel is
    accepted exactly when the client's configuration has the two keys, the address
    of the device and the server as texts, and DNS servers and lists of texts where
    it has them; nothing else that the client sends is refused. *)
Lemma activate_accepted raw :
  let wg := wgConfigOf raw in
  is_Some (parseConfig (activateMessage raw)) ↔
  Forall (λ k, isStringJ (jvalue wg k) = true) ["client_priv_key"; "server_pub_key"; "client_ip"; "hostName"] ∧
  is_Some (optionalString (jvalue raw "dns1")) ∧
  (contains (toStringJ "" (jvalue raw "dns1")) "172.29.172.254" = true ∨ is_Some (optionalString (jvalue raw "dns2"))) ∧
  Forall (λ k, Forall (λ j, isStringJ j = true) (toArrayJ (jvalue raw k)))
    ["splitTunnelDnsRules"; "splitTunnelApps"; "allowedDnsServers"].
Proof.
  intros wg. destruct (parse_message raw) as (psk & mtu & keepalive & gateway6 & killSwitch & ->). fold wg.
  rewrite !Forall_cons, !Forall_nil, !isStringJ_some, !mapM_some. unfold is_Some.
  split.
  - intros [cfg Hcfg].
    repeat match type of Hcfg with mbind _ _ = _ => apply bind_Some in Hcfg as (? & ? & Hcfg) end.
    destruct (contains _ _); split_and!; eauto.
  - intros ((Hpriv & Hpub & Hip & Hhost & _) & Hd1 & Hd2 & Hr & Ha & Hd & _).
    destruct Hpriv as [? ->], Hpub as [? ->], Hip as [? ->], Hhost as [? ->], Hd1 as [? ->], Hr as [? ->], Ha as [? ->], Hd as [? ->].
    cbn [mbind option_bind]. destruct (contains _ _); [eexists; reflexivity|].
    destruct Hd2 as [|[? ->]]; [done|]. eexists. reflexivity.
Qed.

(** C30: what the client asks for is what the daemon does: the accepted configuration
    has the client's keys, port and protocol; the server's own address is always the
    first one that is kept outside the tunnel, followed by the user's sites when they
    are excluded; the ranges for the tunnel are the ones of the configuration or of
    the sites, longest prefix first and without IPv6; and the parameters of AmneziaWG
    are exactly the ones that are set. *)
Theorem activate_received raw cfg :
  let wg := wgConfigOf raw in
  parseConfig (activateMessage raw) = Some cfg →
  jvalue wg "client_priv_key" = JString (privateKey cfg) ∧ jvalue wg "server_pub_key" = JString (serverPublicKey cfg) ∧
  serverPort cfg = toIntJ (jvalue wg "port") ∧ protocolName cfg = toStringJ "" (jvalue raw "protocol") ∧
  (∃ host, jvalue wg "hostName" = JString host ∧ serverIpv4AddrIn cfg = Some host ∧
     excludedAddresses cfg = trimmed host :: outsideSites (splitType raw) (sitesOf raw)) ∧
  allowedIPAddressRanges cfg ≡ₚ tunnelRanges (toArrayJ (jvalue wg "allowed_ips")) (splitType raw) (sitesOf raw) ∧
  Sorted longerPrefix (allowedIPAddressRanges cfg) ∧
  (∀ r, r ∈ allowedIPAddressRanges cfg → protocol (address r) ≠ IPv6Protocol) ∧
  (∀ k v, awgParameters cfg !! k = Some v ↔ k ∈ awgProtocolKeys ∧ jvalue wg k = JString v ∧ v ≠ "").
Proof.
  intros wg Hcfg. destruct (parse_message raw) as (psk & mtu & keepalive & gateway6 & killSwitch & Hparse).
  rewrite Hparse in Hcfg. fold wg in Hcfg. clear Hparse.
  apply bind_Some in Hcfg as (priv & Hpriv & Hcfg). apply bind_Some in Hcfg as (pub & Hpub & Hcfg).
  apply bind_Some in Hcfg as (ip & Hip & Hcfg). apply bind_Some in Hcfg as (host & Hhost & Hcfg).
  do 5 (apply bind_Some in Hcfg as (? & _ & Hcfg)). injection Hcfg as <-.
  cbn [privateKey serverPublicKey serverPort protocolName serverIpv4AddrIn excludedAddresses allowedIPAddressRanges awgParameters].
  split_and!; [by apply toStringN_some|by apply toStringN_some|done|done| |apply merge_sort_Permutation| | |].
  - exists host. split_and!; [by apply toStringN_some|done|done].
  - apply Sorted_merge_sort, _.
  - intros r Hr. rewrite merge_sort_Permutation in Hr. by eapply tunnelRanges_v4.
  - apply message_awgOf.
Qed.
End message.

(** ** A configuration *)

#[local] Existing Instance quadText.

Definition sampleWg : QJsonObject :=
  <["client_priv_key" := JString "aaaa"]> (<["server_pub_key" := JString "bbbb"]> (<["client_ip" := JString "10.8.1.2"]>
  (<["hostName" := JString " 203.0.113.5"]> (<["port" := JNumber 51820]> (<["Jc" := JString "4"]> (<["H1" := JString ""]> ∅)))))).

Definition sampleRaw : QJsonObject :=
  <["protocol" := JString "awg"]> (<["awg_config_data" := JObject sampleWg]> (<["dns1" := JString "1.1.1.1"]>
  (<["splitTunnelType" := JNumber 2]>
  (<["splitTunnelSites" := JArray [JString "192.0.2.0/24"; JString " "; JString " 198.51.100.7 "]]> ∅)))).

Lemma activate_received_witness :
  ∃ cfg, parseConfig (activateMessage sampleRaw) = Some cfg ∧
    excludedAddresses cfg = ["203.0.113.5"; "192.0.2.0/24"; "198.51.100.7"] ∧
    awgParameters cfg !! "Jc" = Some "4" ∧ serverPort cfg = 51820.
Proof.
  assert (is_Some (parseConfig (activateMessage sampleRaw))) as [cfg Hcfg] by (eexists; vm_compute; reflexivity).
  exists cfg. split; [exact Hcfg|].
  destruct (activate_received sampleRaw cfg Hcfg) as (_ & _ & Hport & _ & (host & Hhost & _ & Hex) & _ & _ & _ & Hawg).
  split_and!.
  - rewrite Hex. vm_compute in Hhost. injection Hhost as <-. vm_compute. reflexivity.
  - apply Hawg. split; [decide_closed|]. split; [vm_compute; reflexivity|discriminate].
  - rewrite Hport. vm_compute. reflexivity.
Defined.
