(* ===== verification/Daemon.v ===== *)
(** * The daemon ([client/daemon/daemon.cpp])

    The daemon that the service runs brings the WireGuard interface up and down,
    switches servers, waits for the handshake and keeps routes for the addresses that
    stay outside the tunnel.  Its operations are programs ([Effects]) over its state;
    the utilities for WireGuard, addresses and DNS are classes with one
    implementation per system and answer requests, and the answers are arbitrary.  A
    scope guard that emits a signal is a wrapper around the body.  An activation that
    starts over is bounded by fuel, and two rounds are enough.

    A host name is looked up asynchronously: the request records the generation it
    was made in, and its answer is an event. *)

From Stdlib Require Import Ascii.
From S2P Require Import Prelude QtCore Variant NetworkUtilities IpAddress SplitTunnel.
From S2P Require Import Effects InterfaceConfig.
From stdpp Require Import functions options.
#[local] Open Scope Z_scope.
#[local] Open Scope script_scope.

#[local] Set Default Proof Using "Type*".

(** ** Data *)

Inductive Op := Up | Down | Switch.

(** [WireguardUtils::PeerStatus]. *)
Record PeerStatus := Peer { pubkey : string; handshake : Z; rxBytes : Z; txBytes : Z }.

(** [Daemon::ConnectionState]: the date is set by the handshake. *)
Record ConnectionState := Conn { date : option Z; config : InterfaceConfig }.

Record daemon := DaemonState {
  connections : HopType → option ConnectionState;
  excludedAddrSet : gmap IPAddress Z;
  handshakeTimer : bool;
  resolveHosts : list string;
  dnsRoutes : gset IPAddress;
  generation : Z;
  dnsKillSwitch : bool;
}.

(** The order of the keys of [m_connections]. *)
Definition hopTypes : list HopType := [SingleHop; MultiHopEntry; MultiHopExit].

Definition connectionsOf (g : daemon) : list ConnectionState := omap (connections g) hopTypes.

Inductive daemonCall :=
  (* signals *)
  | EmitConnected (pubkey : string)
  | EmitActivationFailure
  | EmitDisconnected
  (* WireGuard *)
  | InterfaceExists
  | InterfaceName
  | AddInterface (config : InterfaceConfig)
  | DeleteInterface
  | UpdatePeer (config : InterfaceConfig)
  | DeletePeer (config : InterfaceConfig)
  | GetPeerStatus
  | UpdateRoutePrefix (ip : IPAddress)
  | DeleteRoutePrefix (ip : IPAddress)
  | AddExclusionRoute (ip : IPAddress)
  | DeleteExclusionRoute (ip : IPAddress)
  (* addresses of the interface *)
  | AddInterfaceIPs (config : InterfaceConfig)
  | SetMTUAndUp (config : InterfaceConfig)
  (* DNS *)
  | UpdateResolvers (name : string) (resolvers : list hostAddress)
  | RestoreResolvers
  | ConfigureSplitTunnelRules (rules : list string)
  | LookupHost (host : string) (generation : Z)
  (* the rest of the service and the platform *)
  | AddAllowedRange (ips : list string)
  | PrepareActivation (config : InterfaceConfig)
  | RunOp (op : Op) (config : InterfaceConfig)
  (* the answer to a command on its socket *)
  | Reply (message : QJsonObject).

Definition daemonAns (c : daemonCall) : Type :=
  match c with
  | InterfaceName => string
  | GetPeerStatus => list PeerStatus
  | EmitConnected _ | EmitActivationFailure | EmitDisconnected | ConfigureSplitTunnelRules _ | LookupHost _ _
  | AddAllowedRange _ | PrepareActivation _ | Reply _ => unit
  | _ => bool
  end.

Canonical Structure daemonIO : interface := Interface daemonCall daemonAns.

(** [QByteArray::fromBase64]. *)
Class Base64 := fromBase64 : string → string.

(** [QDateTime::toString] of a valid date. *)
Class DateText := dateText : Z → string.

Notation program := (prog daemonIO daemon).
Notation modify := (setGlobals (I := daemonIO) (G := daemon)).
Notation get := (getGlobals (I := daemonIO) (G := daemon)).
Notation ask c := (request (G := daemon) (c : call daemonIO)).
Notation skip := (Ret tt : program unit).

Definition set_connections (v : HopType → option ConnectionState) (g : daemon) : daemon :=
  DaemonState v (excludedAddrSet g) (handshakeTimer g) (resolveHosts g) (dnsRoutes g) (generation g) (dnsKillSwitch g).
Definition set_excluded (v : gmap IPAddress Z) (g : daemon) : daemon :=
  DaemonState (connections g) v (handshakeTimer g) (resolveHosts g) (dnsRoutes g) (generation g) (dnsKillSwitch g).
Definition set_timer (v : bool) (g : daemon) : daemon :=
  DaemonState (connections g) (excludedAddrSet g) v (resolveHosts g) (dnsRoutes g) (generation g) (dnsKillSwitch g).
Definition set_hosts (v : list string) (g : daemon) : daemon :=
  DaemonState (connections g) (excludedAddrSet g) (handshakeTimer g) v (dnsRoutes g) (generation g) (dnsKillSwitch g).
Definition set_dnsRoutes (v : gset IPAddress) (g : daemon) : daemon :=
  DaemonState (connections g) (excludedAddrSet g) (handshakeTimer g) (resolveHosts g) v (generation g) (dnsKillSwitch g).
Definition set_generation (v : Z) (b : bool) (g : daemon) : daemon :=
  DaemonState (connections g) (excludedAddrSet g) (handshakeTimer g) (resolveHosts g) (dnsRoutes g) v b.

Definition newDaemon : daemon := DaemonState (λ _, None) ∅ false [] ∅ 0 false.

Section daemon.
Context `{HostAddressText, SubnetText, Base64, DateText} (supportIPUtils : bool).

Definition when (b : bool) (p : program unit) : program unit := if b then p else skip.

Definition peerKeysMatch (lhs rhs : string) : bool :=
  let lhsKey := fromBase64 lhs in
  (String.length lhsKey =? 32)%nat && bool_decide (lhsKey = fromBase64 rhs).

(** ** Exclusion routes *)

Definition addExclusionRoute (prefix : IPAddress) : program bool :=
  g ← get;
  match excludedAddrSet g !! prefix with
  | Some n => modify (set_excluded (<[prefix := n + 1]> (excludedAddrSet g)));; Ret true
  | None =>
      ok ← ask (AddExclusionRoute prefix);
      if negb (ok : bool) then Ret false
      else modify (λ g, set_excluded (<[prefix := 1]> (excludedAddrSet g)) g);; Ret true
  end.

(** The subscript of a missing key reads as zero. *)
Definition delExclusionRoute (prefix : IPAddress) : program bool :=
  g ← get;
  let n := default 0 (excludedAddrSet g !! prefix) in
  if 1 <? n then modify (set_excluded (<[prefix := n - 1]> (excludedAddrSet g)));; Ret true
  else modify (set_excluded (delete prefix (excludedAddrSet g)));; ask (DeleteExclusionRoute prefix) : program bool.

(** The addresses of a list of texts, without blanks. *)
Definition addressTexts (l : list string) : list string := filter (λ t, t ≠ "") (trimmed <$> l).

Definition refreshSplitTunnelStaticRoutes (addresses : list string) : program unit :=
  forEach (addressTexts addresses) (λ address, addExclusionRoute (ofText address);; skip).

Definition clearSplitTunnelDnsRoutes : program unit :=
  g ← get;
  forEach (elements (dnsRoutes g)) (λ route,
    g ← get;
    if bool_decide (is_Some (excludedAddrSet g !! route)) then delExclusionRoute route;; skip else skip);;
  modify (set_dnsRoutes ∅).

(** ** Host names that stay outside the tunnel *)

Definition configureSplitTunnelDnsRoutes (config : InterfaceConfig) : program unit :=
  modify (λ g, set_generation (generation g + 1) (killSwitchEnabled config) g);;
  clearSplitTunnelDnsRoutes;;
  match mapM fromText (splitTunnelDnsRules config) with
  | None => Throw
  | Some rules =>
      let hostRules := filter (λ r, isValid r = true ∧ type r ≠ IpSubnet) rules in
      let exact := filter (λ r, type r = ExactHost) hostRules in
      modify (set_hosts (dedup (normalizedText <$> exact)));;
      ask (ConfigureSplitTunnelRules (dedup (normalizedText <$> hostRules)))
  end.

Definition refreshSplitTunnelDnsRoutes : program unit :=
  g ← get;
  forEach (resolveHosts g) (λ host, ask (LookupHost host (generation g))).

(** One address of an answer: the ones that got a route. *)
Fixpoint routeIps (ips : list string) (routed : list string) : program (list string) :=
  match ips with
  | [] => Ret routed
  | ip :: ips =>
      let route := ofText ip in
      g ← get;
      if bool_decide (route ∈ dnsRoutes g) then routeIps ips routed
      else
        ok ← addExclusionRoute route;
        if (ok : bool) then
          modify (λ g, set_dnsRoutes ({[route]} ∪ dnsRoutes g) g);;
          routeIps ips (routed ++ [ip])
        else routeIps ips routed
  end.

Definition onSplitTunnelHostResolved (host : string) (ips : list string) : program unit :=
  routed ← routeIps ips [];
  g ← get;
  if dnsKillSwitch g && negb (bool_decide (routed = [])) then ask (AddAllowedRange routed) else skip.

(** The answer of a lookup that was made in a generation. *)
Definition onLookupFinished (host : string) (lookupGeneration : Z) (addresses : list hostAddress) : program unit :=
  g ← get;
  if negb (lookupGeneration =? generation g) then skip
  else
    let ips := dedup (printHost <$> filter (λ a, protocol a = IPv4Protocol) addresses) in
    if bool_decide (ips = []) then skip else onSplitTunnelHostResolved host ips.

(** ** Activation *)

Definition maybeUpdateResolvers (config : InterfaceConfig) : program bool :=
  if bool_decide (hopType config = MultiHopExit) || bool_decide (hopType config = SingleHop) then
    let resolvers :=
      [parseHost (primaryDnsServer config)] ++
      (if isEmpty (secondaryDnsServer config) then [] else [parseHost (secondaryDnsServer config)]) ++
      (if bool_decide (primaryDnsServer config = serverIpv4Gateway config) then [parseHost (serverIpv6Gateway config)] else []) in
    name ← ask InterfaceName;
    ask (UpdateResolvers name resolvers) : program bool
  else Ret true.

Definition supportServerSwitching (g : daemon) (cfg : InterfaceConfig) : bool :=
  match connections g (hopType cfg) with
  | None => false
  | Some conn =>
      let current := config conn in
      bool_decide (privateKey current = privateKey cfg) &&
      bool_decide (default "" (deviceIpv4Address current) = default "" (deviceIpv4Address cfg)) &&
      bool_decide (default "" (deviceIpv6Address current) = default "" (deviceIpv6Address cfg)) &&
      bool_decide (serverIpv4Gateway current = serverIpv4Gateway cfg) &&
      bool_decide (serverIpv6Gateway current = serverIpv6Gateway cfg)
  end.

(** Calls until one fails; whether none did. *)
Fixpoint allOf (ps : list (program bool)) : program bool :=
  match ps with
  | [] => Ret true
  | p :: ps => ok ← p; if (ok : bool) then allOf ps else Ret false
  end.

Definition setConnection (cfg : InterfaceConfig) : program unit :=
  modify (λ g, set_connections (<[hopType cfg := Some (Conn None cfg)]> (connections g)) g).

(** The routes of the new peer are set until one fails, and then the ones of the old
    peer are removed. *)
Definition switchServer (cfg : InterfaceConfig) : program bool :=
  g ← get;
  match connections g (hopType cfg) with
  | None => Throw
  | Some last =>
      let lastConfig := config last in
      refreshSplitTunnelStaticRoutes (excludedAddresses cfg);;
      ok ← ask (UpdatePeer cfg);
      if negb (ok : bool) then Ret false
      else
        allOf ((λ ip, ask (UpdateRoutePrefix ip) : program bool) <$> allowedIPAddressRanges cfg);;
        forEach (addressTexts (excludedAddresses lastConfig)) (λ address,
          delExclusionRoute (ofHost (parseHost address));; skip);;
        forEach (filter (λ ip, ip ∉ allowedIPAddressRanges cfg) (allowedIPAddressRanges lastConfig)) (λ ip,
          ask (DeleteRoutePrefix ip);; skip);;
        ok ← (if bool_decide (serverPublicKey cfg ≠ serverPublicKey lastConfig)
              then ask (DeletePeer lastConfig) : program bool else Ret true);
        if negb ok then Ret false else setConnection cfg;; Ret true
  end.

(** The end of [deactivate]. *)
Definition cleanupExclusions : program bool :=
  g ← get;
  forEach (map_to_list (excludedAddrSet g)).*1 (λ ip, ask (DeleteExclusionRoute ip);; skip);;
  modify (set_excluded ∅);;
  modify (set_connections (λ _, None));;
  ask DeleteInterface : program bool.

Definition deactivate (emitSignals : bool) : program bool :=
  g ← get;
  down ← match connectionsOf g with
         | first :: _ => ask (RunOp Down (config first)) : program bool
         | [] => Ret true
         end;
  if negb down then Ret false
  else
    when emitSignals (ask EmitDisconnected);;
    modify (λ g, set_generation (generation g + 1) false g);;
    clearSplitTunnelDnsRoutes;;
    modify (set_hosts []);;
    ask (ConfigureSplitTunnelRules []);;
    ask RestoreResolvers;;
    g ← get;
    forEach (connectionsOf g) (λ conn,
      forEach (allowedIPAddressRanges (config conn)) (λ ip, ask (DeleteRoutePrefix ip);; skip);;
      ask (DeletePeer (config conn));; skip);;
    cleanupExclusions.

(** The scope guard of [activate]: the signal is emitted on every return of false. *)
Definition failureGuard (p : program bool) : program bool :=
  ok ← p;
  if (ok : bool) then Ret true else ask EmitActivationFailure;; Ret false.

Definition recordConnection (cfg : InterfaceConfig) (op : Op) : program bool :=
  status ← ask (RunOp op cfg);
  if (status : bool) then setConnection cfg;; modify (set_timer true);; Ret true else Ret false.

(** The interface is brought up from nothing. *)
Definition bringUp (cfg : InterfaceConfig) : program bool :=
  ask (PrepareActivation cfg);;
  allOf
    ([exists_ ← ask InterfaceExists; if (exists_ : bool) then Ret true else ask (AddInterface cfg) : program bool] ++
     (if supportIPUtils then [ask (AddInterfaceIPs cfg) : program bool; ask (SetMTUAndUp cfg) : program bool] else []) ++
     [ask (UpdatePeer cfg) : program bool; maybeUpdateResolvers cfg] ++
     ((λ ip, ask (UpdateRoutePrefix ip) : program bool) <$> allowedIPAddressRanges cfg) ++
     [recordConnection cfg Up]).

Fixpoint activateLoop (fuel : nat) (cfg : InterfaceConfig) : program bool :=
  match fuel with
  | O => OutOfFuel
  | S fuel =>
      failureGuard (
        g ← get;
        if bool_decide (is_Some (connections g (hopType cfg))) then
          if supportServerSwitching g cfg then
            allOf [switchServer cfg; ask RestoreResolvers : program bool; maybeUpdateResolvers cfg; recordConnection cfg Switch]
          else allOf [deactivate false; activateLoop fuel cfg]
        else bringUp cfg)
  end.

Definition activate (cfg : InterfaceConfig) : program bool := activateLoop 2 cfg.

(** ** Handshakes *)

(** The inner loop, for one connection. *)
Definition checkPeer (hop : HopType) (cfg : InterfaceConfig) (status : PeerStatus) : program unit :=
  if negb (peerKeysMatch (serverPublicKey cfg) (pubkey status)) then skip
  else if handshake status =? 0 then skip
  else
    modify (λ g, set_connections (<[hop := Some (Conn (Some (handshake status)) cfg)]> (connections g)) g);;
    ask (EmitConnected (pubkey status));;
    configureSplitTunnelDnsRoutes cfg;;
    refreshSplitTunnelStaticRoutes (excludedAddresses cfg);;
    refreshSplitTunnelDnsRoutes.

Definition awaiting (g : daemon) (hop : HopType) : option InterfaceConfig :=
  match connections g hop with
  | Some (Conn None cfg) => Some cfg
  | _ => None
  end.

Definition checkHandshake : program unit :=
  modify (set_timer false);;
  peers ← ask GetPeerStatus;
  forEach hopTypes (λ hop,
    g ← get;
    match awaiting g hop with
    | Some cfg => forEach peers (checkPeer hop cfg)
    | None => skip
    end);;
  g ← get;
  when (existsb (λ hop, bool_decide (is_Some (awaiting g hop))) hopTypes) (modify (set_timer true)).

(** ** Status *)

(** The answer for the first connection and its peer. *)
Definition statusOf (connection : ConnectionState) (status : PeerStatus) : QJsonObject :=
  jinsert "rxBytes" (JNumber (rxBytes status)) (jinsert "txBytes" (JNumber (txBytes status))
  (jinsert "date" (JString (default "" (dateText <$> date connection)))
  (jinsert "deviceIpv4Address" (JString (default "" (deviceIpv4Address (config connection))))
  (jinsert "serverIpv4Gateway" (JString (serverIpv4Gateway (config connection)))
  (jinsert "connected" (JBool true) ∅))))).

Definition getStatus : program QJsonObject :=
  exists_ ← ask InterfaceExists;
  g ← get;
  match connectionsOf g with
  | [] => Ret (jinsert "connected" (JBool false) ∅)
  | connection :: _ =>
      if negb (exists_ : bool) then Ret (jinsert "connected" (JBool false) ∅)
      else
        peers ← ask GetPeerStatus;
        Ret match list_find (λ s, peerKeysMatch (pubkey s) (serverPublicKey (config connection)) = true) peers with
            | Some (_, status) => statusOf connection status
            | None => jinsert "connected" (JBool false) ∅
            end
  end.

(** ** Events *)

Inductive daemonEvent :=
  | Activate (cfg : InterfaceConfig)
  | Deactivate (emitSignals : bool)
  | GetStatus
  | HandshakeTimeout
  | LookupFinished (host : string) (generation : Z) (addresses : list hostAddress)
  | HostResolved (host : string) (ips : list string).

Definition handle (e : daemonEvent) : program unit :=
  match e with
  | Activate cfg => activate cfg;; skip
  | Deactivate emitSignals => deactivate emitSignals;; skip
  | GetStatus => getStatus;; skip
  | HandshakeTimeout => checkHandshake
  | LookupFinished host n addresses => onLookupFinished host n addresses
  | HostResolved host ips => onSplitTunnelHostResolved host ips
  end.
End daemon.
