(* ===== verification/DaemonSafety.v ===== *)
(** * Safety of the daemon

    What holds in every run of the daemon ([client/daemon/daemon.cpp]), whatever the
    utilities of the system answer: the routes for excluded addresses that are in the
    system are the ones the daemon counts, deactivation removes all of them and makes
    the answers of earlier lookups stale, an activation reports exactly its failures,
    and a connection is announced only after a handshake. *)

From Stdlib Require Import Ascii.
From S2P Require Import Prelude QtCore Variant NetworkUtilities IpAddress SplitTunnel.
From S2P Require Import Effects InterfaceConfig Daemon.
From stdpp Require Import functions options.
#[local] Open Scope Z_scope.
#[local] Open Scope script_scope.

#[local] Set Default Proof Using "Type*".

(** ** What the history says *)

(** The exclusion routes that are in the system. *)
Definition routeStep (routes : gset IPAddress) (e : event daemonIO) : gset IPAddress :=
  match evCall e as c return daemonAns c → gset IPAddress with
  | AddExclusionRoute ip => λ ok, if ok then {[ip]} ∪ routes else routes
  | DeleteExclusionRoute ip => λ _, routes ∖ {[ip]}
  | _ => λ _, routes
  end (evAns e).

Definition routesOf (h : trace daemonIO) : gset IPAddress := foldl routeStep ∅ h.

(** Every lookup was made in a generation up to [n]. *)
Definition lookupsUpTo (n : Z) (h : trace daemonIO) : Prop :=
  Forall (λ e, match evCall e with LookupHost _ m => m ≤ n | _ => True end) h.

(** A report of a handshake with a key. *)
Definition reports (pk : string) (e : event daemonIO) : Prop :=
  match evCall e as c return daemonAns c → Prop with
  | GetPeerStatus => λ peers, ∃ status, status ∈ peers ∧ pubkey status = pk ∧ handshake status ≠ 0
  | _ => λ _, False
  end (evAns e).

(** Every announcement of a connection follows a report of its handshake. *)
Definition announced (h : trace daemonIO) : Prop :=
  ∀ i e pk, h !! i = Some e → evCall e = EmitConnected pk → ∃ j e', (j < i)%nat ∧ h !! j = Some e' ∧ reports pk e'.

(** Requests that concern neither routes nor lookups. *)
Definition neutral (c : daemonCall) : bool :=
  match c with
  | AddExclusionRoute _ | DeleteExclusionRoute _ | LookupHost _ _ => false
  | _ => true
  end.

Lemma routesOf_snoc h e : routesOf (h ++ [e]) = routeStep (routesOf h) e.
Proof. unfold routesOf. by rewrite foldl_app. Qed.

Lemma announced_snoc h e :
  announced h → (∀ pk, evCall e = EmitConnected pk → ∃ e', e' ∈ h ∧ reports pk e') → announced (h ++ [e]).
Proof.
  intros Hh He i e1 pk Hi Hc. destruct (decide (i < length h)%nat) as [Hlt|Hge].
  - rewrite lookup_app_l in Hi by done. destruct (Hh i e1 pk Hi Hc) as (j & e' & Hj & Hej & Hr).
    exists j, e'. split_and!; [done| |done]. by apply lookup_app_l_Some.
  - apply lookup_app_Some in Hi as [Hi|[_ Hi]]; [apply lookup_lt_Some in Hi; lia|].
    apply list_lookup_singleton_Some in Hi as [_ <-]. destruct (He pk Hc) as (e' & Hin & Hr).
    apply list_elem_of_lookup in Hin as [j Hj]. exists j, e'.
    split_and!; [apply lookup_lt_Some in Hj; lia|by apply lookup_app_l_Some|done].
Qed.

Lemma lookups_mono n m h : lookupsUpTo n h → n ≤ m → lookupsUpTo m h.
Proof.
  unfold lookupsUpTo. rewrite !Forall_forall. intros Hl Hn e He. specialize (Hl e He). destruct (evCall e); try done. lia.
Qed.

Section safety.
Context `{HostAddressText, SubnetText, Base64, DateText} (supportIPUtils : bool).

(** The host rules of a configuration are texts that a rule can be made of. *)
Definition rulesOk (cfg : InterfaceConfig) : Prop := Forall (λ t, is_Some (fromText t)) (splitTunnelDnsRules cfg).

(** ** The invariant *)

Record others (g : daemon) (h : trace daemonIO) : Prop := {
  others_counts : map_Forall (λ _ n, 1 ≤ n) (excludedAddrSet g);
  others_rules hop conn : connections g hop = Some conn → rulesOk (config conn);
  others_lookups : lookupsUpTo (generation g) h;
}.

(** The routes in the system are [R]. *)
Definition tracked (R : gset IPAddress) (g : daemon) (h : trace daemonIO) : Prop := others g h ∧ routesOf h = R.

Definition inv (g : daemon) (h : trace daemonIO) : Prop := others g h ∧ routesOf h = dom (excludedAddrSet g).

Notation keeps p := (triple inv p (λ _, inv)).

Lemma others_neutral g h c x : neutral c = true → others g h → others g (h ++ [Ev c x]).
Proof.
  intros Hc [Hn Hr Hl]. split; [done|done|].
  apply Forall_app. split; [done|]. apply Forall_singleton. by destruct c.
Qed.

Lemma routes_neutral h c x : neutral c = true → routesOf (h ++ [Ev c x]) = routesOf h.
Proof. intros Hc. rewrite routesOf_snoc. unfold routeStep. cbn. by destruct c. Qed.

Lemma tracked_request R (c : daemonCall) :
  neutral c = true → triple (tracked R) (request (I := daemonIO) (G := daemon) c) (λ _, tracked R).
Proof.
  intros Hc. apply triple_request. intros g h x [Ho Hr]. split; [by apply others_neutral|]. by rewrite routes_neutral.
Qed.

Lemma upholds_request (c : daemonCall) : neutral c = true → keeps (request (I := daemonIO) (G := daemon) c).
Proof.
  intros Hc. apply triple_request. intros g h x [Ho Hr]. split; [by apply others_neutral|]. by rewrite routes_neutral.
Qed.

Lemma upholds_bind {A B} (p : program A) (f : A → program B) : keeps p → (∀ v, keeps (f v)) → keeps (bind p f).
Proof. intros Hp Hf. by eapply triple_bind. Qed.

Lemma upholds_ret {A} (v : A) : keeps (Ret v : program A).
Proof. by apply triple_ret. Qed.

(** Reading the state: what the invariant says of it is known. *)
Lemma upholds_get {A} (k : daemon → program A) : (∀ g h, inv g h → keeps (k g)) → keeps (bind get k).
Proof. intros Hk. apply triple_get. intros g0 g h [-> Hg]. by apply (Hk g0 h). Qed.

Lemma upholds_when b (p : program unit) : keeps p → keeps (when b p).
Proof. intros Hp. destruct b; [done|]. apply upholds_ret. Qed.

(** Changes that concern neither the counts, the generation nor the rules. *)
Lemma upholds_set (f : daemon → daemon) :
  (∀ g, excludedAddrSet (f g) = excludedAddrSet g) → (∀ g, connections (f g) = connections g) →
  (∀ g, generation g ≤ generation (f g)) → keeps (modify f).
Proof.
  intros He Hc Hg. apply triple_set. intros g h [[Hn Hr Hl] Hd]. split; [split|].
  - by rewrite He.
  - by rewrite Hc.
  - by eapply lookups_mono.
  - by rewrite He.
Qed.

Lemma upholds_connection hop conn :
  rulesOk (config conn) → keeps (modify (λ g, set_connections (<[hop := Some conn]> (connections g)) g)).
Proof.
  intros Hok. apply triple_set. intros g h [[Hn Hr Hl] Hd]. split; [split|done]; try done.
  intros hop' conn'. cbn [connections set_connections]. destruct (decide (hop' = hop)) as [->|Hne].
  - rewrite fn_lookup_insert. by intros [= <-].
  - rewrite fn_lookup_insert_ne by done. apply Hr.
Qed.

Lemma upholds_forEach {A} (l : list A) (f : A → program unit) : (∀ x, x ∈ l → keeps (f x)) → keeps (forEach l f).
Proof. apply triple_forEach. Qed.

Lemma upholds_allOf ps : Forall (λ p, keeps p) ps → keeps (allOf ps).
Proof.
  induction 1 as [|p ps Hp _ IH]; [apply upholds_ret|]. cbn [allOf]. apply upholds_bind; [done|].
  intros []; [done|apply upholds_ret].
Qed.

(** ** Counting routes *)

Lemma upholds_addExclusionRoute ip : keeps (addExclusionRoute ip).
Proof.
  unfold addExclusionRoute. apply triple_get. intros g0. destruct (excludedAddrSet g0 !! ip) as [n|] eqn:Hn.
  - apply (triple_bind _ _ _ (λ _, inv)); [|intros _; apply upholds_ret]. apply triple_set.
    intros g h [-> [[Hc Hr Hl] Hd]]. split; [split; try done|].
    + apply map_Forall_insert_2; [|done]. pose proof (Hc _ _ Hn). cbn in *. lia.
    + cbn [excludedAddrSet set_excluded]. rewrite dom_insert_L, Hd. apply elem_of_dom_2 in Hn. set_solver.
  - eapply (triple_bind _ _ _ (λ ok g h, tracked (if (ok : bool) then {[ip]} ∪ dom (excludedAddrSet g) else dom (excludedAddrSet g)) g h)).
    + apply (triple_request (I := daemonIO) _ (AddExclusionRoute ip)). intros g h x [_ [[Hc Hr Hl] Hd]]. split; [split; try done|].
      * apply Forall_app. split; [done|]. by apply Forall_singleton.
      * rewrite routesOf_snoc. cbn. rewrite Hd. by destruct x.
    + intros []; cbn [negb]; [|apply triple_ret; intros g h [Ho Hd]; by split].
      apply (triple_bind _ _ _ (λ _, inv)); [|intros _; apply upholds_ret]. apply triple_set.
      intros g h [[Hc Hr Hl] Hd]. split; [split; try done|].
      * apply map_Forall_insert_2; [lia|done].
      * cbn [excludedAddrSet set_excluded]. by rewrite dom_insert_L.
Qed.

(** Deleting a route from the system. *)
Lemma tracked_delete R ip :
  triple (tracked R) (request (I := daemonIO) (G := daemon) (DeleteExclusionRoute ip)) (λ _, tracked (R ∖ {[ip]})).
Proof.
  apply triple_request. intros g h x [[Hc Hr Hl] <-]. split; [split; try done|].
  - apply Forall_app. split; [done|]. by apply Forall_singleton.
  - by rewrite routesOf_snoc.
Qed.

Lemma upholds_delExclusionRoute ip : keeps (delExclusionRoute ip).
Proof.
  unfold delExclusionRoute. apply triple_get. intros g0. destruct (1 <? _) eqn:Hn.
  - apply (triple_bind _ _ _ (λ _, inv)); [|intros _; apply upholds_ret]. apply triple_set.
    intros g h [-> [[Hc Hr Hl] Hd]]. destruct (excludedAddrSet g0 !! ip) as [n|] eqn:Hip; cbn [default from_option id] in *; [|lia].
    split; [split; try done|].
    + apply map_Forall_insert_2; [lia|done].
    + cbn [excludedAddrSet set_excluded]. rewrite dom_insert_L, Hd. apply elem_of_dom_2 in Hip. set_solver.
  - eapply (triple_bind _ _ _ (λ _ g h, tracked (dom (excludedAddrSet g0)) g h ∧ excludedAddrSet g = delete ip (excludedAddrSet g0))).
    + apply triple_set. intros g h [-> [[Hc Hr Hl] Hd]]. split; [split; [split; try done|done]|done].
      intros ip' n. cbn [excludedAddrSet set_excluded]. intros [_ Hip]%lookup_delete_Some. by apply (Hc ip').
    + intros _. apply (triple_request (I := daemonIO) _ (DeleteExclusionRoute ip)). intros g h x [[[Hc Hr Hl] Hd] He]. split; [split; try done|].
      * apply Forall_app. split; [done|]. by apply Forall_singleton.
      * rewrite routesOf_snoc, He, dom_delete_L. cbn. by rewrite Hd.
Qed.

#[local] Hint Resolve upholds_addExclusionRoute upholds_delExclusionRoute : vpn.

(** Splits a program into its steps. *)
Ltac keep_steps :=
  repeat match goal with
  | |- triple _ (bind getGlobals _) _ => apply upholds_get; intros ? ? ?
  | |- triple _ (bind _ _) _ => apply upholds_bind; [|intros ?]
  | |- triple _ (Ret _) _ => apply upholds_ret
  | |- triple _ (request ?c) _ => apply (upholds_request c); reflexivity
  | |- triple _ (setGlobals _) _ => apply upholds_set; [reflexivity..|intros ?; cbn; lia]
  | |- triple _ (when _ _) _ => apply upholds_when
  | |- triple _ (forEach _ _) _ => apply upholds_forEach; intros ? ?
  | |- triple _ (if ?c then _ else _) _ => destruct c eqn:?
  | |- triple _ (match ?c with _ => _ end) _ => destruct c eqn:?
  | |- _ => solve [eauto with vpn]
  end.

Lemma upholds_refreshStatic l : keeps (refreshSplitTunnelStaticRoutes l).
Proof. unfold refreshSplitTunnelStaticRoutes. keep_steps. Qed.

Lemma upholds_clearDnsRoutes : keeps clearSplitTunnelDnsRoutes.
Proof. unfold clearSplitTunnelDnsRoutes. keep_steps. Qed.

#[local] Hint Resolve upholds_refreshStatic upholds_clearDnsRoutes : vpn.

Lemma upholds_configureDns cfg : rulesOk cfg → keeps (configureSplitTunnelDnsRoutes cfg).
Proof.
  intros Hok. unfold configureSplitTunnelDnsRoutes. keep_steps.
  destruct (proj2 (mapM_is_Some fromText (splitTunnelDnsRules cfg)) Hok) as [rules Hrules]. congruence.
Qed.

(** Lookups are made in the current generation. *)
Lemma upholds_refreshDns : keeps refreshSplitTunnelDnsRoutes.
Proof.
  unfold refreshSplitTunnelDnsRoutes. apply triple_get. intros g0.
  apply (triple_conseq (λ g h, generation g = generation g0 ∧ inv g h) _ _ (λ _ g h, generation g = generation g0 ∧ inv g h));
    [|by intros g h [-> ?]|by intros _ g h [_ ?]].
  apply triple_forEach. intros host _. apply (triple_request (I := daemonIO) _ (LookupHost host _)).
  intros g h x [Hg [[Hc Hr Hl] Hd]]. split; [done|]. split; [split; try done|].
  - apply Forall_app. split; [done|]. apply Forall_singleton. cbn. lia.
  - by rewrite routesOf_snoc.
Qed.

Lemma upholds_routeIps ips routed : keeps (routeIps ips routed).
Proof.
  revert routed. induction ips as [|ip ips IH]; intros routed; cbn [routeIps]; keep_steps.
Qed.

#[local] Hint Resolve upholds_configureDns upholds_refreshDns upholds_routeIps : vpn.

Lemma upholds_hostResolved host ips : keeps (onSplitTunnelHostResolved host ips).
Proof. unfold onSplitTunnelHostResolved. keep_steps. Qed.

#[local] Hint Resolve upholds_hostResolved : vpn.

Lemma upholds_lookupFinished host n addresses : keeps (onLookupFinished host n addresses).
Proof. unfold onLookupFinished. keep_steps. Qed.

Lemma upholds_resolvers cfg : keeps (maybeUpdateResolvers cfg).
Proof. unfold maybeUpdateResolvers. keep_steps. Qed.

Lemma upholds_setConnection cfg : rulesOk cfg → keeps (setConnection cfg).
Proof. intros Hok. by apply upholds_connection. Qed.

Lemma upholds_recordConnection cfg op : rulesOk cfg → keeps (recordConnection cfg op).
Proof. intros Hok. unfold recordConnection. keep_steps. by apply upholds_setConnection. Qed.

#[local] Hint Resolve upholds_lookupFinished upholds_resolvers upholds_setConnection upholds_recordConnection : vpn.

(** ** Switching and deactivation *)

Lemma upholds_switchServer cfg :
  rulesOk cfg → triple (λ g h, is_Some (connections g (hopType cfg)) ∧ inv g h) (switchServer cfg) (λ _, inv).
Proof.
  intros Hok. unfold switchServer. apply triple_get. intros g0 g h (Hg & [last Hlast] & Hinv).
  subst g0. rewrite Hlast. assert (∀ lastConfig, keeps (
    refreshSplitTunnelStaticRoutes (excludedAddresses cfg);;
      ok ← ask (UpdatePeer cfg);
      if negb (ok : bool) then Ret false
      else
        allOf ((λ ip, ask (UpdateRoutePrefix ip) : program bool) <$> allowedIPAddressRanges cfg);;
        forEach (addressTexts (excludedAddresses lastConfig)) (λ address,
          delExclusionRoute (ofHost (parseHost address));; skip);;
        forEach (filter (λ ip, ip ∉ allowedIPAddressRanges cfg) (allowedIPAddressRanges lastConfig)) (λ ip,
          ask (DeleteRoutePrefix ip);; skip);;
        ok ← (if bool_decide (serverPublicKey cfg ≠ serverPublicKey lastConfig)
              then ask (DeletePeer lastConfig) : program bool else Ret true);
        if negb ok then Ret false else setConnection cfg;; Ret true)) as Hbody.
  { intros lastConfig. keep_steps. apply upholds_allOf, Forall_fmap, Forall_forall. intros ip _. by apply upholds_request. }
  by apply Hbody.
Qed.

(** The loop over all counted routes removes them from the system. *)
Lemma tracked_deleteAll R ips :
  triple (tracked R) (forEach ips (λ ip, ask (DeleteExclusionRoute ip);; skip)) (λ _, tracked (R ∖ list_to_set ips)).
Proof.
  revert R. induction ips as [|ip ips IH]; intros R; cbn [forEach list_to_set].
  - apply triple_ret. intros g h. by rewrite difference_empty_L.
  - apply (triple_bind _ _ _ (λ _, tracked (R ∖ {[ip]}))).
    + apply (triple_bind _ _ _ (λ _, tracked (R ∖ {[ip]}))); [apply tracked_delete|]. intros ?. by apply triple_ret.
    + intros _. eapply triple_conseq; [apply IH|done|]. intros [] g h. by rewrite difference_difference_l_L.
Qed.

Lemma upholds_cleanup : keeps cleanupExclusions.
Proof.
  unfold cleanupExclusions. apply triple_get. intros g0.
  apply (triple_bind _ _ _ (λ _, tracked ∅)).
  - eapply triple_conseq; [apply (tracked_deleteAll (dom (excludedAddrSet g0)))| |].
    + by intros g h [-> [Ho Hd]].
    + intros _ g h [Ho Hd]. split; [done|]. rewrite Hd. apply set_eq. intros ip.
      rewrite elem_of_difference, elem_of_list_to_set, elem_of_dom. split; [|set_solver]. intros [[n Hn] Hout]. exfalso. apply Hout.
      apply list_elem_of_fmap. exists (ip, n). split; [done|]. by apply elem_of_map_to_list.
  - intros _. apply (triple_bind _ _ _ (λ _, inv)).
    + apply triple_set. intros g h [[Hc Hr Hl] Hd]. split; [split; try done|done].
    + intros _. apply (triple_bind _ _ _ (λ _, inv)); [|intros _; by apply upholds_request].
      apply triple_set. intros g h [[Hc Hr Hl] Hd]. split; [split; try done|done].
Qed.

#[local] Hint Resolve upholds_cleanup : vpn.

Lemma upholds_deactivate b : keeps (deactivate b).
Proof. unfold deactivate. keep_steps. Qed.

(** Nothing is left of a connection. *)
Record cleaned (g : daemon) : Prop := {
  cleaned_connections hop : connections g hop = None;
  cleaned_excluded : excludedAddrSet g = ∅;
  cleaned_hosts : resolveHosts g = [];
  cleaned_dnsRoutes : dnsRoutes g = ∅;
}.

Lemma state_bind {A B} (P R : daemon → Prop) (p : program A) (f : A → program B) (Q : B → daemon → trace daemonIO → Prop) :
  triple (λ g _, P g) p (λ _ g _, R g) → (∀ v, triple (λ g _, R g) (f v) Q) → triple (λ g _, P g) (bind p f) Q.
Proof. intros Hp Hf. by eapply triple_bind. Qed.

Lemma state_ret {A} (P : daemon → Prop) (v : A) : triple (λ g _, P g) (Ret v : program A) (λ _ g _, P g).
Proof. by apply triple_ret. Qed.

Lemma state_set (P : daemon → Prop) (R : daemon → Prop) (f : daemon → daemon) :
  (∀ g, P g → R (f g)) → triple (λ g _, P g) (modify f) (λ _ g _, R g).
Proof. intros Hf. apply triple_set. auto. Qed.

Lemma state_get {A} (P : daemon → Prop) (k : daemon → program A) Q :
  (∀ g0, P g0 → triple (λ g _, P g) (k g0) Q) → triple (λ g _, P g) (bind get k) Q.
Proof. intros Hk. apply triple_get. intros g0 g h [-> Hg]. by apply (Hk g0). Qed.

Ltac state_ask :=
  lazymatch goal with |- triple (λ g _, @?P g) (request ?c) _ => apply (triple_state_request (I := daemonIO) P c) end.

(** A predicate that does not speak of the counts. *)
Lemma state_del (P : daemon → Prop) ip :
  (∀ g v, P g → P (set_excluded v g)) → triple (λ g _, P g) (delExclusionRoute ip) (λ _ g _, P g).
Proof.
  intros Hset. unfold delExclusionRoute. apply state_get. intros g0 _. destruct (1 <? _).
  - apply (state_bind P P); [by apply state_set; auto|]. intros _. apply state_ret.
  - apply (state_bind P P); [by apply state_set; auto|]. intros _. state_ask.
Qed.

Lemma state_forEach {A} (P : daemon → Prop) (l : list A) (f : A → program unit) :
  (∀ x, triple (λ g _, P g) (f x) (λ _ g _, P g)) → triple (λ g _, P g) (forEach l f) (λ _ g _, P g).
Proof. intros Hf. by apply triple_forEach. Qed.

Lemma state_clear (P : daemon → Prop) :
  (∀ g v, P g → P (set_excluded v g)) → (∀ g v, P g → P (set_dnsRoutes v g)) →
  triple (λ g _, P g) clearSplitTunnelDnsRoutes (λ _ g _, P g ∧ dnsRoutes g = ∅).
Proof.
  intros Hset Hdns. unfold clearSplitTunnelDnsRoutes. apply state_get. intros g0 _.
  apply (state_bind P P); [|intros _; apply state_set; auto].
  apply state_forEach. intros route. apply state_get. intros g1 _. case_bool_decide; [|apply state_ret].
  apply (state_bind P P); [by apply state_del|]. intros _. apply state_ret.
Qed.

(** A deactivation that succeeds leaves nothing and starts a new generation. *)
Lemma deactivate_cleans b n :
  triple (λ g _, generation g = n) (deactivate b) (λ ok g _, ok = true → cleaned g ∧ generation g = n + 1).
Proof.
  unfold deactivate. apply state_get. intros g0 _.
  apply (state_bind _ (λ g, generation g = n)); [destruct (connectionsOf g0); [apply state_ret|state_ask]|].
  intros [|]; cbn [negb]; [|by apply triple_ret].
  apply (state_bind _ (λ g, generation g = n)); [unfold when; destruct b; [state_ask|apply state_ret]|]. intros _.
  apply (state_bind _ (λ g, generation g = n + 1)); [apply state_set; cbn; lia|]. intros _.
  apply (state_bind _ (λ g, generation g = n + 1 ∧ dnsRoutes g = ∅)); [by apply state_clear|]. intros _.
  apply (state_bind _ (λ g, generation g = n + 1 ∧ dnsRoutes g = ∅ ∧ resolveHosts g = []));
    [by apply state_set; intros g [??]|]. intros _.
  set (P := λ g, generation g = n + 1 ∧ dnsRoutes g = ∅ ∧ resolveHosts g = []).
  apply (state_bind P P); [state_ask|]. intros _.
  apply (state_bind P P); [state_ask|]. intros _. apply state_get. intros g1 _.
  apply (state_bind P P).
  { apply state_forEach. intros conn. apply (state_bind P P); [apply state_forEach; intros ip|intros _];
      (apply (state_bind P P); [state_ask|intros _; apply state_ret]). }
  intros _. unfold cleanupExclusions. apply state_get. intros g2 _.
  apply (state_bind P P).
  { apply state_forEach. intros ip. apply (state_bind P P); [state_ask|intros _; apply state_ret]. }
  intros _. apply (state_bind P (λ g, P g ∧ excludedAddrSet g = ∅)); [by apply state_set|]. intros _.
  apply (state_bind _ (λ g, cleaned g ∧ generation g = n + 1)).
  - apply state_set. intros g [(Hg & Hd & Hh) He]. split; [by split|done].
  - intros _. eapply triple_conseq; [apply (triple_state_request (I := daemonIO) (λ g, cleaned g ∧ generation g = n + 1) DeleteInterface)|done|done].
Qed.

(** ** Activation *)

#[local] Hint Resolve upholds_deactivate : vpn.

Lemma upholds_failureGuard P (p : program bool) : triple P p (λ _, inv) → triple P (failureGuard p) (λ _, inv).
Proof.
  intros Hp. unfold failureGuard. apply (triple_bind _ _ _ (λ _, inv)); [done|]. intros ok. keep_steps.
Qed.

Lemma upholds_bringUp cfg : rulesOk cfg → keeps (bringUp supportIPUtils cfg).
Proof.
  intros Hok. unfold bringUp. apply upholds_bind; [by apply upholds_request|]. intros _.
  apply upholds_allOf. rewrite !Forall_app. split_and!.
  - apply Forall_singleton. keep_steps.
  - destruct supportIPUtils; [|constructor]. repeat (apply Forall_cons_2; [keep_steps|]). apply Forall_nil_2.
  - repeat (apply Forall_cons_2; [keep_steps|]). apply Forall_nil_2.
  - apply Forall_fmap, Forall_forall. intros ip _. by apply upholds_request.
  - apply Forall_singleton. keep_steps.
Qed.

(** The activation of a connection that does not exist. *)
Lemma upholds_activate_new cfg fuel :
  rulesOk cfg →
  triple (λ g h, connections g (hopType cfg) = None ∧ inv g h) (activateLoop supportIPUtils (S fuel) cfg) (λ _, inv).
Proof.
  intros Hok. cbn [activateLoop]. apply upholds_failureGuard. apply triple_get. intros g0 g h (Hg & Hnone & Hinv). subst g0.
  rewrite bool_decide_eq_false_2 by (rewrite Hnone; by intros []). by apply upholds_bringUp.
Qed.

Lemma upholds_activate cfg : rulesOk cfg → keeps (activate supportIPUtils cfg).
Proof.
  intros Hok. unfold activate. remember 1%nat as fuel eqn:Hfuel. cbn [activateLoop]. apply upholds_failureGuard.
  apply triple_get. intros g0. case_bool_decide as Hsome.
  - destruct (supportServerSwitching g0 cfg); cbn [allOf].
    + apply (triple_bind _ _ _ (λ _, inv)); [|intros ok; keep_steps].
      eapply triple_conseq; [by apply upholds_switchServer|by intros g h [-> ?]|done].
    + apply (triple_bind _ _ _ (λ ok g h, inv g h ∧ (ok = true → cleaned g ∧ generation g = generation g0 + 1))).
      * eapply triple_conseq; [apply triple_and; [apply upholds_deactivate|apply (deactivate_cleans false (generation g0))]| |done].
        by intros g h [-> ?].
      * intros []; [|apply triple_ret; by intros g h [? _]].
        apply (triple_bind _ _ _ (λ _, inv)); [|intros ok; keep_steps]. rewrite Hfuel.
        eapply triple_conseq; [by apply upholds_activate_new| |done]. intros g h [Hinv Hclean].
        split; [|done]. by apply Hclean.
  - eapply triple_conseq; [by apply upholds_bringUp|by intros g h [_ ?]|done].
Qed.

(** ** Handshakes *)

Lemma upholds_checkPeer hop cfg status : rulesOk cfg → keeps (checkPeer hop cfg status).
Proof. intros Hok. unfold checkPeer. keep_steps. by apply upholds_connection. Qed.

Lemma upholds_checkHandshake : keeps checkHandshake.
Proof.
  unfold checkHandshake. keep_steps. apply upholds_checkPeer. unfold awaiting in *.
  destruct (connections _ _) as [[[]]|] eqn:Hconn; simplify_eq. match goal with Hinv : inv _ _ |- _ => by apply Hinv in Hconn end.
Qed.

Lemma upholds_getStatus : keeps getStatus.
Proof. unfold getStatus. keep_steps. Qed.

(** ** Runs *)

Definition eventOk (e : daemonEvent) : Prop :=
  match e with Activate cfg => rulesOk cfg | _ => True end.

#[local] Hint Resolve upholds_activate upholds_checkHandshake upholds_getStatus : vpn.

Lemma upholds_handle e : eventOk e → keeps (handle supportIPUtils e).
Proof. intros He. destruct e; cbn [handle eventOk] in *; keep_steps. Qed.

Lemma upholds_handleAll es : Forall eventOk es → keeps (forEach es (handle supportIPUtils)).
Proof. intros Hes. apply upholds_forEach. intros e He. rewrite Forall_forall in Hes.
  by apply upholds_handle, Hes, list_elem_of_In.
Qed.

Lemma inv_new : inv newDaemon [].
Proof.
  split; [split|done].
  - apply map_Forall_empty.
  - done.
  - constructor.
Qed.

(** ** Reports of an activation *)

Definition isFailure (c : daemonCall) : bool := match c with EmitActivationFailure => true | _ => false end.

Definition isLookup (c : daemonCall) : bool := match c with LookupHost _ _ => true | _ => false end.

Notation silently c := (negb (isFailure c) && negb (isLookup c)).

(** No failure was announced since [h0]. *)
Definition noFailure (h0 h : trace daemonIO) : Prop :=
  ∃ t, h = h0 ++ t ∧ Forall (λ e, isFailure (evCall e) = false) t.

(** The connection is recorded and its handshake awaited. *)
Definition recorded (cfg : InterfaceConfig) (g : daemon) : Prop :=
  connections g (hopType cfg) = Some (Conn None cfg) ∧ handshakeTimer g = true.

(** The contract of the body: it succeeds silently. *)
Definition attempted (cfg : InterfaceConfig) (h0 : trace daemonIO) (ok : bool) (g : daemon) (h : trace daemonIO) : Prop :=
  h0 `prefix_of` h ∧ (ok = true → noFailure h0 h ∧ recorded cfg g).

Lemma noFailure_prefix h0 h : noFailure h0 h → h0 `prefix_of` h.
Proof. intros (t & -> & _). by apply prefix_app_r. Qed.

(** A program that cannot announce a failure or look up a host. *)
Definition silent {A} (p : program A) : Prop :=
  only (λ c, silently c) p ∧ completes false p.

Lemma silent_spec {A} h0 (p : program A) :
  silent p → triple (λ _ h, noFailure h0 h) p (λ _ _ h, noFailure h0 h).
Proof.
  intros [Ho Hc] g h (t0 & -> & Ht0). eapply wp_mono; [|by apply (only_returns_wp anything (λ c, silently c))].
  intros r g' h' (a & t & -> & -> & Ht). exists a. split; [done|]. exists (t0 ++ t). rewrite app_assoc. split; [done|].
  apply Forall_app. split; [done|]. unfold allCalls in Ht. eapply Forall_impl; [|exact Ht]. intros e He. cbn in He. by reflect_bools.
Qed.

Lemma silent_lookups {A} n (p : program A) :
  silent p → triple (λ _ h, lookupsUpTo n h) p (λ _ _ h, lookupsUpTo n h).
Proof.
  intros [Ho Hc] g h Hl. eapply wp_mono; [|by apply (only_returns_wp anything (λ c, silently c))].
  intros r g' h' (a & t & -> & -> & Ht). exists a. split; [done|]. apply Forall_app. split; [done|].
  unfold allCalls in Ht. eapply Forall_impl; [|exact Ht]. intros e He. cbn in He. reflect_bools. by destruct (evCall e).
Qed.

Lemma silent_forEach {A} (l : list A) (f : A → program unit) : (∀ x, silent (f x)) → silent (forEach l f).
Proof.
  intros Hf. induction l as [|x l [IH1 IH2]]; [done|]. cbn [forEach]. destruct (Hf x) as [H1' H2'].
  split; [by apply only_bind|by apply completes_bind].
Qed.

Lemma silent_bind {A B} (p : program A) (f : A → program B) : silent p → (∀ v, silent (f v)) → silent (bind p f).
Proof.
  intros [Ho Hc] Hf. split; [apply only_bind; [done|intros v; apply Hf]|apply completes_bind; [done|intros v; apply Hf]].
Qed.

Ltac solve_silent :=
  repeat match goal with
  | |- silent (bind _ _) => apply silent_bind; [|intros ?]
  | |- silent (forEach _ _) => apply silent_forEach; intros ?
  | |- silent (request _) => split; [split; [reflexivity|intros ?; exact I]|intros ?; exact I]
  | |- silent (setGlobals _) => split; intros ?; exact I
  | |- silent getGlobals => split; intros ?; exact I
  | |- silent (Ret _) => split; exact I
  | |- silent (when ?b _) => unfold when
  | |- silent (if ?b then _ else _) => destruct b
  | |- silent (match ?b with _ => _ end) => destruct b
  | |- _ => solve [eauto with vpn]
  end.

Lemma silent_add ip : silent (addExclusionRoute ip).
Proof. unfold addExclusionRoute. solve_silent. Qed.

Lemma silent_del ip : silent (delExclusionRoute ip).
Proof. unfold delExclusionRoute. solve_silent. Qed.

#[local] Hint Resolve silent_add silent_del : vpn.

Lemma silent_clear : silent clearSplitTunnelDnsRoutes.
Proof. unfold clearSplitTunnelDnsRoutes. solve_silent. Qed.

Lemma silent_static l : silent (refreshSplitTunnelStaticRoutes l).
Proof. unfold refreshSplitTunnelStaticRoutes. solve_silent. Qed.

Lemma silent_resolvers cfg : silent (maybeUpdateResolvers cfg).
Proof. unfold maybeUpdateResolvers. solve_silent. Qed.

Lemma silent_setConnection cfg : silent (setConnection cfg).
Proof. unfold setConnection. solve_silent. Qed.

#[local] Hint Resolve silent_clear silent_static silent_resolvers silent_setConnection : vpn.

Lemma silent_deactivate b : silent (deactivate b).
Proof. unfold deactivate, cleanupExclusions. solve_silent. Qed.

Lemma silent_allOf ps : Forall silent ps → silent (allOf ps).
Proof. induction 1 as [|p ps Hp _ IH]; cbn [allOf]; solve_silent. Qed.

#[local] Hint Resolve silent_deactivate silent_allOf : vpn.

Lemma switchServer_silent cfg h0 :
  triple (λ g h, is_Some (connections g (hopType cfg)) ∧ noFailure h0 h) (switchServer cfg) (λ _ _ h, noFailure h0 h).
Proof.
  unfold switchServer. apply triple_get. intros g0 g h (Hg & [last Hlast] & Hh). subst g0. rewrite Hlast.
  cbv zeta. match goal with |- wp _ ?p _ _ _ => assert (silent p) as Hp end.
  { solve_silent. apply silent_allOf, Forall_fmap, Forall_forall. intros ip _. cbn. solve_silent. }
  by apply (silent_spec h0 _ Hp).
Qed.

Lemma record_attempted cfg op h0 :
  triple (λ _ h, noFailure h0 h) (recordConnection cfg op) (attempted cfg h0).
Proof.
  unfold recordConnection. apply (triple_bind _ _ _ (λ _ _ h, noFailure h0 h)); [apply silent_spec; solve_silent|].
  intros []; [|apply triple_ret; intros g h Hh; split; [by apply noFailure_prefix|done]].
  apply (triple_bind _ _ _ (λ _ g h, noFailure h0 h ∧ connections g (hopType cfg) = Some (Conn None cfg))).
  - apply triple_set. intros g h Hh. split; [done|]. cbn. by rewrite fn_lookup_insert.
  - intros _. apply (triple_bind _ _ _ (λ _ g h, noFailure h0 h ∧ recorded cfg g)).
    + apply triple_set. by intros g h [??].
    + intros _. apply triple_ret. intros g h [Hh Hr]. split; [by apply noFailure_prefix|done].
Qed.

(** Silent steps, and then one that decides. *)
Lemma allOf_attempted cfg h0 ps (p : program bool) :
  Forall silent ps → triple (λ _ h, noFailure h0 h) p (attempted cfg h0) →
  triple (λ _ h, noFailure h0 h) (allOf (ps ++ [p])) (attempted cfg h0).
Proof.
  intros Hps Hp. induction Hps as [|q ps Hq _ IH]; cbn [app allOf].
  - apply (triple_bind _ _ _ (attempted cfg h0)); [done|]. intros []; by apply triple_ret.
  - apply (triple_bind _ _ _ (λ _ _ h, noFailure h0 h)); [by apply silent_spec|].
    intros []; [done|]. apply triple_ret. intros g h Hh. split; [by apply noFailure_prefix|done].
Qed.

Lemma bringUp_attempted cfg h0 :
  triple (λ _ h, noFailure h0 h) (bringUp supportIPUtils cfg) (attempted cfg h0).
Proof.
  unfold bringUp. apply (triple_bind _ _ _ (λ _ _ h, noFailure h0 h)); [apply silent_spec; solve_silent|]. intros _.
  rewrite !app_assoc. apply allOf_attempted; [|apply record_attempted].
  rewrite !Forall_app. split_and!; try (repeat (apply Forall_cons_2; [solve_silent|]); apply Forall_nil_2).
  - destruct supportIPUtils; repeat (apply Forall_cons_2; [solve_silent|]); apply Forall_nil_2.
  - apply Forall_fmap, Forall_forall. intros ip _. cbn. solve_silent.
Qed.

(** The signal is emitted exactly when the activation fails. *)
Definition reported (cfg : InterfaceConfig) (h0 : trace daemonIO) (ok : bool) (g : daemon) (h : trace daemonIO) : Prop :=
  ∃ t, h = h0 ++ t ∧ (ok = true ↔ Forall (λ e, isFailure (evCall e) = false) t) ∧ (ok = true → recorded cfg g).

Lemma guard_reported cfg h0 P (p : program bool) :
  triple P p (attempted cfg h0) → triple P (failureGuard p) (reported cfg h0).
Proof.
  intros Hp. unfold failureGuard. apply (triple_bind _ _ _ (attempted cfg h0)); [done|]. intros [].
  - apply triple_ret. intros g h [_ Hok]. destruct (Hok eq_refl) as [(t & -> & Ht) Hr]. by exists t.
  - apply (triple_bind _ _ _ (λ _, reported cfg h0 false)); [|intros _; by apply triple_ret].
    apply (triple_request (I := daemonIO) _ EmitActivationFailure). intros g h x [[t ->] _].
    exists (t ++ [Ev (EmitActivationFailure : call daemonIO) x]). rewrite app_assoc. split_and!; [done| |done].
    split; [done|]. intros Ht. apply Forall_app in Ht as [_ Ht]. inversion_clear Ht. done.
Qed.

Lemma reported_attempted cfg h0 h1 ok g h :
  noFailure h0 h1 → reported cfg h1 ok g h → attempted cfg h0 ok g h.
Proof.
  intros (t & -> & Ht) (t' & -> & Hok & Hr). rewrite <-app_assoc. split; [by apply prefix_app_r|].
  intros Htrue. split; [|by apply Hr]. exists (t ++ t'). split; [done|]. apply Forall_app. split; [done|]. by apply Hok.
Qed.

(** A fresh activation. *)
Lemma activate_new_reported cfg fuel h0 :
  triple (λ g h, connections g (hopType cfg) = None ∧ h = h0) (activateLoop supportIPUtils (S fuel) cfg) (reported cfg h0).
Proof.
  cbn [activateLoop]. apply guard_reported. apply triple_get. intros g0 g h (Hg & Hnone & ->). subst g0.
  rewrite bool_decide_eq_false_2 by (rewrite Hnone; by intros []). apply bringUp_attempted.
  exists []. by rewrite app_nil_r.
Qed.

Lemma activate_reported_spec cfg h0 :
  triple (λ _ h, h = h0) (activate supportIPUtils cfg) (reported cfg h0).
Proof.
  unfold activate. remember 1%nat as fuel eqn:Hfuel. cbn [activateLoop]. apply guard_reported.
  assert (noFailure h0 h0) as Hstart by (exists []; by rewrite app_nil_r).
  apply triple_get. intros g0. case_bool_decide as Hsome.
  - destruct (supportServerSwitching g0 cfg).
    + cbn [allOf]. apply (triple_bind _ _ _ (λ _ _ h, noFailure h0 h)).
      * eapply triple_conseq; [apply switchServer_silent|by intros g h [-> ->]|done].
      * intros []; [|apply triple_ret; intros g h Hh; split; [by apply noFailure_prefix|done]].
        apply (allOf_attempted cfg h0 [ask RestoreResolvers : program bool; maybeUpdateResolvers cfg]); [|apply record_attempted].
        repeat (apply Forall_cons_2; [solve_silent|]). apply Forall_nil_2.
    + cbn [allOf]. apply (triple_bind _ _ _ (λ ok g h, noFailure h0 h ∧ (ok = true → cleaned g ∧ generation g = generation g0 + 1))).
      * eapply triple_conseq; [apply triple_and; [apply (silent_spec h0), silent_deactivate|apply (deactivate_cleans false (generation g0))]| |done].
        by intros g h [-> ->].
      * intros []; [|apply triple_ret; intros g h [Hh _]; split; [by apply noFailure_prefix|done]].
        apply (triple_bind _ _ _ (attempted cfg h0)); [|intros []; by apply triple_ret].
        intros g1 h1 [Hh1 Hclean]. rewrite Hfuel.
        eapply wp_mono; [|apply (activate_new_reported cfg 0 h1); split; [by apply Hclean|done]].
        intros r g' h' (a & -> & Hr). exists a. split; [done|]. by eapply reported_attempted.
  - eapply triple_conseq; [apply bringUp_attempted|by intros g h [_ ->]|done].
Qed.

(** ** Announcements

    A property of the history that a request keeps unless it announces a connection
    or answers a command, and that an announcement keeps after a report of its
    handshake, holds throughout, even when the daemon stops in the middle. *)

Definition quiet (c : daemonCall) : bool :=
  match c with EmitConnected _ | Reply _ => false | _ => true end.

Lemma quiet_add ip : only (I := daemonIO) quiet (addExclusionRoute ip).
Proof. unfold addExclusionRoute. solve_only. Qed.

Lemma quiet_del ip : only (I := daemonIO) quiet (delExclusionRoute ip).
Proof. unfold delExclusionRoute. solve_only. Qed.

#[local] Hint Resolve quiet_add quiet_del : vpn.

Lemma quiet_clear : only (I := daemonIO) quiet clearSplitTunnelDnsRoutes.
Proof. unfold clearSplitTunnelDnsRoutes. solve_only. Qed.

Lemma quiet_static l : only (I := daemonIO) quiet (refreshSplitTunnelStaticRoutes l).
Proof. unfold refreshSplitTunnelStaticRoutes. solve_only. Qed.

Lemma quiet_resolvers cfg : only (I := daemonIO) quiet (maybeUpdateResolvers cfg).
Proof. unfold maybeUpdateResolvers. solve_only. Qed.

Lemma quiet_allOf ps : Forall (only (I := daemonIO) (G := daemon) quiet) ps → only quiet (allOf ps).
Proof. induction 1 as [|p ps Hp _ IH]; cbn [allOf]; solve_only. Qed.

Lemma quiet_routeIps ips routed : only (I := daemonIO) quiet (routeIps ips routed).
Proof. revert routed. induction ips as [|ip ips IH]; intros routed; cbn [routeIps]; solve_only. Qed.

#[local] Hint Resolve quiet_clear quiet_static quiet_resolvers quiet_routeIps : vpn.

Lemma quiet_configureDns cfg : only (I := daemonIO) quiet (configureSplitTunnelDnsRoutes cfg).
Proof. unfold configureSplitTunnelDnsRoutes. solve_only. Qed.

Lemma quiet_refreshDns : only (I := daemonIO) quiet refreshSplitTunnelDnsRoutes.
Proof. unfold refreshSplitTunnelDnsRoutes. solve_only. Qed.

Lemma quiet_resolved host ips : only (I := daemonIO) quiet (onSplitTunnelHostResolved host ips).
Proof. unfold onSplitTunnelHostResolved. solve_only. Qed.

#[local] Hint Resolve quiet_configureDns quiet_refreshDns quiet_resolved : vpn.

Lemma quiet_lookupFinished host n addresses : only (I := daemonIO) quiet (onLookupFinished host n addresses).
Proof. unfold onLookupFinished. solve_only. Qed.

Lemma quiet_record cfg op : only (I := daemonIO) quiet (recordConnection cfg op).
Proof. unfold recordConnection, setConnection. solve_only. Qed.

Lemma quiet_each {A} (l : list A) (f : A → program bool) :
  (∀ x, only quiet (f x)) → only quiet (allOf (f <$> l)).
Proof. intros Hf. apply quiet_allOf, Forall_fmap, Forall_forall. intros x _. apply Hf. Qed.

Lemma quiet_switch cfg : only (I := daemonIO) quiet (switchServer cfg).
Proof. unfold switchServer, setConnection. solve_only. apply quiet_each. solve_only. Qed.

Lemma quiet_deactivate b : only (I := daemonIO) quiet (deactivate b).
Proof. unfold deactivate, cleanupExclusions, when. solve_only. Qed.

#[local] Hint Resolve quiet_lookupFinished quiet_record quiet_switch quiet_deactivate : vpn.

Lemma quiet_bringUp cfg : only (I := daemonIO) quiet (bringUp supportIPUtils cfg).
Proof.
  unfold bringUp. apply only_bind; [solve_only|]. intros _. apply quiet_allOf. rewrite !Forall_app.
  split_and!; try (try destruct supportIPUtils; repeat (apply Forall_cons_2; [solve_only|]); apply Forall_nil_2).
  apply Forall_fmap, Forall_forall. intros ip _. cbn. solve_only.
Qed.

#[local] Hint Resolve quiet_bringUp : vpn.

Lemma quiet_activate cfg : only (I := daemonIO) quiet (activate supportIPUtils cfg).
Proof.
  unfold activate. generalize 2%nat as fuel.
  induction fuel as [|fuel IH]; cbn [activateLoop allOf]; unfold failureGuard; solve_only.
Qed.

Lemma quiet_getStatus : only (I := daemonIO) quiet getStatus.
Proof. unfold getStatus. solve_only. Qed.

#[local] Hint Resolve quiet_activate quiet_getStatus : vpn.

Section history.
Context (P : trace daemonIO → Prop)
  (P_quiet : ∀ h c x, quiet c = true → P h → P (h ++ [Ev c x]))
  (P_connected : ∀ h pk x, P h → (∃ e, e ∈ h ∧ reports pk e) → P (h ++ [Ev (EmitConnected pk : call daemonIO) x])).

Lemma always_quiet {A} (p : program A) : only quiet p → always P p.
Proof. by apply always_only. Qed.

Lemma always_checkHandshake : always P checkHandshake.
Proof.
  unfold checkHandshake. apply always_bind; [apply always_quiet; solve_only|]. intros _ g h HP. cbn [bind request wp]. intros peers _.
  set (seen h := P h ∧ Ev (GetPeerStatus : call daemonIO) peers ∈ h).
  assert (∀ A (p : program A), only quiet p → always seen p) as Hq.
  { intros A p. apply always_only. intros h' c x Hc [HP' He]. split; [by apply P_quiet|set_solver]. }
  apply (wp_mono _ _ (λ _ _ h', seen h')); [by intros r g' h' []|].
  match goal with |- wp _ ?p _ _ _ => assert (always seen p) as Hp end.
  { apply always_bind; [|intros ?; apply Hq; unfold when; solve_only]. apply always_forEach. intros hop _.
    apply always_get. intros g0. destruct (awaiting g0 hop) as [cfg|]; [|apply Hq; solve_only].
    apply always_forEach. intros status Hin. unfold checkPeer. destruct (negb _); [apply Hq; solve_only|].
    destruct (handshake status =? 0) eqn:Hhs; [apply Hq; solve_only|].
    apply always_bind; [apply Hq; solve_only|]. intros _. apply always_bind; [|intros _; apply Hq; solve_only].
    apply (always_request (I := daemonIO)). intros h' x [HP' He]. split; [|set_solver]. apply P_connected; [done|].
    eexists. split; [exact He|]. cbn. exists status. split_and!; [done|done|lia]. }
  apply Hp. split; [by apply P_quiet|set_solver].
Qed.

Lemma always_handle e : always P (handle supportIPUtils e).
Proof. destruct e; cbn [handle]; try apply always_checkHandshake; apply always_quiet; solve_only. Qed.
End history.

(** ** Properties *)



(** The client is told that the tunnel is connected only after WireGuard has
    reported a handshake with that key. *)
Lemma connected_after_handshake o es :
  announced (resTrace (run o (forEach es (handle supportIPUtils)) newDaemon [])).
Proof.
  apply (always_run o announced); [|intros i e pk; by rewrite lookup_nil]. apply always_forEach. intros e _.
  apply always_handle; clear; intros h.
  - intros c x Hc Hh. apply announced_snoc; [done|]. intros pk. cbn. by destruct c.
  - intros pk x Hh Hr. apply announced_snoc; [done|]. by intros pk' [= <-].
Qed.

(** C38: an activation always ends with an answer, from any state: the failure signal
    is emitted exactly when the answer is negative, and after a positive one the
    connection is recorded and its handshake is awaited. *)
Theorem activation_reported o cfg g h :
  let r := run o (activate supportIPUtils cfg) g h in
  ∃ ok t, resOutcome r = Returned ok ∧ resTrace r = h ++ t ∧
    (ok = true ↔ Forall (λ e, isFailure (evCall e) = false) t) ∧ (ok = true → recorded cfg (resGlobals r)).
Proof.
  intros r. destruct (triple_run o _ _ _ g h (activate_reported_spec cfg h) eq_refl) as (ok & Hok & t & Ht & Hiff & Hrec).
  by exists ok, t.
Qed.
End safety.


(** ** Concrete runs *)

#[local] Existing Instance quadText.

#[local] Instance sampleSubnet : SubnetText := λ s,
  match splitChar "/" s with
  | [a; p] => (parseHost a, default (-1) (toInt p))
  | _ => (HNull, -1)
  end.
#[local] Instance sampleBase64 : Base64 := λ s, s.
#[local] Instance sampleDate : DateText := λ _, "now".

Definition sampleKey : string := "0123456789abcdef0123456789abcdef".

Definition sampleConfig (excluded : list string) : InterfaceConfig :=
  Config SingleHop "awg" "private" (Some "10.8.1.2") None "203.0.113.5" "" sampleKey (Some "203.0.113.5") None (Some "")
    "1.1.1.1" "" 51820 1420 "" [IPRange (HIPv4 0) 0] excluded ["*.example.com"; "www.example.org"] [] [] true ∅.

(** A system that does everything and reports a handshake. *)
Definition sampleOracle : oracle daemonIO := λ h c,
  match c return daemonAns c with
  | InterfaceName => "utun7"
  | GetPeerStatus => [Peer sampleKey 1700000000 0 0]
  | EmitConnected _ | EmitActivationFailure | EmitDisconnected | ConfigureSplitTunnelRules _ | LookupHost _ _
  | AddAllowedRange _ | PrepareActivation _ | Reply _ => tt
  | _ => true
  end.

Definition sampleEvents : list daemonEvent :=
  [Activate (sampleConfig ["203.0.113.5"; "10.0.0.0/8"]); HandshakeTimeout;
   LookupFinished "www.example.org" 1 [HIPv4 (ofOctets 198 51 100 7)]].

Lemma sampleConfig_rules excluded : rulesOk (sampleConfig excluded).
Proof. repeat (apply Forall_cons_2; [eexists; vm_compute; reflexivity|]). apply Forall_nil_2. Qed.

Lemma sampleEvents_ok : Forall eventOk sampleEvents.
Proof. apply Forall_cons_2; [apply sampleConfig_rules|]. repeat (apply Forall_cons_2; [exact I|]). apply Forall_nil_2. Qed.



(** A subnet that the new server does not exclude any more is still routed outside
    the tunnel after the switch: the old list is looked up as single addresses. *)
Lemma switch_keeps_subnet :
  let r := run sampleOracle (forEach (sampleEvents ++ [Activate (sampleConfig [])]) (handle true)) newDaemon [] in
  resOutcome r = Returned tt ∧
  excludedAddrSet (resGlobals r) !! IPRange (HIPv4 (ofOctets 10 0 0 0)) 8 = Some 1.
Proof. split; vm_compute; reflexivity. Qed.

(** After a switch to the same list, its addresses are counted twice, and a switch to
    a list without them does not remove their routes. *)
Lemma switch_counts_twice :
  let again := [Activate (sampleConfig ["192.0.2.1"]); HandshakeTimeout] in
  let r := run sampleOracle (forEach (again ++ again ++ [Activate (sampleConfig [])]) (handle true)) newDaemon [] in
  resOutcome r = Returned tt ∧
  excludedAddrSet (resGlobals r) !! IPRange (HIPv4 (ofOctets 192 0 2 1)) 32 = Some 1.
Proof. split; vm_compute; reflexivity. Qed.

(** A system that cannot do anything. *)
Definition failingOracle : oracle daemonIO := λ h c,
  match c return daemonAns c with
  | RunOp Down _ | DeleteInterface => true
  | InterfaceName => ""
  | GetPeerStatus => []
  | EmitConnected _ | EmitActivationFailure | EmitDisconnected | ConfigureSplitTunnelRules _ | LookupHost _ _
  | AddAllowedRange _ | PrepareActivation _ | Reply _ => tt
  | _ => false
  end.

(** An activation that starts over and fails announces the failure twice. *)
Lemma failure_announced_twice :
  let g := resGlobals (run sampleOracle (activate true (sampleConfig [])) newDaemon []) in
  let other := Config SingleHop "awg" "other" (Some "10.8.1.3") None "203.0.113.6" "" sampleKey None None None "" "" 1 1 ""
                 [] [] [] [] [] true ∅ in
  length (filter (λ e, isFailure (evCall e) = true) (resTrace (run failingOracle (activate true other) g []))) = 2%nat.
Proof. vm_compute. reflexivity. Qed.
