(* ===== verification/LocalSocket.v ===== *)
(** * The socket between the client and the daemon

    Both ends of the local socket, one JSON object per line:
    [LocalSocketController] ([client/mozilla/localsocketcontroller.cpp]) with the
    protocol object that owns it ([client/core/protocols/wireGuardProtocol.cpp]), and
    [DaemonLocalServerConnection] ([client/daemon/daemonlocalserverconnection.cpp])
    in front of the daemon.

    The controller is a state and each handler returns the new state and what it
    emits or writes, in order.  The daemon's end is a program over the state of the
    daemon; what it writes can be read off the history.  The text of JSON objects is
    Qt's and a parameter: an object that can be sent is read back from its compact
    text, which is one line in braces.  Signals are handled after the handler that
    emits them. *)

From Stdlib Require Import Ascii.
From S2P Require Import Prelude QtCore Variant NetworkUtilities IpAddress SplitTunnel.
From S2P Require Import ConnectionHealth Containers VpnProtocol Effects InterfaceConfig Daemon DaemonSafety.
From stdpp Require Import functions options.
#[local] Open Scope Z_scope.
#[local] Open Scope script_scope.

#[local] Set Default Proof Using "Type*".

(** ** Lines *)

Definition newline : ascii := "010"%char.
Definition newlineText : string := String newline "".

(** [QByteArray::trimmed]: the blanks of ASCII. *)
Definition isBlankByte (c : ascii) : bool :=
  let n := code c in ((9 <=? n) && (n <=? 13) || (n =? 32))%N.

Fixpoint trimBytesLeft (s : string) : string :=
  match s with
  | EmptyString => ""
  | String c s' => if isBlankByte c then trimBytesLeft s' else s
  end.

Fixpoint trimBytesRight (s : string) : string :=
  match s with
  | EmptyString => ""
  | String c s' =>
      match trimBytesRight s' with
      | EmptyString => if isBlankByte c then "" else String c ""
      | t => String c t
      end
  end.

Definition trimmedBytes (s : string) : string := trimBytesRight (trimBytesLeft s).

(** The loop of both [readData]: the commands of the complete lines, and what stays
    in the buffer. *)
Fixpoint readLoop (fuel : nat) (buffer : string) : option (list string * string) :=
  match fuel with
  | O => None
  | S fuel =>
      match indexOfFirst buffer newlineText with
      | None => Some ([], buffer)
      | Some pos =>
          let line := leftPart pos buffer in
          let command := trimmedBytes line in
          '(commands, rest) ← readLoop fuel (midFrom (S pos) buffer);
          Some (if isEmpty command then commands else command :: commands, rest)
      end
  end.

(** A buffer has at most as many lines as characters. *)
Definition readLines (buffer : string) : list string * string :=
  default ([], buffer) (readLoop (S (String.length buffer)) buffer).

(** ** Texts of objects and dates *)

Class JsonText := {
  parseObject : string → option QJsonObject;
  printObject : QJsonObject → string;
  sendable : QJsonObject → Prop;
  parse_printObject o : sendable o → parseObject (printObject o) = Some o;
  print_braces o : ∃ t, printObject o = "{" +:+ t +:+ "}";
  print_oneLine o : containsChar newline (printObject o) = false;
}.

(** [QDateTime::fromString]. *)
Class DateParser := dateFromString : string → option Z.

(** [write] of both ends. *)
Definition wireText `{JsonText} (o : QJsonObject) : string := printObject o +:+ newlineText.

(** An integer as a double: 53 bits, rounded to the nearest, ties to even. *)
Definition toDouble (z : Z) : Z :=
  let step := 2 ^ Z.max 0 (Z.log2 (Z.abs z) - 52) in
  let q := z / step in
  let r := z mod step in
  step * (if 2 * r <? step then q else if step <? 2 * r then q + 1 else if Z.even q then q else q + 1).

(** ** The controller *)

Inductive DaemonState_ := eUnknown | eInitializing | eReady | eDisconnected.

#[export] Instance DaemonState_eq_dec : EqDecision DaemonState_.
Proof. solve_decision. Defined.

(** The callback for the logs is a number that names it. *)
Record controller := Controller {
  daemonState : DaemonState_;
  buffer : string;
  deviceIpv4 : string;
  logCallback : option Z;
  initializingTimer : bool;
  initializingRetry : Z;
}.

Inductive output :=
  | Write (message : QJsonObject)
  | ConnectToServer (path : string)
  | Initialized (status connected : bool) (connectionDate : option Z)
  | Disconnected
  | StatusUpdated (serverIpv4Gateway deviceIpv4Address : string) (txBytes rxBytes : Z)
  | Connected (pubkey : string)
  | BackendFailure (error : ErrorCode)
  | Logs (callback : Z) (text : string).

Notation action := (controller → controller * list output).

Definition emit (o : output) : action := λ c, (c, [o]).
Definition noAction : action := λ c, (c, []).
Definition change (f : controller → controller) : action := λ c, (f c, []).
Definition seq (a b : action) : action := λ c,
  let '(c, outs) := a c in
  let '(c, outs') := b c in
  (c, outs ++ outs').

Declare Scope action_scope.
Delimit Scope action_scope with action.
Notation "a >> b" := (seq a b) (at level 58, right associativity) : action_scope.
#[local] Open Scope action_scope.

Definition set_state (v : DaemonState_) (c : controller) : controller :=
  Controller v (buffer c) (deviceIpv4 c) (logCallback c) (initializingTimer c) (initializingRetry c).
Definition set_buffer (v : string) (c : controller) : controller :=
  Controller (daemonState c) v (deviceIpv4 c) (logCallback c) (initializingTimer c) (initializingRetry c).
Definition set_device (v : string) (c : controller) : controller :=
  Controller (daemonState c) (buffer c) v (logCallback c) (initializingTimer c) (initializingRetry c).
Definition set_callback (v : option Z) (c : controller) : controller :=
  Controller (daemonState c) (buffer c) (deviceIpv4 c) v (initializingTimer c) (initializingRetry c).
Definition set_retryTimer (v : bool) (c : controller) : controller :=
  Controller (daemonState c) (buffer c) (deviceIpv4 c) (logCallback c) v (initializingRetry c).
Definition set_retry (v : Z) (c : controller) : controller :=
  Controller (daemonState c) (buffer c) (deviceIpv4 c) (logCallback c) (initializingTimer c) v.

Definition newController : controller := Controller eUnknown "" "" None false 0.

Definition MAX_CONNECTION_RETRY : Z := 10.

Definition typeMessage (type : string) : QJsonObject := jinsert "type" (JString type) ∅.

Definition disconnectInternal : action :=
  change (set_state eReady) >> change (set_retry 0) >> change (set_retryTimer false) >> emit Disconnected.

(** The counter is unsigned and has 32 bits. *)
Definition errorOccurred : action := λ c,
  if bool_decide (daemonState c = eInitializing) then
    let c' := set_retry ((initializingRetry c + 1) mod 2 ^ 32) c in
    if initializingRetry c <? MAX_CONNECTION_RETRY then change (set_retryTimer true) c'
    else (emit (Initialized false false None) >> disconnectInternal) c'
  else disconnectInternal c.

(** [runDirSocket]: the socket exists in the run directory. *)
Definition initializeInternal (runDirSocket : bool) : action :=
  change (set_state eInitializing) >>
  emit (ConnectToServer (if runDirSocket then "/var/run/amneziavpn/daemon.socket" else "/tmp/amneziavpn.socket")).

Definition initialize (runDirSocket : bool) : action := change (set_retry 0) >> initializeInternal runDirSocket.

Definition checkStatus : action := λ c,
  if bool_decide (daemonState c = eReady) || bool_decide (daemonState c = eInitializing)
  then emit (Write (typeMessage "status")) c else noAction c.

Definition daemonConnected : action := checkStatus.

Definition activateController (rawConfig : QJsonObject) : action :=
  change (set_device (toStringJ "" (jvalue (wgConfigOf rawConfig) "client_ip"))) >>
  emit (Write (activateMessage rawConfig)).

Definition deactivateController : action := λ c,
  if bool_decide (daemonState c ≠ eReady) then emit Disconnected c
  else (emit (Write (typeMessage "deactivate")) >> emit Disconnected) c.

(** A callback that waits is answered with an empty text. *)
Definition dropCallback : action := λ c,
  match logCallback c with
  | Some callback => (emit (Logs callback "") >> change (set_callback None)) c
  | None => noAction c
  end.

Definition getBackendLogs (callback : Z) : action :=
  dropCallback >> λ c,
  if bool_decide (daemonState c ≠ eReady) then emit (Logs callback "") c
  else (change (set_callback (Some callback)) >> emit (Write (typeMessage "logs"))) c.

Definition cleanupBackendLogs : action :=
  dropCallback >> λ c,
  if bool_decide (daemonState c ≠ eReady) then noAction c else emit (Write (typeMessage "cleanlogs")) c.

Section socket.
Context `{JsonText, DateParser}.

(** The first status: the controller is ready, whatever the message says. *)
Definition firstStatus (obj : QJsonObject) : action :=
  change (set_state eReady) >>
  match jvalue obj "connected" with
  | JBool connected =>
      if negb connected then emit (Initialized true false None)
      else
        match jvalue obj "date" with
        | JString date =>
            match dateFromString date with
            | Some datetime => emit (Initialized true true (Some datetime))
            | None => noAction
            end
        | _ => noAction
        end
  | _ => noAction
  end.

(** A counter is read as a double and converted to 64 bits without sign. *)
Definition laterStatus (obj : QJsonObject) : action :=
  match jvalue obj "serverIpv4Gateway", jvalue obj "deviceIpv4Address", jvalue obj "txBytes", jvalue obj "rxBytes" with
  | JString gateway, JString device, JNumber txBytes, JNumber rxBytes =>
      emit (StatusUpdated gateway device (quint64 (toDouble txBytes)) (quint64 (toDouble rxBytes)))
  | _, _, _, _ => noAction
  end.

Definition connectedMessage (obj : QJsonObject) : action :=
  match jvalue obj "pubkey" with
  | JString pubkey =>
      checkStatus >> (λ c, emit (StatusUpdated "" (deviceIpv4 c) 0 0) c) >> emit (Connected pubkey)
  | _ => noAction
  end.

(** Every code means the same error to the client. *)
Definition failureMessage (obj : QJsonObject) : action :=
  if negb (qcontains obj "errorCode") then emit (BackendFailure ErrorCode.VpnBackendFailure)
  else
    let errorCode := toIntJ (jvalue obj "errorCode") mod 2 ^ 8 in
    if 5 <=? errorCode then emit (BackendFailure ErrorCode.VpnBackendFailure)
    else if (errorCode =? 0) || (errorCode =? 1) then emit (BackendFailure ErrorCode.VpnBackendFailure)
    else emit (BackendFailure ErrorCode.VpnBackendFailure).

Definition logsMessage (obj : QJsonObject) : action := λ c,
  match logCallback c with
  | None => noAction c
  | Some callback =>
      let text := match jvalue obj "logs" with JString logs => replace logs "|" newlineText | _ => "" end in
      (emit (Logs callback text) >> change (set_callback None)) c
  end.

Definition parseCommand (command : string) : action := λ c,
  match parseObject command with
  | None => noAction c
  | Some obj =>
      match jvalue obj "type" with
      | JString type =>
          if bool_decide (daemonState c = eInitializing) && bool_decide (type = "status") then firstStatus obj c
          else if bool_decide (daemonState c ≠ eReady) then noAction c
          else if bool_decide (type = "status") then laterStatus obj c
          else if bool_decide (type = "disconnected") then disconnectInternal c
          else if bool_decide (type = "connected") then connectedMessage obj c
          else if bool_decide (type = "backendFailure") then failureMessage obj c
          else if bool_decide (type = "logs") then logsMessage obj c
          else noAction c
      | _ => noAction c
      end
  end.

Fixpoint parseCommands (commands : list string) : action :=
  match commands with
  | [] => noAction
  | command :: commands => parseCommand command >> parseCommands commands
  end.

Definition readData (input : string) : action := λ c,
  let '(commands, rest) := readLines (buffer c +:+ input) in
  parseCommands commands (set_buffer rest c).
End socket.

(** ** The protocol object *)

Record wireguardProtocol := WgProtocol {
  base : vpnProtocol;
  vpnGateway : string;
  vpnLocalAddress : string;
  stopped : bool;
  rawConfig : QJsonObject;
  impl : controller;
}.

(** What the object emits, and what its controller does to the socket. *)
Inductive wgSignal :=
  | Signal (s : protocolSignal)
  | TunnelAddressesUpdated (gateway localAddress : string)
  | Socket (o : output).

Definition set_impl (v : controller) (p : wireguardProtocol) : wireguardProtocol :=
  WgProtocol (base p) (vpnGateway p) (vpnLocalAddress p) (stopped p) (rawConfig p) v.
Definition set_base (v : vpnProtocol) (p : wireguardProtocol) : wireguardProtocol :=
  WgProtocol v (vpnGateway p) (vpnLocalAddress p) (stopped p) (rawConfig p) (impl p).
Definition set_addresses (gateway localAddress : string) (p : wireguardProtocol) : wireguardProtocol :=
  WgProtocol (base p) gateway localAddress (stopped p) (rawConfig p) (impl p).
Definition set_stopped (v : bool) (p : wireguardProtocol) : wireguardProtocol :=
  WgProtocol (base p) (vpnGateway p) (vpnLocalAddress p) v (rawConfig p) (impl p).
Definition set_rawConfig (v : QJsonObject) (p : wireguardProtocol) : wireguardProtocol :=
  WgProtocol (base p) (vpnGateway p) (vpnLocalAddress p) (stopped p) v (impl p).

(** An operation of the base class. *)
Definition onBase (op : vpnProtocol → vpnProtocol * list protocolSignal) (p : wireguardProtocol) :
    wireguardProtocol * list wgSignal :=
  let '(b, signals) := op (base p) in (set_base b p, Signal <$> signals).

Definition onStatusUpdated (gateway device : string) (txBytes rxBytes : Z) (p : wireguardProtocol) :
    wireguardProtocol * list wgSignal :=
  let newGateway := if isEmpty gateway then vpnGateway p else gateway in
  let newLocal := if isEmpty device then vpnLocalAddress p else device in
  let updated :=
    if negb (isEmpty newGateway) && bool_decide (newGateway ≠ vpnGateway p) ||
       negb (isEmpty newLocal) && bool_decide (newLocal ≠ vpnLocalAddress p)
    then [TunnelAddressesUpdated newGateway newLocal] else [] in
  let '(p, signals) := onBase (setBytesChanged rxBytes txBytes) (set_addresses newGateway newLocal p) in
  (p, updated ++ signals).

(** The slots that the constructor connects to the controller. *)
Definition onOutput (o : output) (p : wireguardProtocol) : wireguardProtocol * list wgSignal :=
  match o with
  | Connected _ => onBase (setProtocolState Vpn.Connected) p
  | StatusUpdated gateway device txBytes rxBytes => onStatusUpdated gateway device txBytes rxBytes p
  | Disconnected => onBase (setProtocolState Vpn.Disconnected) p
  | BackendFailure error =>
      let '(p, signals) := onBase (setLastError error) p in (p, signals ++ [Signal (ProtocolError error)])
  | Initialized _ _ _ | Logs _ _ => (p, [])
  | Write _ | ConnectToServer _ => (p, [Socket o])
  end.

Fixpoint onOutputs (outs : list output) (p : wireguardProtocol) : wireguardProtocol * list wgSignal :=
  match outs with
  | [] => (p, [])
  | o :: outs =>
      let '(p, signals) := onOutput o p in
      let '(p, signals') := onOutputs outs p in
      (p, signals ++ signals')
  end.

Definition onController (a : action) (p : wireguardProtocol) : wireguardProtocol * list wgSignal :=
  let '(c, outs) := a (impl p) in onOutputs outs (set_impl c p).

(** The constructor. *)
Definition newWireguardProtocol (runDirSocket : bool) (configuration : QJsonObject) : wireguardProtocol * list wgSignal :=
  onController (initialize runDirSocket) (WgProtocol newProtocol "" "" true configuration newController).

(** The host names are looked up one after the other. *)
Definition startMzImpl `{HostAddressText} (proto : Proto) (fromName fromName' : string → list hostAddress)
    (p : wireguardProtocol) : wireguardProtocol * list wgSignal :=
  let key := key_proto_config_data proto in
  let vpnConfigData := toObjectJ (jvalue (rawConfig p) key) in
  let vpnConfigData :=
    jinsert "hostName" (JString (getIPAddress fromName (toStringJ "" (jvalue vpnConfigData "hostName")))) vpnConfigData in
  let config := jinsert key (JObject vpnConfigData) (rawConfig p) in
  let config := jinsert "protocol" (JString (protoToString proto)) config in
  let config := jinsert "hostName" (JString (getIPAddress fromName' (toStringJ "" (jvalue config "hostName")))) config in
  onController (activateController config) (set_rawConfig config p).

Definition start `{HostAddressText} (proto : Proto) (fromName fromName' : string → list hostAddress)
    (p : wireguardProtocol) : wireguardProtocol * list wgSignal :=
  startMzImpl proto fromName fromName' (set_stopped false p).

Definition stop (p : wireguardProtocol) : wireguardProtocol * list wgSignal :=
  if stopped p then (p, []) else onController deactivateController (set_stopped true p).

Definition requestStatus (p : wireguardProtocol) : wireguardProtocol * list wgSignal := onController checkStatus p.

(** What happens to the object; the retry timer fires once. *)
Inductive clientEvent :=
  | Start (fromName fromName' : string → list hostAddress)
  | Stop
  | RequestStatus
  | SocketConnected
  | SocketError
  | SocketDisconnected
  | RetryTimeout (runDirSocket : bool)
  | ReadyRead (input : string).

Section client.
Context `{HostAddressText, JsonText, DateParser} (proto : Proto).

Definition clientStep (e : clientEvent) (p : wireguardProtocol) : wireguardProtocol * list wgSignal :=
  match e with
  | Start fromName fromName' => start proto fromName fromName' p
  | Stop => stop p
  | RequestStatus => requestStatus p
  | SocketConnected => onController daemonConnected p
  | SocketError | SocketDisconnected => onController errorOccurred p
  | RetryTimeout runDirSocket =>
      onController (change (set_retryTimer false) >> initializeInternal runDirSocket) p
  | ReadyRead input => onController (readData input) p
  end.

Fixpoint clientRun (es : list clientEvent) (p : wireguardProtocol) : wireguardProtocol * list wgSignal :=
  match es with
  | [] => (p, [])
  | e :: es =>
      let '(p, signals) := clientStep e p in
      let '(p, signals') := clientRun es p in
      (p, signals ++ signals')
  end.
End client.

(** ** The daemon's end *)

Definition failureReply : QJsonObject := jinsert "errorCode" (JNumber 1) (typeMessage "backendFailure").
Definition logsReply : QJsonObject := jinsert "logs" (JString "") (typeMessage "logs").
Definition connectedSignal (pubkey : string) : QJsonObject := jinsert "pubkey" (JString pubkey) (typeMessage "connected").

Section server.
Context `{HostAddressText, SubnetText, Base64, DateText, JsonText} (supportIPUtils : bool).

(** The request for the logs is answered by the first of its two branches. *)
Definition serverCommand (data : string) : program unit :=
  match parseObject data with
  | None => skip
  | Some obj =>
      match jvalue obj "type" with
      | JString type =>
          if bool_decide (type = "logs") then ask (Reply logsReply)
          else if bool_decide (type = "activate") then
            match parseConfig obj with
            | None => ask (Reply failureReply)
            | Some config =>
                ok ← activate supportIPUtils config;
                if (ok : bool) then skip else ask (Reply failureReply)
            end
          else if bool_decide (type = "deactivate") then deactivate true;; skip
          else if bool_decide (type = "status") then
            obj ← getStatus;
            ask (Reply (jinsert "type" (JString "status") obj))
          else skip
      | _ => skip
      end
  end.

(** What happens to the daemon: input on its socket, or anything else. *)
Inductive serverEvent :=
  | Received (input : string)
  | Internal (e : daemonEvent).

(** The buffer of the connection is returned. *)
Fixpoint serve (es : list serverEvent) (buffer : string) : program string :=
  match es with
  | [] => Ret buffer
  | Received input :: es =>
      let '(commands, rest) := readLines (buffer +:+ input) in
      forEach commands serverCommand;; serve es rest
  | Internal e :: es => handle supportIPUtils e;; serve es buffer
  end.
End server.

(** What the connection writes: signals of the daemon and answers. *)
Definition messageOf (e : event daemonIO) : list QJsonObject :=
  match evCall e with
  | EmitConnected pubkey => [connectedSignal pubkey]
  | EmitDisconnected => [typeMessage "disconnected"]
  | Reply message => [message]
  | _ => []
  end.

Definition written (h : trace daemonIO) : list QJsonObject := h ≫= messageOf.

Definition wire `{JsonText} (messages : list QJsonObject) : string := String.concat "" (wireText <$> messages).

(** ** Lines *)

Lemma split_line s :
  containsChar newline s = false ∨ ∃ l r, containsChar newline l = false ∧ s = l +:+ String newline r.
Proof.
  induction s as [|c s IH]; [by left|]. destruct (eqChar c newline) eqn:Hc.
  - right. exists "", s. unfold eqChar in Hc. apply Ascii.eqb_eq in Hc as ->. by rewrite snil_app.
  - destruct IH as [Hs|(l & r & Hl & ->)]; [left|right].
    + cbn. by rewrite Hc, Hs.
    + exists (String c l), r. cbn. by rewrite Hc, Hl.
Qed.

Lemma newline_prefix s : String.prefix newlineText s = match s with String c _ => eqChar c newline | _ => false end.
Proof.
  destruct s as [|c s]; [done|]. unfold newlineText, eqChar. cbn [String.prefix].
  destruct (ascii_dec newline c) as [<-|Hne]; [by destruct s|]. symmetry. by apply Ascii.eqb_neq.
Qed.

Lemma index_none s : containsChar newline s = false → indexOfFirst s newlineText = None.
Proof.
  induction s as [|c s IH]; [done|]. cbn [containsChar indexOfFirst]. intros [Hc Hs]%orb_false_iff.
  rewrite newline_prefix, Hc. by rewrite IH.
Qed.

Lemma index_line l r :
  containsChar newline l = false → indexOfFirst (l +:+ String newline r) newlineText = Some (String.length l).
Proof.
  induction l as [|c l IH]; intros Hl.
  - rewrite snil_app. cbn [indexOfFirst]. by rewrite newline_prefix.
  - cbn [containsChar] in Hl. apply orb_false_iff in Hl as [Hc Hl]. rewrite scons_app. cbn [indexOfFirst].
    rewrite newline_prefix, Hc, IH by done. done.
Qed.

(** What a line adds to the commands. *)
Definition addCommand (l : string) (r : list string * string) : list string * string :=
  (if isEmpty (trimmedBytes l) then r.1 else trimmedBytes l :: r.1, r.2).

Lemma readLoop_line fuel l r :
  containsChar newline l = false →
  readLoop (S fuel) (l +:+ String newline r) = addCommand l <$> readLoop fuel r.
Proof.
  intros Hl. cbn [readLoop]. rewrite index_line, leftPart_app by done.
  replace (midFrom (S (String.length l)) (l +:+ String newline r)) with r.
  { by destruct (readLoop fuel r) as [[commands rest]|]. }
  clear Hl. induction l as [|c l IH]; [done|]. rewrite scons_app. exact IH.
Qed.

Lemma readLoop_none fuel s : containsChar newline s = false → readLoop (S fuel) s = Some ([], s).
Proof. intros Hs. cbn [readLoop]. by rewrite index_none. Qed.

(** The bound is enough: more does not change the result. *)
Lemma readLoop_enough fuel s : (String.length s < fuel)%nat → readLoop fuel s = Some (readLines s).
Proof.
  revert s. induction fuel as [fuel IH] using lt_wf_ind. intros s Hlt. destruct fuel as [|fuel]; [lia|].
  unfold readLines. destruct (split_line s) as [Hs|(l & r & Hl & ->)]; [by rewrite !readLoop_none|].
  assert (String.length r < String.length (l +:+ String newline r))%nat as Hr.
  { rewrite slength_app. cbn. lia. }
  rewrite !readLoop_line by done. rewrite (IH fuel) by lia.
  by rewrite (IH (String.length (l +:+ String newline r))) by lia.
Qed.

Lemma readLines_none s : containsChar newline s = false → readLines s = ([], s).
Proof. intros Hs. unfold readLines. by rewrite readLoop_none. Qed.

Lemma readLines_line l r :
  containsChar newline l = false → readLines (l +:+ String newline r) = addCommand l (readLines r).
Proof.
  intros Hl. unfold readLines at 1. rewrite readLoop_line by done. rewrite readLoop_enough; [done|].
  rewrite slength_app. cbn. lia.
Qed.

(** Input can be read in pieces. *)
Lemma readLines_app a b :
  readLines (a +:+ b) = ((readLines a).1 ++ (readLines ((readLines a).2 +:+ b)).1, (readLines ((readLines a).2 +:+ b)).2).
Proof.
  induction a as [a IH] using (well_founded_induction (Wf_nat.well_founded_ltof _ String.length)).
  destruct (split_line a) as [Ha|(l & r & Hl & ->)].
  - rewrite (readLines_none a) by done. cbn [fst snd app]. by destruct (readLines (a +:+ b)).
  - rewrite sapp_assoc, scons_app, !readLines_line by done. rewrite (IH r).
    + unfold addCommand. cbn [fst snd]. by destruct (isEmpty _).
    + unfold Wf_nat.ltof. rewrite slength_app. cbn. lia.
Qed.

(** No complete line stays behind. *)
Lemma readLines_rest s : containsChar newline (readLines s).2 = false.
Proof.
  induction s as [s IH] using (well_founded_induction (Wf_nat.well_founded_ltof _ String.length)).
  destruct (split_line s) as [Hs|(l & r & Hl & ->)]; [by rewrite readLines_none|].
  rewrite readLines_line by done. cbn [addCommand snd]. apply IH. unfold Wf_nat.ltof. rewrite slength_app. cbn. lia.
Qed.

(** What arrives in pieces. *)
Fixpoint readChunks (buffer : string) (chunks : list string) : list string * string :=
  match chunks with
  | [] => ([], buffer)
  | chunk :: chunks =>
      let '(commands, rest) := readLines (buffer +:+ chunk) in
      let '(commands', rest') := readChunks rest chunks in
      (commands ++ commands', rest')
  end.

Lemma concat_cons s l : String.concat "" (s :: l) = s +:+ String.concat "" l.
Proof. destruct l as [|t l]; [by rewrite sapp_nil_r|]. cbn. by rewrite snil_app. Qed.

Lemma readChunks_concat buffer chunks :
  containsChar newline buffer = false → readChunks buffer chunks = readLines (buffer +:+ String.concat "" chunks).
Proof.
  revert buffer. induction chunks as [|chunk chunks IH]; intros buffer Hb; cbn [readChunks].
  - rewrite sapp_nil_r. by rewrite readLines_none.
  - rewrite concat_cons, <-sapp_assoc, (readLines_app (buffer +:+ chunk)). destruct (readLines (buffer +:+ chunk)) as [commands rest] eqn:Hr.
    cbn [fst snd]. rewrite IH; [by destruct (readLines (rest +:+ String.concat "" chunks))|].
    replace rest with (readLines (buffer +:+ chunk)).2 by by rewrite Hr. apply readLines_rest.
Qed.

Lemma trimBytesRight_brace s : trimBytesRight (s +:+ "}") = s +:+ "}".
Proof.
  induction s as [|c s IH]; [done|]. rewrite !scons_app. cbn [trimBytesRight]. rewrite IH. by destruct s.
Qed.

Section text.
Context `{JsonText}.

Lemma print_trimmed o : trimmedBytes (printObject o) = printObject o.
Proof.
  destruct (print_braces o) as [t ->]. unfold trimmedBytes. rewrite (scons_app "{" "" (t +:+ "}")), snil_app.
  cbn [trimBytesLeft]. change (isBlankByte "{") with false. cbn iota.
  change (String "{" (t +:+ "}")) with (String "{" t +:+ "}"). apply trimBytesRight_brace.
Qed.

(** The text of messages is read as those messages. *)
Lemma readLines_wire messages : readLines (wire messages) = (printObject <$> messages, "").
Proof.
  unfold wire. induction messages as [|m messages IH]; [done|]. cbn [fmap list_fmap]. rewrite concat_cons.
  unfold wireText at 1. rewrite sapp_assoc. unfold newlineText. rewrite scons_app, snil_app.
  rewrite readLines_line by apply print_oneLine. rewrite IH. unfold addCommand. rewrite print_trimmed.
  destruct (print_braces m) as [t ->]. done.
Qed.

Lemma parse_sent messages : Forall sendable messages → parseObject <$> (printObject <$> messages) = Some <$> messages.
Proof. induction 1 as [|m messages Hm _ IH]; [done|]. rewrite !fmap_cons, IH. by rewrite parse_printObject. Qed.

(** Messages that one end writes are read by the other as those messages, in
    order and complete, however the socket splits and joins the bytes. *)
Lemma messages_received messages chunks :
  Forall sendable messages → String.concat "" chunks = wire messages →
  (readChunks "" chunks).2 = "" ∧ parseObject <$> (readChunks "" chunks).1 = Some <$> messages.
Proof.
  intros Hs Hc. rewrite readChunks_concat, snil_app, Hc, readLines_wire by done. split; [done|]. by apply parse_sent.
Qed.

(** A part of the text is read as the first messages. *)
Lemma readLines_wire_prefix messages received rest :
  wire messages = received +:+ rest → ∃ n, (readLines received).1 = printObject <$> take n messages.
Proof.
  intros Hw. pose proof (readLines_wire messages) as Hr. rewrite Hw, readLines_app in Hr.
  injection Hr as Hr _. exists (length (readLines received).1).
  rewrite fmap_take, <-Hr, take_app_length. done.
Qed.
End text.

(** ** What the client shows *)

(** The input that an event brings. *)
Definition inputOf (e : clientEvent) : string := match e with ReadyRead input => input | _ => "" end.

Definition received (es : list clientEvent) : string := String.concat "" (inputOf <$> es).

(** An action that reads nothing and announces no connection. *)
Definition quietAction (a : action) : Prop :=
  ∀ c, buffer (a c).1 = buffer c ∧ ∀ pk, Connected pk ∉ (a c).2.

Lemma quiet_emit o : (∀ pk, o ≠ Connected pk) → quietAction (emit o).
Proof. intros Ho c. split; [done|]. intros pk. unfold emit. cbn. rewrite list_elem_of_singleton. congruence. Qed.

Lemma quiet_noAction : quietAction noAction.
Proof. intros c. split; [done|]. intros pk. apply not_elem_of_nil. Qed.

Lemma quiet_change f : (∀ c, buffer (f c) = buffer c) → quietAction (change f).
Proof. intros Hf c. split; [apply Hf|]. intros pk. apply not_elem_of_nil. Qed.

Lemma quiet_seq a b : quietAction a → quietAction b → quietAction (a >> b).
Proof.
  intros Ha Hb c. unfold seq. destruct (a c) as [c1 o1] eqn:H1. destruct (b c1) as [c2 o2] eqn:H2.
  specialize (Ha c). specialize (Hb c1). rewrite H1 in Ha. rewrite H2 in Hb. cbn [fst snd] in *.
  destruct Ha as [Ha1 Ha2], Hb as [Hb1 Hb2]. split; [congruence|]. intros pk Hin.
  apply elem_of_app in Hin as [Hin|Hin]; [by apply (Ha2 pk)|by apply (Hb2 pk)].
Qed.

#[local] Hint Resolve quiet_noAction : vpn.

Ltac solve_quiet :=
  repeat match goal with
  | |- quietAction (seq _ _) => apply quiet_seq
  | |- quietAction (emit _) => apply quiet_emit; discriminate
  | |- quietAction (change _) => apply quiet_change; reflexivity
  | |- quietAction (if ?b then _ else _) => destruct b
  | |- quietAction (match ?x with _ => _ end) => destruct x
  | |- _ => solve [eauto with vpn]
  end.

Lemma quiet_disconnect : quietAction disconnectInternal.
Proof. unfold disconnectInternal. solve_quiet. Qed.

#[local] Hint Resolve quiet_disconnect : vpn.

(** An action that looks at the state first. *)
Lemma quiet_if (b : controller → bool) (a a' : action) :
  quietAction a → quietAction a' → quietAction (λ c, if b c then a c else a' c).
Proof. intros Ha Ha' c. destruct (b c); [apply Ha|apply Ha']. Qed.

Lemma quiet_after (f : controller → controller) (a : action) :
  (∀ c, buffer (f c) = buffer c) → quietAction a → quietAction (λ c, a (f c)).
Proof. intros Hf Ha c. rewrite <-(Hf c). apply Ha. Qed.

Lemma quiet_checkStatus : quietAction checkStatus.
Proof. apply quiet_if; solve_quiet. Qed.

Lemma quiet_deactivate_controller : quietAction deactivateController.
Proof. apply quiet_if; solve_quiet. Qed.

Lemma quiet_error : quietAction errorOccurred.
Proof.
  unfold errorOccurred. apply quiet_if; [|solve_quiet].
  apply quiet_if; apply quiet_after; solve [reflexivity|solve_quiet].
Qed.

Lemma quiet_initialize b : quietAction (initializeInternal b).
Proof. unfold initializeInternal. solve_quiet. Qed.

Lemma quiet_activate_controller raw : quietAction (activateController raw).
Proof. unfold activateController. solve_quiet. Qed.

#[local] Hint Resolve quiet_checkStatus quiet_deactivate_controller quiet_error quiet_initialize
  quiet_activate_controller : vpn.

(** Handling outputs does not change the controller, and only the signal of the
    controller makes the object connected. *)
Lemma onOutput_connected o p :
  impl (onOutput o p).1 = impl p ∧
  (Signal (StateChanged Vpn.Connected) ∈ (onOutput o p).2 → ∃ pk, o = Connected pk).
Proof.
  destruct o; cbn [onOutput]; try (split; [done|]; set_solver).
  - unfold onBase, setProtocolState. case_bool_decide; [split; [done|set_solver]|].
    destruct (_ && _); split; try done; set_solver.
  - unfold onStatusUpdated, onBase, setBytesChanged. cbn [fst snd]. split; [done|].
    rewrite elem_of_app. intros [Hin|Hin]; [destruct (_ || _); set_solver|set_solver].
  - unfold onBase. destruct (setProtocolState _ _). split; [done|]. eauto.
  - unfold onBase, setLastError, setProtocolState. repeat case_bool_decide; try destruct (_ && _); split; try done; set_solver.
Qed.

Lemma onOutputs_connected outs p :
  impl (onOutputs outs p).1 = impl p ∧
  (Signal (StateChanged Vpn.Connected) ∈ (onOutputs outs p).2 → ∃ pk, Connected pk ∈ outs).
Proof.
  revert p. induction outs as [|o outs IH]; intros p; cbn [onOutputs]; [split; [done|set_solver]|].
  destruct (onOutput_connected o p) as [Hi Hc]. destruct (onOutput o p) as [p1 s1]. specialize (IH p1).
  destruct (onOutputs outs p1) as [p2 s2]. cbn [fst snd] in *. destruct IH as [IH1 IH2]. split; [congruence|].
  rewrite elem_of_app. intros [Hin|Hin]; [destruct (Hc Hin) as [pk ->]|destruct (IH2 Hin) as [pk Hpk]]; exists pk; set_solver.
Qed.

Section shown.
Context `{HostAddressText, JsonText, DateParser} (proto : Proto).

(** A line that announces a connection. *)
Definition announces (pk command : string) : Prop :=
  ∃ obj, parseObject command = Some obj ∧ jvalue obj "type" = JString "connected" ∧ jvalue obj "pubkey" = JString pk.

Lemma quiet_firstStatus obj : quietAction (firstStatus obj).
Proof. unfold firstStatus. solve_quiet. Qed.

Lemma quiet_laterStatus obj : quietAction (laterStatus obj).
Proof. unfold laterStatus. solve_quiet. Qed.

Lemma quiet_failure obj : quietAction (failureMessage obj).
Proof. unfold failureMessage. solve_quiet. Qed.

Lemma quiet_logs obj : quietAction (logsMessage obj).
Proof.
  intros c. unfold logsMessage. destruct (logCallback c) as [callback|]; [|apply quiet_noAction].
  match goal with |- buffer (?a c).1 = _ ∧ _ => assert (quietAction a) as Ha; [solve_quiet|apply Ha] end.
Qed.

Lemma parseCommand_connected command c :
  buffer (parseCommand command c).1 = buffer c ∧ ∀ pk, Connected pk ∈ (parseCommand command c).2 → announces pk command.
Proof.
  assert (∀ a, quietAction a → buffer (a c).1 = buffer c ∧ ∀ pk, Connected pk ∈ (a c).2 → announces pk command) as Hq.
  { intros a Ha. destruct (Ha c) as [Hb Hn]. split; [done|]. intros pk Hin. by destruct (Hn pk). }
  unfold parseCommand. destruct (parseObject command) as [obj|] eqn:Hobj; [|apply Hq, quiet_noAction].
  destruct (jvalue obj "type") eqn:Htype; try apply Hq, quiet_noAction.
  destruct (_ && _); [apply Hq, quiet_firstStatus|]. case_bool_decide; [apply Hq, quiet_noAction|].
  case_bool_decide; [apply Hq, quiet_laterStatus|]. case_bool_decide; [apply Hq, quiet_disconnect|].
  case_bool_decide; [|case_bool_decide; [apply Hq, quiet_failure|case_bool_decide; [apply Hq, quiet_logs|apply Hq, quiet_noAction]]].
  unfold connectedMessage. destruct (jvalue obj "pubkey") as [| | | |pk| |] eqn:Hpk; try apply Hq, quiet_noAction.
  destruct (quiet_checkStatus c) as [Hb Hn]. unfold seq, emit. destruct (checkStatus c) as [c1 o1]. cbn [fst snd] in *.
  split; [done|]. intros pk' Hin. rewrite elem_of_app in Hin. destruct Hin as [Hin|Hin]; [by destruct (Hn pk')|].
  assert (pk' = pk) as -> by set_solver. exists obj. by subst.
Qed.

Lemma parseCommands_connected commands c :
  buffer (parseCommands commands c).1 = buffer c ∧
  ∀ pk, Connected pk ∈ (parseCommands commands c).2 → ∃ command, command ∈ commands ∧ announces pk command.
Proof.
  revert c. induction commands as [|command commands IH]; intros c; cbn [parseCommands].
  - split; [done|]. intros pk Hin. by apply not_elem_of_nil in Hin.
  - destruct (parseCommand_connected command c) as [Hb Hc]. unfold seq. destruct (parseCommand command c) as [c1 o1].
    specialize (IH c1). destruct (parseCommands commands c1) as [c2 o2]. cbn [fst snd] in *. destruct IH as [IH1 IH2].
    split; [congruence|]. intros pk. rewrite elem_of_app. intros [Hin|Hin]; [|destruct (IH2 pk Hin) as (command' & ? & ?)];
      eexists; (split; [|by eauto]); set_solver.
Qed.

(** One event: the buffer is what [readLines] leaves, and a connection is shown only
    for a line that announces it. *)
Lemma clientStep_connected e p :
  containsChar newline (buffer (impl p)) = false →
  let lines := readLines (buffer (impl p) +:+ inputOf e) in
  buffer (impl (clientStep proto e p).1) = lines.2 ∧
  (Signal (StateChanged Vpn.Connected) ∈ (clientStep proto e p).2 → ∃ pk command, command ∈ lines.1 ∧ announces pk command).
Proof.
  intros Hb lines.
  assert (∀ a p', quietAction a → impl p' = impl p → inputOf e = "" → buffer (impl (onController a p').1) = lines.2 ∧
    (Signal (StateChanged Vpn.Connected) ∈ (onController a p').2 → ∃ pk command, command ∈ lines.1 ∧ announces pk command)) as Hq.
  { intros a p' Ha Hp' He. subst lines. rewrite He, sapp_nil_r, readLines_none by done. unfold onController. rewrite Hp'.
    destruct (Ha (impl p)) as [Hb1 Hn]. destruct (a (impl p)) as [c1 outs]. cbn [fst snd] in *.
    destruct (onOutputs_connected outs (set_impl c1 p')) as [-> Hc]. split; [done|]. intros Hin.
    destruct (Hc Hin) as [pk Hpk]. by destruct (Hn pk). }
  destruct e as [f f'| | | | | |b|input]; cbn [clientStep]; try (apply Hq; [solve_quiet|done|done]).
  - unfold stop. destruct (stopped p); [|apply Hq; [solve_quiet|done|done]].
    subst lines. cbn [inputOf]. rewrite sapp_nil_r, readLines_none by done. split; [done|set_solver].
  - unfold onController, readData. fold (inputOf (ReadyRead input)). change (inputOf (ReadyRead input)) with input in *.
    subst lines. destruct (readLines (buffer (impl p) +:+ input)) as [commands rest].
    destruct (parseCommands_connected commands (set_buffer rest (impl p))) as [Hb1 Hc1].
    destruct (parseCommands commands (set_buffer rest (impl p))) as [c1 outs]. cbn [fst snd] in *.
    destruct (onOutputs_connected outs (set_impl c1 p)) as [-> Hc]. split; [done|]. intros Hin.
    destruct (Hc Hin) as [pk Hpk]. destruct (Hc1 pk Hpk) as (command & ? & ?). eauto.
Qed.

Lemma clientRun_connected es p :
  containsChar newline (buffer (impl p)) = false →
  Signal (StateChanged Vpn.Connected) ∈ (clientRun proto es p).2 →
  ∃ pk command, command ∈ (readLines (buffer (impl p) +:+ received es)).1 ∧ announces pk command.
Proof.
  revert p. induction es as [|e es IH]; intros p Hb; cbn [clientRun]; [by intros ?%not_elem_of_nil|].
  destruct (clientStep_connected e p Hb) as [Hb1 Hc]. destruct (clientStep proto e p) as [p1 s1]. cbn [fst snd] in *.
  specialize (IH p1). destruct (clientRun proto es p1) as [p2 s2]. cbn [fst snd] in *.
  unfold received in *. cbn [fmap list_fmap]. rewrite concat_cons, <-sapp_assoc, (readLines_app (_ +:+ inputOf e)).
  rewrite Hb1 in IH. cbn [fst]. rewrite elem_of_app. intros [Hin|Hin].
  - destruct (Hc Hin) as (pk & command & ? & ?). exists pk, command. set_solver.
  - destruct (IH (readLines_rest _) Hin) as (pk & command & ? & ?). exists pk, command. set_solver.
Qed.
End shown.

(** ** What the daemon writes *)

Section server_history.
Context `{HostAddressText, SubnetText, Base64, DateText, JsonText} (supportIPUtils : bool).

(** Every message that announces a connection follows a report of its handshake. *)
Definition truthful (h : trace daemonIO) : Prop :=
  ∀ m pk, m ∈ written h → jvalue m "type" = JString "connected" → jvalue m "pubkey" = JString pk →
    ∃ e, e ∈ h ∧ reports pk e.

Lemma truthful_snoc h e :
  truthful h →
  (∀ m pk, m ∈ messageOf e → jvalue m "type" = JString "connected" → jvalue m "pubkey" = JString pk →
    ∃ e', e' ∈ h ∧ reports pk e') →
  truthful (h ++ [e]).
Proof.
  intros Hh He m pk. unfold written. rewrite bind_app, elem_of_app. cbn [mbind list_bind]. rewrite app_nil_r.
  intros Hm Ht Hp. assert (∃ e', e' ∈ h ∧ reports pk e') as (e' & ? & ?); [|exists e'; set_solver].
  destruct Hm as [Hm|Hm]; [by apply (Hh m)|by apply (He m)].
Qed.

Lemma truthful_quiet h c x : quiet c = true → truthful h → truthful (h ++ [Ev (c : call daemonIO) x]).
Proof.
  intros Hc Hh. apply truthful_snoc; [done|]. intros m pk. unfold messageOf. cbn [evCall].
  destruct c; try done; try by intros ?%not_elem_of_nil. rewrite list_elem_of_singleton. intros ->. vm_compute. done.
Qed.

Lemma truthful_connected h pk x :
  truthful h → (∃ e, e ∈ h ∧ reports pk e) → truthful (h ++ [Ev (EmitConnected pk : call daemonIO) x]).
Proof.
  intros Hh Hr. apply truthful_snoc; [done|]. intros m pk'. unfold messageOf. cbn [evCall].
  rewrite list_elem_of_singleton. intros ->. unfold connectedSignal. rewrite jvalue_jinsert_eq. by intros _ [= <-].
Qed.

Lemma truthful_reply m :
  jvalue m "type" ≠ JString "connected" → always (G := daemon) truthful (request (Reply m : call daemonIO)).
Proof.
  intros Hm. apply (always_request (I := daemonIO)). intros h x Hh. apply truthful_snoc; [done|]. intros m' pk. unfold messageOf.
  cbn [evCall]. rewrite list_elem_of_singleton. by intros -> ?.
Qed.

Lemma truthful_program {A} (p : program A) : only quiet p → always truthful p.
Proof. apply (always_only (I := daemonIO)). intros h c x. apply truthful_quiet. Qed.

Lemma truthful_command data : always truthful (serverCommand supportIPUtils data).
Proof.
  unfold serverCommand. destruct (parseObject data) as [obj|]; [|by apply truthful_program].
  destruct (jvalue obj "type"); try by apply truthful_program.
  case_bool_decide; [by apply truthful_reply|]. case_bool_decide.
  - destruct (parseConfig obj) as [cfg|]; [|by apply truthful_reply].
    apply always_bind; [apply truthful_program, quiet_activate|]. intros []; [by apply truthful_program|by apply truthful_reply].
  - case_bool_decide; [apply truthful_program, only_bind; [apply quiet_deactivate|done]|].
    case_bool_decide; [|by apply truthful_program].
    apply always_bind; [apply truthful_program, quiet_getStatus|]. intros status. apply truthful_reply.
    by rewrite jvalue_jinsert_eq.
Qed.

Lemma truthful_serve es buffer : always truthful (serve supportIPUtils es buffer).
Proof.
  revert buffer. induction es as [|[input|e] es IH]; intros buffer; cbn [serve]; [by apply truthful_program| |].
  - destruct (readLines _) as [commands rest]. apply always_bind; [|intros _; apply IH].
    apply always_forEach. intros command _. apply truthful_command.
  - apply always_bind; [|intros _; apply IH]. apply always_handle; [apply truthful_quiet|apply truthful_connected].
Qed.

(** C16: from the driver to the screen: whatever arrives at the daemon's socket,
    however the bytes between the two processes are split, and whatever else happens
    to the client, the protocol object of the client changes to connected only after
    WireGuard reported a handshake to the daemon. *)
Theorem shown_after_handshake `{DateParser} o ses proto es runDirSocket configuration rest :
  let r := run o (serve supportIPUtils ses "") newDaemon [] in
  Forall sendable (written (resTrace r)) →
  wire (written (resTrace r)) = received es +:+ rest →
  Signal (StateChanged Vpn.Connected) ∈ (clientRun proto es (newWireguardProtocol runDirSocket configuration).1).2 →
  ∃ pk e, e ∈ resTrace r ∧ reports pk e.
Proof.
  intros r Hs Hw Hin.
  assert (truthful (resTrace r)) as Ht.
  { apply (always_run o truthful); [apply truthful_serve|]. by intros m pk ?%not_elem_of_nil. }
  apply clientRun_connected in Hin as (pk & command & Hc & obj & Hp & Htype & Hpk); [|done].
  change (buffer _) with "" in Hc. rewrite snil_app in Hc.
  destruct (readLines_wire_prefix _ _ _ Hw) as [n Hn]. rewrite Hn in Hc.
  apply list_elem_of_fmap in Hc as (m & -> & Hm%elem_of_take).
  destruct Hm as (i & Hm & _). apply list_elem_of_lookup_2 in Hm. rewrite Forall_forall in Hs.
  rewrite (parse_printObject m) in Hp by (apply Hs; by apply list_elem_of_In || exact Hm). injection Hp as <-. exists pk. by apply (Ht m).
Qed.
End server_history.

(** ** Requests and answers *)

Lemma toDouble_exact z : Z.abs z < 2 ^ 53 → toDouble z = z.
Proof.
  intros Hz. unfold toDouble. cbv zeta. replace (Z.max 0 (Z.log2 (Z.abs z) - 52)) with 0.
  - change (2 ^ 0) with 1. rewrite Z.mod_1_r, Z.div_1_r. change (2 * 0 <? 1) with true. cbn iota. apply Z.mul_1_l.
  - symmetry. apply Z.max_l. destruct (decide (Z.abs z = 0)) as [->|Hne]; [cbn; lia|].
    assert (Z.log2 (Z.abs z) < 53); [|lia]. apply Z.log2_lt_pow2; lia.
Qed.

Section requests.
Context `{HostAddressText, SubnetText, Base64, DateText, JsonText, DateParser} (supportIPUtils : bool).

(** Input in pieces is handled line by line. *)
Lemma serve_chunks o chunks buffer g h :
  run o (serve supportIPUtils (Received <$> chunks) buffer) g h =
  run o (forEach (readChunks buffer chunks).1 (serverCommand supportIPUtils);; Ret (readChunks buffer chunks).2) g h.
Proof.
  revert buffer g h. induction chunks as [|chunk chunks IH]; intros buffer g h; [done|].
  cbn [fmap list_fmap serve readChunks]. destruct (readLines (buffer +:+ chunk)) as [commands rest].
  specialize (IH rest). destruct (readChunks rest chunks) as [commands' rest']. cbn [fst snd] in *.
  revert g h. induction commands as [|command commands IHc]; intros g h; cbn [forEach app]; [apply IH|].
  rewrite !run_bind. destruct (resOutcome (run o (serverCommand supportIPUtils command) g h)) eqn:Hr;
    rewrite ?Hr; [|done..].
  specialize (IHc (resGlobals (run o (serverCommand supportIPUtils command) g h))
    (resTrace (run o (serverCommand supportIPUtils command) g h))). by rewrite !run_bind in IHc.
Qed.

(** A message that arrives at a ready controller. *)
Lemma readData_message m c :
  sendable m → buffer c = "" → readData (wireText m) c = parseCommand (printObject m) c.
Proof.
  intros Hm Hb. unfold readData. rewrite Hb, snil_app.
  change (wireText m) with (wire [m]). rewrite readLines_wire. cbn [fmap list_fmap parseCommands].
  replace (set_buffer "" c) with c by (destruct c; cbn in *; by subst). unfold seq, noAction.
  destruct (parseCommand (printObject m) c) as [c1 o1]. by rewrite app_nil_r.
Qed.

(** A ready controller looks at the type. *)
Lemma parseCommand_ready m type c :
  sendable m → jvalue m "type" = JString type → daemonState c = eReady →
  parseCommand (printObject m) c =
    (if bool_decide (type = "status") then laterStatus m
     else if bool_decide (type = "disconnected") then disconnectInternal
     else if bool_decide (type = "connected") then connectedMessage m
     else if bool_decide (type = "backendFailure") then failureMessage m
     else if bool_decide (type = "logs") then logsMessage m
     else noAction) c.
Proof.
  intros Hm Ht Hc. unfold parseCommand. rewrite parse_printObject, Ht, Hc by done.
  change (bool_decide (eReady = eInitializing)) with false. rewrite (bool_decide_eq_false_2 (eReady ≠ eReady)) by (by intros []).
  cbn [andb]. by repeat case_bool_decide.
Qed.

(** The commands without parameters. *)
Lemma command_type type :
  sendable (typeMessage type) →
  ∃ obj, parseObject (printObject (typeMessage type)) = Some obj ∧ jvalue obj "type" = JString type.
Proof. intros Hs. exists (typeMessage type). split; [by apply parse_printObject|]. apply jvalue_jinsert_eq. Qed.

Lemma status_run o g h conn rest i status :
  let h1 := h ++ [Ev (InterfaceExists : call daemonIO) (o h InterfaceExists)] in
  let h2 := h1 ++ [Ev (GetPeerStatus : call daemonIO) (o h1 GetPeerStatus)] in
  let m := jinsert "type" (JString "status") (statusOf conn status) in
  sendable (typeMessage "status") → o h InterfaceExists = true → connectionsOf g = conn :: rest →
  list_find (λ s, peerKeysMatch (pubkey s) (serverPublicKey (config conn)) = true) (o h1 GetPeerStatus) = Some (i, status) →
  run o (serverCommand supportIPUtils (printObject (typeMessage "status"))) g h =
    Result (Returned tt) g (h2 ++ [Ev (Reply m : call daemonIO) (o h2 (Reply m))]).
Proof.
  intros h1 h2 m Hq He Hconn Hfind. unfold serverCommand. destruct (command_type _ Hq) as (obj & -> & ->).
  cbn [bool_decide]. rewrite !bool_decide_eq_false_2, bool_decide_eq_true_2 by done.
  unfold getStatus. cbn [bind request run getGlobals id]. fold h1. rewrite He, Hconn.
  cbn [negb bind request run]. rewrite Hfind. cbn [bind request run]. fold h2 m.
  by destruct (o h2 (Reply m)).
Qed.

(** A request for the status is answered with the traffic of the peer: what the
    client announces is the gateway, the address and the two counters that WireGuard
    reported, exactly up to 2^53 bytes. *)
Lemma status_delivered o g h conn rest i status c :
  let h1 := h ++ [Ev (InterfaceExists : call daemonIO) (o h InterfaceExists)] in
  let r := run o (serverCommand supportIPUtils (printObject (typeMessage "status"))) g h in
  sendable (typeMessage "status") → Forall sendable (written (resTrace r)) →
  o h InterfaceExists = true → connectionsOf g = conn :: rest →
  list_find (λ s, peerKeysMatch (pubkey s) (serverPublicKey (config conn)) = true) (o h1 GetPeerStatus) = Some (i, status) →
  0 ≤ txBytes status < 2 ^ 53 → 0 ≤ rxBytes status < 2 ^ 53 →
  daemonState c = eReady → buffer c = "" →
  ∃ m, written (resTrace r) = written h ++ [m] ∧
    readData (wireText m) c =
      (c, [StatusUpdated (serverIpv4Gateway (config conn)) (default "" (deviceIpv4Address (config conn)))
             (txBytes status) (rxBytes status)]).
Proof.
  intros h1 r Hq Hs He Hconn Hfind Htx Hrx Hc Hb. subst r.
  pose proof (status_run o g h conn rest i status Hq He Hconn Hfind) as Hrun. cbv zeta in Hrun.
  rewrite Hrun in *. clear Hrun. set (m := jinsert _ _ _) in *. cbn [resTrace] in *.
  unfold written in *. rewrite !bind_app in *. cbn [mbind list_bind messageOf evCall app] in *. rewrite !app_nil_r in *.
  rewrite Forall_app, Forall_singleton in Hs. destruct Hs as [_ Hs]. exists m. split; [done|].
  rewrite (readData_message m c Hs Hb), (parseCommand_ready m "status") by (done || apply jvalue_jinsert_eq).
  rewrite bool_decide_eq_true_2 by done. unfold laterStatus.
  change (jvalue m "serverIpv4Gateway") with (JString (serverIpv4Gateway (config conn))).
  change (jvalue m "deviceIpv4Address") with (JString (default "" (deviceIpv4Address (config conn)))).
  change (jvalue m "txBytes") with (JNumber (txBytes status)). change (jvalue m "rxBytes") with (JNumber (rxBytes status)).
  unfold emit, quint64. rewrite !toDouble_exact, !Z.mod_small by lia. done.
Qed.

(** The client's activation message is one command for the daemon. *)
Lemma activation_command raw :
  sendable (activateMessage raw) →
  serverCommand supportIPUtils (printObject (activateMessage raw)) =
    match parseConfig (activateMessage raw) with
    | None => ask (Reply failureReply)
    | Some config =>
        ok ← activate supportIPUtils config;
        if (ok : bool) then skip else ask (Reply failureReply)
    end.
Proof.
  intros Hs. unfold serverCommand. rewrite parse_printObject by done.
  destruct (message_value raw "type" (JString "activate")) as [-> _]; [apply list_elem_of_here|].
  by rewrite bool_decide_eq_false_2, bool_decide_eq_true_2 by done.
Qed.

(** The answer to an activation: none, or a failure. *)
Definition answered (h : trace daemonIO) (ok : bool) : list QJsonObject :=
  written h ++ (if ok then [] else [failureReply]).

(** A failure of the daemon is an error of the protocol object. *)
Lemma failure_shown p :
  sendable failureReply → daemonState (impl p) = eReady → buffer (impl p) = "" →
  let r := onController (readData (wireText failureReply)) p in
  Signal (ProtocolError ErrorCode.VpnBackendFailure) ∈ r.2 ∧ protocolState (base r.1) = Vpn.Error.
Proof.
  intros Hf Hr Hb. unfold onController. rewrite readData_message, (parseCommand_ready _ "backendFailure") by done.
  match goal with |- context [?a (impl p)] => change a with (emit (BackendFailure ErrorCode.VpnBackendFailure)) end.
  unfold emit. cbn [onOutputs onOutput]. unfold onBase, setLastError, setProtocolState.
  rewrite bool_decide_eq_false_2 by done. cbn [protocolState base set_impl].
  case_bool_decide; cbn [fst snd]; [|rewrite andb_false_r]; (split; [set_solver|done]).
Qed.

(** C19: an activation that the client sends reaches the daemon however the socket
    splits it: the daemon activates exactly the configuration that it reads from the
    client's message, and answers with a failure exactly when the message is
    refused or the activation fails, which the client reports as an error. *)
Theorem activation_delivered o raw chunks g h :
  let r := run o (serve supportIPUtils (Received <$> chunks) "") g h in
  sendable (activateMessage raw) → sendable failureReply →
  String.concat "" chunks = wireText (activateMessage raw) →
  resOutcome r = Returned "" ∧
  (match parseConfig (activateMessage raw) with
   | None => written (resTrace r) = answered h false ∧ resGlobals r = g
   | Some config =>
       let r' := run o (activate supportIPUtils config) g h in
       ∃ ok, resOutcome r' = Returned ok ∧ resGlobals r = resGlobals r' ∧
         written (resTrace r) = answered (resTrace r') ok
   end) ∧
  ∀ p, daemonState (impl p) = eReady → buffer (impl p) = "" →
    protocolState (base (onController (readData (wireText failureReply)) p).1) = Vpn.Error.
Proof.
  intros r Hs Hf Hc. subst r. rewrite serve_chunks, readChunks_concat, snil_app, Hc by done.
  change (wireText (activateMessage raw)) with (wire [activateMessage raw]). rewrite readLines_wire.
  cbn [fst snd fmap list_fmap forEach]. rewrite activation_command by done.
  split_and!; [| |intros p Hr Hb; by apply failure_shown].
  - destruct (parseConfig (activateMessage raw)) as [cfg|]; [|done]. rewrite !run_bind.
    destruct (triple_run o _ _ _ g h (activate_reported_spec supportIPUtils cfg h) eq_refl) as (ok & Hok & _).
    rewrite Hok. by destruct ok.
  - destruct (parseConfig (activateMessage raw)) as [cfg|].
    + rewrite !run_bind. destruct (triple_run o _ _ _ g h (activate_reported_spec supportIPUtils cfg h) eq_refl) as (ok & Hok & _).
      exists ok. rewrite Hok. split; [done|]. unfold answered, written.
      destruct ok; cbn; [by rewrite app_nil_r|]. by rewrite bind_app.
    + split; [|done]. unfold answered, written. cbn. by rewrite bind_app.
Qed.
End requests.

(** ** A daemon that cannot be reached *)

Section retries.
Context `{HostAddressText, JsonText, DateParser} (proto : Proto).

Definition isError (e : clientEvent) : bool := match e with SocketError | SocketDisconnected => true | _ => false end.
Definition isRead (e : clientEvent) : bool := match e with ReadyRead _ => true | _ => false end.
Definition errors (es : list clientEvent) : Z := Z.of_nat (length (filter (λ e, isError e = true) es)).

(** Waiting after [n] errors. *)
Definition waiting (n : Z) (p : wireguardProtocol) : Prop :=
  daemonState (impl p) = eInitializing ∧ initializingRetry (impl p) = n.

Lemma onController_impl a p : impl (onController a p).1 = (a (impl p)).1.
Proof. unfold onController. destruct (a (impl p)) as [c outs]. apply onOutputs_connected. Qed.

Lemma waiting_step n e p :
  waiting n p → 0 ≤ n → (isError e = true → n < MAX_CONNECTION_RETRY) → isRead e = false →
  waiting (if isError e then n + 1 else n) (clientStep proto e p).1 ∧
  (isError e = true → initializingTimer (impl (clientStep proto e p).1) = true).
Proof.
  intros [Hs Hr] Hn0 Hn He. unfold waiting.
  assert (isError e = true → clientStep proto e p = onController errorOccurred p) as Herr by by destruct e.
  destruct (isError e) eqn:Hi.
  - rewrite Herr, onController_impl by done. unfold errorOccurred. rewrite Hs, Hr, bool_decide_eq_true_2 by done.
    specialize (Hn eq_refl). rewrite (proj2 (Z.ltb_lt n MAX_CONNECTION_RETRY)) by lia. cbn.
    rewrite Z.mod_small; [done|]. unfold MAX_CONNECTION_RETRY in Hn. lia.
  - split; [|done]. destruct e; try done; cbn [clientStep].
    + unfold stop. destruct (stopped p); [done|]. rewrite onController_impl. unfold deactivateController. cbn [impl set_stopped].
      by rewrite Hs, bool_decide_eq_true_2.
    + unfold requestStatus. rewrite onController_impl. unfold checkStatus. by rewrite Hs.
    + rewrite onController_impl. unfold daemonConnected, checkStatus. by rewrite Hs.
Qed.

Lemma errors_cons e es : errors (e :: es) = (if isError e then 1 else 0) + errors es.
Proof. unfold errors. rewrite filter_cons. destruct (isError e); case_decide; try done; cbn [length]; lia. Qed.

Lemma errors_nonneg es : 0 ≤ errors es.
Proof. unfold errors. lia. Qed.

Lemma clientRun_app es es' p :
  clientRun proto (es ++ es') p =
    ((clientRun proto es' (clientRun proto es p).1).1,
     (clientRun proto es p).2 ++ (clientRun proto es' (clientRun proto es p).1).2).
Proof.
  revert p. induction es as [|e es IH]; intros p; cbn [app clientRun fst snd]; [by destruct (clientRun proto es' p)|].
  destruct (clientStep proto e p) as [p1 s1]. rewrite IH. destruct (clientRun proto es p1) as [p2 s2]. cbn [fst snd].
  by rewrite app_assoc.
Qed.

Lemma waiting_run n es p :
  waiting n p → 0 ≤ n → n + errors es ≤ MAX_CONNECTION_RETRY → Forall (λ e, isRead e = false) es →
  waiting (n + errors es) (clientRun proto es p).1.
Proof.
  revert n p. induction es as [|e es IH]; intros n p Hw Hn Hle Hes; [by rewrite Z.add_0_r|].
  pose proof (errors_nonneg es). rewrite errors_cons in *. inversion_clear Hes as [|? ? He Hes']. cbn [clientRun].
  destruct (waiting_step n e p) as [Hw1 _]; [done|done| |done|]; [intros Hi; rewrite Hi in *; lia|].
  destruct (clientStep proto e p) as [p1 s1]. specialize (IH _ p1 Hw1). destruct (clientRun proto es p1) as [p2 s2].
  cbn [fst] in *. replace (n + _) with ((if isError e then n + 1 else n) + errors es) by (destruct (isError e); lia).
  apply IH; [destruct (isError e); lia..|done].
Qed.

(** C37: a client whose daemon cannot be reached does not wait forever: each of the
    first ten errors starts the timer for another attempt, whatever else happens in
    between, and the eleventh reports the object as disconnected and stops. *)
Theorem unreachable_gives_up runDirSocket configuration es e :
  Forall (λ e, isRead e = false) es → isError e = true →
  let p := (clientRun proto es (newWireguardProtocol runDirSocket configuration).1).1 in
  let p' := (clientStep proto e p).1 in
  (errors es < MAX_CONNECTION_RETRY → daemonState (impl p') = eInitializing ∧ initializingTimer (impl p') = true) ∧
  (errors es = MAX_CONNECTION_RETRY → protocolState (base p') = Vpn.Disconnected ∧ initializingTimer (impl p') = false).
Proof.
  intros Hes He p p'. pose proof (errors_nonneg es) as Hpos.
  assert (errors es ≤ MAX_CONNECTION_RETRY → waiting (errors es) p) as Hw.
  { intros Hle. by apply (waiting_run 0). }
  assert (isRead e = false) as Hread by by destruct e. split; intros Hn.
  - destruct (waiting_step (errors es) e p) as [[Hs _] Ht]; [apply Hw; lia|done|done|done|]. split; [done|by apply Ht].
  - destruct Hw as [Hs Hr]; [lia|]. subst p'. assert (clientStep proto e p = onController errorOccurred p) as -> by by destruct e.
    unfold onController, errorOccurred. rewrite Hs, Hr, Hn, bool_decide_eq_true_2 by done. cbn -[setProtocolState Z.modulo].
    unfold onBase, setProtocolState. cbn [base set_impl]. case_bool_decide; [done|].
    by rewrite andb_false_r.
Qed.

(** The object is stopped before the daemon has answered the first request: the
    activation was sent, the deactivation is not, and the object is disconnected. *)
Lemma early_stop_lost fromName fromName' runDirSocket configuration :
  ∃ m, jvalue m "type" = JString "activate" ∧
    (clientRun proto [Start fromName fromName'; Stop] (newWireguardProtocol runDirSocket configuration).1).2 =
      [Socket (Write m); Signal (StateChanged Vpn.Disconnected)].
Proof.
  eexists. split; [|reflexivity]. apply message_value, list_elem_of_here.
Qed.

(** A status that is sent before the handshake has no date: the controller becomes
    ready and never reports that it is initialized. *)
Lemma initialization_unreported obj c :
  jvalue obj "connected" = JBool true → jvalue obj "date" = JString "" → dateFromString "" = None →
  (firstStatus obj c).2 = [] ∧ daemonState (firstStatus obj c).1 = eReady.
Proof. intros Hc Hd Hp. unfold firstStatus. rewrite Hc. cbn [negb]. by rewrite Hd, Hp. Qed.
End retries.

(** ** Concrete runs *)

#[local] Existing Instance quadText.
#[local] Existing Instance sampleSubnet.
#[local] Existing Instance sampleBase64.
#[local] Existing Instance sampleDate.

(** A text for a few messages: their type, key and state of the connection. *)
Definition sampleStatus : QJsonObject :=
  jinsert "type" (JString "status") (statusOf (Conn (Some 1700000000) (sampleConfig [])) (Peer sampleKey 1700000000 5 7)).

Definition sampleMessages : list QJsonObject :=
  [typeMessage "status"; jinsert "type" (JString "status") (jinsert "connected" (JBool false) ∅); sampleStatus;
   connectedSignal sampleKey; failureReply; activateMessage sampleRaw].

Fixpoint oneLine (s : string) : string :=
  match s with
  | EmptyString => ""
  | String c s => if eqChar c newline then oneLine s else String c (oneLine s)
  end.

Definition samplePrintObject (o : QJsonObject) : string :=
  "{" +:+ oneLine (toStringJ "" (jvalue o "type") +:+ " " +:+ toStringJ "" (jvalue o "pubkey") +:+
    match jvalue o "connected" with JBool true => " 1" | JBool false => " 0" | _ => "" end) +:+ "}".

Definition sampleParseObject (s : string) : option QJsonObject :=
  snd <$> list_find (λ o, samplePrintObject o = s) sampleMessages.

Lemma sampleParse_printObject o : o ∈ sampleMessages → sampleParseObject (samplePrintObject o) = Some o.
Proof.
  assert (NoDup (samplePrintObject <$> sampleMessages)) as Hnd by decide_closed.
  unfold sampleParseObject. revert Hnd. generalize sampleMessages as l. intros l Hnd Ho.
  induction l as [|o' l IH]; [by apply not_elem_of_nil in Ho|]. rewrite fmap_cons in Hnd. inversion_clear Hnd as [|? ? Hn Hnd'].
  cbn [list_find]. case_decide as Heq.
  - apply elem_of_cons in Ho as [->|Ho]; [done|]. destruct Hn. rewrite Heq. by apply list_elem_of_fmap_2.
  - apply elem_of_cons in Ho as [->|Ho]; [done|]. specialize (IH Hnd' Ho). by destruct (list_find _ l) as [[]|].
Qed.

Lemma samplePrint_oneLine o : containsChar newline (samplePrintObject o) = false.
Proof.
  unfold samplePrintObject. rewrite !containsChar_app. generalize (toStringJ "" (jvalue o "type") +:+ " " +:+
    toStringJ "" (jvalue o "pubkey") +:+ match jvalue o "connected" with JBool true => " 1" | JBool false => " 0" | _ => "" end) as s.
  intros s. rewrite orb_false_r. change (containsChar newline "{") with false. cbn [orb].
  induction s as [|c s IH]; [done|]. cbn [oneLine]. destruct (eqChar c newline) eqn:Hc; [done|]. cbn [containsChar]. by rewrite Hc.
Qed.

#[local] Instance sampleJson : JsonText := {|
  parseObject := sampleParseObject;
  printObject := samplePrintObject;
  sendable o := o ∈ sampleMessages;
  parse_printObject := sampleParse_printObject;
  print_braces o := ex_intro _ _ eq_refl;
  print_oneLine := samplePrint_oneLine;
|}.

#[local] Instance sampleDateParser : DateParser := λ s, if bool_decide (s = "now") then Some 1700000000 else None.

(** One of the messages, by its position. *)
Ltac sample_message := repeat (apply list_elem_of_here || apply list_elem_of_further).
Ltac sample_messages := repeat (apply Forall_cons_2; [solve [sample_message]|]); apply Forall_nil_2.

Lemma messages_received_example :
  let messages := [typeMessage "status"; connectedSignal sampleKey] in
  let chunks := [leftPart 7 (wire messages); midFrom 7 (wire messages)] in
  (readChunks "" chunks).2 = "" ∧ parseObject <$> (readChunks "" chunks).1 = Some <$> messages.
Proof. intros messages chunks. apply messages_received; [sample_messages|vm_compute; reflexivity]. Defined.

(** A request for the status, an activation and its handshake. *)
Definition sampleServer : list serverEvent :=
  [Received (wireText (typeMessage "status")); Internal (Activate (sampleConfig [])); Internal HandshakeTimeout].

Definition sampleClient : list clientEvent :=
  [SocketConnected; ReadyRead (wire [jinsert "type" (JString "status") (jinsert "connected" (JBool false) ∅)]);
   ReadyRead (wire [connectedSignal sampleKey])].

Lemma sampleServer_written :
  written (resTrace (run sampleOracle (serve true sampleServer "") newDaemon [])) =
    [jinsert "type" (JString "status") (jinsert "connected" (JBool false) ∅); connectedSignal sampleKey].
Proof. vm_compute. reflexivity. Qed.

Lemma sampleClient_connected :
  Signal (StateChanged Vpn.Connected) ∈
    (clientRun Protocol.Awg sampleClient (newWireguardProtocol true ∅).1).2.
Proof. vm_compute. sample_message. Qed.

Lemma shown_after_handshake_witness :
  ∃ pk e, e ∈ resTrace (run sampleOracle (serve true sampleServer "") newDaemon []) ∧ reports pk e.
Proof.
  apply (shown_after_handshake true sampleOracle sampleServer Protocol.Awg sampleClient true ∅ "").
  - rewrite sampleServer_written. sample_messages.
  - rewrite sampleServer_written. vm_compute. reflexivity.
  - exact sampleClient_connected.
Defined.

(** The tunnel has carried a few bytes. *)
Definition trafficOracle : oracle daemonIO := λ h c,
  match c return daemonAns c with
  | GetPeerStatus => [Peer "other" 0 0 0; Peer sampleKey 1700000000 5 7]
  | c => sampleOracle h c
  end.

Definition sampleState : daemon :=
  set_connections (λ hop, if bool_decide (hop = SingleHop) then Some (Conn (Some 1700000000) (sampleConfig [])) else None) newDaemon.

Lemma sampleState_written :
  written (resTrace (run trafficOracle (serverCommand true (printObject (typeMessage "status"))) sampleState [])) = [sampleStatus].
Proof. vm_compute. reflexivity. Qed.

Lemma status_delivered_example :
  ∃ m, [sampleStatus] = [m] ∧
    readData (wireText m) (set_state eReady newController) =
      (set_state eReady newController, [StatusUpdated "203.0.113.5" "10.8.1.2" 7 5]).
Proof.
  rewrite <-sampleState_written.
  apply (status_delivered true trafficOracle sampleState [] (Conn (Some 1700000000) (sampleConfig [])) []
    1 (Peer sampleKey 1700000000 5 7)); try (vm_compute; reflexivity); try (cbn; lia).
  - by apply (list_elem_of_lookup_2 _ 0).
  - rewrite sampleState_written. apply Forall_singleton. by apply (list_elem_of_lookup_2 _ 2).
Defined.

Definition sampleChunks : list string :=
  [leftPart 3 (wireText (activateMessage sampleRaw)); midFrom 3 (wireText (activateMessage sampleRaw))].

Lemma sampleChunks_text : String.concat "" sampleChunks = wireText (activateMessage sampleRaw).
Proof. vm_compute. reflexivity. Qed.

Lemma activation_delivered_witness :
  resOutcome (run failingOracle (serve true (Received <$> sampleChunks) "") newDaemon []) = Returned "".
Proof.
  refine (proj1 (activation_delivered true failingOracle sampleRaw sampleChunks newDaemon [] _ _ sampleChunks_text)).
  - by apply (list_elem_of_lookup_2 _ 5).
  - by apply (list_elem_of_lookup_2 _ 4).
Defined.

Definition sampleErrors : list clientEvent :=
  SocketConnected :: concat (replicate 10 [SocketError; RetryTimeout false]).

Lemma unreachable_gives_up_witness :
  let p := (clientRun Protocol.Awg sampleErrors (newWireguardProtocol false ∅).1).1 in
  protocolState (base (clientStep Protocol.Awg SocketDisconnected p).1) = Vpn.Disconnected.
Proof.
  intros p. refine (proj1 (proj2 (unreachable_gives_up Protocol.Awg false ∅ sampleErrors SocketDisconnected _ eq_refl) eq_refl)).
  repeat (apply Forall_cons_2; [reflexivity|]). apply Forall_nil_2.
Defined.
