(* ===== verification/PacketFilter.v ===== *)
(** * The packet filter rules of macOS

    The rule files under [deploy/data/macos/pf] and the way [pf] evaluates them
    for an outgoing packet: the rules are tried in order, the last one that matches
    decides, and a [quick] rule decides at once.  Each file is an anchor that can be
    loaded or empty; [amn.conf] fixes their order.  How [pf] reads an address, a
    range or a table entry is the parameter [covers].  States of connections are
    not modelled: every rule but the one for the loopback interface says
    [no state]. *)

From S2P Require Import Prelude QtCore.
From stdpp Require Import options.

(** ** Rules *)

Inductive action := Pass | Block.

Inductive ipProto := Tcp | Udp | OtherProto.

#[export] Instance action_eq_dec : EqDecision action.
Proof. solve_decision. Defined.
#[export] Instance ipProto_eq_dec : EqDecision ipProto.
Proof. solve_decision. Defined.

(** What follows [to]: nothing, addresses written in the rule, or a table that is
    filled while the service runs. *)
Inductive destination := Anywhere | Addresses (entries : list string) | Table (name : string).

(** A rule for outgoing packets; a missing condition is [None]. *)
Record pfRule := PfRule {
  act : action;
  quick : bool;
  on : option (list string);
  family6 : option bool;
  protos : option (list ipProto);
  fromPort : option Z;
  to : destination;
  toPorts : option (list Z);
  identity : option string;
}.

(** [block out ...] and [pass out ...] without any condition. *)
Definition plainRule (a : action) : pfRule := PfRule a false None None None None Anywhere None None.

(** ** The rule files *)

Definition allowLoopback : string := "000.allowLoopback".
Definition blockAll : string := "100.blockAll".
Definition allowNets : string := "110.allowNets".
Definition blockNets : string := "120.blockNets".
Definition allowExcludedApps : string := "150.allowExcludedApps".
Definition allowVPN : string := "200.allowVPN".
Definition blockIPv6 : string := "250.blockIPv6".
Definition allowDHCP : string := "290.allowDHCP".
Definition allowLAN : string := "300.allowLAN".
Definition blockDNS : string := "310.blockDNS".
Definition allowHnsd : string := "350.allowHnsd".
Definition allowPIA : string := "400.allowPIA".

(** [amn.conf]. *)
Definition rootAnchors : list string :=
  [allowLoopback; blockAll; allowNets; blockNets; allowExcludedApps; allowVPN; blockIPv6;
   allowDHCP; allowLAN; blockDNS; allowHnsd; allowPIA].

(** [utun0] to [utun30]. *)
Definition utunInterfaces : list string := (λ n : Z, "utun" +:+ pretty n) <$> seqZ 0 31.

Definition lanips : list string :=
  ["10.0.0.0/8"; "169.254.0.0/16"; "172.16.0.0/12"; "192.168.0.0/16"; "224.0.0.0/4";
   "255.255.255.255/32"; "fc00::/7"; "fe80::/10"; "ff00::/8"].

Definition loopbackConf : list pfRule :=
  [PfRule Pass true (Some ["lo0"]) None None None Anywhere None None].

Definition blockAllConf : list pfRule := [plainRule Block].

Definition allowNetsConf : list pfRule :=
  [PfRule Pass false None None None None (Table "allownets") None None].

Definition blockNetsConf : list pfRule :=
  [PfRule Block false None None None None (Table "blocknets") None None].

Definition allowVPNConf : list pfRule :=
  [PfRule Pass false (Some utunInterfaces) None None None Anywhere None None].

Definition blockIPv6Conf : list pfRule :=
  [PfRule Block false None (Some true) None None Anywhere None None].

Definition allowDHCPConf : list pfRule :=
  [PfRule Pass false None (Some false) (Some [Udp]) (Some 68%Z) (Addresses ["255.255.255.255"]) (Some [67%Z]) None;
   PfRule Pass false None (Some true) (Some [Udp]) (Some 546%Z) (Addresses ["ff00::/8"]) (Some [547%Z]) None].

Definition allowLANConf : list pfRule :=
  [PfRule Pass false None None None None (Addresses lanips) None None].

Definition blockDNSConf : list pfRule :=
  [PfRule Block false None None (Some [Tcp; Udp]) None Anywhere (Some [53%Z]) None;
   PfRule Pass false None None (Some [Tcp; Udp]) None (Table "dnsaddr") (Some [53%Z]) None].

Definition hnsdGroup : string := "group amnhnsd".

Definition allowHnsdConf : list pfRule :=
  [PfRule Block false None None None None Anywhere None (Some hnsdGroup);
   PfRule Pass false (Some utunInterfaces) None (Some [Tcp; Udp]) None Anywhere
     (Some [53%Z; 13038%Z]) (Some hnsdGroup)].

(** [AMN_PF_RULE_IDENTITY] of the build. *)
Definition pfRuleIdentity (debug : bool) : string := if debug then "user { root }" else "group { amnvpn }".

Definition allowPIAConf (debug : bool) : list pfRule :=
  [PfRule Pass false None None (Some [Tcp; Udp]) None Anywhere None (Some (pfRuleIdentity debug))].

(** The rules that each anchor loads from its file. *)
Definition anchorConf (debug : bool) (anchor : string) : list pfRule :=
  match list_find (λ '(a, _), a = anchor)
    [(allowLoopback, loopbackConf); (blockAll, blockAllConf); (allowNets, allowNetsConf);
     (blockNets, blockNetsConf); (allowExcludedApps, []); (allowVPN, allowVPNConf);
     (blockIPv6, blockIPv6Conf); (allowDHCP, allowDHCPConf); (allowLAN, allowLANConf);
     (blockDNS, blockDNSConf); (allowHnsd, allowHnsdConf); (allowPIA, allowPIAConf debug)] with
  | Some (_, (_, rules)) => rules
  | None => []
  end.

(** ** Evaluation *)

Section evaluation.
Context {A : Type} (covers : string → A → bool).

(** An outgoing packet.  [owners] holds the user and the groups of the process that
    sends it, written as in the rules. *)
Record packet := Packet {
  interface : string;
  inet6 : bool;
  proto : ipProto;
  sourcePort : Z;
  dest : A;
  destPort : Z;
  owners : list string;
}.

Definition condition {B} (c : option B) (holds : B → bool) : bool :=
  match c with None => true | Some b => holds b end.

Definition coveredBy (entries : list string) (p : packet) : bool :=
  existsb (λ e, covers e (dest p)) entries.

Definition goesTo (tables : string → list string) (d : destination) (p : packet) : bool :=
  match d with
  | Anywhere => true
  | Addresses entries => coveredBy entries p
  | Table name => coveredBy (tables name) p
  end.

Definition matches (tables : string → list string) (r : pfRule) (p : packet) : bool :=
  condition (on r) (λ l, bool_decide (interface p ∈ l)) &&
  condition (family6 r) (eqb (inet6 p)) &&
  condition (protos r) (λ l, bool_decide (proto p ∈ l)) &&
  condition (fromPort r) (Z.eqb (sourcePort p)) &&
  goesTo tables (to r) p &&
  condition (toPorts r) (λ l, bool_decide (destPort p ∈ l)) &&
  condition (identity r) (λ o, bool_decide (o ∈ owners p)).

(** The verdict so far, and whether a [quick] rule made it final. *)
Definition pfVerdict : Type := option action * bool.

Definition tryRule (tables : string → list string) (p : packet) (v : pfVerdict) (r : pfRule) : pfVerdict :=
  if v.2 then v else if matches tables r p then (Some (act r), quick r) else v.

Definition tryAnchor (debug : bool) (loaded : string → bool) (tables : string → string → list string)
    (p : packet) (v : pfVerdict) (anchor : string) : pfVerdict :=
  if loaded anchor then foldl (tryRule (tables anchor) p) v (anchorConf debug anchor) else v.

Definition evalAnchors (debug : bool) (loaded : string → bool) (tables : string → string → list string)
    (p : packet) : pfVerdict :=
  foldl (tryAnchor debug loaded tables p) (None, false) rootAnchors.

(** ** The rules read from the last to the first *)

Definition onLoopback (p : packet) : bool := bool_decide (interface p = "lo0").
Definition overTunnel (p : packet) : bool := bool_decide (interface p ∈ utunInterfaces).
Definition isTcpUdp (p : packet) : bool := bool_decide (proto p ∈ [Tcp; Udp]).
Definition isDns (p : packet) : bool := isTcpUdp p && bool_decide (destPort p ∈ [53%Z]).
Definition fromService (debug : bool) (p : packet) : bool :=
  isTcpUdp p && bool_decide (pfRuleIdentity debug ∈ owners p).
Definition isDhcp (p : packet) : bool := existsb (λ r, matches (λ _, []) r p) allowDHCPConf.
Definition toLan (p : packet) : bool := coveredBy lanips p.

Definition lastMatch (debug : bool) (loaded : string → bool) (tables : string → string → list string)
    (p : packet) : option action :=
  if loaded allowPIA && fromService debug p then Some Pass
  else if loaded blockDNS && isDns p then
    Some (if coveredBy (tables blockDNS "dnsaddr") p then Pass else Block)
  else if loaded allowLAN && toLan p then Some Pass
  else if loaded allowDHCP && isDhcp p then Some Pass
  else if loaded blockIPv6 && inet6 p then Some Block
  else if loaded allowVPN && overTunnel p then Some Pass
  else if loaded blockNets && coveredBy (tables blockNets "blocknets") p then Some Block
  else if loaded allowNets && coveredBy (tables allowNets "allownets") p then Some Pass
  else if loaded blockAll then Some Block
  else None.

(** Spells out what one rule asks of a packet. *)
Ltac one_rule :=
  unfold tryRule, matches;
  cbn [snd on family6 protos fromPort to toPorts identity condition goesTo act quick];
  rewrite !andb_true_r.

Section anchors.
Context (debug : bool) (loaded : string → bool) (tables : string → string → list string) (p : packet).
Implicit Types v : option action.

Local Notation visit := (tryAnchor debug loaded tables p).

Lemma tryAnchor_final a anchor : visit (Some a, true) anchor = (Some a, true).
Proof.
  unfold tryAnchor. destruct (loaded anchor); [|done].
  induction (anchorConf debug anchor) as [|r rules IH]; by cbn.
Qed.

Lemma tryAnchor_loopback v :
  visit (v, false) allowLoopback = if loaded allowLoopback && onLoopback p then (Some Pass, true) else (v, false).
Proof.
  unfold tryAnchor, onLoopback. destruct (loaded allowLoopback); [|done].
  change (anchorConf debug allowLoopback) with loopbackConf.
  cbn [foldl loopbackConf]. one_rule.
  by rewrite (bool_decide_ext _ (interface p = "lo0")) by apply list_elem_of_singleton.
Qed.

Ltac one_anchor anchor conf :=
  unfold tryAnchor; destruct (loaded anchor); [|done];
  change (anchorConf debug anchor) with conf; cbn [foldl conf]; one_rule.

Lemma tryAnchor_blockAll v : visit (v, false) blockAll = (if loaded blockAll then Some Block else v, false).
Proof. unfold tryAnchor. by destruct (loaded blockAll). Qed.

Lemma tryAnchor_allowNets v :
  visit (v, false) allowNets =
  (if loaded allowNets && coveredBy (tables allowNets "allownets") p then Some Pass else v, false).
Proof. one_anchor allowNets allowNetsConf. by destruct (coveredBy _ _). Qed.

Lemma tryAnchor_blockNets v :
  visit (v, false) blockNets =
  (if loaded blockNets && coveredBy (tables blockNets "blocknets") p then Some Block else v, false).
Proof. one_anchor blockNets blockNetsConf. by destruct (coveredBy _ _). Qed.

Lemma tryAnchor_excludedApps v : visit (v, false) allowExcludedApps = (v, false).
Proof. unfold tryAnchor. by destruct (loaded allowExcludedApps). Qed.

Lemma tryAnchor_allowVPN v :
  visit (v, false) allowVPN = (if loaded allowVPN && overTunnel p then Some Pass else v, false).
Proof. unfold overTunnel. one_anchor allowVPN allowVPNConf. by case_bool_decide. Qed.

Lemma tryAnchor_blockIPv6 v :
  visit (v, false) blockIPv6 = (if loaded blockIPv6 && inet6 p then Some Block else v, false).
Proof. one_anchor blockIPv6 blockIPv6Conf. by destruct (inet6 p). Qed.

Lemma tryAnchor_allowDHCP v :
  visit (v, false) allowDHCP = (if loaded allowDHCP && isDhcp p then Some Pass else v, false).
Proof.
  unfold tryAnchor. destruct (loaded allowDHCP); [|done].
  change (anchorConf debug allowDHCP) with allowDHCPConf. unfold isDhcp, allowDHCPConf.
  cbn [foldl existsb]. unfold tryRule.
  match goal with |- context [matches (tables allowDHCP) ?r1 p] =>
    change (matches (tables allowDHCP) r1 p) with (matches (λ _, []) r1 p); destruct (matches _ r1 p) end;
  match goal with |- context [matches (tables allowDHCP) ?r2 p] =>
    change (matches (tables allowDHCP) r2 p) with (matches (λ _, []) r2 p); by destruct (matches _ r2 p) end.
Qed.

Lemma tryAnchor_allowLAN v :
  visit (v, false) allowLAN = (if loaded allowLAN && toLan p then Some Pass else v, false).
Proof. unfold toLan. one_anchor allowLAN allowLANConf. by destruct (coveredBy _ _). Qed.

Lemma tryAnchor_blockDNS v :
  visit (v, false) blockDNS =
  (if loaded blockDNS && isDns p
   then Some (if coveredBy (tables blockDNS "dnsaddr") p then Pass else Block) else v, false).
Proof.
  unfold isDns, isTcpUdp. one_anchor blockDNS blockDNSConf.
  by do 2 case_bool_decide; destruct (coveredBy (tables blockDNS "dnsaddr") p).
Qed.

Lemma tryAnchor_allowPIA v :
  visit (v, false) allowPIA = (if loaded allowPIA && fromService debug p then Some Pass else v, false).
Proof.
  unfold fromService, isTcpUdp, tryAnchor. destruct (loaded allowPIA); [|done].
  change (anchorConf debug allowPIA) with (allowPIAConf debug). cbn [foldl allowPIAConf]. one_rule.
  by do 2 case_bool_decide.
Qed.

(** Evaluating the rules in order is reading them from the last to the first, as
    long as the anchor that no code loads is empty. *)
Lemma evalAnchors_lastMatch :
  loaded allowHnsd = false →
  evalAnchors debug loaded tables p =
    if loaded allowLoopback && onLoopback p then (Some Pass, true)
    else (lastMatch debug loaded tables p, false).
Proof.
  intros Hh. unfold evalAnchors, rootAnchors. cbn [foldl]. rewrite tryAnchor_loopback.
  assert (∀ u, visit u allowHnsd = u) as Hhnsd by (intros u; unfold tryAnchor; by rewrite Hh).
  rewrite Hhnsd. destruct (loaded allowLoopback && onLoopback p); [by rewrite !tryAnchor_final|].
  by rewrite tryAnchor_blockAll, tryAnchor_allowNets, tryAnchor_blockNets, tryAnchor_excludedApps, tryAnchor_allowVPN,
    tryAnchor_blockIPv6, tryAnchor_allowDHCP, tryAnchor_allowLAN, tryAnchor_blockDNS, tryAnchor_allowPIA.
Qed.
End anchors.
End evaluation.

Arguments packet : clear implicits.
