(* ===== verification/Firewall.v ===== *)
(** * The interface of the firewall

    What the kill switch uses of the firewall of macOS, as a class of operations
    ([Firewall]), and what the firewall promises about them ([FirewallLaws]) in
    terms of what can be observed: whether it is installed and evaluated last, which
    anchors have rules and what their tables hold.  Loading an anchor may fail, so
    the promise for it depends on [loads].  [MacFirewall] implements the class with
    the commands of [macosfirewall.cpp]; the kill switch is verified against the
    class. *)

From Stdlib Require Import Ascii.
From S2P Require Import Prelude QtCore PacketFilter.
From stdpp Require Import options.

#[local] Set Default Proof Using "Type*".

(** [MacOSFirewall]'s static functions, as far as the kill switch calls them. *)
Class Firewall (F : Type) := {
  fwInstalled : F → bool * F;
  fwInstall : F → F;
  fwUninstall : F → F;
  fwPriority : F → F;
  fwSetAnchor : string → bool → F → F;
  fwSetTable : string → bool → string → list string → F → F;
  fwAnchorEnabled : string → F → bool * F;
}.

(** What can be observed of the packet filter. *)
Class FirewallView (F : Type) := {
  active : F → bool;
  prioritized : F → bool;
  loaded : F → string → bool;
  tableOf : F → string → string → list string;
  loads : string → bool;
}.

(** The tables that the service fills, with their anchors. *)
Definition knownTables : list (string * string) :=
  [(allowNets, "allownets"); (blockNets, "blocknets"); (blockDNS, "dnsaddr")].

(** A table entry that the shell and [pfctl] read as one word. *)
Definition entryChar (c : ascii) : bool := isDigit c || eqChar c "." || eqChar c "/".
Definition plainEntry (e : string) : bool := negb (isEmpty e) && allChars entryChar e.

Class FirewallLaws (F : Type) `{Firewall F, FirewallView F} := {
  installed_spec f : fwInstalled f = (active f, f);
  enabled_spec f a : a ∈ rootAnchors → fwAnchorEnabled a f = (loaded f a, f);
  install_loaded f a : a ∈ rootAnchors → loaded (fwInstall f) a = true → loaded f a = true;
  uninstall_active f : active (fwUninstall f) = false;
  uninstall_loaded f a : a ∈ rootAnchors → loaded (fwUninstall f) a = true → loaded f a = true;
  priority_prioritized f : prioritized (fwPriority f) = true;
  priority_active f : active (fwPriority f) = active f;
  priority_loaded f a : a ∈ rootAnchors → loaded (fwPriority f) a = loaded f a;
  priority_table f a t : (a, t) ∈ knownTables → tableOf (fwPriority f) a t = tableOf f a t;
  anchor_active f a b : a ∈ rootAnchors → active (fwSetAnchor a b f) = active f;
  anchor_prioritized f a b : a ∈ rootAnchors → prioritized (fwSetAnchor a b f) = prioritized f;
  anchor_other f a a' b : a ∈ rootAnchors → a' ∈ rootAnchors → a ≠ a' →
    loaded (fwSetAnchor a b f) a' = loaded f a';
  anchor_off f a : a ∈ rootAnchors → loaded (fwSetAnchor a false f) a = false;
  anchor_kept f a : a ∈ rootAnchors → loaded f a = true → loaded (fwSetAnchor a true f) a = true;
  anchor_on f a : a ∈ rootAnchors → loads a = true → loaded (fwSetAnchor a true f) a = true;
  anchor_table f a a' b t : a ∈ rootAnchors → (a', t) ∈ knownTables → a ≠ a' →
    tableOf (fwSetAnchor a b f) a' t = tableOf f a' t;
  anchor_table_kept f a t : (a, t) ∈ knownTables → loaded f a = true →
    tableOf (fwSetAnchor a true f) a t = tableOf f a t;
  table_active f a b t l : (a, t) ∈ knownTables → active (fwSetTable a b t l f) = active f;
  table_prioritized f a b t l : (a, t) ∈ knownTables → prioritized (fwSetTable a b t l f) = prioritized f;
  table_loaded f a b t l a' : (a, t) ∈ knownTables → a' ∈ rootAnchors →
    loaded (fwSetTable a b t l f) a' = loaded f a';
  table_set f a t l : (a, t) ∈ knownTables → Forall (λ e, plainEntry e = true) l →
    tableOf (fwSetTable a true t l f) a t = l;
  table_other f a b t l a' t' : (a, t) ∈ knownTables → (a', t') ∈ knownTables → (a, t) ≠ (a', t') →
    tableOf (fwSetTable a b t l f) a' t' = tableOf f a' t';
}.

(** ** The verdict on a packet *)

Section verdict.
Context `{FirewallView F} {A : Type} (covers : string → A → bool).

(** The rules of the system come before and, unless the service's anchor was moved
    to the end, also after it. *)
Definition verdict (debug : bool) (f : F) (before : packet A → action) (after : packet A → option action)
    (p : packet A) : action :=
  if active f then
    let '(v, final) := evalAnchors covers debug (loaded f) (tableOf f) p in
    let a := default (before p) v in
    if final || prioritized f then a else default a (after p)
  else default (before p) (after p).
End verdict.

(** ** Sequences of calls *)

Inductive firewallCall :=
  | Anchor (anchor : string) (enabled : bool)
  | AnchorTable (anchor : string) (enabled : bool) (table : string) (items : list string).

Definition applyCall `{Firewall F} (f : F) (c : firewallCall) : F :=
  match c with
  | Anchor a b => fwSetAnchor a b f
  | AnchorTable a b t items => fwSetTable a b t items f
  end.

Definition applyCalls `{Firewall F} (l : list firewallCall) (f : F) : F := foldl applyCall f l.

(** The anchors and tables that the calls name are those of the rule files. *)
Definition knownCall (c : firewallCall) : bool :=
  match c with
  | Anchor a _ => bool_decide (a ∈ rootAnchors)
  | AnchorTable a _ t _ => bool_decide ((a, t) ∈ knownTables)
  end.

(** The last setting of an anchor, and whether it is ever turned off. *)
Fixpoint lastSetting (a : string) (l : list firewallCall) : option bool :=
  match l with
  | [] => None
  | Anchor a' b :: l =>
      match lastSetting a l with
      | Some b' => Some b'
      | None => if bool_decide (a' = a) then Some b else None
      end
  | AnchorTable _ _ _ _ :: l => lastSetting a l
  end.

Definition neverOff (a : string) (l : list firewallCall) : bool :=
  forallb (λ c, match c with Anchor a' b => negb (bool_decide (a' = a)) || b | _ => true end) l.

(** What the calls leave in a table, when they decide it. *)
Definition tableStep (a t : string) (known : option (list string)) (c : firewallCall) : option (list string) :=
  match c with
  | Anchor a' _ => if bool_decide (a' = a) then None else known
  | AnchorTable a' b t' items =>
      if bool_decide ((a', t') = (a, t)) then (if b then Some items else None) else known
  end.

Definition tableAfter (a t : string) (l : list firewallCall) : option (list string) :=
  foldl (tableStep a t) None l.

(** Calls that name neither the table nor its anchor. *)
Definition sparesTable (a t : string) (l : list firewallCall) : bool :=
  forallb (λ c, match c with
                | Anchor a' _ => negb (bool_decide (a' = a))
                | AnchorTable a' _ t' _ => negb (bool_decide ((a', t') = (a, t)))
                end) l.

Section calls.
Context `{FirewallLaws F}.
Implicit Types (f : F) (l : list firewallCall).

Lemma calls_active l f : forallb knownCall l = true → active (applyCalls l f) = active f.
Proof.
  revert f. induction l as [|[a b|a b t items] l IH]; intros f Hl; [done| |];
    cbn in Hl; reflect_bools; unfold applyCalls in *; cbn [foldl]; rewrite IH by done; cbn [applyCall];
    [by rewrite anchor_active|by rewrite table_active].
Qed.

Lemma calls_prioritized l f : forallb knownCall l = true → prioritized (applyCalls l f) = prioritized f.
Proof.
  revert f. induction l as [|[a b|a b t items] l IH]; intros f Hl; [done| |];
    cbn in Hl; reflect_bools; unfold applyCalls in *; cbn [foldl]; rewrite IH by done; cbn [applyCall];
    [by rewrite anchor_prioritized|by rewrite table_prioritized].
Qed.

Lemma calls_untouched l f a :
  forallb knownCall l = true → a ∈ rootAnchors → lastSetting a l = None → loaded (applyCalls l f) a = loaded f a.
Proof.
  revert f. induction l as [|[a' b|a' b t items] l IH]; intros f Hl Ha Hlast; [done| |];
    cbn in Hl, Hlast; reflect_bools; unfold applyCalls in *; cbn [foldl].
  - destruct (lastSetting a l); [done|]. case_bool_decide; [done|].
    rewrite IH by done. cbn [applyCall]. by rewrite anchor_other.
  - rewrite IH by done. cbn [applyCall]. by rewrite table_loaded.
Qed.

Lemma calls_setting l f a b :
  forallb knownCall l = true → a ∈ rootAnchors → lastSetting a l = Some b → (b = true → loads a = true) →
  loaded (applyCalls l f) a = b.
Proof.
  revert f. induction l as [|[a' b'|a' b' t items] l IH]; intros f Hl Ha Hlast Hb; [done| |];
    cbn in Hl, Hlast; reflect_bools.
  - destruct (lastSetting a l) eqn:Hrest.
    + unfold applyCalls in *. cbn [foldl]. apply IH; [done..|congruence|done].
    + case_bool_decide; simplify_eq. change (loaded (applyCalls l (applyCall f (Anchor a b))) a = b).
      rewrite calls_untouched by done. cbn [applyCall].
      destruct b; [apply anchor_on; auto|by apply anchor_off].
  - unfold applyCalls in *. cbn [foldl]. by apply IH.
Qed.

Lemma calls_kept l f a :
  forallb knownCall l = true → a ∈ rootAnchors → neverOff a l = true → loaded f a = true →
  loaded (applyCalls l f) a = true.
Proof.
  revert f. induction l as [|[a' b|a' b t items] l IH]; intros f Hl Ha Hoff Hf; [done| |];
    cbn in Hl, Hoff; reflect_bools; unfold applyCalls in *; cbn [foldl]; apply IH; try done; cbn [applyCall].
  - destruct (decide (a' = a)) as [->|]; [|by rewrite anchor_other].
    rewrite bool_decide_eq_true_2 in * by done. destruct b; [by apply anchor_kept|done].
  - by rewrite table_loaded.
Qed.

Lemma calls_table l f a t items :
  forallb knownCall l = true → (a, t) ∈ knownTables → tableAfter a t l = Some items →
  Forall (λ e, plainEntry e = true) items → tableOf (applyCalls l f) a t = items.
Proof.
  intros Hl Ha Hafter Hplain. revert Hl Hafter. unfold tableAfter, applyCalls.
  induction l as [|c l IH] using rev_ind; [done|]. rewrite forallb_app, !foldl_app. cbn [foldl forallb].
  intros Hl Hafter. reflect_bools. unfold tableStep in Hafter at 1. destruct c as [a' b|a' b t' items']; cbn in *.
  - case_bool_decide; simplify_eq. reflect_bools. rewrite anchor_table; auto.
  - case_bool_decide; reflect_bools; simplify_eq; [|rewrite table_other; auto].
    destruct b; simplify_eq. by rewrite table_set.
Qed.

Lemma calls_table_untouched l f a t :
  forallb knownCall l = true → (a, t) ∈ knownTables → sparesTable a t l = true →
  tableOf (applyCalls l f) a t = tableOf f a t.
Proof.
  revert f. induction l as [|[a' b|a' b t' items] l IH]; intros f Hl Ht Hs; [done| |];
    cbn in Hl, Hs; reflect_bools; unfold applyCalls in *; cbn [foldl applyCall]; rewrite IH by done.
  - by rewrite anchor_table.
  - by rewrite table_other.
Qed.
End calls.
