(* ===== verification/MacFirewall.v ===== *)
(** * The firewall of macOS

    [macosfirewall.cpp]: every operation runs shell commands that call [pfctl].  The
    shell is the class [Shell]; the documented behaviour of the commands is
    [PfctlLaws], stated for the texts that the code builds.  From it the
    implementation keeps what [Firewall] promises.  [modelShell] is a small packet
    filter that understands the commands and has the behaviour. *)

From Stdlib Require Import Ascii.
From S2P Require Import Prelude QtCore PacketFilter Firewall.
From stdpp Require Import options.

#[local] Set Default Proof Using "Type*".

(** [QString::arg] with several arguments: the markers are replaced at once.  The
    texts here have markers of one digit. *)
Fixpoint arg (text : string) (args : list string) : string :=
  match text with
  | EmptyString => EmptyString
  | String c rest =>
      if eqChar c "%" then
        match rest with
        | EmptyString => text
        | String d rest' =>
            if isDigit d && negb (eqChar d "0") then
              match args !! N.to_nat (code d - 49) with
              | Some a => a +:+ arg rest' args
              | None => String c (arg rest args)
              end
            else String c (arg rest args)
        end
      else String c (arg rest args)
  end.

Definition quotes : string := String "034" "".

(** [/bin/bash -c command]: the exit code and the system afterwards.  The code is -2
    when the shell did not start or did not end in time and -1 when it crashed. *)
Class Shell (W : Type) := shell : string → W → Z * W.

(** The name of the service, from the build, and the directory of the program. *)
Class Installation := {
  serviceNameOfBuild : string;
  applicationDirPath : string;
}.

Section names.
Context `{Installation}.

Definition isDefaultApplication : bool := bool_decide (serviceNameOfBuild = "AmneziaVPN-service").

Definition kRootAnchor : string := if isDefaultApplication then "amn" else "alzheimervpn".
Definition kPfFileBase : string := "amn".
Definition ResourceDir : string := applicationDirPath +:+ "/pf".

Definition daemonDataDir : string :=
  if isDefaultApplication then "/Library/Application Support/AmneziaVPN/pf"
  else "/Library/Application Support/AlzheimerVPN/pf".

(** ** The commands *)

Definition insertNatAnchors : string :=
  arg ("( pfctl -sn | grep -v '%1/*'; echo 'nat-anchor " +:+ quotes +:+ "%2/*" +:+ quotes +:+
       "'; echo 'rdr-anchor " +:+ quotes +:+ "%3/*" +:+ quotes +:+ "'; echo 'load anchor " +:+ quotes +:+ "%4" +:+
       quotes +:+ " from " +:+ quotes +:+ "%5/%6.conf" +:+ quotes +:+ "'; ) | pfctl -N -f -")
    [kRootAnchor; kRootAnchor; kRootAnchor; kRootAnchor; ResourceDir; kPfFileBase].

Definition insertFilterAnchor : string :=
  arg ("( pfctl -sr | grep -v '%1/*'; echo 'anchor " +:+ quotes +:+ "%2/*" +:+ quotes +:+
       "'; echo 'load anchor " +:+ quotes +:+ "%3" +:+ quotes +:+ " from " +:+ quotes +:+ "%4/%5.conf" +:+ quotes +:+
       "';  ) | pfctl -R -f -")
    [kRootAnchor; kRootAnchor; kRootAnchor; ResourceDir; kPfFileBase].

Definition removeLegacyAnchor : string :=
  arg ("if grep -Fq '%1' /etc/pf.conf ; then echo " +:+ quotes +:+ "`cat /etc/pf.conf | grep -vF '%1'`" +:+ quotes +:+
       " > /etc/pf.conf ; fi") [kRootAnchor].

Definition takeToken : string :=
  arg "pfctl -E 2>&1 | grep -F 'Token : ' | cut -c9- > '%1/pf.token'" [daemonDataDir].

Definition flushRootAnchor : string := arg "pfctl -q -a '%1' -F all" [kRootAnchor].

Definition releaseToken : string :=
  arg "test -f '%1/pf.token' && pfctl -X `cat '%1/pf.token'` && rm '%1/pf.token'" [daemonDataDir].

Definition reloadSystemRules : string := "test -f /etc/pf.conf && pfctl -F all -f /etc/pf.conf".

Definition tokenHeld : string :=
  arg "test -s '%1/pf.token' && pfctl -s References | grep -qFf '%1/pf.token'" [daemonDataDir].

Definition moveAnchorLast : string :=
  arg ("if ! pfctl -sr | tail -1 | grep -qF '%1'; then echo -e " +:+ quotes +:+ "$(pfctl -sr | grep -vF '%1')\n" +:+
       quotes +:+ "'anchor " +:+ quotes +:+ "%1" +:+ quotes +:+ "' | pfctl -f - ; fi") [kRootAnchor].

Definition rootAnchorPresent : string :=
  arg "pfctl -sr | grep -q '%1' && pfctl -q -a '%1' -s rules 2> /dev/null | grep -q ." [kRootAnchor].

Definition loadAnchor (anchor : string) : string :=
  arg "if pfctl -q -a '%1/%2' -s rules 2> /dev/null | grep -q . ; then echo '%2: ON' ; else echo '%2: OFF -> ON' ; pfctl -q -a '%1/%2' -F all -f '%3/%4.%2.conf' ; fi"
    [kRootAnchor; anchor; ResourceDir; kPfFileBase].

Definition flushAnchor (anchor : string) : string :=
  arg "if ! pfctl -q -a '%1/%2' -s rules 2> /dev/null | grep -q . ; then echo '%2: OFF' ; else echo '%2: ON -> OFF' ; pfctl -q -a '%1/%2' -F all ; fi"
    [kRootAnchor; anchor].

Definition anchorPresent (anchor : string) : string :=
  arg "pfctl -q -a '%1/%2' -s rules 2> /dev/null | grep -q ." [kRootAnchor; anchor].

Definition replaceTable (anchor table : string) (items : list string) : string :=
  arg "pfctl -q -a '%1/%2' -t '%3' -T replace %4" [kRootAnchor; anchor; table; join " " items].

Definition killTable (anchor table : string) : string :=
  arg "pfctl -q -a '%1/%2' -t '%3' -T kill" [kRootAnchor; anchor; table].

(** ** The operations *)

Context `{Shell W}.
Implicit Types w : W.

(** [execute]: the output goes to the log and is left out. *)
Definition execute (command : string) (w : W) : Z * W := shell command w.

Definition installRootAnchors (w : W) : W :=
  let w := (execute insertNatAnchors w).2 in
  (execute insertFilterAnchor w).2.

Definition uninstall (w : W) : W :=
  let w := (execute flushRootAnchor w).2 in
  let w := (execute releaseToken w).2 in
  if isDefaultApplication then (execute reloadSystemRules w).2 else w.

(** The pause of ten milliseconds and the creation of the directory do not touch
    the packet filter. *)
Definition install (w : W) : W :=
  let w := (execute removeLegacyAnchor w).2 in
  let w := uninstall w in
  let w := installRootAnchors w in
  (execute takeToken w).2.

Definition isPFEnabled (w : W) : bool * W :=
  let '(exit, w) := execute tokenHeld w in (Z.eqb 0 exit, w).

Definition isRootAnchorLoaded (w : W) : bool * W :=
  let '(exit, w) := execute rootAnchorPresent w in (Z.eqb 0 exit, w).

Definition isInstalled (w : W) : bool * W :=
  let '(on, w) := isPFEnabled w in
  if on then isRootAnchorLoaded w else (false, w).

Definition ensureRootAnchorPriority (w : W) : W := (execute moveAnchorLast w).2.

Definition enableAnchor (anchor : string) (w : W) : W := (execute (loadAnchor anchor) w).2.

Definition disableAnchor (anchor : string) (w : W) : W := (execute (flushAnchor anchor) w).2.

Definition isAnchorEnabled (anchor : string) (w : W) : bool * W :=
  let '(exit, w) := execute (anchorPresent anchor) w in (Z.eqb 0 exit, w).

Definition setAnchorEnabled (anchor : string) (enabled : bool) (w : W) : W :=
  if enabled then enableAnchor anchor w else disableAnchor anchor w.

Definition setAnchorTable (anchor : string) (enabled : bool) (table : string) (items : list string) (w : W) : W :=
  if enabled then (execute (replaceTable anchor table items) w).2 else (execute (killTable anchor table) w).2.

Definition setAnchorWithRules (anchor : string) (enabled : bool) (ruleList : list string) (w : W) : W :=
  if negb enabled then (execute (arg "pfctl -q -a '%1/%2' -F rules" [kRootAnchor; anchor]) w).2
  else (execute (arg ("echo -e " +:+ quotes +:+ "%1" +:+ quotes +:+ " | pfctl -q -a '%2/%3' -f -")
                   [join (String "010" "") ruleList; kRootAnchor; anchor]) w).2.

#[export] Instance macFirewall : Firewall W := {
  fwInstalled := isInstalled;
  fwInstall := install;
  fwUninstall := uninstall;
  fwPriority := ensureRootAnchorPriority;
  fwSetAnchor := setAnchorEnabled;
  fwSetTable := setAnchorTable;
  fwAnchorEnabled := isAnchorEnabled;
}.
End names.

(** ** What [pfctl] does *)

(** What the queries of [pfctl] show: whether the reference that keeps the filter
    on is held, whether the service's anchor is in the rules and whether it is the
    last one, which of its anchors have rules, and the tables.  [confLoads] says
    which rule files can be loaded. *)
Class PfView (W : Type) := {
  pfOn : W → bool;
  rootLoaded : W → bool;
  lastAnchor : W → bool;
  anchorLoaded : W → string → bool;
  pfTable : W → string → string → list string;
  confLoads : string → bool;
}.

(** The commands of [install] and [uninstall]. *)
Definition housekeeping `{Installation} : list string :=
  [removeLegacyAnchor; flushRootAnchor; releaseToken; reloadSystemRules; insertNatAnchors;
   insertFilterAnchor; takeToken].

(** Two systems look the same but for the anchor [a]. *)
Definition sameButAnchor `{PfView W} (a : string) (w w' : W) : Prop :=
  pfOn w' = pfOn w ∧ rootLoaded w' = rootLoaded w ∧ lastAnchor w' = lastAnchor w ∧
  (∀ a', a' ∈ rootAnchors → a ≠ a' → anchorLoaded w' a' = anchorLoaded w a') ∧
  (∀ a' t, (a', t) ∈ knownTables → a ≠ a' → pfTable w' a' t = pfTable w a' t).

(** Two systems look the same but for the table [t] of [a]. *)
Definition sameButTable `{PfView W} (a t : string) (w w' : W) : Prop :=
  pfOn w' = pfOn w ∧ rootLoaded w' = rootLoaded w ∧ lastAnchor w' = lastAnchor w ∧
  (∀ a', a' ∈ rootAnchors → anchorLoaded w' a' = anchorLoaded w a') ∧
  (∀ a' t', (a', t') ∈ knownTables → (a, t) ≠ (a', t') → pfTable w' a' t' = pfTable w a' t').

Class PfctlLaws (W : Type) `{Installation, Shell W, PfView W} := {
  query_token w : (shell tokenHeld w).2 = w ∧ Z.eqb 0 (shell tokenHeld w).1 = pfOn w;
  query_root w : (shell rootAnchorPresent w).2 = w ∧ Z.eqb 0 (shell rootAnchorPresent w).1 = rootLoaded w;
  query_anchor w a : a ∈ rootAnchors →
    (shell (anchorPresent a) w).2 = w ∧ Z.eqb 0 (shell (anchorPresent a) w).1 = anchorLoaded w a;
  housekeeping_anchors w c a : c ∈ housekeeping → a ∈ rootAnchors →
    anchorLoaded (shell c w).2 a = true → anchorLoaded w a = true;
  flush_root w : rootLoaded (shell flushRootAnchor w).2 = false;
  release_root w c : c ∈ [releaseToken; reloadSystemRules] → rootLoaded w = false →
    rootLoaded (shell c w).2 = false;
  move_last w : lastAnchor (shell moveAnchorLast w).2 = true;
  move_same w : let w' := (shell moveAnchorLast w).2 in
    pfOn w' = pfOn w ∧ rootLoaded w' = rootLoaded w ∧
    (∀ a, a ∈ rootAnchors → anchorLoaded w' a = anchorLoaded w a) ∧
    (∀ a t, (a, t) ∈ knownTables → pfTable w' a t = pfTable w a t);
  load_same w a : a ∈ rootAnchors → sameButAnchor a w (shell (loadAnchor a) w).2;
  load_kept w a : a ∈ rootAnchors → anchorLoaded w a = true →
    anchorLoaded (shell (loadAnchor a) w).2 a = true ∧
    ∀ t, (a, t) ∈ knownTables → pfTable (shell (loadAnchor a) w).2 a t = pfTable w a t;
  load_works w a : a ∈ rootAnchors → confLoads a = true → anchorLoaded (shell (loadAnchor a) w).2 a = true;
  flush_same w a : a ∈ rootAnchors → sameButAnchor a w (shell (flushAnchor a) w).2;
  flush_works w a : a ∈ rootAnchors → anchorLoaded (shell (flushAnchor a) w).2 a = false;
  replace_same w a t l : (a, t) ∈ knownTables → sameButTable a t w (shell (replaceTable a t l) w).2;
  replace_works w a t l : (a, t) ∈ knownTables → Forall (λ e, plainEntry e = true) l →
    pfTable (shell (replaceTable a t l) w).2 a t = l;
  kill_same w a t : (a, t) ∈ knownTables → sameButTable a t w (shell (killTable a t) w).2;
}.

(** ** The implementation keeps the interface's promises *)

Section implementation.
Context `{PfctlLaws W}.

#[export] Instance macView : FirewallView W := {
  active w := pfOn w && rootLoaded w;
  prioritized := lastAnchor;
  loaded := anchorLoaded;
  tableOf := pfTable;
  loads := confLoads;
}.

Lemma isInstalled_spec w : isInstalled w = (pfOn w && rootLoaded w, w).
Proof.
  unfold isInstalled, isPFEnabled, isRootAnchorLoaded, execute.
  destruct (query_token w) as [Hw Hon]. destruct (shell tokenHeld w) as [e w']. cbn [fst snd] in *. subst w'. rewrite Hon.
  destruct (pfOn w); [|done]. destruct (query_root w) as [Hw Hroot].
  destruct (shell rootAnchorPresent w) as [e' w']. cbn [fst snd andb] in *. by rewrite Hroot, Hw.
Qed.

Lemma isAnchorEnabled_spec w a : a ∈ rootAnchors → isAnchorEnabled a w = (anchorLoaded w a, w).
Proof.
  intros Ha. unfold isAnchorEnabled, execute. destruct (query_anchor w a Ha) as [Hw Hl].
  destruct (shell (anchorPresent a) w) as [e w']. cbn [fst snd] in *. by rewrite Hl, Hw.
Qed.

Lemma housekeeping_nth w i c a :
  housekeeping !! i = Some c → a ∈ rootAnchors → anchorLoaded (shell c w).2 a = true → anchorLoaded w a = true.
Proof. intros Hi. apply housekeeping_anchors. by eapply list_elem_of_lookup_2. Qed.

Lemma uninstall_anchors w a : a ∈ rootAnchors → anchorLoaded (uninstall w) a = true → anchorLoaded w a = true.
Proof.
  intros Ha. unfold uninstall, execute. destruct isDefaultApplication; intros Hl.
  - apply (housekeeping_nth _ 3 _ _ eq_refl Ha), (housekeeping_nth _ 2 _ _ eq_refl Ha) in Hl.
    by apply (housekeeping_nth _ 1 _ _ eq_refl Ha) in Hl.
  - apply (housekeeping_nth _ 2 _ _ eq_refl Ha) in Hl. by apply (housekeeping_nth _ 1 _ _ eq_refl Ha) in Hl.
Qed.

Lemma install_anchors w a : a ∈ rootAnchors → anchorLoaded (install w) a = true → anchorLoaded w a = true.
Proof.
  intros Ha Hl. unfold install, installRootAnchors, execute in Hl.
  apply (housekeeping_nth _ 6 _ _ eq_refl Ha), (housekeeping_nth _ 5 _ _ eq_refl Ha) in Hl.
  apply (housekeeping_nth _ 4 _ _ eq_refl Ha), uninstall_anchors in Hl; [|done].
  by apply (housekeeping_nth _ 0 _ _ eq_refl Ha) in Hl.
Qed.

Lemma uninstall_root w : rootLoaded (uninstall w) = false.
Proof.
  unfold uninstall, execute. destruct isDefaultApplication.
  - apply release_root; [apply list_elem_of_further, list_elem_of_here|].
    apply release_root; [apply list_elem_of_here|apply flush_root].
  - apply release_root; [apply list_elem_of_here|apply flush_root].
Qed.

Lemma knownTables_anchor a t : (a, t) ∈ knownTables → a ∈ rootAnchors.
Proof.
  intros Ht. assert (forallb (λ p : string * string, bool_decide (p.1 ∈ rootAnchors)) knownTables = true) as Hall
    by by_compute.
  rewrite forallb_forall in Hall. apply list_elem_of_In, Hall in Ht. by apply bool_decide_eq_true in Ht.
Qed.

#[export] Instance macFirewall_laws : FirewallLaws W.
Proof.
  split; cbn; unfold setAnchorEnabled, enableAnchor, disableAnchor, setAnchorTable, ensureRootAnchorPriority, execute.
  - apply isInstalled_spec.
  - intros. by apply isAnchorEnabled_spec.
  - apply install_anchors.
  - intros. by rewrite uninstall_root, andb_false_r.
  - apply uninstall_anchors.
  - apply move_last.
  - intros w. by destruct (move_same w) as (-> & -> & _).
  - intros w a Ha. by apply (move_same w).
  - intros w a t Ht. by apply (move_same w).
  - intros w a [] Ha; [destruct (load_same w a Ha) as (-> & -> & _)|destruct (flush_same w a Ha) as (-> & -> & _)]; done.
  - intros w a [] Ha; [by apply load_same|by apply flush_same].
  - intros w a a' [] Ha Ha' Hne; [by apply load_same|by apply flush_same].
  - intros w a Ha. by apply flush_works.
  - intros w a Ha Hl. by apply load_kept.
  - intros w a Ha Hl. by apply load_works.
  - intros w a a' [] t Ha Ht Hne; [by apply load_same|by apply flush_same].
  - intros w a t Ht Hl. apply load_kept; [|done..]. by eapply knownTables_anchor.
  - intros w a [] t l Ht; [destruct (replace_same w a t l Ht) as (-> & -> & _)|destruct (kill_same w a t Ht) as (-> & -> & _)]; done.
  - intros w a [] t l Ht; [by apply replace_same|by apply kill_same].
  - intros w a [] t l a' Ht Ha'; [by apply replace_same|by apply kill_same].
  - intros w a t l Ht Hl. by apply replace_works.
  - intros w a [] t l a' t' Ht Ht' Hne; [by apply replace_same|by apply kill_same].
Qed.
End implementation.

(** ** A packet filter for examples *)

#[export] Instance sampleInstallation : Installation :=
  {| serviceNameOfBuild := "AlzheimerVPN-service";
     applicationDirPath := "/Applications/AlzheimerVPN.app/Contents/MacOS" |}.

Record modelPf := ModelPf {
  modelOn : bool;
  modelRoot : bool;
  modelLast : bool;
  modelLoaded : list string;
  modelTables : gmap (string * string) (list string);
}.

Inductive pfCommand :=
  | FillTable (a t : string) (items : list string)
  | DropTable (a t : string)
  | LoadRules (a : string)
  | FlushRules (a : string)
  | AskRules (a : string)
  | AskToken
  | AskRoot
  | TakeReference
  | DropReference
  | AddRoot
  | FlushRoot
  | MoveLast
  | Unrelated.

(** Reads a command. *)
Definition fixedCommands : list (string * pfCommand) :=
  ((λ '(a, t), (killTable a t, DropTable a t)) <$> knownTables) ++
  ((λ a, (loadAnchor a, LoadRules a)) <$> rootAnchors) ++
  ((λ a, (flushAnchor a, FlushRules a)) <$> rootAnchors) ++
  ((λ a, (anchorPresent a, AskRules a)) <$> rootAnchors) ++
  [(tokenHeld, AskToken); (rootAnchorPresent, AskRoot); (takeToken, TakeReference);
   (releaseToken, DropReference); (insertFilterAnchor, AddRoot); (flushRootAnchor, FlushRoot);
   (moveAnchorLast, MoveLast)].

Definition readFill (c : string) (at' : string * string) : option pfCommand :=
  let start := replaceTable at'.1 at'.2 [] in
  if String.prefix start c
  then Some (FillTable at'.1 at'.2 (skipEmpty (splitChar " " (midFrom (String.length start) c)))) else None.

Definition readCommand (c : string) : pfCommand :=
  match head (omap (readFill c) knownTables) with
  | Some command => command
  | None => match list_find (λ e, e.1 = c) fixedCommands with Some (_, e) => e.2 | None => Unrelated end
  end.

Definition runCommand (c : pfCommand) (w : modelPf) : Z * modelPf :=
  let '(ModelPf on root last anchors tables) := w in
  match c with
  | FillTable a t items => (0, ModelPf on root last anchors (<[(a, t) := items]> tables))
  | DropTable a t => (0, ModelPf on root last anchors (delete (a, t) tables))
  | LoadRules a => (0, ModelPf on root last (append_new anchors a) tables)
  | FlushRules a => (0, ModelPf on root last (removeAll a anchors) tables)
  | AskRules a => (if listContains anchors a then 0 else 1, w)
  | AskToken => (if on then 0 else 1, w)
  | AskRoot => (if root then 0 else 1, w)
  | TakeReference => (0, ModelPf true root last anchors tables)
  | DropReference => (0, ModelPf false root last anchors tables)
  | AddRoot => (0, ModelPf on true true anchors tables)
  | FlushRoot => (0, ModelPf on false last anchors tables)
  | MoveLast => (0, ModelPf on root true anchors tables)
  | Unrelated => (0, w)
  end%Z.

#[export] Instance modelShell : Shell modelPf := λ c, runCommand (readCommand c).

#[export] Instance modelView : PfView modelPf := {
  pfOn := modelOn;
  rootLoaded := modelRoot;
  lastAnchor := modelLast;
  anchorLoaded w a := listContains (modelLoaded w) a;
  pfTable w a t := default [] (modelTables w !! (a, t));
  confLoads a := true;
}.

Lemma plain_join l :
  Forall (λ e, plainEntry e = true) l → skipEmpty (splitChar " " (join " " l)) = l.
Proof.
  assert (∀ e, plainEntry e = true → e ≠ "" ∧ containsChar " " e = false) as Hplain.
  { unfold plainEntry. intros e He. reflect_bools. split; [by intros ->|].
    by eapply allChars_not_contains. }
  unfold skipEmpty. induction 1 as [|e l He Hl IH]; [done|]. apply Hplain in He as [He Hsp].
  destruct l as [|e' l].
  - cbn [join]. rewrite splitChar_absent by done. by rewrite filter_cons_True, filter_nil.
  - change (join " " (e :: e' :: l)) with (e +:+ " " +:+ join " " (e' :: l)).
    rewrite splitChar_sep by done. rewrite filter_cons_True by done. by rewrite IH.
Qed.

(** Goes through the elements of a list that a hypothesis speaks about. *)
Ltac each_of list H :=
  unfold list in H; repeat (apply elem_of_cons in H as [H|H]; [simplify_eq/=|]);
  [..|by apply not_elem_of_nil in H].

Lemma read_load a : a ∈ rootAnchors → readCommand (loadAnchor a) = LoadRules a.
Proof. intros Ha. each_of rootAnchors Ha; vm_compute; reflexivity. Qed.

Lemma read_flush a : a ∈ rootAnchors → readCommand (flushAnchor a) = FlushRules a.
Proof. intros Ha. each_of rootAnchors Ha; vm_compute; reflexivity. Qed.

Lemma read_present a : a ∈ rootAnchors → readCommand (anchorPresent a) = AskRules a.
Proof. intros Ha. each_of rootAnchors Ha; vm_compute; reflexivity. Qed.

Lemma read_kill a t : (a, t) ∈ knownTables → readCommand (killTable a t) = DropTable a t.
Proof. intros Ha. each_of knownTables Ha; vm_compute; reflexivity. Qed.

Lemma replaceTable_text a t l :
  (a, t) ∈ knownTables → replaceTable a t l = replaceTable a t [] +:+ join " " l.
Proof.
  intros Ha. rewrite <-(sapp_nil_r (join " " l)). unfold replaceTable. generalize (join " " l) as text. intros text.
  each_of knownTables Ha; vm_compute; reflexivity.
Qed.

Lemma readFill_same a t l :
  (a, t) ∈ knownTables →
  readFill (replaceTable a t l) (a, t) = Some (FillTable a t (skipEmpty (splitChar " " (join " " l)))).
Proof. intros Ha. unfold readFill. cbn [fst snd]. by rewrite (replaceTable_text a t l Ha), prefix_app, midFrom_app. Qed.

Lemma readFill_other a t a' t' l :
  (a, t) ∈ knownTables → (a', t') ∈ knownTables → a ≠ a' → readFill (replaceTable a t l) (a', t') = None.
Proof.
  intros Ha Ha' Hne. unfold readFill, replaceTable at 2. generalize (join " " l) as text. intros text.
  assert (String.prefix (replaceTable a' t' [])
            (arg "pfctl -q -a '%1/%2' -t '%3' -T replace %4" [kRootAnchor; a; t; text]) = false) as Hno.
  { each_of knownTables Ha; each_of knownTables Ha'; done || (vm_compute; reflexivity). }
  cbn [fst snd]. by rewrite Hno.
Qed.

Lemma read_replace a t l :
  (a, t) ∈ knownTables →
  readCommand (replaceTable a t l) = FillTable a t (skipEmpty (splitChar " " (join " " l))).
Proof.
  intros Ha. unfold readCommand.
  assert (head (omap (readFill (replaceTable a t l)) knownTables) =
            Some (FillTable a t (skipEmpty (splitChar " " (join " " l))))) as ->; [|done].
  pose proof (readFill_same a t l Ha) as Hsame. pose proof (λ a' t', readFill_other a t a' t' l Ha) as Hother.
  unfold knownTables at 1. cbn [omap list_omap].
  each_of knownTables Ha; rewrite ?Hsame; rewrite ?Hother by (done || by_compute); rewrite ?Hsame; done.
Qed.

Lemma read_housekeeping :
  readCommand <$> housekeeping = [Unrelated; FlushRoot; DropReference; Unrelated; Unrelated; AddRoot; TakeReference].
Proof. vm_compute. reflexivity. Qed.

Lemma read_queries :
  readCommand tokenHeld = AskToken ∧ readCommand rootAnchorPresent = AskRoot ∧ readCommand moveAnchorLast = MoveLast.
Proof. split_and!; vm_compute; reflexivity. Qed.

Lemma housekeeping_keeps_anchors c w :
  c ∈ housekeeping → modelLoaded (shell c w).2 = modelLoaded w.
Proof.
  intros Hc%(list_elem_of_fmap_2 readCommand). rewrite read_housekeeping in Hc. unfold shell, modelShell.
  destruct w. destruct (readCommand c); done || set_solver.
Qed.

Lemma shell_read c command w : readCommand c = command → shell c w = runCommand command w.
Proof. by intros <-. Qed.

Lemma shell_housekeeping i c command w :
  housekeeping !! i = Some c →
  [Unrelated; FlushRoot; DropReference; Unrelated; Unrelated; AddRoot; TakeReference] !! i = Some command →
  shell c w = runCommand command w.
Proof.
  intros Hc Hcommand. apply shell_read. rewrite <-read_housekeeping, list_lookup_fmap, Hc in Hcommand.
  by simplify_eq/=.
Qed.

Opaque tokenHeld rootAnchorPresent moveAnchorLast loadAnchor flushAnchor anchorPresent replaceTable killTable
  removeLegacyAnchor flushRootAnchor releaseToken reloadSystemRules insertNatAnchors insertFilterAnchor takeToken.

Lemma listContains_load l a a' : a ≠ a' → listContains (append_new l a) a' = listContains l a'.
Proof. intros. unfold listContains. apply bool_decide_ext. rewrite elem_of_append_new. naive_solver. Qed.

Lemma listContains_loaded l a : listContains (append_new l a) a = true.
Proof. unfold listContains. apply bool_decide_eq_true, elem_of_append_new. by right. Qed.

Lemma listContains_flush l a a' : a ≠ a' → listContains (removeAll a l) a' = listContains l a'.
Proof.
  intros. unfold listContains, removeAll. apply bool_decide_ext. rewrite list_elem_of_filter. naive_solver.
Qed.

Lemma listContains_flushed l a : listContains (removeAll a l) a = false.
Proof. unfold listContains, removeAll. apply bool_decide_eq_false. rewrite list_elem_of_filter. naive_solver. Qed.

#[export] Instance modelLaws : PfctlLaws modelPf.
Proof.
  split; cbn [pfOn rootLoaded lastAnchor anchorLoaded pfTable confLoads modelView].
  - intros [[]]; by rewrite (shell_read _ _ _ (proj1 read_queries)).
  - intros [? []]; by rewrite (shell_read _ _ _ (proj1 (proj2 read_queries))).
  - intros [] a Ha. rewrite (shell_read _ _ _ (read_present a Ha)). clear Ha. cbn. by destruct (listContains _ _).
  - intros w c a Hc _. by rewrite housekeeping_keeps_anchors.
  - intros []. by rewrite (shell_housekeeping 1 _ _ _ eq_refl eq_refl).
  - intros [] c Hc Hr. apply elem_of_cons in Hc as [->|Hc]; [|apply list_elem_of_singleton in Hc as ->].
    + by rewrite (shell_housekeeping 2 _ _ _ eq_refl eq_refl).
    + by rewrite (shell_housekeeping 3 _ _ _ eq_refl eq_refl).
  - intros []. by rewrite (shell_read _ _ _ (proj2 (proj2 read_queries))).
  - intros []. by rewrite (shell_read _ _ _ (proj2 (proj2 read_queries))).
  - intros [] a Ha. rewrite (shell_read _ _ _ (read_load a Ha)). repeat split. cbn. intros. by apply listContains_load.
  - intros [] a Ha Hl. rewrite (shell_read _ _ _ (read_load a Ha)). split; [|done]. apply listContains_loaded.
  - intros [] a Ha _. rewrite (shell_read _ _ _ (read_load a Ha)). apply listContains_loaded.
  - intros [] a Ha. rewrite (shell_read _ _ _ (read_flush a Ha)). repeat split. cbn. intros. by apply listContains_flush.
  - intros [] a Ha. rewrite (shell_read _ _ _ (read_flush a Ha)). apply listContains_flushed.
  - intros [] a t l Ha. rewrite (shell_read _ _ _ (read_replace a t l Ha)). repeat split. cbn.
    intros a' t' _ Hne. by rewrite lookup_insert_ne by congruence.
  - intros [] a t l Ha Hl. rewrite (shell_read _ _ _ (read_replace a t l Ha)). cbn.
    by rewrite lookup_insert_eq, plain_join.
  - intros [] a t Ha. rewrite (shell_read _ _ _ (read_kill a t Ha)). repeat split. cbn.
    intros a' t' _ Hne. by rewrite lookup_delete_ne by congruence.
Qed.

Transparent tokenHeld rootAnchorPresent moveAnchorLast loadAnchor flushAnchor anchorPresent replaceTable killTable
  removeLegacyAnchor flushRootAnchor releaseToken reloadSystemRules insertNatAnchors insertFilterAnchor takeToken.
