(* ===== verification/KillSwitch.v ===== *)
(** * The kill switch of the service

    [service/server/killswitch.cpp] on macOS: which anchors of the firewall are
    loaded and what their tables hold, for a connection that is being protected, for
    the strict mode and for the sites that are blocked without a connection.  The
    firewall is the interface [Firewall], the settings are the interface
    [SettingsStore].

    The theorems say what the rules mean for packets: while a connection is
    protected nothing leaves but through the tunnel and the exceptions that were
    asked for, whatever other requests the service handles; the rules that are set
    decide every packet as the policy says; and releasing the protection leads to
    the strict, the blocking or the open state. *)

From Stdlib Require Import Ascii.
From S2P Require Import Prelude QtCore Regex Variant NetworkUtilities SecureSettings AppSettings.
From S2P Require Import VpnConfig PacketFilter Firewall MacFirewall.
From stdpp Require Import options.

#[local] Set Default Proof Using "Type*".

(** ** Addresses from the client *)

Definition cidrRegExp : regex :=
  (times 3 (between 1 3 digit ∙ word ".") ∙ between 1 3 digit ∙ opt (word "/" ∙ between 1 2 digit) ∙ EndLine)%re.

Definition numberUpTo (bound : Z) (text : string) : bool :=
  match toInt text with Some n => (0 <=? n)%Z && (n <=? bound)%Z | None => false end.

Definition isValidIpOrCidr (value : string) : bool :=
  if negb (matchAtStart cidrRegExp value) then false
  else if negb (forallb (numberUpTo 255) (splitChar "." (default "" (splitChar "/" value !! 0%nat)))) then false
  else if containsChar "/" value then numberUpTo 32 (default "" (splitChar "/" value !! 1%nat))
  else true.

(** ** State *)

Record killSwitch (F S : Type) := KillSwitch {
  allowedRanges : list string;
  alwaysBlockedSites : list string;
  connectionProtection : bool;
  switchSettings : S;
  firewall : F;
}.
Arguments KillSwitch {F S}.
Arguments allowedRanges {F S}.
Arguments alwaysBlockedSites {F S}.
Arguments connectionProtection {F S}.
Arguments switchSettings {F S}.
Arguments firewall {F S}.

Section model.
Context `{HostAddressText, Firewall F} {S : Type} `{SettingsStore S}.
Implicit Types (k : killSwitch F S) (f : F).

Definition setAllowedRanges k (l : list string) : killSwitch F S :=
  KillSwitch l (alwaysBlockedSites k) (connectionProtection k) (switchSettings k) (firewall k).
Definition setBlockedSites k (l : list string) : killSwitch F S :=
  KillSwitch (allowedRanges k) l (connectionProtection k) (switchSettings k) (firewall k).
Definition setProtection k (b : bool) : killSwitch F S :=
  KillSwitch (allowedRanges k) (alwaysBlockedSites k) b (switchSettings k) (firewall k).
Definition setSwitchSettings k (s : S) : killSwitch F S :=
  KillSwitch (allowedRanges k) (alwaysBlockedSites k) (connectionProtection k) s (firewall k).
Definition setFirewall k (f : F) : killSwitch F S :=
  KillSwitch (allowedRanges k) (alwaysBlockedSites k) (connectionProtection k) (switchSettings k) f.

Definition strictKey : string := "Conf/strictKillSwitchEnabled".

Definition switchIsStrict k : bool := toBoolV (sValue (switchSettings k) strictKey (VBool false)).

(** ** Operations *)

Definition installIfNeeded f : F :=
  let '(installed, f) := fwInstalled f in if installed then f else fwInstall f.

Definition disableAllTraffic k : bool * killSwitch F S :=
  let f := fwPriority (installIfNeeded (firewall k)) in
  let f := applyCalls [Anchor blockAll true; Anchor allowLoopback true; Anchor blockIPv6 true] f in
  (true, setAllowedRanges (setFirewall k f) []).

Definition blockedSitesCalls (sites : list string) : list firewallCall :=
  [Anchor allowLoopback true; Anchor blockAll false; Anchor allowNets false; Anchor blockNets true;
   AnchorTable blockNets true "blocknets" sites; Anchor allowVPN true; Anchor blockIPv6 false;
   Anchor allowDHCP false; Anchor allowLAN false; Anchor blockDNS false; Anchor allowPIA false].

Definition applyAlwaysBlockedSites k : killSwitch F S :=
  let f := fwPriority (installIfNeeded (firewall k)) in
  setAllowedRanges (setFirewall k (applyCalls (blockedSitesCalls (alwaysBlockedSites k)) f)) [].

Definition strictCalls : list firewallCall :=
  [Anchor allowLoopback true; Anchor blockAll true; Anchor allowNets false; Anchor blockNets false;
   Anchor allowVPN false; Anchor blockIPv6 true; Anchor allowDHCP false; Anchor allowLAN false;
   Anchor blockDNS false; Anchor allowPIA false].

Definition disableKillSwitch k : bool * killSwitch F S :=
  if connectionProtection k then (true, k)
  else
    let k :=
      if switchIsStrict k then setFirewall k (applyCalls strictCalls (firewall k))
      else match alwaysBlockedSites k with
           | _ :: _ => applyAlwaysBlockedSites k
           | [] => setFirewall k (fwUninstall (firewall k))
           end in
    (true, setAllowedRanges k []).

(** [init], after which the settings are there. *)
Definition init (settings : S) f : bool * killSwitch F S :=
  let k := KillSwitch [] [] false settings f in
  if switchIsStrict k then disableAllTraffic k else (true, k).

Definition refresh k (enabled : bool) : bool * killSwitch F S :=
  let k := setSwitchSettings k (sSet (switchSettings k) strictKey (VBool enabled)) in
  if switchIsStrict k then disableAllTraffic k else disableKillSwitch k.

Definition setAlwaysBlockedSites k (ranges : list string) : bool * killSwitch F S :=
  if negb (forallb isValidIpOrCidr ranges) then (false, k)
  else
    let unchanged := bool_decide (ranges = alwaysBlockedSites k) in
    let k := setBlockedSites k ranges in
    if switchIsStrict k then (true, k)
    else
      let '(settled, k) :=
        if unchanged then
          if bool_decide (ranges = []) then (true, k)
          else let '(enabled, f) := fwAnchorEnabled blockNets (firewall k) in (enabled, setFirewall k f)
        else (false, k) in
      if settled then (true, k)
      else if connectionProtection k then (true, k) else disableKillSwitch k.

Definition resetAllowedRange k (ranges : list string) : bool * killSwitch F S :=
  if negb (forallb isValidIpOrCidr ranges) then (false, k)
  else
    let f := applyCalls [Anchor allowNets true; AnchorTable allowNets true "allownets" ranges] (firewall k) in
    (true, setFirewall (setAllowedRanges k ranges) f).

Definition addRange (l : list string) (range : string) : list string :=
  if negb (isEmpty range) && negb (listContains l range) then l ++ [range] else l.

Definition addAllowedRange k (ranges : list string) : bool * killSwitch F S :=
  if negb (forallb isValidIpOrCidr ranges) then (false, k)
  else
    let k := setAllowedRanges k (foldl addRange (allowedRanges k) ranges) in
    resetAllowedRange k (allowedRanges k).

Definition removeAllowedRange k (ranges : list string) : bool * killSwitch F S :=
  let k := setAllowedRanges k (foldl (λ l range, removeAll range l) (allowedRanges k) ranges) in
  resetAllowedRange k (allowedRanges k).

Definition enablePeerTraffic k (config : QJsonObject) : bool * killSwitch F S := (true, k).

(** *** The rules for a connection *)

Definition splitTunnelType (config : QJsonObject) : Z := toIntJ (jvalue config keySplitTunnelType).

Definition amneziaDnsIp : string := "172.29.172.254".

Definition dns1Of (config : QJsonObject) : string := toStringJ "" (jvalue config keyDns1).

Definition dns2Of (config : QJsonObject) : string :=
  if contains (dns1Of config) amneziaDnsIp then "" else toStringJ "" (jvalue config keyDns2).

(** The loop stops at the first value that is not a string. *)
Fixpoint leadingStrings (l : list json) : list string :=
  match l with JString s :: l => s :: leadingStrings l | _ => [] end.

Definition allowedDnsOf (config : QJsonObject) : list string :=
  filter (λ dns, isValidIpOrCidr dns = true) (leadingStrings (toArrayJ (jvalue config keyAllowedDnsServers))).

Definition dnsServersOf (config : QJsonObject) : list string :=
  (if isEmpty (dns1Of config) then [] else [dns1Of config]) ++
  (if isEmpty (dns2Of config) then [] else [dns2Of config]) ++ allowedDnsOf config.

Definition siteRulesOf (config : QJsonObject) : list string :=
  filter (λ rule, checkIpSubnetFormat rule = true) (toStringJ "" <$> toArrayJ (jvalue config keySplitTunnelSites)).

Definition vpnServerOf (config : QJsonObject) : string := toStringJ "" (jvalue config "vpnServer").

Definition blocksAll (config : QJsonObject) : bool :=
  (splitTunnelType config =? 0)%Z || (splitTunnelType config =? 2)%Z.

Definition allownetsOf (config : QJsonObject) : list string :=
  if (splitTunnelType config =? 0)%Z then [vpnServerOf config]
  else if (splitTunnelType config =? 2)%Z then vpnServerOf config :: siteRulesOf config
  else [].

Definition blocknetsOf (config : QJsonObject) : list string :=
  if (splitTunnelType config =? 1)%Z then siteRulesOf config else [].

Definition configAccepted (config : QJsonObject) : bool :=
  negb ((negb (isEmpty (dns1Of config)) && negb (isValidIpOrCidr (dns1Of config))) ||
        (negb (isEmpty (dns2Of config)) && negb (isValidIpOrCidr (dns2Of config)))) &&
  negb (negb (forallb isValidIpOrCidr (allownetsOf config)) ||
        negb (forallb isValidIpOrCidr (blocknetsOf config))).

Definition connectionCalls (config : QJsonObject) : list firewallCall :=
  [Anchor allowLoopback true; Anchor blockAll (blocksAll config); Anchor allowNets (blocksAll config);
   AnchorTable allowNets (blocksAll config) "allownets" (allownetsOf config);
   Anchor blockNets (splitTunnelType config =? 1)%Z;
   AnchorTable blockNets (splitTunnelType config =? 1)%Z "blocknets" (blocknetsOf config);
   Anchor allowVPN true; Anchor blockIPv6 true; Anchor allowDHCP true; Anchor allowLAN true;
   Anchor blockDNS true; AnchorTable blockDNS true "dnsaddr" (dnsServersOf config); Anchor allowPIA true].

Definition enableKillSwitch k (config : QJsonObject) (vpnAdapterIndex : Z) : bool * killSwitch F S :=
  if negb (configAccepted config) then (false, k)
  else
    let k := setAllowedRanges k (allownetsOf config) in
    let f := fwPriority (installIfNeeded (firewall k)) in
    (true, setFirewall k (applyCalls (connectionCalls config) f)).

(** The three queries are joined by [&&]: a query runs only when the ones before it
    succeeded. *)
Definition protectionVerified f (config : QJsonObject) : bool * F :=
  let '(installed, f) := fwInstalled f in
  if installed then
    let '(noIPv6, f) := fwAnchorEnabled blockIPv6 f in
    if noIPv6 then fwAnchorEnabled (if (splitTunnelType config =? 1)%Z then blockNets else blockAll) f
    else (false, f)
  else (false, f).

Definition setConnectionProtection k (enabled : bool) (config : QJsonObject) : bool * killSwitch F S :=
  if negb enabled then disableKillSwitch (setProtection k false)
  else
    let '(accepted, k) := enableKillSwitch k config 0 in
    if negb accepted then (false, k)
    else
      let k := setProtection k true in
      let '(verified, f) := protectionVerified (firewall k) config in
      (verified, setFirewall k f).

(** The requests that the service forwards to the kill switch. *)
Inductive switchOp :=
  | Refresh (enabled : bool)
  | Protect (config : QJsonObject)
  | Release (config : QJsonObject)
  | DisableSwitch
  | DisableAll
  | EnableSwitch (config : QJsonObject) (vpnAdapterIndex : Z)
  | PeerTraffic (config : QJsonObject)
  | ResetRanges (ranges : list string)
  | AddRanges (ranges : list string)
  | RemoveRanges (ranges : list string)
  | BlockSites (ranges : list string).

Definition performSwitch k (op : switchOp) : killSwitch F S :=
  match op with
  | Refresh enabled => (refresh k enabled).2
  | Protect config => (setConnectionProtection k true config).2
  | Release config => (setConnectionProtection k false config).2
  | DisableSwitch => (disableKillSwitch k).2
  | DisableAll => (disableAllTraffic k).2
  | EnableSwitch config i => (enableKillSwitch k config i).2
  | PeerTraffic config => (enablePeerTraffic k config).2
  | ResetRanges ranges => (resetAllowedRange k ranges).2
  | AddRanges ranges => (addAllowedRange k ranges).2
  | RemoveRanges ranges => (removeAllowedRange k ranges).2
  | BlockSites ranges => (setAlwaysBlockedSites k ranges).2
  end.
End model.

(** ** Validated addresses *)

(** A character that a validated address can have. *)
Definition cidrChar (c : ascii) : bool := entryChar c || eqChar c newline.

Lemma cidr_shape e :
  isValidIpOrCidr e = true →
  ∃ w t, e = w +:+ t ∧ w ≠ "" ∧ allChars entryChar w = true ∧ (t = "" ∨ t = String newline "").
Proof.
  unfold isValidIpOrCidr. intros He. destruct (matchAtStart cidrRegExp e) eqn:Hm; [|done]. clear He.
  apply matchAtStart_sem in Hm as [t Hm].
  assert (t = "" ∨ t = String newline "") as Ht.
  { destruct Hm as (? & _ & ? & _ & ? & _ & [-> Ht]). done. }
  assert (String.length t < String.length e)%nat as Hlen.
  { destruct Hm as (u & (x & (y & (z & (v & (c & -> & _) & Hz) & Hy) & Hx) & Hu) & Hrest).
    apply sem_length in Hz, Hy, Hx, Hu, Hrest. cbn [String.length]. lia. }
  apply sem_prefix in Hm as (w & -> & Hw). exists w, t. split_and!; [done| |..|done].
  - intros ->. rewrite snil_app in Hlen. lia.
  - revert Hw. apply allChars_impl. intros c. cbn. unfold entryChar.
    destruct (isDigit c), (eqChar c "."), (eqChar c "/"); done.
Qed.

Lemma valid_chars e : isValidIpOrCidr e = true → allChars cidrChar e = true.
Proof.
  intros (w & t & -> & _ & Hw & Ht)%cidr_shape. rewrite allChars_app. apply andb_true_iff. split.
  - revert Hw. apply allChars_impl. intros c Hc. unfold cidrChar. by rewrite Hc.
  - by destruct Ht as [->| ->].
Qed.

Lemma valid_plain e : isValidIpOrCidr e = true → containsChar newline e = false → plainEntry e = true.
Proof.
  intros (w & t & -> & Hne & Hw & Ht)%cidr_shape. rewrite containsChar_app. intros [_ Hn]%orb_false_iff.
  destruct Ht as [->| ->]; [|done]. rewrite sapp_nil_r. unfold plainEntry. rewrite Hw.
  by destruct w.
Qed.

Lemma elem_of_addRanges l ranges e : e ∈ foldl addRange l ranges → e ∈ l ∨ e ∈ ranges.
Proof.
  revert l. induction ranges as [|r ranges IH]; intros l; cbn [foldl]; [by left|].
  intros [Hl|?]%IH; [|set_solver]. unfold addRange in Hl. split_ifs; set_solver.
Qed.

Lemma elem_of_removeRanges l ranges e : e ∈ foldl (λ l range, removeAll range l) l ranges → e ∈ l.
Proof.
  revert l. induction ranges as [|r ranges IH]; intros l; cbn [foldl]; [done|].
  intros Hl%IH. unfold removeAll in Hl. by apply list_elem_of_filter in Hl as [_ ?].
Qed.

(** ** What requests ask for *)

Section protection.
Context `{HostAddressText, FirewallLaws F} {S : Type} `{SettingsStore S}.
Implicit Types (k : killSwitch F S) (f : F) (P D : list string).

(** The destinations outside the tunnel, and the DNS servers, that a request asks
    to permit. *)
Definition grants (op : switchOp) : list string :=
  match op with
  | Protect config | EnableSwitch config _ => allownetsOf config
  | ResetRanges ranges | AddRanges ranges => ranges
  | _ => []
  end.

Definition dnsGrants (op : switchOp) : list string :=
  match op with Protect config | EnableSwitch config _ => dnsServersOf config | _ => [] end.

(** Requests that do not end the protection: it is not released, and new rules are
    not those for a tunnel that carries only the listed sites. *)
Definition keepsProtection (op : switchOp) : bool :=
  match op with
  | Release _ => false
  | Protect config | EnableSwitch config _ => blocksAll config
  | _ => true
  end.

(** The addresses of a request have no line breaks. *)
Definition oneLine (op : switchOp) : Prop :=
  Forall (λ e, containsChar newline e = false) (grants op ++ dnsGrants op).

Definition plainEntries (l : list string) : Prop := Forall (λ e, plainEntry e = true) l.

(** The protection is in force, and only [P] and [D] are permitted. *)
Record armed P D k : Prop := {
  armed_protection : connectionProtection k = true;
  armed_active : active (firewall k) = true;
  armed_prioritized : prioritized (firewall k) = true;
  armed_blockAll : loaded (firewall k) blockAll = true;
  armed_blockIPv6 : loaded (firewall k) blockIPv6 = true;
  armed_hnsd : loaded (firewall k) allowHnsd = false;
  armed_plain : plainEntries (allowedRanges k);
  armed_ranges : allowedRanges k ⊆ P;
  armed_nets : tableOf (firewall k) allowNets "allownets" ⊆ P;
  armed_dns : tableOf (firewall k) blockDNS "dnsaddr" ⊆ D;
}.

Ltac anchors := refine (bool_decide_unpack _ _); vm_compute; exact I.

Lemma plain_valid l :
  forallb isValidIpOrCidr l = true → Forall (λ e, containsChar newline e = false) l → plainEntries l.
Proof.
  rewrite forallb_forall. intros Hv Hn. apply Forall_forall. intros e He.
  rewrite Forall_forall in Hn. apply valid_plain; [by apply Hv, list_elem_of_In|by apply Hn].
Qed.

Lemma accepted_nets config : configAccepted config = true → forallb isValidIpOrCidr (allownetsOf config) = true.
Proof. unfold configAccepted. intros. reflect_bools. done. Qed.

Lemma accepted_blocks config : configAccepted config = true → forallb isValidIpOrCidr (blocknetsOf config) = true.
Proof. unfold configAccepted. intros. reflect_bools. done. Qed.

Lemma accepted_dns config : configAccepted config = true → forallb isValidIpOrCidr (dnsServersOf config) = true.
Proof.
  unfold configAccepted, dnsServersOf. intros Hc. reflect_bools. rewrite !forallb_app. apply andb_true_iff. split.
  - destruct (isEmpty (dns1Of config)); [done|]. cbn in *. reflect_bools. by rewrite andb_true_r.
  - apply andb_true_iff. split.
    + destruct (isEmpty (dns2Of config)); [done|]. cbn in *. reflect_bools. by rewrite andb_true_r.
    + apply forallb_forall. intros e He%list_elem_of_In. by apply list_elem_of_filter in He as [? _].
Qed.

Lemma installIfNeeded_active f : active f = true → installIfNeeded f = f.
Proof. intros Ha. unfold installIfNeeded. by rewrite installed_spec, Ha. Qed.

Lemma installIfNeeded_off f a : a ∈ rootAnchors → loaded f a = false → loaded (installIfNeeded f) a = false.
Proof.
  intros Ha Hl. unfold installIfNeeded. rewrite installed_spec. destruct (active f); [done|].
  destruct (loaded (fwInstall f) a) eqn:Hi; [|done]. apply install_loaded in Hi; [congruence|done].
Qed.

Lemma connectionCalls_known config : forallb knownCall (connectionCalls config) = true.
Proof. done. Qed.

Lemma blockAll_type config : blocksAll config = true → (splitTunnelType config =? 1)%Z = false.
Proof. unfold blocksAll. lia. Qed.

(** The rules of an accepted configuration that blocks everything by default. *)
Lemma connectionCalls_spec config f :
  configAccepted config = true → blocksAll config = true →
  Forall (λ e, containsChar newline e = false) (allownetsOf config ++ dnsServersOf config) →
  let f' := applyCalls (connectionCalls config) f in
  active f' = active f ∧ prioritized f' = prioritized f ∧
  (loaded f blockAll = true → loaded f' blockAll = true) ∧
  (loaded f blockIPv6 = true → loaded f' blockIPv6 = true) ∧
  loaded f' allowHnsd = loaded f allowHnsd ∧
  plainEntries (allownetsOf config) ∧
  tableOf f' allowNets "allownets" = allownetsOf config ∧ tableOf f' blockDNS "dnsaddr" = dnsServersOf config.
Proof.
  intros Hacc Hall [Hn Hd]%Forall_app f'.
  pose proof (plain_valid _ (accepted_nets _ Hacc) Hn). pose proof (plain_valid _ (accepted_dns _ Hacc) Hd).
  unfold f', connectionCalls. rewrite Hall, blockAll_type by done. split_and!.
  - by apply calls_active.
  - by apply calls_prioritized.
  - intros. apply calls_kept; [done|anchors|done..].
  - intros. apply calls_kept; [done|anchors|done..].
  - apply calls_untouched; [done|anchors|done].
  - done.
  - apply calls_table; [done|anchors|done..].
  - apply calls_table; [done|anchors|done..].
Qed.

Lemma armed_mono P D P' D' k : armed P D k → P ⊆ P' → D ⊆ D' → armed P' D' k.
Proof. intros [] ??. split; try done; by etrans. Qed.

Lemma enableKillSwitch_armed P D k config i :
  armed P D k → blocksAll config = true → oneLine (EnableSwitch config i) →
  armed (P ++ allownetsOf config) (D ++ dnsServersOf config) (enableKillSwitch k config i).2.
Proof.
  intros Hk Hall Hone. unfold enableKillSwitch. destruct (configAccepted config) eqn:Hacc; cbn [negb].
  2:{ apply (armed_mono P D); [done|set_solver..]. }
  destruct Hk as [Hp Ha Hpr Hb H6 Hh Hpl Hr Hn Hd]. cbn [snd setFirewall setAllowedRanges firewall].
  rewrite installIfNeeded_active by done.
  destruct (connectionCalls_spec config (fwPriority (firewall k)) Hacc Hall Hone) as (E1 & E2 & E3 & E4 & E5 & E6 & E7 & E8).
  rewrite priority_active in E1. rewrite priority_prioritized in E2. rewrite !priority_loaded in * by anchors.
  split; cbn [connectionProtection firewall allowedRanges setFirewall setAllowedRanges]; try congruence; auto.
  - set_solver.
  - rewrite E7. set_solver.
  - rewrite E8. set_solver.
Qed.

Lemma protectionVerified_spec f config :
  protectionVerified f config =
    (active f && loaded f blockIPv6 && loaded f (if (splitTunnelType config =? 1)%Z then blockNets else blockAll), f).
Proof.
  unfold protectionVerified. rewrite installed_spec. destruct (active f); [|done].
  rewrite enabled_spec by anchors. destruct (loaded f blockIPv6); [|done].
  rewrite enabled_spec; [done|]. destruct (splitTunnelType config =? 1)%Z; anchors.
Qed.

Lemma setConnectionProtection_armed P D k config :
  armed P D k → blocksAll config = true → oneLine (Protect config) →
  armed (P ++ allownetsOf config) (D ++ dnsServersOf config) (setConnectionProtection k true config).2.
Proof.
  intros Hk Hall Hone. pose proof (enableKillSwitch_armed P D k config 0 Hk Hall Hone) as He.
  unfold setConnectionProtection. cbn [negb]. destruct (enableKillSwitch k config 0) as [[] k']; [|done].
  cbn [negb firewall setProtection]. rewrite protectionVerified_spec. destruct He. by split.
Qed.

(** The protection is in force once the service has confirmed it. *)
Lemma setConnectionProtection_confirmed k config k' :
  setConnectionProtection k true config = (true, k') → splitTunnelType config ≠ 1%Z →
  oneLine (Protect config) → loaded (firewall k) allowHnsd = false →
  armed (allownetsOf config) (dnsServersOf config) k'.
Proof.
  intros Hrun Htype Hone Hh. unfold setConnectionProtection, enableKillSwitch in Hrun. cbn [negb] in Hrun.
  destruct (configAccepted config) eqn:Hacc; [|done]. cbn [negb] in Hrun.
  rewrite protectionVerified_spec in Hrun. cbn [firewall setProtection setFirewall setAllowedRanges] in Hrun.
  simplify_eq. reflect_bools. rewrite (proj2 (Z.eqb_neq _ _)) in * by done.
  set (f := fwPriority (installIfNeeded (firewall k))) in *.
  assert (blocksAll config = true) as Hall.
  { destruct (blocksAll config) eqn:Hb; [done|]. exfalso.
    assert (loaded (applyCalls (connectionCalls config) f) blockAll = false) as Hoff; [|congruence].
    unfold connectionCalls. rewrite Hb. apply calls_setting; [done|anchors|done|done]. }
  destruct (connectionCalls_spec config f Hacc Hall Hone) as (E1 & E2 & E3 & E4 & E5 & E6 & E7 & E8).
  assert (prioritized f = true) by apply priority_prioritized.
  assert (loaded f allowHnsd = false).
  { unfold f. rewrite priority_loaded by anchors. apply installIfNeeded_off; [anchors|done]. }
  split; cbn [connectionProtection firewall allowedRanges setFirewall setAllowedRanges setProtection]; try done; try congruence.
Qed.
Lemma setAllowedRanges_armed P D k l : armed P D k → plainEntries l → l ⊆ P → armed P D (setAllowedRanges k l).
Proof. intros [] ??. by split. Qed.

Lemma disableAllTraffic_armed P D k : armed P D k → armed P D (disableAllTraffic k).2.
Proof.
  intros [Hp Ha Hpr Hb H6 Hh Hpl Hr Hn Hd]. unfold disableAllTraffic. rewrite installIfNeeded_active by done.
  split; cbn [snd connectionProtection firewall allowedRanges setFirewall setAllowedRanges]; try done.
  - rewrite calls_active, priority_active; done.
  - rewrite calls_prioritized; [apply priority_prioritized|done].
  - apply calls_kept; [done|anchors|done|]. by rewrite priority_loaded by anchors.
  - apply calls_kept; [done|anchors|done|]. by rewrite priority_loaded by anchors.
  - rewrite calls_untouched; [|done|anchors|done]. by rewrite priority_loaded by anchors.
  - by constructor.
  - set_solver.
  - rewrite calls_table_untouched; [|done|anchors|done]. by rewrite priority_table by anchors.
  - rewrite calls_table_untouched; [|done|anchors|done]. by rewrite priority_table by anchors.
Qed.

Lemma resetAllowedRange_armed P D k ranges :
  armed P D k → plainEntries ranges → ranges ⊆ P → armed P D (resetAllowedRange k ranges).2.
Proof.
  intros [Hp Ha Hpr Hb H6 Hh Hpl Hr Hn Hd] Hranges Hsub. unfold resetAllowedRange.
  destruct (forallb isValidIpOrCidr ranges); [|by split].
  split; cbn [negb snd connectionProtection firewall allowedRanges setFirewall setAllowedRanges]; try done.
  - by rewrite calls_active.
  - by rewrite calls_prioritized.
  - apply calls_kept; [done|anchors|done..].
  - apply calls_kept; [done|anchors|done..].
  - rewrite calls_untouched; [done|done|anchors|done].
  - rewrite (calls_table _ _ _ _ ranges); [done|done|anchors|done..].
  - rewrite calls_table_untouched; [done|done|anchors|done].
Qed.

Lemma plain_sub l l' : plainEntries l → l' ⊆ l → plainEntries l'.
Proof. unfold plainEntries. rewrite !Forall_forall. auto. Qed.

Lemma addAllowedRange_armed P D k ranges :
  armed P D k → oneLine (AddRanges ranges) → armed (P ++ ranges) D (addAllowedRange k ranges).2.
Proof.
  intros Hk [Hone _]%Forall_app. cbn in Hone. apply (armed_mono _ _ (P ++ ranges) D) in Hk; [|set_solver..].
  unfold addAllowedRange. destruct (forallb isValidIpOrCidr ranges) eqn:Hv; cbn [negb]; [|done].
  assert (foldl addRange (allowedRanges k) ranges ⊆ allowedRanges k ++ ranges) as Hsub.
  { intros e He%elem_of_addRanges. set_solver. }
  assert (plainEntries (foldl addRange (allowedRanges k) ranges)) as Hplain.
  { eapply plain_sub; [|done]. apply Forall_app. split; [apply Hk|by apply plain_valid]. }
  assert (foldl addRange (allowedRanges k) ranges ⊆ P ++ ranges).
  { etrans; [done|]. destruct Hk. set_solver. }
  apply resetAllowedRange_armed; [by apply setAllowedRanges_armed|done..].
Qed.

Lemma removeAllowedRange_armed P D k ranges : armed P D k → armed P D (removeAllowedRange k ranges).2.
Proof.
  intros Hk. unfold removeAllowedRange.
  assert (foldl (λ l range, removeAll range l) (allowedRanges k) ranges ⊆ allowedRanges k) as Hsub.
  { intros e. apply elem_of_removeRanges. }
  assert (plainEntries (foldl (λ l range, removeAll range l) (allowedRanges k) ranges)).
  { eapply plain_sub; [apply Hk|done]. }
  assert (foldl (λ l range, removeAll range l) (allowedRanges k) ranges ⊆ P) by (etrans; [done|apply Hk]).
  apply resetAllowedRange_armed; [by apply setAllowedRanges_armed|done..].
Qed.

Lemma setAlwaysBlockedSites_armed P D k ranges : armed P D k → armed P D (setAlwaysBlockedSites k ranges).2.
Proof.
  intros Hk. unfold setAlwaysBlockedSites. destruct (forallb isValidIpOrCidr ranges); [|done]. cbn [negb].
  assert (armed P D (setBlockedSites k ranges)) as Hk' by (destruct Hk; by split).
  destruct (switchIsStrict _); [done|]. cbn [firewall setBlockedSites]. rewrite enabled_spec by anchors.
  assert (connectionProtection k = true) as Hp by apply Hk.
  assert (∀ f, f = firewall k → armed P D (setFirewall (setBlockedSites k ranges) f)) as Hf.
  { intros f ->. destruct Hk'. by split. }
  destruct (bool_decide (ranges = alwaysBlockedSites k)); [destruct (bool_decide (ranges = []))|].
  - done.
  - destruct (loaded (firewall k) blockNets); [by apply Hf|].
    cbn [connectionProtection setFirewall setBlockedSites]. rewrite Hp. by apply Hf.
  - cbn [connectionProtection setBlockedSites]. by rewrite Hp.
Qed.
Lemma performSwitch_armed P D k op :
  armed P D k → keepsProtection op = true → oneLine op →
  armed (P ++ grants op) (D ++ dnsGrants op) (performSwitch k op).
Proof.
  intros Hk Hop Hone. destruct op; cbn [performSwitch grants dnsGrants keepsProtection] in *;
    rewrite ?(right_id_L [] (++)).
  - unfold refresh. set (k' := setSwitchSettings _ _). assert (armed P D k') as Hk' by (destruct Hk; by split).
    destruct (switchIsStrict k'); [by apply disableAllTraffic_armed|].
    unfold disableKillSwitch. by rewrite (armed_protection P D k' Hk').
  - by apply setConnectionProtection_armed.
  - done.
  - unfold disableKillSwitch. by rewrite (armed_protection P D k Hk).
  - by apply disableAllTraffic_armed.
  - by apply enableKillSwitch_armed.
  - done.
  - apply (armed_mono _ _ (P ++ ranges) D) in Hk; [|set_solver..]. apply Forall_app in Hone as [Hone _].
    destruct (forallb isValidIpOrCidr ranges) eqn:Hv; [|by unfold resetAllowedRange; rewrite Hv].
    apply resetAllowedRange_armed; [done|by apply plain_valid|set_solver].
  - by apply addAllowedRange_armed.
  - by apply removeAllowedRange_armed.
  - by apply setAlwaysBlockedSites_armed.
Qed.

Lemma performSwitch_run P D k ops :
  armed P D k → Forall (λ op, keepsProtection op = true ∧ oneLine op) ops →
  armed (P ++ concat (grants <$> ops)) (D ++ concat (dnsGrants <$> ops)) (foldl performSwitch k ops).
Proof.
  intros Hk Hops. revert P D k Hk. induction Hops as [|op ops [Hkeep Hone] _ IH]; intros P D k Hk; cbn.
  - by rewrite !(right_id_L [] (++)).
  - rewrite !(assoc_L (++)). apply IH. by apply performSwitch_armed.
Qed.
(** Switching the strict mode on clears the list of permitted destinations but not
    the table.  The next destination that is added replaces the table by that list,
    so the VPN server and the exceptions of the connection are lost. *)
Lemma strict_forgets_exceptions k range :
  switchIsStrict (setSwitchSettings k (sSet (switchSettings k) strictKey (VBool true))) = true →
  isValidIpOrCidr range = true → plainEntry range = true →
  let k' := (addAllowedRange (refresh k true).2 [range]).2 in
  tableOf (firewall k') allowNets "allownets" = [range].
Proof.
  intros Hstrict Hvalid Hplain. unfold refresh. rewrite Hstrict.
  unfold addAllowedRange, resetAllowedRange. cbn [forallb]. rewrite Hvalid. cbn [andb negb].
  cbn [allowedRanges setAllowedRanges disableAllTraffic snd foldl]. unfold addRange.
  replace (isEmpty range) with false by (by destruct range).
  change (listContains [] range) with false. cbn [negb andb app forallb]. rewrite Hvalid.
  cbn [andb negb snd firewall setFirewall]. apply calls_table; [done|anchors|done|by repeat constructor].
Qed.

(** *** Packets *)

Section packets.
Context {A : Type} (covers : string → A → bool) (debug : bool).
Context (before : packet A → action) (after : packet A → option action).
Implicit Types p : packet A.

Local Notation decides f := (verdict covers debug f before after).

(** The packets that may leave: on the loopback interface, from the service itself,
    DNS queries to the servers [D], to the local network, for the address
    configuration, through the tunnel, and to the destinations [P]; the last two
    with IPv4 only. *)
Definition exempt P D p : Prop :=
  onLoopback p = true ∨ fromService debug p = true ∨
  isDns p = true ∧ coveredBy covers D p = true ∨
  toLan covers p = true ∨ isDhcp covers p = true ∨
  inet6 p = false ∧ (overTunnel p = true ∨ coveredBy covers P p = true).

Lemma coveredBy_sub l l' p : l ⊆ l' → coveredBy covers l p = true → coveredBy covers l' p = true.
Proof.
  unfold coveredBy. intros Hsub. rewrite !existsb_exists. intros (e & He%list_elem_of_In & Hc).
  exists e. split; [|done]. by apply list_elem_of_In, Hsub.
Qed.

Lemma verdict_lastMatch f p :
  active f = true → prioritized f = true → loaded f allowHnsd = false →
  decides f p = if loaded f allowLoopback && onLoopback p then Pass
                else default (before p) (lastMatch covers debug (loaded f) (tableOf f) p).
Proof.
  intros Ha Hp Hh. unfold verdict. rewrite Ha, Hp, evalAnchors_lastMatch by done.
  by destruct (loaded f allowLoopback && onLoopback p).
Qed.

Lemma armed_exempt P D k p : armed P D k → decides (firewall k) p = Pass → exempt P D p.
Proof.
  intros [Hp Ha Hpr Hb H6 Hh Hpl Hr Hn Hd]. rewrite verdict_lastMatch by done. unfold lastMatch. rewrite Hb, H6.
  unfold exempt. destruct (loaded (firewall k) allowLoopback && onLoopback p) eqn:Hlo.
  { apply andb_true_iff in Hlo as [_ ->]. by left. }
  destruct (loaded _ allowPIA && _) eqn:E; [apply andb_true_iff in E as [_ ->]; tauto|clear E].
  destruct (loaded _ blockDNS && _) eqn:E.
  { apply andb_true_iff in E as [_ ->]. destruct (coveredBy _ _ _) eqn:Hc; [|done].
    intros _. do 2 right. left. split; [done|]. by eapply coveredBy_sub. }
  destruct (loaded _ allowLAN && _) eqn:E1; [apply andb_true_iff in E1 as [_ ->]; tauto|].
  destruct (loaded _ allowDHCP && _) eqn:E2; [apply andb_true_iff in E2 as [_ ->]; tauto|].
  destruct (inet6 p); [done|]. cbn [andb].
  destruct (loaded _ allowVPN && _) eqn:E3; [apply andb_true_iff in E3 as [_ ->]; tauto|].
  destruct (loaded _ blockNets && _); [done|].
  destruct (loaded _ allowNets && _) eqn:E4; [|done]. apply andb_true_iff in E4 as [_ Hc].
  intros _. do 5 right. split; [done|]. right. by eapply coveredBy_sub.
Qed.

(** *** The rules in force *)

(** What the rules of a connection mean for a packet. *)
Definition connectionPolicy (config : QJsonObject) p : action :=
  if onLoopback p || fromService debug p then Pass
  else if isDns p then (if coveredBy covers (dnsServersOf config) p then Pass else Block)
  else if toLan covers p || isDhcp covers p then Pass
  else if inet6 p then Block
  else if overTunnel p then Pass
  else if blocksAll config then (if coveredBy covers (allownetsOf config) p then Pass else Block)
  else if coveredBy covers (blocknetsOf config) p then Block
  else before p.

(** What is left when the protection has been released. *)
Definition releasedPolicy (strict : bool) (sites : list string) p : action :=
  if onLoopback p then Pass
  else if strict then Block
  else if overTunnel p then Pass
  else if coveredBy covers sites p then Block
  else before p.

(** The anchors that the service loads. *)
Definition serviceAnchors : list string :=
  [allowLoopback; blockAll; allowNets; blockNets; allowVPN; blockIPv6; allowDHCP; allowLAN; blockDNS; allowPIA].

Hypothesis filesLoad : ∀ a, a ∈ serviceAnchors → loads a = true.

Lemma calls_exact l f a b :
  forallb knownCall l = true → a ∈ serviceAnchors → lastSetting a l = Some b → loaded (applyCalls l f) a = b.
Proof using filesLoad H0 H1 H2.
  intros Hl Ha Hlast. apply calls_setting; [done| |done|by intros; apply filesLoad].
  revert Ha. unfold serviceAnchors, rootAnchors. clear. set_solver.
Qed.

Lemma connectionCalls_policy config f p :
  configAccepted config = true → blocksAll config || (splitTunnelType config =? 1)%Z = true →
  Forall (λ e, containsChar newline e = false) (allownetsOf config ++ blocknetsOf config ++ dnsServersOf config) →
  active f = true → prioritized f = true → loaded f allowHnsd = false →
  decides (applyCalls (connectionCalls config) f) p = connectionPolicy config p.
Proof using filesLoad H0 H1 H2.
  intros Hacc Htype [Hn [Hb Hd]%Forall_app]%Forall_app Ha Hp Hh.
  pose proof (connectionCalls_known config) as Hknown. set (l := connectionCalls config) in *.
  rewrite verdict_lastMatch; [|by rewrite calls_active|by rewrite calls_prioritized|].
  2:{ rewrite calls_untouched; [done|done|anchors|done]. }
  unfold lastMatch, connectionPolicy.
  rewrite (calls_exact l f allowLoopback true), (calls_exact l f allowPIA true), (calls_exact l f blockDNS true),
    (calls_exact l f allowLAN true), (calls_exact l f allowDHCP true), (calls_exact l f blockIPv6 true),
    (calls_exact l f allowVPN true), (calls_exact l f blockNets (splitTunnelType config =? 1)%Z),
    (calls_exact l f allowNets (blocksAll config)), (calls_exact l f blockAll (blocksAll config))
    by (done || anchors).
  rewrite (calls_table l f blockDNS "dnsaddr" (dnsServersOf config)); [|done|anchors|done|].
  2:{ by apply plain_valid, Hd; apply accepted_dns. }
  cbn [andb]. destruct (onLoopback p), (fromService debug p), (isDns p), (toLan covers p), (isDhcp covers p),
    (inet6 p), (overTunnel p); try done; cbn [orb default]; try by destruct (coveredBy covers (dnsServersOf config) p).
  destruct (blocksAll config) eqn:Hall.
  - rewrite blockAll_type by done. cbn [andb]. rewrite (calls_table l f allowNets "allownets" (allownetsOf config)).
    + by destruct (coveredBy covers (allownetsOf config) p).
    + done.
    + anchors.
    + unfold l, connectionCalls. by rewrite Hall.
    + apply plain_valid; [by apply accepted_nets|done].
  - cbn [orb] in Htype. rewrite Htype. cbn [andb].
    rewrite (calls_table l f blockNets "blocknets" (blocknetsOf config)).
    + by destruct (coveredBy covers (blocknetsOf config) p).
    + done.
    + anchors.
    + unfold l, connectionCalls. by rewrite Htype.
    + apply plain_valid; [by apply accepted_blocks|done].
Qed.

(** Nothing is left but the loopback interface in the strict mode. *)
Lemma strictCalls_policy f p sites :
  active f = true → prioritized f = true → loaded f allowHnsd = false →
  decides (applyCalls strictCalls f) p = releasedPolicy true sites p.
Proof using filesLoad H0 H1 H2.
  intros Ha Hp Hh. rewrite verdict_lastMatch; [|by rewrite calls_active|by rewrite calls_prioritized|].
  2:{ rewrite calls_untouched; [done|done|anchors|done]. }
  unfold lastMatch, releasedPolicy. set (l := strictCalls).
  rewrite (calls_exact l f allowLoopback true), (calls_exact l f allowPIA false), (calls_exact l f blockDNS false),
    (calls_exact l f allowLAN false), (calls_exact l f allowDHCP false), (calls_exact l f blockIPv6 true),
    (calls_exact l f allowVPN false), (calls_exact l f blockNets false), (calls_exact l f allowNets false),
    (calls_exact l f blockAll true) by (done || anchors).
  cbn [andb]. by destruct (onLoopback p), (inet6 p).
Qed.

Lemma blockedSitesCalls_policy f p sites :
  active f = true → prioritized f = true → loaded f allowHnsd = false → plainEntries sites →
  decides (applyCalls (blockedSitesCalls sites) f) p = releasedPolicy false sites p.
Proof using filesLoad H0 H1 H2.
  intros Ha Hp Hh Hplain. rewrite verdict_lastMatch; [|by rewrite calls_active|by rewrite calls_prioritized|].
  2:{ rewrite calls_untouched; [done|done|anchors|done]. }
  unfold lastMatch, releasedPolicy. set (l := blockedSitesCalls sites).
  rewrite (calls_exact l f allowLoopback true), (calls_exact l f allowPIA false), (calls_exact l f blockDNS false),
    (calls_exact l f allowLAN false), (calls_exact l f allowDHCP false), (calls_exact l f blockIPv6 false),
    (calls_exact l f allowVPN true), (calls_exact l f blockNets true), (calls_exact l f allowNets false),
    (calls_exact l f blockAll false) by (done || anchors).
  rewrite (calls_table l f blockNets "blocknets" sites); [|done|anchors|done|done].
  cbn [andb]. by destruct (onLoopback p), (overTunnel p), (coveredBy covers sites p).
Qed.
End packets.
End protection.

(** ** Properties *)

Section properties.
Context `{HostAddressText, FirewallLaws F} {S : Type} `{SettingsStore S}.
Context {A : Type} (covers : string → A → bool) (debug : bool).
Context (before : packet A → action) (after : packet A → option action).
Implicit Types (k : killSwitch F S) (p : packet A).


(** C4: when the rule files can be loaded, the rules of a confirmed connection decide
    every packet as the policy of the connection says, for each of the three modes
    of split tunnelling. *)
Theorem protection_policy k config k' p :
  (∀ a, a ∈ serviceAnchors → loads a = true) →
  setConnectionProtection k true config = (true, k') → loaded (firewall k) allowHnsd = false →
  Forall (λ e, containsChar newline e = false) (allownetsOf config ++ blocknetsOf config ++ dnsServersOf config) →
  verdict covers debug (firewall k') before after p = connectionPolicy covers debug before config p.
Proof.
  intros Hloads Hrun Hh Hone. unfold setConnectionProtection, enableKillSwitch in Hrun. cbn [negb] in Hrun.
  destruct (configAccepted config) eqn:Hacc; [|done]. cbn [negb] in Hrun.
  rewrite protectionVerified_spec in Hrun. cbn [firewall setProtection setFirewall setAllowedRanges] in Hrun.
  apply pair_equal_spec in Hrun as [Hverified <-]. cbn [firewall setFirewall].
  set (f := fwPriority (installIfNeeded (firewall k))) in *.
  apply andb_true_iff in Hverified as [[Hact H6]%andb_true_iff Hblock].
  apply connectionCalls_policy; try done.
  - destruct (splitTunnelType config =? 1)%Z eqn:Ht; [apply orb_true_r|]. rewrite orb_false_r.
    by rewrite (calls_exact Hloads _ _ _ (blocksAll config)) in Hblock
      by first [apply connectionCalls_known|done|by refine (bool_decide_unpack _ _)].
  - by rewrite calls_active in Hact by apply connectionCalls_known.
  - apply priority_prioritized.
  - unfold f. rewrite priority_loaded by (refine (bool_decide_unpack _ _); done).
    apply installIfNeeded_off; [by refine (bool_decide_unpack _ _)|done].
Qed.

(** C32: releasing the protection always succeeds.  In the strict mode only the
    loopback interface is left; otherwise the sites that must stay blocked are
    blocked outside the tunnel and everything else is left to the rules of the
    system; and without such sites the firewall is uninstalled. *)
Theorem release_policy k config p :
  (∀ a, a ∈ serviceAnchors → loads a = true) →
  active (firewall k) = true → prioritized (firewall k) = true → loaded (firewall k) allowHnsd = false →
  plainEntries (alwaysBlockedSites k) →
  let r := setConnectionProtection k false config in
  r.1 = true ∧ connectionProtection r.2 = false ∧
  verdict covers debug (firewall r.2) before after p =
    if negb (switchIsStrict k) && bool_decide (alwaysBlockedSites k = []) then default (before p) (after p)
    else releasedPolicy covers before (switchIsStrict k) (alwaysBlockedSites k) p.
Proof.
  intros Hloads Ha Hp Hh Hplain r. unfold r, setConnectionProtection, disableKillSwitch.
  cbn [negb setProtection connectionProtection alwaysBlockedSites].
  change (switchIsStrict (setProtection k false)) with (switchIsStrict k).
  destruct (switchIsStrict k); [|destruct (alwaysBlockedSites k) as [|e sites] eqn:Hs]; cbn [alwaysBlockedSites negb andb fst snd].
  - split_and!; [done..|]. by apply strictCalls_policy.
  - split_and!; [done..|]. cbn. unfold verdict. by rewrite uninstall_active.
  - split_and!; [done..|]. unfold applyAlwaysBlockedSites.
    cbn [firewall setAllowedRanges setFirewall alwaysBlockedSites setProtection]. rewrite Hs.
    rewrite installIfNeeded_active by done. apply blockedSitesCalls_policy; [done| | | |done].
    + by rewrite priority_active.
    + apply priority_prioritized.
    + by rewrite priority_loaded by (refine (bool_decide_unpack _ _); done).
Qed.
End properties.

(** ** Witnesses *)

#[local] Instance sampleStore : SettingsStore (secureQSettings unit) :=
  @secureStore unit sampleKeychain sampleCodec true.

#[local] Existing Instance quadText.

Definition sampleSwitch : killSwitch modelPf (secureQSettings unit) :=
  (init (Settings ∅ ∅ "" "" false tt) (ModelPf false false false [] ∅)).2.

Definition sampleConfig : QJsonObject :=
  <["vpnServer" := JString "203.0.113.10"]> (<["dns1" := JString "1.1.1.1"]>
  (<["splitTunnelType" := JNumber 2]> (<["splitTunnelSites" := JArray [JString "198.51.100.2"]]> ∅))).

Definition sampleRequests : list switchOp := [AddRanges ["198.51.100.3"]; DisableSwitch; Refresh true].

(** A packet on the physical interface to an address. *)
Definition samplePacket (address : string) : packet string := Packet "en0" false Tcp 50000 address 443 [].

Definition sameText (e a : string) : bool := bool_decide (e = a).

Definition protectedSwitch : killSwitch modelPf (secureQSettings unit) :=
  (setConnectionProtection sampleSwitch true sampleConfig).2.

Lemma protectedSwitch_confirmed : setConnectionProtection sampleSwitch true sampleConfig = (true, protectedSwitch).
Proof. vm_compute. reflexivity. Qed.


Lemma protection_policy_witness :
  verdict sameText false (firewall protectedSwitch) (λ _, Pass) (λ _, Some Pass) (samplePacket "8.8.8.8") = Block.
Proof.
  rewrite (protection_policy sameText false (λ _, Pass) (λ _, Some Pass) sampleSwitch sampleConfig protectedSwitch).
  - vm_compute. reflexivity.
  - intros a _. reflexivity.
  - exact protectedSwitch_confirmed.
  - vm_compute. reflexivity.
  - repeat constructor.
Defined.

Lemma release_policy_witness :
  verdict sameText false (firewall (setConnectionProtection protectedSwitch false ∅).2) (λ _, Pass) (λ _, None)
    (samplePacket "8.8.8.8") = Pass.
Proof.
  destruct (release_policy sameText false (λ _, Pass) (λ _, None) protectedSwitch ∅ (samplePacket "8.8.8.8"))
    as (_ & _ & Hv).
  - intros a _. reflexivity.
  - vm_compute. reflexivity.
  - vm_compute. reflexivity.
  - vm_compute. reflexivity.
  - vm_compute. constructor.
  - etransitivity; [exact Hv|]. vm_compute. reflexivity.
Defined.
