(* ===== verification/KillSwitchCommands.v ===== *)
(** * The commands that run as root

    The kill switch on top of the firewall of macOS, with a shell that records what
    it is asked to run and answers anything.  The service runs as root and takes its
    requests from a local socket, so what matters is that no text of a request
    reaches the shell but validated addresses. *)

From Stdlib Require Import Ascii.
From S2P Require Import Prelude QtCore Regex Variant NetworkUtilities SecureSettings AppSettings.
From S2P Require Import PacketFilter Firewall MacFirewall KillSwitch.
From stdpp Require Import options.

#[local] Set Default Proof Using "Type*".

(** A shell that records the commands; [answers] gives the exit codes. *)
Definition recorder (answers : list string → string → Z) : Shell (list string) :=
  λ command history, (answers history command, history ++ [command]).

(** The commands that may run: those whose text is fixed by the build, and those that
    fill one of the three tables with words of digits, dots, slashes and line
    breaks. *)
Inductive rootCommand `{Installation} : string → Prop :=
  | root_housekeeping c : c ∈ housekeeping → rootCommand c
  | root_token : rootCommand tokenHeld
  | root_present : rootCommand rootAnchorPresent
  | root_last : rootCommand moveAnchorLast
  | root_load a : a ∈ rootAnchors → rootCommand (loadAnchor a)
  | root_flush a : a ∈ rootAnchors → rootCommand (flushAnchor a)
  | root_ask a : a ∈ rootAnchors → rootCommand (anchorPresent a)
  | root_kill a t : (a, t) ∈ knownTables → rootCommand (killTable a t)
  | root_fill a t items : (a, t) ∈ knownTables → Forall (λ e, allChars cidrChar e = true) items →
      rootCommand (replaceTable a t items).

Section commands.
Context `{HostAddressText, Installation} {S : Type} `{SettingsStore S}.
Context (answers : list string → string → Z).

#[local] Instance recording : Shell (list string) := recorder answers.

Local Notation switch := (killSwitch (list string) S).
Local Notation safe := (Forall rootCommand).

Lemma execute_safe c h : safe h → rootCommand c → safe (execute c h).2.
Proof. intros Hh Hc. cbn. apply Forall_app. by split; [|constructor]. Qed.

Lemma housekeeping_safe i c h : housekeeping !! i = Some c → safe h → safe (execute c h).2.
Proof. intros Hi Hh. apply execute_safe; [done|]. apply root_housekeeping. by eapply list_elem_of_lookup_2. Qed.

Lemma uninstall_safe h : safe h → safe (uninstall h).
Proof.
  intros Hh. unfold uninstall. destruct isDefaultApplication.
  - by apply (housekeeping_safe 3), (housekeeping_safe 2), (housekeeping_safe 1).
  - by apply (housekeeping_safe 2), (housekeeping_safe 1).
Qed.

Lemma install_safe h : safe h → safe (install h).
Proof.
  intros Hh. unfold install, installRootAnchors.
  apply (housekeeping_safe 6), (housekeeping_safe 5), (housekeeping_safe 4); try done.
  by apply uninstall_safe, (housekeeping_safe 0).
Qed.

Lemma isInstalled_safe h : safe h → safe (isInstalled h).2.
Proof.
  intros Hh. pose proof (execute_safe tokenHeld h Hh root_token) as Ht.
  unfold isInstalled, isPFEnabled, isRootAnchorLoaded. destruct (execute tokenHeld h) as [e h'].
  pose proof (execute_safe rootAnchorPresent h' Ht root_present) as Hr. destruct (0 =? e)%Z; [|done].
  by destruct (execute rootAnchorPresent h').
Qed.

Lemma isAnchorEnabled_safe a h : a ∈ rootAnchors → safe h → safe (isAnchorEnabled a h).2.
Proof.
  intros Ha Hh. pose proof (execute_safe (anchorPresent a) h Hh (root_ask a Ha)). unfold isAnchorEnabled.
  by destruct (execute (anchorPresent a) h).
Qed.

Lemma prepare_safe h : safe h → safe (fwPriority (installIfNeeded h)).
Proof.
  intros Hh. apply execute_safe; [|exact root_last]. unfold installIfNeeded. cbn [fwInstalled fwInstall macFirewall].
  pose proof (isInstalled_safe h Hh). destruct (isInstalled h) as [[] h']; [done|by apply install_safe].
Qed.

(** The calls of the kill switch to the firewall. *)
Definition safeCall (c : firewallCall) : Prop :=
  match c with
  | Anchor a _ => a ∈ rootAnchors
  | AnchorTable a b t items => (a, t) ∈ knownTables ∧ (b = true → Forall (λ e, allChars cidrChar e = true) items)
  end.

Lemma applyCalls_safe l h : Forall safeCall l → safe h → safe (applyCalls l h).
Proof.
  intros Hl. revert h. induction Hl as [|c l Hc Hl IH]; intros h Hh; [done|]. apply IH.
  destruct c as [a []|a [] t items].
  - apply (execute_safe (loadAnchor a)); [done|by apply root_load].
  - apply (execute_safe (flushAnchor a)); [done|by apply root_flush].
  - destruct Hc as [Ht Hi]. apply (execute_safe (replaceTable a t items)); [done|apply root_fill; auto].
  - destruct Hc as [Ht _]. apply (execute_safe (killTable a t)); [done|by apply root_kill].
Qed.

Lemma knownCalls_safe l :
  forallb knownCall l = true →
  Forall (λ c, match c with AnchorTable _ true _ items => forallb isValidIpOrCidr items = true | _ => True end) l →
  Forall safeCall l.
Proof.
  intros Hl Hv. apply Forall_forall. intros c Hc. rewrite forallb_forall in Hl.
  assert (knownCall c = true) as Hk by by apply Hl, list_elem_of_In. rewrite Forall_forall in Hv. specialize (Hv c Hc).
  destruct c as [a b|a b t items]; cbn in *; reflect_bools; [done|]. split; [done|]. intros ->.
  apply Forall_forall. intros e He. rewrite forallb_forall in Hv. by apply valid_chars, Hv, list_elem_of_In.
Qed.

(** The recorded commands are allowed, and the sites to block are validated. *)
Definition recorded (k : switch) : Prop :=
  safe (firewall k) ∧ forallb isValidIpOrCidr (alwaysBlockedSites k) = true.

Lemma disableAllTraffic_safe k : recorded k → recorded (disableAllTraffic k).2.
Proof.
  intros [Hf Hs]. split; [|done]. cbn [firewall setAllowedRanges setFirewall disableAllTraffic snd].
  apply applyCalls_safe; [|by apply prepare_safe]. apply knownCalls_safe; [done|by repeat constructor].
Qed.

Lemma disableKillSwitch_safe k : recorded k → recorded (disableKillSwitch k).2.
Proof.
  intros [Hf Hs]. unfold disableKillSwitch. destruct (connectionProtection k); [done|].
  destruct (switchIsStrict k); [|destruct (alwaysBlockedSites k) as [|e sites] eqn:Hsites];
    (split; [|cbn; by rewrite ?Hsites]); cbn [snd firewall setAllowedRanges setFirewall].
  - apply applyCalls_safe; [|done]. apply knownCalls_safe; [done|by repeat constructor].
  - by apply uninstall_safe.
  - unfold applyAlwaysBlockedSites. cbn [snd firewall setAllowedRanges setFirewall]. rewrite Hsites.
    apply applyCalls_safe; [|by apply prepare_safe]. apply knownCalls_safe; [done|by repeat constructor].
Qed.

Lemma resetAllowedRange_safe k ranges : recorded k → recorded (resetAllowedRange k ranges).2.
Proof.
  intros [Hf Hs]. unfold resetAllowedRange. destruct (forallb isValidIpOrCidr ranges) eqn:Hv; [|done].
  split; [|done]. cbn [negb snd firewall setAllowedRanges setFirewall].
  apply applyCalls_safe; [|done]. apply knownCalls_safe; [done|by repeat constructor].
Qed.

Lemma enableKillSwitch_safe k config i : recorded k → recorded (enableKillSwitch k config i).2.
Proof.
  intros [Hf Hs]. unfold enableKillSwitch. destruct (configAccepted config) eqn:Hacc; [|done].
  split; [|done]. cbn [negb snd firewall setAllowedRanges setFirewall].
  apply applyCalls_safe; [|by apply prepare_safe]. apply knownCalls_safe; [done|].
  pose proof (accepted_nets config Hacc). pose proof (accepted_blocks config Hacc). pose proof (accepted_dns config Hacc).
  unfold connectionCalls. destruct (blocksAll config), (splitTunnelType config =? 1)%Z; by repeat constructor.
Qed.
Lemma protectionVerified_safe config h : safe h → safe (protectionVerified h config).2.
Proof.
  intros Hh. unfold protectionVerified. cbn [fwInstalled fwAnchorEnabled macFirewall].
  pose proof (isInstalled_safe h Hh) as Hi. destruct (isInstalled h) as [[] h1]; [|done].
  assert (blockIPv6 ∈ rootAnchors) as H6 by (by apply (bool_decide_unpack _)).
  pose proof (isAnchorEnabled_safe blockIPv6 h1 H6 Hi) as Ha. destruct (isAnchorEnabled blockIPv6 h1) as [[] h2]; [|done].
  apply isAnchorEnabled_safe; [|done]. destruct (splitTunnelType config =? 1)%Z; by apply (bool_decide_unpack _).
Qed.

Lemma setConnectionProtection_safe k enabled config : recorded k → recorded (setConnectionProtection k enabled config).2.
Proof.
  intros Hk. unfold setConnectionProtection. destruct enabled; cbn [negb]; [|by apply disableKillSwitch_safe].
  pose proof (enableKillSwitch_safe k config 0 Hk) as He. destruct (enableKillSwitch k config 0) as [[] k']; [|done].
  cbn [negb]. pose proof (protectionVerified_safe config (firewall k') (proj1 He)) as Hp.
  cbn [firewall setProtection]. destruct (protectionVerified (firewall k') config). by split; [|apply He].
Qed.

Lemma setAlwaysBlockedSites_safe k ranges : recorded k → recorded (setAlwaysBlockedSites k ranges).2.
Proof.
  intros [Hf Hs]. unfold setAlwaysBlockedSites. destruct (forallb isValidIpOrCidr ranges) eqn:Hv; [|done]. cbn [negb].
  assert (∀ h, safe h → recorded (setFirewall (setBlockedSites k ranges) h)) as Hset by by split.
  assert (recorded (setBlockedSites k ranges)) as Hk by by split.
  destruct (switchIsStrict _); [done|]. destruct (bool_decide (ranges = alwaysBlockedSites k)).
  - destruct (bool_decide (ranges = [])); [done|].
    assert (blockNets ∈ rootAnchors) as Hb by (by apply (bool_decide_unpack _)).
    cbn [fwAnchorEnabled macFirewall firewall setBlockedSites].
    pose proof (isAnchorEnabled_safe blockNets (firewall k) Hb Hf) as Ha.
    destruct (isAnchorEnabled blockNets (firewall k)) as [[] h]; [by apply Hset|].
    destruct (connectionProtection _); [by apply Hset|by apply disableKillSwitch_safe, Hset].
  - destruct (connectionProtection _); [done|by apply disableKillSwitch_safe].
Qed.

Lemma performSwitch_safe k op : recorded k → recorded (performSwitch k op).
Proof.
  intros Hk. destruct op; cbn [performSwitch]; try by auto using setConnectionProtection_safe, disableKillSwitch_safe,
    disableAllTraffic_safe, enableKillSwitch_safe, resetAllowedRange_safe, setAlwaysBlockedSites_safe.
  - unfold refresh. destruct (switchIsStrict _); [by apply disableAllTraffic_safe|by apply disableKillSwitch_safe].
  - unfold addAllowedRange. destruct (forallb isValidIpOrCidr ranges); [by apply resetAllowedRange_safe|done].
  - by apply resetAllowedRange_safe.
Qed.

(** C5: whatever the client of the service sends and whatever the commands answer,
    every command that the kill switch runs as root is one whose text the build
    fixes, or fills one of the service's tables with words made of digits, dots,
    slashes and line breaks. *)
Theorem commands_safe settings ops :
  safe (firewall (foldl performSwitch (init settings []).2 ops)).
Proof.
  assert (recorded (init settings []).2) as Hi.
  { unfold init. destruct (switchIsStrict _); [apply disableAllTraffic_safe|]; by split; [constructor|]. }
  revert Hi. generalize (init settings []).2. induction ops as [|op ops IH]; intros k Hk; [apply Hk|].
  by apply IH, performSwitch_safe.
Qed.
End commands.

(** ** Witness *)

#[local] Instance sampleStore : SettingsStore (secureQSettings unit) :=
  @secureStore unit sampleKeychain sampleCodec true.

#[local] Existing Instance quadText.

Lemma commands_safe_witness :
  Forall rootCommand (firewall (foldl (@performSwitch _ (list string) (@macFirewall _ _ (recorder (λ _ _, 1%Z))) _ _)
    (@init (list string) (@macFirewall _ _ (recorder (λ _ _, 1%Z))) _ _ (Settings ∅ ∅ "" "" false tt) []).2
    (Protect sampleConfig :: sampleRequests))).
Proof. apply (commands_safe (λ _ _, 1%Z)). Defined.
