(* ===== verification/WireguardMac.v ===== *)
(** * WireGuard on macOS ([platforms/macos/daemon/wireguardutilsmacos.cpp])

    What answers the daemon's requests on macOS: a backend process that creates the
    interface and is configured over a socket with lines of text (the UAPI), the
    monitor of the routing table, and the firewall rules that come with an
    interface.  The process, its socket and the monitor are the class [Backend]; the
    firewall and the kill switch are the ones of [KillSwitch], so that the theorems
    can say what bringing an interface up and down does to the protection of a
    connection, and which commands it runs as root. *)

From Stdlib Require Import Ascii.
From S2P Require Import Prelude QtCore Regex Variant NetworkUtilities IpAddress SecureSettings AppSettings.
From S2P Require Import InterfaceConfig Daemon PacketFilter Firewall MacFirewall KillSwitch KillSwitchCommands.
From stdpp Require Import options.
#[local] Open Scope Z_scope.

#[local] Set Default Proof Using "Type*".

(** ** Keys in hexadecimal *)

Definition hexChar (n : N) : ascii := ascii_of_N (if (n <? 10)%N then n + 48 else n + 87)%N.

(** [QByteArray::toHex]. *)
Fixpoint toHex (s : string) : string :=
  match s with
  | EmptyString => EmptyString
  | String c s => String (hexChar (code c / 16)) (String (hexChar (code c mod 16)) (toHex s))
  end.

Definition hexValue (c : ascii) : option N :=
  let n := code c in
  if ((48 <=? n) && (n <=? 57))%N then Some (n - 48)%N
  else if ((97 <=? n) && (n <=? 102))%N then Some (n - 87)%N
  else if ((65 <=? n) && (n <=? 70))%N then Some (n - 55)%N
  else None.

Fixpoint hexValues (s : string) : list N :=
  match s with
  | EmptyString => []
  | String c s => match hexValue c with Some n => n :: hexValues s | None => hexValues s end
  end.

(** The digits from the last to the first, two to a byte; the bytes are collected
    in front of [acc]. *)
Fixpoint pairDigits (digits : list N) (acc : string) : string :=
  match digits with
  | [] => acc
  | [low] => String (ascii_of_N low) acc
  | low :: high :: digits => pairDigits digits (String (ascii_of_N (high * 16 + low)) acc)
  end.

(** [QByteArray::fromHex]: other characters are skipped. *)
Definition fromHex (s : string) : string := pairDigits (rev (hexValues s)) "".

(** [QByteArray::toBase64], which [fromBase64] undoes; the empty text is the empty
    array. *)
Class Base64Text `{Base64} := {
  toBase64 : string → string;
  fromBase64_toBase64 b : fromBase64 (toBase64 b) = b;
  fromBase64_nil : fromBase64 "" = "";
}.

(** [QString::toDouble], converted to [qint64]; doubles have 53 bits. *)
Class DoubleText := {
  toDouble : string → Z;
  toDouble_pretty n : 0 ≤ n ≤ 2 ^ 53 → toDouble (pretty n) = n;
}.

Definition qint64 (z : Z) : Z := (z + 2 ^ 63) mod 2 ^ 64 - 2 ^ 63.

(** [QString::toLongLong]: zero for what is not a number of 64 bits. *)
Definition toLongLong (s : string) : Z :=
  let value (sign : Z) (digits : string) : Z :=
    match digits with
    | EmptyString => 0
    | _ => match digitsValue 0 digits with
           | Some v => if (- 2 ^ 63 <=? sign * v) && (sign * v <? 2 ^ 63) then sign * v else 0
           | None => 0
           end
    end in
  match trimmed s with
  | EmptyString => 0
  | String c t =>
      if eqChar c "-" then value (-1) t else if eqChar c "+" then value 1 t else value 1 (String c t)
  end.

(** ** Lines of the UAPI *)

Definition newlineText : string := String newline "".

Definition fieldLine (field : string * string) : string := field.1 +:+ "=" +:+ field.2.

Definition uapiText (fields : list (string * string)) : string :=
  foldr (λ f text, fieldLine f +:+ newlineText +:+ text) "" fields.

(** A line taken apart at its first [=], which must not be the first character. *)
Definition lineField (line : string) : option (string * string) :=
  match indexOfFirst line "=" with
  | None | Some O => None
  | Some eq => Some (leftPart eq line, midFrom (S eq) line)
  end.

Definition EINVAL : Z := 22.

(** [uapiErrno]: a number that cannot be read counts as zero. *)
Fixpoint errnoOf (lines : list string) : Z :=
  match lines with
  | [] => EINVAL
  | line :: lines =>
      match lineField line with
      | Some (name, value) => if bool_decide (name = "errno") then default 0 (toInt value) else errnoOf lines
      | None => errnoOf lines
      end
  end.

Definition uapiErrno (reply : string) : Z := errnoOf (splitChar newline reply).

Definition textEndsWith (s suffix : string) : bool :=
  (String.length suffix <=? String.length s)%nat &&
  bool_decide (midFrom (String.length s - String.length suffix) s = suffix).

(** The loop that ends a message with an empty line; two rounds are enough. *)
Fixpoint endMessage (fuel : nat) (message : string) : option string :=
  if textEndsWith message (newlineText +:+ newlineText) then Some message
  else match fuel with
       | O => None
       | S fuel => endMessage fuel (message +:+ newlineText)
       end.

(** The loop that collects the reply from what arrives before the timer ends;
    [None] is the null string of a timeout. *)
Fixpoint collectReply (reply : string) (arrivals : list string) : option string :=
  if contains reply (newlineText +:+ newlineText) then Some reply
  else match arrivals with
       | [] => None
       | chunk :: arrivals => collectReply (reply +:+ chunk) arrivals
       end.

(** ** Status of the peers *)

Section status.
Context `{Base64Text, DoubleText}.

Definition normalizeUapiPublicKey (value : string) : string :=
  let hexKey := fromHex value in
  if (String.length hexKey =? 32)%nat then toBase64 hexKey
  else
    let base64Key := fromBase64 value in
    if (String.length base64Key =? 32)%nat then toBase64 base64Key else trimmed value.

(** The status being read and the finished ones, after a field. *)
Definition statusField (st : PeerStatus * list PeerStatus) (field : string * string) : PeerStatus * list PeerStatus :=
  let '(name, value) := field in
  let '(status, peerList) := st in
  if bool_decide (name = "public_key") then
    (Peer (normalizeUapiPublicKey value) 0 0 0,
     if isEmpty (pubkey status) then peerList else peerList ++ [status])
  else if bool_decide (name = "tx_bytes") then
    (Peer (pubkey status) (handshake status) (rxBytes status) (toDouble value), peerList)
  else if bool_decide (name = "rx_bytes") then
    (Peer (pubkey status) (handshake status) (toDouble value) (txBytes status), peerList)
  else if bool_decide (name = "last_handshake_time_sec") then
    (Peer (pubkey status) (qint64 (handshake status + qint64 (toLongLong value * 1000)))
       (rxBytes status) (txBytes status), peerList)
  else if bool_decide (name = "last_handshake_time_nsec") then
    (Peer (pubkey status) (qint64 (handshake status + Z.quot (toLongLong value) 1000000))
       (rxBytes status) (txBytes status), peerList)
  else st.

Definition statusLine (st : PeerStatus * list PeerStatus) (line : string) : PeerStatus * list PeerStatus :=
  match lineField line with None => st | Some field => statusField st field end.

Definition peerStatuses (reply : string) : list PeerStatus :=
  let '(status, peerList) := foldl statusLine (Peer "" 0 0 0, []) (splitChar newline reply) in
  if isEmpty (pubkey status) then peerList else peerList ++ [status].
End status.

(** ** The configuration as text *)

(** [InterfaceConfig::awgBoolToUapi]. *)
Definition awgBoolToUapi (value : string) : string :=
  if bool_decide (toLower (trimmed value) ∈ ["on"; "1"; "true"; "t"; "yes"]) then "1" else "0".

Definition backendExecutableName (config : InterfaceConfig) : string :=
  if bool_decide (protocolName config = "wireguard") then "wireguard-go" else "amneziawg-go".

Section messages.
Context `{HostAddressText, SubnetText, Base64}.

Definition awgText (config : InterfaceConfig) (key : string) : string := default "" (awgParameters config !! key).

(** A parameter that is set, under its name in the UAPI. *)
Definition awgField (config : InterfaceConfig) (convert : string → string) (field : string * string) :
    list (string * string) :=
  let value := awgText config field.2 in
  if isEmpty value then [] else [(field.1, convert value)].

Definition packetParameters : list (string * string) :=
  [("jc", "Jc"); ("jmin", "Jmin"); ("jmax", "Jmax"); ("s1", "S1"); ("s2", "S2"); ("s3", "S3"); ("s4", "S4");
   ("h1", "H1"); ("h2", "H2"); ("h3", "H3"); ("h4", "H4")].

Definition timeParameters : list (string * string) :=
  [("content_padding_addition", "ContentPaddingAddition"); ("rekey_after_time", "RekeyAfterTime");
   ("rekey_timeout", "RekeyTimeout"); ("reject_after_time", "RejectAfterTime");
   ("keepalive_timeout", "KeepaliveTimeout"); ("max_handshake_attempts", "MaxHandshakeAttempts")].

(** The special packets are a map of their own, in the order of its keys. *)
Definition specialJunk (config : InterfaceConfig) : list (string * string) :=
  omap (λ key, (λ value, (toLower key, value)) <$> awgParameters config !! key) ["I1"; "I2"; "I3"; "I4"; "I5"].

Definition interfaceFields (config : InterfaceConfig) : list (string * string) :=
  [("set", "1"); ("private_key", toHex (fromBase64 (privateKey config))); ("replace_peers", "true")] ++
  concat (awgField config id <$> packetParameters) ++
  specialJunk config ++
  awgField config (λ key, toHex (fromBase64 key)) ("header_protection_key", "HeaderProtectionKey") ++
  concat (awgField config id <$> timeParameters) ++
  awgField config awgBoolToUapi ("random_trailers", "RandomTrailers") ++
  awgField config awgBoolToUapi ("disable_cookies", "DisableCookies").

(** [IPAddress::toString]. *)
Definition rangeText (ip : IPAddress) : string := printHost (IpAddress.address ip) +:+ "/" +:+ pretty (prefixLength ip).

(** [None]: there is no endpoint. *)
Definition endpointText (config : InterfaceConfig) : option string :=
  match serverIpv4AddrIn config, serverIpv6AddrIn config with
  | Some a, _ => Some (a +:+ ":" +:+ pretty (serverPort config))
  | None, Some a => Some ("[" +:+ a +:+ "]:" +:+ pretty (serverPort config))
  | None, None => None
  end.

Definition peerFields (config : InterfaceConfig) (endpoint : string) : list (string * string) :=
  [("set", "1"); ("public_key", toHex (fromBase64 (serverPublicKey config)))] ++
  match serverPskKey config with Some key => [("preshared_key", toHex (fromBase64 key))] | None => [] end ++
  [("endpoint", endpoint); ("replace_allowed_ips", "true")] ++
  (if isEmpty (persistentKeepalive config) then []
   else [("persistent_keepalive_interval", persistentKeepalive config)]) ++
  ((λ ip, ("allowed_ip", rangeText ip)) <$> allowedIPAddressRanges config).

Definition removalFields (config : InterfaceConfig) : list (string * string) :=
  [("set", "1"); ("public_key", toHex (fromBase64 (serverPublicKey config))); ("remove", "true")].

(** *** The rules of an interface *)

Record FirewallParams := Params {
  dnsServers : list string;
  allowAddrs : list string;
  blockAddrs : list string;
  paramBlockAll : bool;
  paramBlockNets : bool;
  paramAllowNets : bool;
}.

Definition dnsOf (config : InterfaceConfig) : list string :=
  primaryDnsServer config ::
  (if isEmpty (secondaryDnsServer config) then [] else [secondaryDnsServer config]).

(** All traffic goes through the tunnel. *)
Definition fullTunnel (config : InterfaceConfig) : bool :=
  bool_decide (ofText "0.0.0.0/0" ∈ allowedIPAddressRanges config).

Definition firewallParams (config : InterfaceConfig) : FirewallParams :=
  if fullTunnel config then
    Params (dnsOf config) (excludedAddresses config) [] true false
      (negb (bool_decide (excludedAddresses config = [])))
  else Params (dnsOf config) [] (rangeText <$> allowedIPAddressRanges config) false true false.

Definition interfaceCalls (params : FirewallParams) : list firewallCall :=
  [Anchor allowLoopback true; Anchor blockAll (paramBlockAll params); Anchor allowNets (paramAllowNets params);
   AnchorTable allowNets (paramAllowNets params) "allownets" (allowAddrs params);
   Anchor blockNets (paramBlockNets params);
   AnchorTable blockNets (paramBlockNets params) "blocknets" (blockAddrs params);
   Anchor allowVPN true; Anchor blockIPv6 true; Anchor allowDHCP true; Anchor allowLAN true;
   Anchor blockDNS true; AnchorTable blockDNS true "dnsaddr" (dnsServers params)].
End messages.

(** ** The surroundings *)

Inductive ProcessState := NotRunning | Starting | Running.

#[export] Instance ProcessState_eq_dec : EqDecision ProcessState.
Proof. solve_decision. Defined.

(** The requests to [MacosRouteMonitor], and its construction and destruction. *)
Inductive monitorCall :=
  | NewMonitor (name : string)
  | DropMonitor
  | InsertRoute (prefix : IPAddress) (reject : bool)
  | DeleteRoute (prefix : IPAddress)
  | MonitorExclude (prefix : IPAddress)
  | MonitorInclude (prefix : IPAddress).

(** The backend process, its files and sockets, and the route monitor.  [nameRounds]
    are the rounds of the wait for the name while the process runs and the timer is
    active: the first line of the name file, when it can be opened, and whether the
    socket of that name accepts a connection.  [readUapi] is what arrives on the
    socket before its timer ends. *)
Class Backend (W : Type) := {
  tunnelState : W → ProcessState;
  backendExists : string → W → bool;
  startTunnel : string → W → bool * W;
  killTunnel : W → W;
  terminateTunnel : W → bool * W;
  nameRounds : W → list (option (string * bool)) * W;
  connectUapi : string → W → bool * W;
  writeUapi : string → W → bool * W;
  readUapi : W → list string * W;
  monitor : monitorCall → W → bool * W;
}.

(** [WireguardUtilsMacos], with the kill switch of its process. *)
Record wireguardUtils (W F S : Type) := Utils {
  ifname : option string;
  rtmonitor : bool;
  backend : W;
  switch : killSwitch F S;
}.
Arguments Utils {W F S}.
Arguments ifname {W F S}.
Arguments rtmonitor {W F S}.
Arguments backend {W F S}.
Arguments switch {W F S}.

(** Operations over a state. *)
Definition stateful (U A : Type) : Type := U → A * U.

#[export] Instance stateful_ret U : MRet (stateful U) := λ A a u, (a, u).
#[export] Instance stateful_bind U : MBind (stateful U) := λ A B f p u, let '(a, u) := p u in f a u.

Definition getState {U} : stateful U U := λ u, (u, u).
Definition putState {U} (f : U → U) : stateful U unit := λ u, (tt, f u).

Section operations.
Context `{HostAddressText, SubnetText, Base64Text, DoubleText, Firewall F, Backend W} {S : Type} `{SettingsStore S}.

Notation utils := (wireguardUtils W F S).
Notation operation := (stateful utils).

Definition onBackend {A} (f : W → A * W) : operation A :=
  λ u, let '(a, w) := f (backend u) in (a, Utils (ifname u) (rtmonitor u) w (switch u)).
Definition onSwitch {A} (f : killSwitch F S → A * killSwitch F S) : operation A :=
  λ u, let '(a, k) := f (switch u) in (a, Utils (ifname u) (rtmonitor u) (backend u) k).
Definition onFirewall {A} (f : F → A * F) : operation A :=
  onSwitch (λ k, let '(a, g) := f (firewall k) in (a, setFirewall k g)).
Definition toFirewall (f : F → F) : operation unit := onFirewall (λ g, (tt, f g)).
Definition setIfname (name : option string) : operation unit :=
  putState (λ u, Utils name (rtmonitor u) (backend u) (switch u)).
Definition setMonitor (b : bool) : operation unit :=
  putState (λ u, Utils (ifname u) b (backend u) (switch u)).

Definition interfaceExists : operation bool :=
  u ← getState; mret (bool_decide (tunnelState (backend u) = Running)).

Definition interfaceName : operation string := u ← getState; mret (default "" (ifname u)).

(** *** The socket of the backend *)

Definition uapiCommand (command : string) : operation string :=
  u ← getState;
  connected ← onBackend (connectUapi (default "" (ifname u) +:+ ".sock"));
  if negb (connected : bool) then mret ""
  else
    match endMessage 2 command with
    | None => mret ""
    | Some message =>
        written ← onBackend (writeUapi message);
        if negb (written : bool) then mret ""
        else
          arrivals ← onBackend readUapi;
          mret (trimmed (default "" (collectReply "" arrivals)))
    end.

Fixpoint tunnelNameLoop (rounds : list (option (string * bool))) : option string :=
  match rounds with
  | [] => None
  | Some (line, true) :: _ => Some (trimmed line)
  | _ :: rounds => tunnelNameLoop rounds
  end.

Definition waitForTunnelName : operation (option string) :=
  rounds ← onBackend nameRounds; mret (tunnelNameLoop rounds).

(** *** Interfaces *)

Definition deleteInterface : operation bool :=
  u ← getState;
  (if rtmonitor u then onBackend (monitor DropMonitor);; setMonitor false else mret tt);;
  u ← getState;
  if bool_decide (tunnelState (backend u) = NotRunning) then mret false
  else
    finished ← onBackend terminateTunnel;
    (if (finished : bool) then mret tt else onBackend (λ w, (tt, killTunnel w)));;
    onSwitch disableKillSwitch;;
    mret true.

Definition applyFirewallRules (params : FirewallParams) : operation unit :=
  toFirewall installIfNeeded;;
  toFirewall fwPriority;;
  toFirewall (applyCalls (interfaceCalls params)).

(** The two queries of the check are joined by [||] of their negations. *)
Definition ipv6Blocked (f : F) : bool * F :=
  let '(installed, f) := fwInstalled f in
  if installed then fwAnchorEnabled blockIPv6 f else (false, f).

(** The parts of [addInterface] that follow an accepted configuration: IPv6 is
    blocked and the block is checked, and the rules of the interface are set. *)
Definition blockTrafficIPv6 : operation bool :=
  toFirewall installIfNeeded;;
  toFirewall fwPriority;;
  toFirewall (fwSetAnchor blockIPv6 true);;
  onFirewall ipv6Blocked.

Definition interfaceRules (config : InterfaceConfig) : operation unit :=
  if killSwitchEnabled config then
    let params := firewallParams config in
    (if paramAllowNets params then onSwitch (λ k, resetAllowedRange k (allowAddrs params));; mret tt
     else mret tt);;
    applyFirewallRules params
  else mret tt.

Definition protectInterface (config : InterfaceConfig) : operation bool :=
  blocked ← blockTrafficIPv6;
  if negb (blocked : bool) then deleteInterface;; mret false
  else interfaceRules config;; mret true.

Definition addInterface (config : InterfaceConfig) : operation bool :=
  u ← getState;
  if negb (bool_decide (tunnelState (backend u) = NotRunning)) then mret false
  else if negb (backendExists (backendExecutableName config) (backend u)) then mret false
  else
    started ← onBackend (startTunnel (backendExecutableName config));
    if negb (started : bool) then onBackend (λ w, (tt, killTunnel w));; mret false
    else
      name ← waitForTunnelName;
      setIfname name;;
      match name with
      | None => onBackend (λ w, (tt, killTunnel w));; mret false
      | Some name =>
          onBackend (monitor (NewMonitor name));;
          setMonitor true;;
          reply ← uapiCommand (uapiText (interfaceFields config));
          if negb (uapiErrno reply =? 0) then mret false else protectInterface config
      end.

(** *** Peers *)

(** The exclusion of the server's addresses, or its end. *)
Definition serverRoutes (config : InterfaceConfig) (call : IPAddress → monitorCall) : operation unit :=
  u ← getState;
  if negb (bool_decide (hopType config = MultiHopExit)) && rtmonitor u then
    (if isEmpty (default "" (serverIpv4AddrIn config)) then mret tt
     else onBackend (monitor (call (ofText (default "" (serverIpv4AddrIn config)))));; mret tt);;
    (if isEmpty (default "" (serverIpv6AddrIn config)) then mret tt
     else onBackend (monitor (call (ofText (default "" (serverIpv6AddrIn config)))));; mret tt)
  else mret tt.

Definition updatePeer (config : InterfaceConfig) : operation bool :=
  match endpointText config with
  | None => mret false
  | Some endpoint =>
      serverRoutes config MonitorExclude;;
      reply ← uapiCommand (uapiText (peerFields config endpoint));
      mret (uapiErrno reply =? 0)
  end.

Definition deletePeer (config : InterfaceConfig) : operation bool :=
  serverRoutes config MonitorInclude;;
  reply ← uapiCommand (uapiText (removalFields config));
  mret (uapiErrno reply =? 0).

Definition getPeerStatus : operation (list PeerStatus) :=
  reply ← uapiCommand "get=1"; mret (peerStatuses reply).

(** *** Routes *)

Definition withMonitor (p : operation bool) : operation bool :=
  u ← getState; if rtmonitor u then p else mret false.

(** Both halves; the second one only when the first succeeded. *)
Definition bothHalves (call : IPAddress → monitorCall) (lower upper : string) : operation bool :=
  ok ← onBackend (monitor (call (ofText lower)));
  if (ok : bool) then onBackend (monitor (call (ofText upper))) else mret false.

Definition routePrefix (call : IPAddress → monitorCall) (prefix : IPAddress) : operation bool :=
  withMonitor
    (if 0 <? prefixLength prefix then onBackend (monitor (call prefix))
     else match protocol (IpAddress.address prefix) with
          | IPv4Protocol => bothHalves call "0.0.0.0/1" "128.0.0.0/1"
          | IPv6Protocol => bothHalves call "::/1" "8000::/1"
          | UnknownNetworkLayerProtocol => mret false
          end).

Definition updateRoutePrefix : IPAddress → operation bool := routePrefix (λ ip, InsertRoute ip false).
Definition deleteRoutePrefix : IPAddress → operation bool := routePrefix DeleteRoute.

Definition addExclusionRoute (prefix : IPAddress) : operation bool :=
  withMonitor (onBackend (monitor (MonitorExclude prefix))).
Definition deleteExclusionRoute (prefix : IPAddress) : operation bool :=
  withMonitor (onBackend (monitor (MonitorInclude prefix))).

Fixpoint rejectAll (routes : list IPAddress) (result : bool) : operation bool :=
  match routes with
  | [] => mret result
  | prefix :: routes =>
      ok ← onBackend (monitor (InsertRoute prefix true));
      rejectAll routes (if (ok : bool) then result else false)
  end.

Definition excludeLocalNetworks (routes : list IPAddress) : operation bool := withMonitor (rejectAll routes true).

(** *** Requests of the service *)

(** The daemon's requests, and those of the service to the kill switch. *)
Inductive serviceCall :=
  | WgAddInterface (config : InterfaceConfig)
  | WgDeleteInterface
  | WgUpdatePeer (config : InterfaceConfig)
  | WgDeletePeer (config : InterfaceConfig)
  | WgPeerStatus
  | WgUpdateRoute (prefix : IPAddress)
  | WgDeleteRoute (prefix : IPAddress)
  | WgAddExclusion (prefix : IPAddress)
  | WgDeleteExclusion (prefix : IPAddress)
  | WgExcludeLocal (routes : list IPAddress)
  | SwitchRequest (op : switchOp).

Definition performService (u : utils) (c : serviceCall) : utils :=
  match c with
  | WgAddInterface config => (addInterface config u).2
  | WgDeleteInterface => (deleteInterface u).2
  | WgUpdatePeer config => (updatePeer config u).2
  | WgDeletePeer config => (deletePeer config u).2
  | WgPeerStatus => (getPeerStatus u).2
  | WgUpdateRoute prefix => (updateRoutePrefix prefix u).2
  | WgDeleteRoute prefix => (deleteRoutePrefix prefix u).2
  | WgAddExclusion prefix => (addExclusionRoute prefix u).2
  | WgDeleteExclusion prefix => (deleteExclusionRoute prefix u).2
  | WgExcludeLocal routes => (excludeLocalNetworks routes u).2
  | SwitchRequest op => (onSwitch (λ k, (tt, performSwitch k op)) u).2
  end.
End operations.

Notation operationOf W F S := (stateful (wireguardUtils W F S)).

(** ** What operations do to the kill switch *)

Section preservation.
Context {W F S : Type}.
Implicit Types (u : wireguardUtils W F S) (J : killSwitch F S → Prop).

Definition preserves {A} J (p : operationOf W F S A) : Prop := ∀ u, J (switch u) → J (switch (p u).2).

Lemma preserves_ret {A} J (a : A) : preserves J (mret a).
Proof. by intros u. Qed.

Lemma preserves_bind {A B} J (p : operationOf W F S A) (f : A → operationOf W F S B) :
  preserves J p → (∀ a, preserves J (f a)) → preserves J (p ≫= f).
Proof.
  intros Hp Hf u Hu. specialize (Hp u Hu). unfold mbind, stateful_bind.
  destruct (p u) as [a u']. by apply Hf.
Qed.

Lemma preserves_get J : preserves J getState.
Proof. by intros u. Qed.

Lemma preserves_backend {A} J (f : W → A * W) : preserves J (onBackend f).
Proof. intros u. unfold onBackend. by destruct (f (backend u)). Qed.

Lemma preserves_ifname J name : preserves J (setIfname name).
Proof. by intros u. Qed.

Lemma preserves_monitor J b : preserves J (setMonitor b).
Proof. by intros u. Qed.

Lemma preserves_switch {A} J (f : killSwitch F S → A * killSwitch F S) :
  (∀ k, J k → J (f k).2) → preserves J (onSwitch f).
Proof. intros Hf u Hu. specialize (Hf _ Hu). unfold onSwitch. by destruct (f (switch u)). Qed.

Lemma preserves_if {A} J (b : bool) (p q : operationOf W F S A) :
  preserves J p → preserves J q → preserves J (if b then p else q).
Proof. by destruct b. Qed.

Lemma preserves_firewall {A} J (f : F → A * F) :
  (∀ k, J k → J (setFirewall k (f (firewall k)).2)) → preserves J (onFirewall f).
Proof. intros Hf. apply preserves_switch. intros k Hk. specialize (Hf k Hk). by destruct (f (firewall k)). Qed.

Lemma preserves_toFirewall J (f : F → F) :
  (∀ k, J k → J (setFirewall k (f (firewall k)))) → preserves J (toFirewall f).
Proof. intros Hf. by apply preserves_firewall. Qed.
End preservation.

Create HintDb preserving.
#[export] Hint Resolve preserves_ret preserves_get preserves_backend preserves_ifname preserves_monitor : preserving.

(** Takes an operation apart down to what touches the kill switch. *)
Ltac preserving :=
  repeat first
    [ progress intros
    | solve [eauto with preserving]
    | apply preserves_bind
    | apply preserves_if
    | match goal with |- preserves _ (match ?x with _ => _ end) => destruct x end ].

Section untouched.
Context `{HostAddressText, SubnetText, Base64Text, DoubleText, Firewall F, Backend W} {S : Type} `{SettingsStore S}.
Implicit Types (u : wireguardUtils W F S) (J : killSwitch F S → Prop).

Lemma preserves_uapi J command : preserves J (uapiCommand command).
Proof. unfold uapiCommand. preserving. Qed.

Lemma preserves_serverRoutes J config call : preserves J (serverRoutes config call).
Proof. unfold serverRoutes. preserving. Qed.

Lemma preserves_withMonitor J (p : operationOf W F S bool) : preserves J p → preserves J (withMonitor p).
Proof. intros Hp. unfold withMonitor. preserving. Qed.

Lemma preserves_rejectAll J routes result : preserves J (rejectAll routes result).
Proof. revert result. induction routes as [|r routes IH]; intros result; cbn [rejectAll]; preserving. Qed.

Lemma preserves_routePrefix J call prefix : preserves J (routePrefix call prefix).
Proof.
  unfold routePrefix, bothHalves. apply preserves_withMonitor. preserving.
Qed.

(** An interface is removed with the kill switch. *)
Lemma preserves_deleteInterface J : (∀ k, J k → J (disableKillSwitch k).2) → preserves (W := W) J deleteInterface.
Proof.
  intros Hd. assert (preserves (W := W) J (onSwitch disableKillSwitch)) by by apply preserves_switch.
  unfold deleteInterface. preserving.
Qed.

(** Bringing an interface up only uses the firewall and the list of permitted
    destinations. *)
Lemma preserves_addInterface J config :
  (∀ k, J k → J (disableKillSwitch k).2) →
  preserves J (protectInterface config) → preserves J (addInterface config).
Proof.
  intros Hd Hp. pose proof (preserves_deleteInterface J Hd). unfold addInterface, waitForTunnelName.
  pose proof (preserves_uapi J). preserving.
Qed.

(** Every request preserves what these two and the requests to the kill switch do. *)
Lemma performService_preserves J u c :
  (∀ k, J k → J (disableKillSwitch k).2) →
  (∀ config, c = WgAddInterface config → preserves J (protectInterface config)) →
  (∀ op k, c = SwitchRequest op → J k → J (performSwitch k op)) →
  J (switch u) → J (switch (performService u c)).
Proof.
  intros Hd Ha Hs Hu. destruct c as [config| |config|config| |ip|ip|ip|ip|ips|op]; cbn [performService].
  - by apply preserves_addInterface; [|apply Ha|].
  - by apply preserves_deleteInterface.
  - revert u Hu. change (preserves J (updatePeer config)). unfold updatePeer.
    pose proof (preserves_uapi J). pose proof (preserves_serverRoutes J). preserving.
  - revert u Hu. change (preserves J (deletePeer config)). unfold deletePeer.
    pose proof (preserves_uapi J). pose proof (preserves_serverRoutes J). preserving.
  - revert u Hu. change (preserves J getPeerStatus). unfold getPeerStatus. pose proof (preserves_uapi J). preserving.
  - revert u Hu. apply preserves_routePrefix.
  - revert u Hu. apply preserves_routePrefix.
  - revert u Hu. apply preserves_withMonitor. preserving.
  - revert u Hu. apply preserves_withMonitor. preserving.
  - revert u Hu. apply preserves_withMonitor, preserves_rejectAll.
  - revert u Hu. apply preserves_switch. intros k. by apply Hs.
Qed.
End untouched.

(** ** The protection of a connection *)

Section protection.
Context `{HostAddressText, SubnetText, Base64Text, DoubleText, FirewallLaws F, Backend W} {S : Type} `{SettingsStore S}.
Implicit Types (u : wireguardUtils W F S) (k : killSwitch F S) (f : F) (P D : list string).

(** An interface for all traffic: what it permits are plain addresses, and it names
    an exception, as the client does with its server. *)
Definition wholeTunnel (config : InterfaceConfig) : Prop :=
  killSwitchEnabled config = true →
  fullTunnel config = true ∧ excludedAddresses config ≠ [] ∧
  plainEntries (excludedAddresses config) ∧ plainEntries (dnsOf config).

Definition serviceKeeps (c : serviceCall) : Prop :=
  match c with
  | WgAddInterface config => wholeTunnel config
  | SwitchRequest op => keepsProtection op = true ∧ oneLine op
  | _ => True
  end.

(** What a request asks to permit. *)
Definition serviceGrants (c : serviceCall) : list string :=
  match c with
  | WgAddInterface config => if killSwitchEnabled config then excludedAddresses config else []
  | SwitchRequest op => grants op
  | _ => []
  end.

Definition serviceDnsGrants (c : serviceCall) : list string :=
  match c with
  | WgAddInterface config => if killSwitchEnabled config then dnsOf config else []
  | SwitchRequest op => dnsGrants op
  | _ => []
  end.

(** Calls that keep the rules which block. *)
Lemma armed_calls P D k l :
  armed P D k → forallb knownCall l = true → neverOff blockAll l = true → neverOff blockIPv6 l = true →
  lastSetting allowHnsd l = None →
  tableOf (applyCalls l (firewall k)) allowNets "allownets" ⊆ P →
  tableOf (applyCalls l (firewall k)) blockDNS "dnsaddr" ⊆ D →
  armed P D (setFirewall k (applyCalls l (firewall k))).
Proof.
  intros [Hp Ha Hpr Hb H6' Hh Hpl Hr Hn Hd] Hl Hoff Hoff6 Hhl Hnets Hdns.
  split; cbn [connectionProtection firewall allowedRanges setFirewall]; try done.
  - by rewrite calls_active.
  - by rewrite calls_prioritized.
  - apply calls_kept; [done|decide_closed|done..].
  - apply calls_kept; [done|decide_closed|done..].
  - rewrite calls_untouched; [done|done|decide_closed|done].
Qed.

Lemma armed_same P D k : armed P D k → armed P D (setFirewall k (firewall k)).
Proof. intros []. by split. Qed.

Lemma armed_priority P D k : armed P D k → armed P D (setFirewall k (fwPriority (firewall k))).
Proof.
  intros [Hp Ha Hpr Hb H6' Hh Hpl Hr Hn Hd].
  split; cbn [connectionProtection firewall allowedRanges setFirewall]; try done.
  - by rewrite priority_active.
  - apply priority_prioritized.
  - by rewrite priority_loaded by decide_closed.
  - by rewrite priority_loaded by decide_closed.
  - by rewrite priority_loaded by decide_closed.
  - by rewrite priority_table by decide_closed.
  - by rewrite priority_table by decide_closed.
Qed.

Lemma armed_installed P D k : armed P D k → armed P D (setFirewall k (installIfNeeded (firewall k))).
Proof. intros Hk. rewrite installIfNeeded_active; [by apply armed_same|apply Hk]. Qed.

Lemma ipv6Blocked_spec f : ipv6Blocked f = (active f && loaded f blockIPv6, f).
Proof.
  unfold ipv6Blocked. rewrite installed_spec. destruct (active f); [|done]. cbn [andb].
  rewrite enabled_spec; [done|decide_closed].
Qed.

Lemma interfaceCalls_known params : forallb knownCall (interfaceCalls params) = true.
Proof. done. Qed.

Lemma armed_disable P D k : armed P D k → armed P D (disableKillSwitch k).2.
Proof. intros Hk. unfold disableKillSwitch. by rewrite (armed_protection P D k Hk). Qed.

Lemma armed_interfaceCalls P D k config :
  armed P D k → fullTunnel config = true → excludedAddresses config ≠ [] →
  plainEntries (excludedAddresses config) → plainEntries (dnsOf config) →
  excludedAddresses config ⊆ P → dnsOf config ⊆ D →
  armed P D (setFirewall k (applyCalls (interfaceCalls (firewallParams config)) (firewall k))).
Proof.
  intros Hk Hfull Hne Hplain Hdns HP HD. unfold firewallParams. rewrite Hfull, bool_decide_false by done.
  apply armed_calls; [done|done|done|done|done| |].
  - rewrite (calls_table _ _ _ _ (excludedAddresses config)); [done|done|decide_closed|done..].
  - rewrite (calls_table _ _ _ _ (dnsOf config)); [done|done|decide_closed|done..].
Qed.

Lemma protectInterface_armed P D config :
  wholeTunnel config →
  (killSwitchEnabled config = true → excludedAddresses config ⊆ P ∧ dnsOf config ⊆ D) →
  preserves (W := W) (armed (S := S) P D) (protectInterface config).
Proof.
  intros Hwhole Hsub. unfold protectInterface, blockTrafficIPv6, interfaceRules, applyFirewallRules.
  assert (preserves (W := W) (armed (S := S) P D) (toFirewall installIfNeeded))
    by (apply preserves_toFirewall, armed_installed).
  assert (preserves (W := W) (armed (S := S) P D) (toFirewall fwPriority))
    by (apply preserves_toFirewall, armed_priority).
  assert (preserves (W := W) (armed (S := S) P D) deleteInterface)
    by (apply preserves_deleteInterface, armed_disable).
  assert (preserves (W := W) (armed (S := S) P D) (toFirewall (fwSetAnchor blockIPv6 true))).
  { apply preserves_toFirewall. intros k Hk.
    apply (armed_calls P D k [Anchor blockIPv6 true]); try done.
    - rewrite calls_table_untouched; [apply Hk|done|decide_closed|done].
    - rewrite calls_table_untouched; [apply Hk|done|decide_closed|done]. }
  assert (preserves (W := W) (armed (S := S) P D) (onFirewall ipv6Blocked)).
  { apply preserves_firewall. intros k Hk. rewrite ipv6Blocked_spec. by apply armed_same. }
  apply preserves_bind; [preserving|intros blocked].
  apply preserves_if; [preserving|]. apply preserves_bind; [|preserving].
  destruct (killSwitchEnabled config) eqn:Hks; [|preserving].
  destruct (Hwhole Hks) as (Hfull & Hne & Hplain & Hdns). destruct (Hsub eq_refl) as [HP HD].
  assert (preserves (W := W) (armed (S := S) P D)
            (onSwitch (λ k, resetAllowedRange k (allowAddrs (firewallParams config))))).
  { apply preserves_switch. intros k Hk. unfold firewallParams. rewrite Hfull.
    by apply resetAllowedRange_armed. }
  assert (preserves (W := W) (armed (S := S) P D) (toFirewall (applyCalls (interfaceCalls (firewallParams config))))).
  { apply preserves_toFirewall. intros k Hk. by apply armed_interfaceCalls. }
  preserving.
Qed.

Lemma performService_armed P D u c :
  armed P D (switch u) → serviceKeeps c →
  armed (P ++ serviceGrants c) (D ++ serviceDnsGrants c) (switch (performService u c)).
Proof.
  intros Hu Hc. apply (armed_mono _ _ (P ++ serviceGrants c) (D ++ serviceDnsGrants c)) in Hu; [|set_solver..].
  apply performService_preserves; [apply armed_disable| | |done].
  - intros config ->. apply protectInterface_armed; [done|]. cbn [serviceGrants serviceDnsGrants].
    intros ->. set_solver.
  - intros op k -> Hk. destruct Hc as [Hkeep Hone].
    eapply armed_mono; [by apply performSwitch_armed|cbn; set_solver..].
Qed.

Lemma performService_run P D u cs :
  armed P D (switch u) → Forall serviceKeeps cs →
  armed (P ++ concat (serviceGrants <$> cs)) (D ++ concat (serviceDnsGrants <$> cs))
    (switch (foldl performService u cs)).
Proof.
  intros Hu Hcs. revert P D u Hu. induction Hcs as [|c cs Hc _ IH]; intros P D u Hu; cbn.
  - by rewrite !(right_id_L [] (++)).
  - rewrite !(assoc_L (++)). apply IH. by apply performService_armed.
Qed.
End protection.

(** ** An interface that came up *)

Section comesUp.
Context `{HostAddressText, SubnetText, Base64Text, DoubleText, FirewallLaws F, Backend W} {S : Type} `{SettingsStore S}.
Implicit Types (u : wireguardUtils W F S) (k : killSwitch F S) (f : F) (I Q : killSwitch F S → Prop).

(** From [I], a result of true means [Q]. *)
Definition ensures I Q (p : operationOf W F S bool) : Prop :=
  ∀ u, I (switch u) → (p u).1 = true → Q (switch (p u).2).

Lemma ensures_false I Q : ensures I Q (mret false).
Proof. by intros u. Qed.

Lemma ensures_bind {A} I Q (p : operationOf W F S A) (g : A → operationOf W F S bool) :
  preserves I p → (∀ a, ensures I Q (g a)) → ensures I Q (p ≫= g).
Proof.
  intros Hp Hf u Hu. specialize (Hp u Hu). unfold mbind, stateful_bind. destruct (p u) as [a u']. by apply Hf.
Qed.

Lemma ensures_if I Q (b : bool) p q : ensures I Q p → ensures I Q q → ensures I Q (if b then p else q).
Proof. by destruct b. Qed.

Lemma ensures_preserved I p : preserves I p → ensures I I p.
Proof. intros Hp u Hu _. by apply Hp. Qed.

(** No rules of the group for name servers, and IPv6 is blocked last. *)
Definition noHnsd k : Prop := loaded (firewall k) allowHnsd = false.

Definition ipv6Off k : Prop :=
  active (firewall k) = true ∧ prioritized (firewall k) = true ∧
  loaded (firewall k) blockIPv6 = true ∧ noHnsd k.

Lemma ipv6Off_calls k l :
  ipv6Off k → forallb knownCall l = true → neverOff blockIPv6 l = true → lastSetting allowHnsd l = None →
  ipv6Off (setFirewall k (applyCalls l (firewall k))).
Proof.
  unfold ipv6Off, noHnsd. intros (Ha & Hp & H6' & Hh) Hl Hoff Hlast. cbn [firewall setFirewall]. split_and!.
  - by rewrite calls_active.
  - by rewrite calls_prioritized.
  - apply calls_kept; [done|decide_closed|done..].
  - rewrite calls_untouched; [done|done|decide_closed|done].
Qed.

Lemma ipv6Off_rules params : preserves (W := W) (S := S) ipv6Off (applyFirewallRules params).
Proof.
  unfold applyFirewallRules. apply preserves_bind; [|intros _; apply preserves_bind; [|intros _]].
  - apply preserves_toFirewall. intros k Hk. rewrite installIfNeeded_active; [by destruct Hk|apply Hk].
  - apply preserves_toFirewall. intros k (Ha & Hp & H6' & Hh). unfold ipv6Off, noHnsd. cbn [firewall setFirewall].
    rewrite priority_active, priority_prioritized, !priority_loaded by decide_closed. done.
  - apply preserves_toFirewall. intros k Hk. by apply ipv6Off_calls.
Qed.

Lemma ipv6Off_reset ranges k : ipv6Off k → ipv6Off (resetAllowedRange k ranges).2.
Proof.
  intros Hk. unfold resetAllowedRange. destruct (forallb isValidIpOrCidr ranges); [|done].
  apply (ipv6Off_calls (setAllowedRanges k ranges)); done.
Qed.

Lemma blockTrafficIPv6_ensures : ensures noHnsd ipv6Off blockTrafficIPv6.
Proof.
  intros u Hh. unfold blockTrafficIPv6, mbind, stateful_bind, toFirewall, onFirewall, onSwitch.
  cbn [switch firewall setFirewall]. rewrite ipv6Blocked_spec. cbn [fst snd switch].
  intros [Ha H6']%andb_true_iff. split_and!; [done| |done|]; cbn [firewall setFirewall].
  - rewrite anchor_prioritized by decide_closed. apply priority_prioritized.
  - unfold noHnsd. cbn [firewall setFirewall]. rewrite anchor_other by (done || decide_closed).
    rewrite priority_loaded by decide_closed. apply installIfNeeded_off; [decide_closed|done].
Qed.

Lemma interfaceRules_ipv6Off config : preserves (W := W) (S := S) ipv6Off (interfaceRules config).
Proof.
  unfold interfaceRules. pose proof (ipv6Off_rules (firewallParams config)).
  assert (preserves (W := W) (S := S) ipv6Off
            (onSwitch (λ k, resetAllowedRange k (allowAddrs (firewallParams config)))))
    by (apply preserves_switch, ipv6Off_reset).
  preserving.
Qed.

Lemma protectInterface_ensures config : ensures noHnsd ipv6Off (protectInterface config).
Proof.
  intros u Hh. pose proof (blockTrafficIPv6_ensures u Hh) as Hb. unfold protectInterface, mbind, stateful_bind.
  destruct (blockTrafficIPv6 u) as [[] u1]; cbn [negb fst snd] in *.
  - pose proof (interfaceRules_ipv6Off config u1 (Hb eq_refl)). by destruct (interfaceRules config u1).
  - by destruct (deleteInterface u1).
Qed.

Lemma addInterface_ensures config : ensures noHnsd ipv6Off (addInterface config).
Proof.
  unfold addInterface, waitForTunnelName.
  repeat first
    [ apply ensures_false | apply protectInterface_ensures | apply preserves_uapi
    | solve [preserving] | apply ensures_if
    | match goal with |- ensures _ _ (match ?x with _ => _ end) => destruct x end
    | apply ensures_bind; [|intros] ].
Qed.
End comesUp.

(** ** The commands that run as root *)

Section commands.
Context `{HostAddressText, SubnetText, Base64Text, DoubleText, Installation, Backend W} {S : Type} `{SettingsStore S}.
Context (answers : list string → string → Z).

#[local] Instance recordingShell : Shell (list string) := recorder answers.

Implicit Types (u : wireguardUtils W (list string) S) (k : killSwitch (list string) S).

Local Notation clean := (Forall (λ e, allChars cidrChar e = true)).
Local Notation recordedSwitch := (recorded (S := S)).

(** The texts of a configuration that reach the shell. *)
Definition shellTexts (config : InterfaceConfig) : list string :=
  if killSwitchEnabled config then
    (if fullTunnel config then excludedAddresses config else rangeText <$> allowedIPAddressRanges config) ++
    dnsOf config
  else [].

Lemma recorded_firewall k f : recordedSwitch k → Forall rootCommand f → recordedSwitch (setFirewall k f).
Proof. intros [_ Hs] Hf. by split. Qed.

Lemma interfaceCalls_safe config :
  killSwitchEnabled config = true → clean (shellTexts config) →
  Forall safeCall (interfaceCalls (firewallParams config)).
Proof.
  unfold shellTexts, firewallParams. intros ->. intros [Ha Hd]%Forall_app.
  destruct (fullTunnel config); unfold interfaceCalls; cbn [paramBlockAll paramAllowNets paramBlockNets allowAddrs blockAddrs dnsServers];
    repeat (apply Forall_cons_2; [cbn [safeCall]; first [split; [decide_closed|done] | decide_closed]|]);
    apply Forall_nil_2.
Qed.

Lemma blockTrafficIPv6_safe : preserves (W := W) recordedSwitch blockTrafficIPv6.
Proof.
  unfold blockTrafficIPv6.
  assert (blockIPv6 ∈ rootAnchors) by decide_closed.
  apply preserves_bind; [|intros _; apply preserves_bind; [|intros _; apply preserves_bind; [|intros _]]].
  - apply preserves_toFirewall. intros k Hk. apply recorded_firewall; [done|].
    unfold installIfNeeded. cbn [fwInstalled fwInstall macFirewall].
    pose proof (isInstalled_safe answers (firewall k) (proj1 Hk)).
    destruct (isInstalled (firewall k)) as [[] h]; [done|by apply install_safe].
  - apply preserves_toFirewall. intros k Hk. apply recorded_firewall; [done|].
    apply execute_safe; [apply Hk|exact root_last].
  - apply preserves_toFirewall. intros k Hk. apply recorded_firewall; [done|].
    apply execute_safe; [apply Hk|by apply root_load].
  - apply preserves_firewall. intros k Hk. apply recorded_firewall; [done|]. unfold ipv6Blocked.
    cbn [fwInstalled fwAnchorEnabled macFirewall]. pose proof (isInstalled_safe answers (firewall k) (proj1 Hk)).
    destruct (isInstalled (firewall k)) as [[] h]; [by apply isAnchorEnabled_safe|done].
Qed.

Lemma interfaceRules_safe config :
  clean (shellTexts config) → preserves (W := W) recordedSwitch (interfaceRules config).
Proof.
  intros Hclean. unfold interfaceRules, applyFirewallRules. destruct (killSwitchEnabled config) eqn:Hks; [|apply preserves_ret].
  apply preserves_bind; [|intros _; apply preserves_bind; [|intros _; apply preserves_bind; [|intros _]]].
  - apply preserves_if; [|apply preserves_ret]. apply preserves_bind; [|intros; apply preserves_ret].
    apply preserves_switch. intros k. apply resetAllowedRange_safe.
  - apply preserves_toFirewall. intros k Hk. apply recorded_firewall; [done|].
    unfold installIfNeeded. cbn [fwInstalled fwInstall macFirewall].
    pose proof (isInstalled_safe answers (firewall k) (proj1 Hk)).
    destruct (isInstalled (firewall k)) as [[] h]; [done|by apply install_safe].
  - apply preserves_toFirewall. intros k Hk. apply recorded_firewall; [done|].
    apply execute_safe; [apply Hk|exact root_last].
  - apply preserves_toFirewall. intros k Hk. apply recorded_firewall; [done|].
    apply applyCalls_safe; [by apply interfaceCalls_safe|apply Hk].
Qed.

Definition cleanRequest (c : serviceCall) : Prop :=
  match c with WgAddInterface config => clean (shellTexts config) | _ => True end.

Lemma performService_safe u c :
  recordedSwitch (switch u) → cleanRequest c → recordedSwitch (switch (performService u c)).
Proof.
  intros Hu Hc. apply (performService_preserves recordedSwitch); [|intros config ->|intros op k ->|done].
  - intros k. apply disableKillSwitch_safe.
  - pose proof (interfaceRules_safe config Hc). pose proof blockTrafficIPv6_safe.
    assert (preserves (W := W) recordedSwitch deleteInterface)
      by (apply preserves_deleteInterface; intros k; apply disableKillSwitch_safe).
    unfold protectInterface. preserving.
  - apply performSwitch_safe.
Qed.
End commands.

(** ** The default route *)

(** [QHostAddress::parseSubnet] on the halves of the address spaces. *)
Class SubnetHalves `{SubnetText} : Prop := {
  parse_lower4 : parseSubnet "0.0.0.0/1" = (HIPv4 0, 1);
  parse_upper4 : parseSubnet "128.0.0.0/1" = (HIPv4 (2 ^ 31), 1);
  parse_lower6 : parseSubnet "::/1" = (HIPv6 (0 :: replicate 15 0), 1);
  parse_upper6 : parseSubnet "8000::/1" = (HIPv6 (128 :: replicate 15 0), 1);
}.

Section routes.
Context `{HostAddressText, SubnetHalves}.

(** The routes that stand for a range: the range, or the halves of the whole space. *)
Definition routesOf (prefix : IPAddress) : list IPAddress :=
  if 0 <? prefixLength prefix then [prefix]
  else match protocol (IpAddress.address prefix) with
       | IPv4Protocol => [ofText "0.0.0.0/1"; ofText "128.0.0.0/1"]
       | IPv6Protocol => [ofText "::/1"; ofText "8000::/1"]
       | UnknownNetworkLayerProtocol => []
       end.

Lemma ofText_halves :
  ofText "0.0.0.0/1" = IPRange (HIPv4 0) 1 ∧ ofText "128.0.0.0/1" = IPRange (HIPv4 (2 ^ 31)) 1 ∧
  ofText "::/1" = IPRange (HIPv6 (0 :: replicate 15 0)) 1 ∧
  ofText "8000::/1" = IPRange (HIPv6 (128 :: replicate 15 0)) 1.
Proof.
  unfold ofText. change (contains "0.0.0.0/1" "/") with true. change (contains "128.0.0.0/1" "/") with true.
  change (contains "::/1" "/") with true. change (contains "8000::/1" "/") with true.
  by rewrite parse_lower4, parse_upper4, parse_lower6, parse_upper6.
Qed.

Lemma routesOf_positive prefix : Forall (λ r, 0 < prefixLength r) (routesOf prefix).
Proof.
  destruct ofText_halves as (E1 & E2 & E3 & E4). unfold routesOf.
  destruct (Z.ltb_spec 0 (prefixLength prefix)); [by repeat constructor|].
  destruct (protocol _); rewrite ?E1, ?E2, ?E3, ?E4; by repeat constructor.
Qed.

(** An address is in a half according to its first bit. *)
Lemma within_half r a :
  prefixLength r = 1 → within r a ↔ protocol a = protocol (IpAddress.address r) ∧ bitAt a 0 = bitAt (IpAddress.address r) 0.
Proof.
  intros Hr. unfold within. rewrite Hr. split; intros [Hp Hb]; (split; [done|]); [apply Hb; lia|].
  intros i Hi. by replace i with 0 by lia.
Qed.

Lemma routesOf_covers prefix a :
  validRange prefix → within prefix a ↔ Exists (λ r, within r a) (routesOf prefix).
Proof.
  intros [Hhost Hlen]. destruct ofText_halves as (E1 & E2 & E3 & E4). unfold routesOf.
  destruct (Z.ltb_spec 0 (prefixLength prefix)) as [|Hzero].
  { rewrite Exists_cons, Exists_nil. tauto. }
  assert (Hall : within prefix a ↔ protocol a = protocol (IpAddress.address prefix)).
  { unfold within. split; [by intros []|]. intros Hp. split; [done|]. intros i Hi. lia. }
  rewrite Hall. destruct (IpAddress.address prefix) as [|z|bytes] eqn:Hp; [done|..]; cbn [protocol];
    rewrite ?E1, ?E2, ?E3, ?E4, !Exists_cons, Exists_nil, !within_half by done; cbn [IpAddress.address protocol].
  - change (bitAt (HIPv4 0) 0) with false. change (bitAt (HIPv4 (2 ^ 31)) 0) with true.
    destruct (bitAt a 0); naive_solver.
  - change (bitAt (HIPv6 (0 :: replicate 15 0)) 0) with false.
    change (bitAt (HIPv6 (128 :: replicate 15 0)) 0) with true. destruct (bitAt a 0); naive_solver.
Qed.

(** Requests until one fails. *)
Fixpoint monitorAll {W F S} `{Backend W} (call : IPAddress → monitorCall) (routes : list IPAddress) :
    operationOf W F S bool :=
  match routes with
  | [] => mret true
  | r :: routes => ok ← onBackend (monitor (call r)); if (ok : bool) then monitorAll call routes else mret false
  end.

Lemma routePrefix_monitorAll `{Backend W} {F S} call prefix (u : wireguardUtils W F S) :
  rtmonitor u = true → routesOf prefix ≠ [] →
  routePrefix call prefix u = monitorAll call (routesOf prefix) u.
Proof.
  intros Hu Hne. unfold routePrefix, withMonitor, mbind at 1, stateful_bind at 1, getState. rewrite Hu.
  unfold routesOf in *. destruct (0 <? prefixLength prefix).
  { cbn. unfold mbind, stateful_bind, onBackend. by destruct (monitor _ _) as [[] w]. }
  destruct (protocol _); [..|done]; unfold bothHalves; cbn [monitorAll]; unfold mbind, stateful_bind, onBackend;
    destruct (monitor _ (backend u)) as [[] w]; cbn [backend]; try done; by destruct (monitor _ w) as [[] w'].
Qed.
End routes.

(** ** Keys *)

Lemma hexValue_char c :
  hexValue (hexChar (code c / 16)) = Some (code c / 16)%N ∧
  hexValue (hexChar (code c mod 16)) = Some (code c mod 16)%N ∧
  ascii_of_N (code c / 16 * 16 + code c mod 16) = c.
Proof.
  destruct c as [[] [] [] [] [] [] [] []]; vm_compute; by split_and!.
Qed.

Lemma hexValues_toHex s :
  hexValues (toHex s) = concat ((λ c, [code c / 16; code c mod 16]%N) <$> String.list_ascii_of_string s).
Proof.
  induction s as [|c s IH]; [done|]. destruct (hexValue_char c) as (H1 & H2 & _).
  cbn [toHex hexValues String.list_ascii_of_string fmap list_fmap concat]. rewrite H1, H2, IH. done.
Qed.

Lemma pairDigits_app l acc d :
  pairDigits (rev (concat ((λ c, [code c / 16; code c mod 16]%N) <$> l)) ++ d) acc =
  pairDigits d (foldr String acc l).
Proof.
  revert acc d. induction l as [|c l IH] using rev_ind; intros acc d; [done|].
  destruct (hexValue_char c) as (_ & _ & Hc).
  rewrite fmap_app, concat_app, rev_app_distr, <-app_assoc. cbn [fmap list_fmap concat app rev pairDigits].
  rewrite Hc, IH, foldr_app. done.
Qed.

(** A key in hexadecimal is read back. *)
Lemma fromHex_toHex s : fromHex (toHex s) = s.
Proof.
  unfold fromHex. rewrite hexValues_toHex, <-(app_nil_r (rev _)), pairDigits_app. cbn [pairDigits].
  induction s as [|c s IH]; [done|]. cbn. by rewrite IH.
Qed.

(** ** Lines *)

Lemma lineField_fieldLine name value :
  name ≠ "" → containsChar "=" name = false → lineField (fieldLine (name, value)) = Some (name, value).
Proof.
  intros Hne Heq. unfold lineField, fieldLine. cbn [fst snd].
  assert (Hidx : indexOfFirst (name +:+ "=" +:+ value) "=" = Some (String.length name)).
  { clear Hne. induction name as [|c name IH].
    - cbn. by destruct value.
    - cbn [containsChar] in Heq. apply orb_false_iff in Heq as [Hc Heq].
      rewrite scons_app. cbn [indexOfFirst String.length]. rewrite IH by done.
      assert (String.prefix "=" (String c (name +:+ "=" +:+ value)) = false) as ->; [|done].
      cbn [String.prefix]. destruct (ascii_dec _ c) as [<-|]; [|done]. done. }
  rewrite Hidx. destruct name as [|c name]; [done|]. cbn [String.length].
  change (S (String.length name)) with (String.length (String c name)). rewrite leftPart_app. f_equal. f_equal.
  rewrite <-sapp_assoc. rewrite <-(midFrom_app (String c name +:+ "=") value) at 2. f_equal.
  rewrite slength_app. cbn. lia.
Qed.

(** ** What the backend reports *)

Lemma toLongLong_pretty n : 0 ≤ n < 2 ^ 63 → toLongLong (pretty n) = n.
Proof.
  intros Hn. assert (allChars isDigit (pretty n) = true) as Hd by (apply isDigit_pretty; lia).
  unfold toLongLong. rewrite trimmed_id; cycle 1.
  { revert Hd. apply allChars_impl. intros c Hc. by rewrite isDigit_not_space. }
  pose proof (digitsValue_pretty (Z.to_N n)) as Hv.
  rewrite <-pretty_Z_digits in Hv by lia. rewrite Z2N.id in Hv by lia.
  pose proof (pretty_not_nil n). destruct (pretty n) as [|c t]; [done|].
  cbn [allChars] in Hd. apply andb_true_iff in Hd as [Hc Ht].
  rewrite (isDigit_neq c "-"), (isDigit_neq c "+") by done. rewrite Hv.
  replace (1 * n) with n by lia.
  rewrite (proj2 (Z.leb_le _ _)), (proj2 (Z.ltb_lt _ _)); [done|lia|lia].
Qed.

Lemma qint64_small z : 0 ≤ z < 2 ^ 63 → qint64 z = z.
Proof. intros Hz. unfold qint64. rewrite Z.mod_small by lia. lia. Qed.

Lemma splitChar_lines lines :
  lines ≠ [] → Forall (λ l, containsChar newline l = false) lines →
  splitChar newline (join newlineText lines) = lines.
Proof.
  intros Hne. induction 1 as [|l lines Hl Hlines IH]; [done|]. destruct lines as [|l' lines].
  - by apply splitChar_absent.
  - change (join newlineText (l :: l' :: lines)) with (l +:+ newlineText +:+ join newlineText (l' :: lines)).
    unfold newlineText at 1. rewrite splitChar_sep by done. by rewrite IH.
Qed.

Section reports.
Context `{HostAddressText, Base64Text, DoubleText}.

Definition statusNames : list string :=
  ["public_key"; "tx_bytes"; "rx_bytes"; "last_handshake_time_sec"; "last_handshake_time_nsec"; "errno"].

(** A field is one line. *)
Definition fieldOk (field : string * string) : Prop :=
  field.1 ≠ "" ∧ containsChar "=" field.1 = false ∧
  containsChar newline field.1 = false ∧ containsChar newline field.2 = false.

Definition otherField (field : string * string) : Prop := fieldOk field ∧ field.1 ∉ statusNames.

(** A peer as the backend reports it, with other fields in between. *)
Record reportedPeer := Reported {
  reportedKey : string;
  seconds : Z;
  nanoseconds : Z;
  sentBytes : Z;
  receivedBytes : Z;
  fields1 : list (string * string);
  fields2 : list (string * string);
  fields3 : list (string * string);
}.

Definition reportedFields (p : reportedPeer) : list (string * string) :=
  [("public_key", toHex (reportedKey p))] ++ fields1 p ++
  [("last_handshake_time_sec", pretty (seconds p)); ("last_handshake_time_nsec", pretty (nanoseconds p))] ++
  fields2 p ++ [("tx_bytes", pretty (sentBytes p)); ("rx_bytes", pretty (receivedBytes p))] ++ fields3 p.

Definition reportedOk (p : reportedPeer) : Prop :=
  String.length (reportedKey p) = 32%nat ∧ 0 ≤ seconds p ∧ 0 ≤ nanoseconds p < 2 ^ 63 ∧
  seconds p * 1000 + nanoseconds p / 1000000 < 2 ^ 63 ∧
  0 ≤ sentBytes p ≤ 2 ^ 53 ∧ 0 ≤ receivedBytes p ≤ 2 ^ 53 ∧
  Forall otherField (fields1 p ++ fields2 p ++ fields3 p).

(** The status of the peer, with the time in milliseconds. *)
Definition reportedStatus (p : reportedPeer) : PeerStatus :=
  Peer (toBase64 (reportedKey p)) (seconds p * 1000 + nanoseconds p / 1000000) (receivedBytes p) (sentBytes p).

Lemma statusField_others st fields : Forall otherField fields → foldl statusField st fields = st.
Proof.
  induction 1 as [|[name value] fields [_ Hn] _ IH]; [done|]. cbn [foldl].
  assert (statusField st (name, value) = st) as ->; [|done].
  unfold statusField. cbn [fst] in Hn. unfold statusNames in Hn. destruct st as [status l].
  repeat (rewrite bool_decide_false by (intros ->; apply Hn; decide_closed)). done.
Qed.

Lemma normalize_hex key : String.length key = 32%nat → normalizeUapiPublicKey (toHex key) = toBase64 key.
Proof. intros Hk. unfold normalizeUapiPublicKey. by rewrite fromHex_toHex, Hk. Qed.

Lemma toBase64_not_nil key : String.length key = 32%nat → isEmpty (toBase64 key) = false.
Proof.
  intros Hk. destruct (toBase64 key) eqn:Hb; [|done]. exfalso.
  pose proof (fromBase64_toBase64 key) as Hf. rewrite Hb, fromBase64_nil in Hf. by subst key.
Qed.

Definition finished (st : PeerStatus * list PeerStatus) : list PeerStatus :=
  if isEmpty (pubkey st.1) then st.2 else st.2 ++ [st.1].

Lemma statusField_peer st p :
  reportedOk p → foldl statusField st (reportedFields p) = (reportedStatus p, finished st).
Proof.
  intros (Hk & Hs & Hn & Hsum & Htx & Hrx & (H1' & (H2' & H3')%Forall_app)%Forall_app).
  destruct st as [status l]. unfold reportedFields.
  rewrite !foldl_app, (statusField_others _ (fields1 p)), (statusField_others _ (fields2 p)),
    (statusField_others _ (fields3 p)) by done.
  cbn [foldl]. unfold statusField. cbn [fst snd].
  rewrite normalize_hex by done.
  repeat first [rewrite bool_decide_true by done | rewrite bool_decide_false by done].
  cbn [pubkey handshake rxBytes txBytes].
  assert (0 ≤ nanoseconds p / 1000000) by (apply Z.div_pos; lia).
  rewrite !toLongLong_pretty by lia. rewrite !toDouble_pretty by lia. rewrite Z.quot_div_nonneg by lia.
  rewrite Z.add_0_l, !(qint64_small (seconds p * 1000)) by lia. by rewrite qint64_small by lia.
Qed.

Lemma statusField_peers st ps :
  Forall reportedOk ps →
  finished (foldl statusField st (concat (reportedFields <$> ps))) = finished st ++ (reportedStatus <$> ps).
Proof.
  intros Hps. revert st. induction Hps as [|p ps Hp _ IH]; intros st.
  { cbn. by rewrite app_nil_r. }
  cbn [fmap list_fmap concat]. rewrite foldl_app, statusField_peer by done. rewrite IH.
  unfold finished at 1. cbn [fst snd pubkey reportedStatus]. rewrite toBase64_not_nil by apply Hp.
  by rewrite <-app_assoc.
Qed.

(** *** The lines of a reply *)

Lemma toHex_one_line key : containsChar newline (toHex key) = false.
Proof.
  induction key as [|c key IH]; [done|]. cbn [toHex containsChar]. rewrite IH, !orb_false_r.
  apply orb_false_iff. destruct c as [[] [] [] [] [] [] [] []]; vm_compute; done.
Qed.

Lemma pretty_one_line n : 0 ≤ n → containsChar newline (pretty n) = false.
Proof. intros Hn. by eapply allChars_not_contains; [apply isDigit_pretty|]. Qed.

Lemma otherField_ok fs : Forall otherField fs → Forall (λ f, fieldOk f ∧ f.1 ≠ "errno") fs.
Proof.
  induction 1 as [|[name value] fs [Hok Hname] _ IH]; constructor; [|done]. split; [done|].
  cbn. intros ->. apply Hname. cbn. decide_closed.
Qed.

Lemma reportedFields_ok p :
  reportedOk p → Forall (λ f, fieldOk f ∧ f.1 ≠ "errno") (reportedFields p).
Proof.
  intros (_ & Hs & Hn & _ & Htx & Hrx & (H1' & (H2' & H3')%Forall_app)%Forall_app).
  pose proof otherField_ok.
  unfold reportedFields. rewrite !Forall_app. pose proof (toHex_one_line (reportedKey p)).
  split_and!; auto; repeat (apply Forall_cons_2; [split; [|done]|]); try apply Forall_nil_2;
    (split_and!; [done|done|done|]; cbn [snd]; first [done | apply pretty_one_line; lia]).
Qed.

Lemma fieldLine_one_line f : fieldOk f → containsChar newline (fieldLine f) = false.
Proof. intros (_ & _ & Hn & Hv). unfold fieldLine. by rewrite !containsChar_app, Hn, Hv. Qed.

Lemma statusLine_fields st fs :
  Forall fieldOk fs → foldl statusLine st (fieldLine <$> fs) = foldl statusField st fs.
Proof.
  intros Hfs. revert st. induction Hfs as [|[n v] fs (Hne & Heq & _) _ IH]; intros st; [done|].
  cbn [fmap list_fmap foldl]. rewrite IH. unfold statusLine. by rewrite lineField_fieldLine.
Qed.

Lemma errnoOf_skip fs lines :
  Forall (λ f, fieldOk f ∧ f.1 ≠ "errno") fs → errnoOf ((fieldLine <$> fs) ++ lines) = errnoOf lines.
Proof.
  induction 1 as [|[n v] fs [(Hne & Heq & _) Hn] _ IH]; [done|].
  cbn [fmap list_fmap app errnoOf]. rewrite lineField_fieldLine by done. by rewrite bool_decide_false.
Qed.
End reports.

(** ** Messages are read as they were written *)

Lemma endMessage_ends message :
  ∃ n, (n ≤ 2)%nat ∧ endMessage 2 message = Some (Nat.iter n (λ m, m +:+ newlineText) message).
Proof.
  cbn [endMessage]. destruct (textEndsWith message _); [by exists 0%nat; split; [lia|]|].
  destruct (textEndsWith (message +:+ newlineText) _); [by exists 1%nat; split; [lia|]|].
  exists 2%nat. split; [lia|]. cbn [Nat.iter].
  assert (textEndsWith ((message +:+ newlineText) +:+ newlineText) (newlineText +:+ newlineText) = true) as ->; [|done].
  rewrite sapp_assoc. generalize (newlineText +:+ newlineText) as suffix. intros suffix. unfold textEndsWith.
  rewrite slength_app, Nat.add_sub, midFrom_app.
  apply andb_true_iff. split; [apply Nat.leb_le; lia|]. by apply bool_decide_eq_true.
Qed.

Lemma uapiText_fields fields :
  Forall fieldOk fields → omap lineField (splitChar newline (uapiText fields)) = fields.
Proof.
  induction 1 as [|[name value] fields (Hne & Heq & Hn & Hv) _ IH]; [done|].
  cbn [uapiText foldr]. unfold newlineText. rewrite splitChar_sep.
  - cbn [omap list_omap]. rewrite lineField_fieldLine by done. f_equal. exact IH.
  - unfold fieldLine. cbn [fst snd] in *. by rewrite !containsChar_app, Hn, Hv.
Qed.

(** ** Properties *)

Section properties.
Context `{HostAddressText, SubnetText, Base64Text, DoubleText, FirewallLaws F, Backend W} {S : Type} `{SettingsStore S}.
Context {A : Type} (covers : string → A → bool) (debug : bool).
Context (before : packet A → action) (after : packet A → option action).
Implicit Types (u : wireguardUtils W F S) (k : killSwitch F S) (p : packet A).



End properties.

Section commandProperties.
Context `{HostAddressText, SubnetText, Base64Text, DoubleText, Installation, Backend W} {S : Type} `{SettingsStore S}.
Context (answers : list string → string → Z).

#[local] Instance recordingService : Shell (list string) := recorder answers.

(** Whatever the daemon and the client ask for, the service runs only commands
    that are fixed by the build or fill its tables with words of digits, dots,
    slashes and line breaks, provided that the exceptions, ranges and DNS servers of
    the interfaces are such words; nothing else of a configuration reaches the
    shell. *)
Lemma service_commands_safe settings (w : W) cs :
  Forall cleanRequest cs →
  Forall rootCommand (firewall (switch (foldl performService (Utils None false w (init (S := S) settings []).2) cs))).
Proof.
  intros Hcs. assert (recorded (switch (Utils None false w (init (S := S) settings []).2))) as Hu.
  { cbn [switch]. unfold init. destruct (switchIsStrict _); [apply disableAllTraffic_safe|]; by split; [constructor|]. }
  revert Hu. generalize (Utils None false w (init (S := S) settings []).2).
  induction Hcs as [|c cs Hc _ IH]; intros u Hu; [apply Hu|]. cbn [foldl].
  apply IH. by apply performService_safe.
Qed.
End commandProperties.

Section moreProperties.
Context `{HostAddressText, Base64Text, DoubleText}.


(** The status that the backend reports is read back: for each peer its key, the
    time of the last handshake in milliseconds and the counters, in order and
    whatever other fields there are, and the daemon recognises exactly the peer with
    the key that it configured. *)
Lemma peers_recognized device ps key :
  Forall otherField device → Forall reportedOk ps →
  let reply := join newlineText (fieldLine <$> device ++ concat (reportedFields <$> ps) ++ [("errno", "0")]) in
  peerStatuses reply = reportedStatus <$> ps ∧
  uapiErrno reply = 0 ∧
  ∀ p, p ∈ ps → peerKeysMatch key (pubkey (reportedStatus p)) = bool_decide (fromBase64 key = reportedKey p).
Proof.
  intros Hdev Hps reply.
  assert (Hfields : Forall (λ f, fieldOk f ∧ f.1 ≠ "errno") (device ++ concat (reportedFields <$> ps))).
  { apply Forall_app. split; [by apply otherField_ok|].
    induction Hps; [constructor|]. apply Forall_app. split; [by apply reportedFields_ok|done]. }
  assert (Hlast : fieldOk ("errno", "0")) by done.
  assert (Hall : Forall fieldOk (device ++ concat (reportedFields <$> ps) ++ [("errno", "0")])).
  { rewrite app_assoc. apply Forall_app. split; [|by constructor]. clear -Hfields.
    by induction Hfields as [|f fs [? _]]; constructor. }
  assert (Hlines : splitChar newline reply =
                   fieldLine <$> device ++ concat (reportedFields <$> ps) ++ [("errno", "0")]).
  { apply splitChar_lines; [by destruct device, (concat _)|]. clear -Hall.
    induction Hall; constructor; [by apply fieldLine_one_line|done]. }
  split_and!.
  - unfold peerStatuses. rewrite Hlines, statusLine_fields, !foldl_app, (statusField_others _ device) by done.
    rewrite (surjective_pairing (foldl _ _ [_])).
    change (finished (foldl statusField (foldl statusField (Peer "" 0 0 0, []) (concat (reportedFields <$> ps)))
              [("errno", "0")]) = reportedStatus <$> ps).
    set (st := foldl statusField _ (concat _)).
    assert (foldl statusField st [("errno", "0")] = st) as -> by (by destruct st).
    unfold st. by rewrite statusField_peers.
  - unfold uapiErrno. by rewrite Hlines, app_assoc, fmap_app, errnoOf_skip.
  - intros q Hq. rewrite Forall_forall in Hps. destruct (Hps q Hq) as [Hk _].
    unfold peerKeysMatch. cbn [pubkey reportedStatus]. rewrite fromBase64_toBase64.
    case_bool_decide as Heq; [|by rewrite andb_false_r]. by rewrite Heq, Hk.
Qed.
End moreProperties.

(** ** Examples *)

#[local] Instance plainBase64 : Base64 := λ s, s.
#[local] Instance plainBase64Text : Base64Text.
Proof. by refine {| toBase64 := λ s, s |}. Defined.
#[local] Instance longDouble : DoubleText.
Proof. refine {| toDouble := toLongLong |}. intros n Hn. apply toLongLong_pretty. lia. Defined.
#[local] Instance halfSubnets : SubnetText := λ s,
  if bool_decide (s = "0.0.0.0/0") then (HIPv4 0, 0)
  else if bool_decide (s = "0.0.0.0/1") then (HIPv4 0, 1)
  else if bool_decide (s = "128.0.0.0/1") then (HIPv4 (2 ^ 31), 1)
  else if bool_decide (s = "::/1") then (HIPv6 (0 :: replicate 15 0), 1)
  else if bool_decide (s = "8000::/1") then (HIPv6 (128 :: replicate 15 0), 1)
  else (HNull, 0).
#[local] Instance halfSubnets_laws : SubnetHalves.
Proof. by split. Qed.

(** A backend that starts at once and gives the same reply to every message; it
    keeps what it was asked. *)
Record sampleBackend := SampleBackend {
  sampleProcess : ProcessState;
  sampleReply : string;
  sampleMessages : list string;
  sampleCalls : list monitorCall;
}.

#[local] Instance sampleBackendOps : Backend sampleBackend := {
  tunnelState := sampleProcess;
  backendExists _ _ := true;
  startTunnel _ w := (true, SampleBackend Running (sampleReply w) (sampleMessages w) (sampleCalls w));
  killTunnel w := SampleBackend NotRunning (sampleReply w) (sampleMessages w) (sampleCalls w);
  terminateTunnel w := (true, SampleBackend NotRunning (sampleReply w) (sampleMessages w) (sampleCalls w));
  nameRounds w := ([None; Some ("utun7" +:+ newlineText, false); Some ("utun7" +:+ newlineText, true)], w);
  connectUapi _ w := (true, w);
  writeUapi m w := (true, SampleBackend (sampleProcess w) (sampleReply w) (sampleMessages w ++ [m]) (sampleCalls w));
  readUapi w := ([sampleReply w], w);
  monitor c w := (true, SampleBackend (sampleProcess w) (sampleReply w) (sampleMessages w) (sampleCalls w ++ [c]));
}.

Definition acceptingBackend : sampleBackend :=
  SampleBackend NotRunning ("errno=0" +:+ newlineText +:+ newlineText) [] [].
Definition refusingBackend : sampleBackend :=
  SampleBackend NotRunning ("errno=22" +:+ newlineText +:+ newlineText) [] [].

Definition sampleInterface (ranges : list IPAddress) (excluded : list string) : InterfaceConfig :=
  Config SingleHop "awg" "private" (Some "10.8.1.2") None "203.0.113.10" "" "0123456789abcdef0123456789abcdef"
    (Some "203.0.113.10") None None "1.1.1.1" "" 51820 1420 "25" ranges excluded [] [] [] true {["Jc" := "4"]}.

Definition everything : IPAddress := IPRange (HIPv4 0) 0.

#[local] Instance sampleStore : SettingsStore (secureQSettings unit) :=
  @secureStore unit sampleKeychain sampleCodec true.
#[local] Existing Instance quadText.

Notation sampleUtils := (wireguardUtils sampleBackend modelPf (secureQSettings unit)).

Definition protectedUtils (w : sampleBackend) : sampleUtils := Utils None false w protectedSwitch.

(** An accepted interface: the messages to the backend. *)
Example interface_messages :
  let '(ok, u) := addInterface (sampleInterface [everything] ["203.0.113.10"]) (protectedUtils acceptingBackend) in
  ok = true ∧ ifname u = Some "utun7" ∧ sampleCalls (backend u) = [NewMonitor "utun7"] ∧
  (splitChar newline <$> sampleMessages (backend u)) =
    [["set=1"; "private_key=70726976617465"; "replace_peers=true"; "jc=4"; ""; ""]].
Proof. vm_compute. by split_and!. Qed.

(** When the backend refuses the configuration its process is left running, and the
    daemon takes the interface for one that is ready: the next activation does not
    configure it, and nothing has blocked IPv6. *)
Example refused_interface_stays :
  let u := Utils None false refusingBackend sampleSwitch in
  let '(ok, u) := addInterface (sampleInterface [everything] ["203.0.113.10"]) u in
  ok = false ∧ (interfaceExists u).1 = true ∧ loaded (firewall (switch u)) blockIPv6 = false.
Proof. vm_compute. by split_and!. Qed.

(** An interface for a part of the addresses, here the halves of the whole space,
    lifts the block of everything that the service confirmed. *)
Example partial_interface_unblocks :
  let config := sampleInterface [IPRange (HIPv4 0) 1; IPRange (HIPv4 (2 ^ 31)) 1] ["203.0.113.10"] in
  let u := performService (protectedUtils acceptingBackend) (WgAddInterface config) in
  connectionProtection (switch u) = true ∧
  loaded (firewall (switch (protectedUtils acceptingBackend))) blockAll = true ∧
  loaded (firewall (switch u)) blockAll = false.
Proof. vm_compute. by split_and!. Qed.

(** The exceptions of a configuration are not validated before they reach the shell:
    the kill switch refuses them, and the rules of the interface are set with them
    all the same. *)
Example excluded_address_reaches_shell :
  let answers (_ : list string) (_ : string) := 0 in
  let fw := @macFirewall _ _ (recorder answers) in
  let config := sampleInterface [everything] ["192.0.2.1; id"] in
  let u := Utils None false acceptingBackend (@init _ fw _ _ (Settings ∅ ∅ "" "" false tt) []).2 in
  let u := @performService _ _ _ _ _ _ fw _ _ _ _ u (WgAddInterface config) in
  (@resetAllowedRange _ fw _ (switch u) ["192.0.2.1; id"]).1 = false ∧
  bool_decide ("pfctl -q -a 'alzheimervpn/110.allowNets' -t 'allownets' -T replace 192.0.2.1; id" ∈
    firewall (switch u)) = true.
Proof. vm_compute. by split. Qed.

(** ** Witnesses *)

Definition wholeInterface : InterfaceConfig := sampleInterface [everything] ["203.0.113.10"].

Definition sampleService : list serviceCall :=
  [WgAddInterface wholeInterface; WgUpdatePeer wholeInterface; WgUpdateRoute everything;
   SwitchRequest (AddRanges ["198.51.100.3"]); WgPeerStatus; WgDeletePeer wholeInterface; WgDeleteInterface].

Lemma wholeInterface_whole : wholeTunnel wholeInterface.
Proof.
  intros _. split_and!; [vm_compute; reflexivity|discriminate|..]; apply Forall_cons_2; try apply Forall_nil_2;
    vm_compute; reflexivity.
Qed.

Lemma sampleService_keeps : Forall serviceKeeps sampleService.
Proof.
  unfold sampleService. repeat (apply Forall_cons_2; [|]); try apply Forall_nil_2; cbn [serviceKeeps];
    try apply wholeInterface_whole; try exact I.
  split; [vm_compute; reflexivity|]. apply Forall_cons_2; [vm_compute; reflexivity|apply Forall_nil_2].
Qed.



Lemma service_commands_safe_example :
  let fw := @macFirewall _ _ (recorder (λ _ _, 0)) in
  Forall rootCommand (firewall (switch (foldl (@performService _ _ _ _ _ _ fw _ _ _ _)
    (Utils None false acceptingBackend (@init _ fw _ _ (Settings ∅ ∅ "" "" false tt) []).2)
    [WgAddInterface wholeInterface; WgDeleteInterface]))).
Proof.
  apply (service_commands_safe (λ _ _, 0)).
  apply Forall_cons_2; [|apply Forall_cons_2; [exact I|apply Forall_nil_2]].
  refine (bool_decide_unpack _ _). vm_compute. exact I.
Defined.

Definition samplePeer : reportedPeer :=
  Reported "0123456789abcdef0123456789abcdef" 1700000000 250000000 2048 4096
    [("endpoint", "203.0.113.10:51820")] [] [("allowed_ip", "0.0.0.0/0")].

Lemma otherField_sample name value :
  fieldOk (name, value) → bool_decide (name ∉ statusNames) = true → otherField (name, value).
Proof. intros Hok Hn. split; [done|]. by apply bool_decide_eq_true in Hn. Qed.

Lemma peers_recognized_example :
  let reply := join newlineText (fieldLine <$> [("listen_port", "51820")] ++
                 concat (reportedFields <$> [samplePeer]) ++ [("errno", "0")]) in
  peerStatuses reply = [Peer "0123456789abcdef0123456789abcdef" 1700000000250 4096 2048] ∧ uapiErrno reply = 0.
Proof.
  destruct (peers_recognized [("listen_port", "51820")] [samplePeer] "") as (Hs & He & _).
  - apply Forall_cons_2; [|apply Forall_nil_2]. by apply otherField_sample.
  - apply Forall_cons_2; [|apply Forall_nil_2]. unfold reportedOk. cbn. split_and!; try lia; try done.
    repeat (apply Forall_cons_2; [by apply otherField_sample|]). apply Forall_nil_2.
  - split; [exact Hs|exact He].
Defined.
