(* ===== verification/RouteMonitor.v ===== *)
(** * The route monitor of macOS ([platforms/macos/daemon/macosroutemonitor.cpp])

    The monitor talks to the kernel over a routing socket: it follows the default
    routes of the physical interfaces and keeps the routes of the addresses that are
    excluded from the tunnel on them.  Addresses are lists of bytes in the layout of
    [struct sockaddr]; a message that is sent is a record of its header with the bytes
    of its addresses, and messages that arrive are read byte by byte.  The socket, the
    interfaces and the dump of the routing table are requests with arbitrary answers;
    reading a variable that was not set and copying over the end of a buffer end the
    program.

    [sent_route_parsed] is the round trip of a message, [exclusions_follow_default]
    relates the routes in the kernel to the default routes, and [readiness_signalled]
    is about the signal.  A buffer ends in finitely many rounds when no message in it
    has the length zero ([framed]); [empty_message_repeats] is the other case. *)

From Stdlib Require Import Ascii.
From S2P Require Import Prelude QtCore NetworkUtilities DnsParser IpAddress Effects.
From stdpp Require Import options.

#[local] Open Scope Z_scope.
#[local] Set Default Proof Using "Type*".

(** ** Constants of the system *)

Definition AF_UNSPEC : Z := 0.
Definition AF_INET : Z := 2.
Definition AF_LINK : Z := 18.
Definition AF_INET6 : Z := 30.

Definition RTA_DST : Z := 1.
Definition RTA_GATEWAY : Z := 2.
Definition RTA_NETMASK : Z := 4.
Definition RTA_IFP : Z := 16.

Definition RTM_ADD : Z := 1.
Definition RTM_DELETE : Z := 2.
Definition RTM_CHANGE : Z := 3.
Definition RTM_GET : Z := 4.
Definition RTM_IFINFO : Z := 14.

Definition RTF_UP : Z := 1.
Definition RTF_GATEWAY : Z := 2.
Definition RTF_STATIC : Z := 2048.
Definition RTF_IFSCOPE : Z := 16777216.

Definition EEXIST : Z := 17.
Definition ESRCH : Z := 3.

(** [sizeof] of [rt_msghdr], [if_msghdr], [sockaddr_in], [sockaddr_in6] and
    [sockaddr_storage]. *)
Definition sizeofRtMsghdr : Z := 92.
Definition sizeofIfMsghdr : Z := 112.
Definition sizeofSockaddrIn : Z := 16.
Definition sizeofSockaddrIn6 : Z := 28.
Definition sizeofSockaddrStorage : Z := 128.

(** A bit of a mask is set. *)
Definition has (flags bit : Z) : bool := negb (Z.land flags bit =? 0).

(** ** Addresses *)

Notation sockaddr := (list Z).

Definition saLen (sa : sockaddr) : Z := sa !!! 0%nat.
Definition saFamily (sa : sockaddr) : Z := sa !!! 1%nat.

(** [sdl_index], a little-endian [u_short]. *)
Definition sdlIndex (sa : sockaddr) : Z := sa !!! 2%nat + 256 * sa !!! 3%nat.

Definition sockaddrIn (addr : list Z) : sockaddr := [sizeofSockaddrIn; AF_INET; 0; 0] ++ addr ++ replicate 8 0.
Definition sockaddrIn6 (addr : list Z) : sockaddr := [sizeofSockaddrIn6; AF_INET6; 0; 0; 0; 0; 0; 0] ++ addr ++ replicate 4 0.

(** The link-level address of the tunnel. *)
Definition sockaddrDl (name : string) (index : Z) : sockaddr :=
  let data := (λ c, Z.of_N (N_of_ascii c)) <$> String.list_ascii_of_string name in
  [8 + size data; AF_LINK; index mod 256; (index / 256) mod 256; 1; size data; 0; 0] ++ data.

Definition isTunnelInterfaceName (ifname : string) : bool := startsWith ifname "utun".

(** [memcpy] of [sa_len] bytes into a zeroed structure of [n] bytes; [None] when they
    do not fit. *)
Definition copyInto (n : Z) (sa : sockaddr) : option (list Z) :=
  if n <? saLen sa then None
  else Some (take (Z.to_nat n) (take (Z.to_nat (saLen sa)) sa ++ replicate (Z.to_nat n) 0)).

Definition allZero (bs : list Z) : bool := forallb (Z.eqb 0) bs.

Definition isDefaultNetmask (sa : sockaddr) : option bool :=
  if saFamily sa =? AF_INET then
    sin ← copyInto sizeofSockaddrIn sa; Some (allZero (take 4 (drop 4 sin)))
  else if saFamily sa =? AF_INET6 then
    sin6 ← copyInto sizeofSockaddrIn6 sa; Some (allZero (take 16 (drop 8 sin6)))
  else Some (saFamily sa =? AF_UNSPEC).

(** The number of bits below [wanted] that are set. *)
Fixpoint bitsBelow (fuel : nat) (mask addrs wanted : Z) : nat :=
  match fuel with
  | O => O
  | S fuel => if mask <? wanted
              then ((if has addrs mask then 1 else 0) + bitsBelow fuel (Z.shiftl mask 1) addrs wanted)%nat
              else O
  end.

(** [wanted] is one of the 32 bits of a mask. *)
Definition addrIndex (addrs wanted : Z) : nat := bitsBelow 32 1 addrs wanted.

Definition routeAddr (addrlist : list sockaddr) (addrs wanted : Z) : option sockaddr :=
  if negb (has addrs wanted) then None else addrlist !! addrIndex addrs wanted.

Definition padded (len : Z) : Z :=
  if (len =? 0) || negb (len mod 4 =? 0) then len + (4 - len mod 4) else len.

(** The loop takes at least four bytes in every round. *)
Fixpoint parseAddrLoop (fuel : nat) (payload : list Z) : list sockaddr :=
  match fuel with
  | O => []
  | S fuel =>
      if size payload <? 2 then []
      else
        let paddedSize := padded (saLen payload) in
        if size payload <? paddedSize then []
        else take (Z.to_nat paddedSize) payload :: parseAddrLoop fuel (drop (Z.to_nat paddedSize) payload)
  end.

Definition parseAddrList (payload : list Z) : list sockaddr := parseAddrLoop (length payload) payload.

(** ** State and requests *)

(** The part of a message to the kernel that depends on the request. *)
Record rtMessage := RtMessage {
  rtm_type : Z;
  rtm_index : Z;
  rtm_flags : Z;
  rtm_addrs : Z;
  rtm_seq : Z;
  rtm_payload : list Z;
}.

Definition rtm_msglen (m : rtMessage) : Z := sizeofRtMsghdr + size (rtm_payload m).

Record routeMonitor := Monitor {
  m_exclusionRoutes : list IPAddress;
  m_defaultGatewayIpv4 : sockaddr;
  m_defaultGatewayIpv6 : sockaddr;
  m_defaultIfindexIpv4 : Z;
  m_defaultIfindexIpv6 : Z;
  m_ifname : string;
  m_ifindex : Z;
  m_ifflags : Z;
  m_rtseq : Z;
}.

Inductive monitorRequest :=
  | OpenSocket
  | WriteMessage (m : rtMessage)
  | IfIndexToName (index : Z)
  | IfNameToIndex (name : string)
  | GetPid
  | Sysctl (family : Z)
  | PhysicalDefaultRouteChanged (ready : bool).

(** A write answers [None] when the whole message was written, and [errno] otherwise;
    the dump of the routing table answers [None] when it fails. *)
Definition monitorAns (c : monitorRequest) : Type :=
  match c with
  | OpenSocket => bool
  | WriteMessage _ => option Z
  | IfIndexToName _ => option string
  | IfNameToIndex _ | GetPid => Z
  | Sysctl _ => option (list Z)
  | PhysicalDefaultRouteChanged _ => unit
  end.

Canonical Structure monitorInterface : interface := Interface monitorRequest monitorAns.

Notation monitoring := (prog monitorInterface routeMonitor).

Definition ask (c : monitorRequest) : monitoring (monitorAns c) := request (I := monitorInterface) c.

Definition withExclusions (l : list IPAddress) (g : routeMonitor) : routeMonitor :=
  Monitor l (m_defaultGatewayIpv4 g) (m_defaultGatewayIpv6 g) (m_defaultIfindexIpv4 g) (m_defaultIfindexIpv6 g)
    (m_ifname g) (m_ifindex g) (m_ifflags g) (m_rtseq g).
Definition withDefault4 (gateway : sockaddr) (index : Z) (g : routeMonitor) : routeMonitor :=
  Monitor (m_exclusionRoutes g) gateway (m_defaultGatewayIpv6 g) index (m_defaultIfindexIpv6 g)
    (m_ifname g) (m_ifindex g) (m_ifflags g) (m_rtseq g).
Definition withDefault6 (gateway : sockaddr) (index : Z) (g : routeMonitor) : routeMonitor :=
  Monitor (m_exclusionRoutes g) (m_defaultGatewayIpv4 g) gateway (m_defaultIfindexIpv4 g) index
    (m_ifname g) (m_ifindex g) (m_ifflags g) (m_rtseq g).
Definition withIfindex (index : Z) (g : routeMonitor) : routeMonitor :=
  Monitor (m_exclusionRoutes g) (m_defaultGatewayIpv4 g) (m_defaultGatewayIpv6 g) (m_defaultIfindexIpv4 g)
    (m_defaultIfindexIpv6 g) (m_ifname g) index (m_ifflags g) (m_rtseq g).
Definition withIfflags (flags : Z) (g : routeMonitor) : routeMonitor :=
  Monitor (m_exclusionRoutes g) (m_defaultGatewayIpv4 g) (m_defaultGatewayIpv6 g) (m_defaultIfindexIpv4 g)
    (m_defaultIfindexIpv6 g) (m_ifname g) (m_ifindex g) flags (m_rtseq g).
Definition withRtseq (seq : Z) (g : routeMonitor) : routeMonitor :=
  Monitor (m_exclusionRoutes g) (m_defaultGatewayIpv4 g) (m_defaultGatewayIpv6 g) (m_defaultIfindexIpv4 g)
    (m_defaultIfindexIpv6 g) (m_ifname g) (m_ifindex g) (m_ifflags g) seq.

(** ** Sending routes *)

Definition padding (len : Z) : list Z := replicate (Z.to_nat (-len mod 4)) 0.

(** The buffer is zeroed, so the padding is of zeros. *)
Definition rtmAppendAddr (maxlen rtaddr : Z) (sa : sockaddr) (m : rtMessage) : rtMessage :=
  let bytes := take (Z.to_nat (saLen sa)) sa in
  if maxlen <? rtm_msglen m + saLen sa then m
  else RtMessage (rtm_type m) (rtm_index m) (rtm_flags m) (Z.lor (rtm_addrs m) rtaddr) (rtm_seq m)
         (rtm_payload m ++ bytes ++ padding (rtm_msglen m + saLen sa)).

Definition dstAddr (prefix : IPAddress) : sockaddr :=
  match address prefix with
  | HIPv6 bytes => sockaddrIn6 bytes
  | HIPv4 z => sockaddrIn (bytes32 z)
  | HNull => sockaddrIn (bytes32 0)
  end.

Definition maskAddr (prefix : IPAddress) : option sockaddr :=
  let plen := prefixLength prefix in
  match address prefix with
  | HIPv6 _ =>
      let raw := memset 255 0 (Z.to_nat (plen / 8)) zeroBytes in
      Some (sockaddrIn6 (if plen mod 8 =? 0 then raw
                         else <[Z.to_nat (plen / 8) := Z.lxor 255 (Z.shiftr 255 (plen mod 8))]> raw))
  | HIPv4 _ =>
      Some (sockaddrIn (bytes32 (if plen <? 32 then Z.lxor 0xFFFFFFFF (Z.shiftr 0xFFFFFFFF plen) else 0xFFFFFFFF)))
  | HNull => None
  end.

Definition rtmMaxSize : Z := sizeofRtMsghdr + sizeofSockaddrIn6 * 2 + sizeofSockaddrStorage.

Definition withFlags (flags : Z) (m : rtMessage) : rtMessage :=
  RtMessage (rtm_type m) (rtm_index m) (Z.lor (rtm_flags m) flags) (rtm_addrs m) (rtm_seq m) (rtm_payload m).

(** The message; [rtm_index] is a [u_short]. *)
Definition routeMessage (action : Z) (prefix : IPAddress) (ifindex : Z) (gateway : option sockaddr)
    (flags seq : Z) : rtMessage :=
  let m := RtMessage action (ifindex mod 65536) (Z.lor flags (Z.lor RTF_STATIC RTF_UP)) 0 seq [] in
  let m := rtmAppendAddr rtmMaxSize RTA_DST (dstAddr prefix) m in
  let m := match gateway with
           | Some gw =>
               rtmAppendAddr rtmMaxSize RTA_GATEWAY gw
                 (if (saFamily gw =? AF_INET) || (saFamily gw =? AF_INET6) then withFlags RTF_GATEWAY m else m)
           | None => m
           end in
  match maskAddr prefix with
  | Some mask => rtmAppendAddr rtmMaxSize RTA_NETMASK mask m
  | None => m
  end.

Section model.
#[local] Open Scope script_scope.

Definition rtmSendRoute (action : Z) (prefix : IPAddress) (ifindex : Z) (gateway : option sockaddr) (flags : Z) :
    monitoring bool :=
  g ← getGlobals;
  setGlobals (λ g, withRtseq (m_rtseq g + 1) g);;
  written ← ask (WriteMessage (routeMessage action prefix ifindex gateway flags (m_rtseq g)));
  Ret (match written with
       | None => true
       | Some errno => ((action =? RTM_ADD) && (errno =? EEXIST)) || ((action =? RTM_DELETE) && (errno =? ESRCH))
       end).

(** The request for the routing table; nothing of the answer is waited for. *)
Definition rtmFetchRoutes (family : Z) : monitoring bool :=
  g ← getGlobals;
  setGlobals (λ g, withRtseq (m_rtseq g + 1) g);;
  let m := RtMessage RTM_GET 0 (Z.lor RTF_UP RTF_GATEWAY) 0 (m_rtseq g) [] in
  let maxlen := sizeofRtMsghdr + sizeofSockaddrStorage * 2 in
  let both sa := rtmAppendAddr maxlen RTA_NETMASK sa (rtmAppendAddr maxlen RTA_DST sa m) in
  if family =? AF_INET then
    written ← ask (WriteMessage (both (sockaddrIn (replicate 4 0))));
    Ret (bool_decide (written = None))
  else if family =? AF_INET6 then
    written ← ask (WriteMessage (both (sockaddrIn6 (replicate 16 0))));
    Ret (bool_decide (written = None))
  else Ret false.

Definition insertRoute (prefix : IPAddress) (flags : Z) : monitoring bool :=
  g ← getGlobals;
  rtmSendRoute RTM_ADD prefix (m_ifindex g) (Some (sockaddrDl (m_ifname g) (m_ifindex g))) flags.

Definition deleteRoute (prefix : IPAddress) (flags : Z) : monitoring bool :=
  g ← getGlobals;
  rtmSendRoute RTM_DELETE prefix (m_ifindex g) None flags.

(** ** The default routes *)

Definition hasPhysicalDefaultRoute (g : routeMonitor) : bool :=
  negb (m_defaultIfindexIpv4 g =? 0) && negb (bool_decide (m_defaultGatewayIpv4 g = [])).

Definition notifyPhysicalDefaultRouteChanged (wasReady : bool) : monitoring unit :=
  g ← getGlobals;
  if Bool.eqb (hasPhysicalDefaultRoute g) wasReady then Ret tt
  else ask (PhysicalDefaultRouteChanged (hasPhysicalDefaultRoute g)).

(** The loop over the exclusion routes of one protocol. *)
Definition sendExclusions (action : Z) (proto : NetworkLayerProtocol) (ifindex : Z) (gateway : option sockaddr) :
    monitoring unit :=
  g ← getGlobals;
  forEach (m_exclusionRoutes g) (λ prefix,
    if bool_decide (protocol (address prefix) = proto)
    then rtmSendRoute action prefix ifindex gateway 0;; Ret tt else Ret tt).

(** The new default route of a family; [None] when the family has none. *)
Definition setDefault (family : Z) (gateway : sockaddr) (ifindex : Z) : option (monitoring unit) :=
  if family =? AF_INET then Some (
    g ← getGlobals;
    setGlobals (withDefault4 gateway ifindex);;
    sendExclusions (if m_defaultIfindexIpv4 g =? 0 then RTM_ADD else RTM_CHANGE) IPv4Protocol ifindex (Some gateway))
  else if family =? AF_INET6 then Some (
    g ← getGlobals;
    setGlobals (withDefault6 gateway ifindex);;
    sendExclusions (if m_defaultIfindexIpv6 g =? 0 then RTM_ADD else RTM_CHANGE) IPv6Protocol ifindex (Some gateway))
  else None.

(** The fields of a header that the handlers use. *)
Record rtHeader := RtHeader { hIndex : Z; hFlags : Z; hAddrs : Z; hPid : Z; hType : Z }.

(** A name that is not found leaves the text that was there. *)
Definition nameOf (index : Z) : monitoring string :=
  name ← ask (IfIndexToName index); Ret (default "null" name).

Definition complete (addrs : Z) (addrlist : list sockaddr) : bool :=
  has addrs RTA_DST && has addrs RTA_GATEWAY && has addrs RTA_NETMASK && (3 <=? length addrlist)%nat.

Definition orUndefined {X} (x : option X) : monitoring X := match x with Some a => Ret a | None => Throw end.

Definition handleRtmDelete (rtm : rtHeader) (payload : list Z) : monitoring unit :=
  g ← getGlobals;
  let wasReady := hasPhysicalDefaultRoute g in
  let addrlist := parseAddrList payload in
  if hIndex rtm =? m_ifindex g then Ret tt
  else
    ifname ← (if hIndex rtm =? 0 then Ret "null" else nameOf (hIndex rtm));
    if isTunnelInterfaceName ifname then Ret tt
    else if negb (complete (hAddrs rtm) addrlist) then Ret tt
    else if has (hFlags rtm) RTF_IFSCOPE then Ret tt
    else
      isDefault ← orUndefined (isDefaultNetmask (addrlist !!! 2%nat));
      if negb isDefault then Ret tt
      else
        let family := saFamily (addrlist !!! 0%nat) in
        (if family =? AF_INET then
           setGlobals (withDefault4 [] 0);;
           sendExclusions RTM_DELETE IPv4Protocol (hIndex rtm) None
         else if family =? AF_INET6 then
           setGlobals (withDefault6 [] 0);;
           sendExclusions RTM_DELETE IPv6Protocol (hIndex rtm) None
         else if bool_decide (m_exclusionRoutes g = []) then Ret tt
         else Throw);;
        notifyPhysicalDefaultRouteChanged wasReady.

(** The index of the interface, from the list of addresses when it is there. *)
Definition updateIndex (rtm : rtHeader) (addrlist : list sockaddr) : option Z :=
  if has (hAddrs rtm) RTA_IFP then
    match addrlist !! addrIndex (hAddrs rtm) RTA_IFP with
    | None => None
    | Some sdl => Some (if saFamily sdl =? AF_LINK then sdlIndex sdl else hIndex rtm)
    end
  else Some (hIndex rtm).

Definition handleRtmUpdate (rtm : rtHeader) (payload : list Z) : monitoring unit :=
  g ← getGlobals;
  let wasReady := hasPhysicalDefaultRoute g in
  let addrlist := parseAddrList payload in
  if negb (complete (hAddrs rtm) addrlist) then Ret tt
  else if has (hFlags rtm) RTF_IFSCOPE then Ret tt
  else if hIndex rtm =? m_ifindex g then Ret tt
  else
    pid ← ask GetPid;
    if (hPid rtm =? pid) && negb (hType rtm =? RTM_GET) then Ret tt
    else
      match updateIndex rtm addrlist with
      | None => Ret tt
      | Some ifindex =>
          ifname ← nameOf ifindex;
          if isTunnelInterfaceName ifname then Ret tt
          else
            isDefault ← orUndefined (isDefaultNetmask (addrlist !!! 2%nat));
            if negb isDefault then Ret tt
            else match setDefault (saFamily (addrlist !!! 0%nat)) (addrlist !!! 1%nat) ifindex with
                 | None => Ret tt
                 | Some update => update;; notifyPhysicalDefaultRouteChanged wasReady
                 end
      end.

(** ** Exclusion routes *)

(** The default route of a protocol, when it is known. *)
Definition knownDefault (g : routeMonitor) (proto : NetworkLayerProtocol) : option (Z * sockaddr) :=
  match proto with
  | IPv4Protocol =>
      if negb (m_defaultIfindexIpv4 g =? 0) && negb (bool_decide (m_defaultGatewayIpv4 g = []))
      then Some (m_defaultIfindexIpv4 g, m_defaultGatewayIpv4 g) else None
  | IPv6Protocol =>
      if negb (m_defaultIfindexIpv6 g =? 0) && negb (bool_decide (m_defaultGatewayIpv6 g = []))
      then Some (m_defaultIfindexIpv6 g, m_defaultGatewayIpv6 g) else None
  | UnknownNetworkLayerProtocol => None
  end.

Definition dropExclusion (prefix : IPAddress) (g : routeMonitor) : routeMonitor :=
  withExclusions (filter (λ p, p ≠ prefix) (m_exclusionRoutes g)) g.

Definition addExclusionRoute (prefix : IPAddress) : monitoring bool :=
  g ← getGlobals;
  if bool_decide (prefix ∈ m_exclusionRoutes g) then Ret true
  else
    setGlobals (λ g, withExclusions (m_exclusionRoutes g ++ [prefix]) g);;
    match knownDefault g (protocol (address prefix)) with
    | Some (ifindex, gateway) =>
        ok ← rtmSendRoute RTM_ADD prefix ifindex (Some gateway) 0;
        (if ok : bool then Ret tt else setGlobals (dropExclusion prefix));;
        Ret ok
    | None => Ret true
    end.

Definition sendDelete (prefix : IPAddress) : monitoring bool :=
  g ← getGlobals;
  match protocol (address prefix) with
  | IPv4Protocol => rtmSendRoute RTM_DELETE prefix (m_defaultIfindexIpv4 g) None 0
  | IPv6Protocol => rtmSendRoute RTM_DELETE prefix (m_defaultIfindexIpv6 g) None 0
  | UnknownNetworkLayerProtocol => Ret false
  end.

Definition deleteExclusionRoute (prefix : IPAddress) : monitoring bool :=
  setGlobals (dropExclusion prefix);;
  sendDelete prefix.

(** Every round takes the first prefix. *)
Definition flushExclusionRoutes : monitoring unit :=
  g ← getGlobals;
  forEach (m_exclusionRoutes g) (λ prefix,
    setGlobals (λ g, withExclusions (tail (m_exclusionRoutes g)) g);;
    sendDelete prefix;; Ret tt).

(** ** Messages from the kernel *)

(** Little-endian fields of a header; [None] beyond the buffer. *)
Definition field (width offset : nat) (buf : list Z) : option Z :=
  if (length buf <? offset + width)%nat then None
  else Some (foldr (λ b acc, b + 256 * acc) 0 (take width (drop offset buf))).

Definition handleIfaceInfo (index flags : Z) : monitoring unit :=
  g ← getGlobals;
  own ← ask (IfNameToIndex (m_ifname g));
  if negb (index =? own) then Ret tt else setGlobals (withIfflags flags).

Definition rtHeaderOf (buf : list Z) : option rtHeader :=
  (index ← field 2 4 buf; flags ← field 4 8 buf; addrs ← field 4 12 buf; pid ← field 4 16 buf; type ← field 1 3 buf;
   Some (RtHeader index flags addrs pid type))%stdpp.

Definition handleMessage (buf message : list Z) : monitoring unit :=
  type ← orUndefined (field 1 3 buf);
  let payload := drop (Z.to_nat sizeofRtMsghdr) message in
  if (type =? RTM_ADD) || (type =? RTM_CHANGE) || (type =? RTM_GET) then
    rtm ← orUndefined (rtHeaderOf buf); handleRtmUpdate rtm payload
  else if type =? RTM_DELETE then
    rtm ← orUndefined (rtHeaderOf buf); handleRtmDelete rtm payload
  else if type =? RTM_IFINFO then
    flags ← orUndefined (field 4 8 buf);
    index ← orUndefined (field 2 12 buf);
    handleIfaceInfo index flags
  else Ret tt.

(** The loop over one buffer: a message of the length zero is handled again and
    again, so the fuel, one more than there are bytes, is used up. *)
Fixpoint messageLoop (fuel : nat) (buf : list Z) : monitoring unit :=
  match fuel with
  | O => OutOfFuel
  | S fuel =>
      match buf with
      | [] => Ret tt
      | _ =>
          msglen ← orUndefined (field 2 0 buf);
          if size buf <? msglen then Ret tt
          else
            handleMessage buf (take (Z.to_nat msglen) buf);;
            messageLoop fuel (drop (Z.to_nat msglen) buf)
      end
  end.

(** [rtsockReady]: the buffers that [recv] gives until there are no more; a call that
    is interrupted is repeated. *)
Definition rtsockReady (buffers : list (list Z)) : monitoring unit :=
  forEach buffers (λ buf, messageLoop (S (length buf)) buf).

(** ** The dump of the routing table *)

(** The first default route of a physical interface. *)
Fixpoint dumpLoop (fuel : nat) (table : list Z) : monitoring unit :=
  match fuel with
  | O => Ret tt
  | S fuel =>
      if size table <? sizeofRtMsghdr then Ret tt
      else
        msglen ← orUndefined (field 2 0 table);
        if (msglen <? sizeofRtMsghdr) || (size table <? msglen) then Ret tt
        else
          rtm ← orUndefined (rtHeaderOf table);
          let next := drop (Z.to_nat msglen) table in
          if negb (has (hFlags rtm) RTF_UP) || negb (has (hFlags rtm) RTF_GATEWAY) then dumpLoop fuel next
          else
            let addrlist := parseAddrList (drop (Z.to_nat sizeofRtMsghdr) (take (Z.to_nat msglen) table)) in
            match routeAddr addrlist (hAddrs rtm) RTA_DST, routeAddr addrlist (hAddrs rtm) RTA_GATEWAY,
                  routeAddr addrlist (hAddrs rtm) RTA_NETMASK with
            | Some dst, Some gateway, Some netmask =>
                isDefault ← orUndefined (isDefaultNetmask netmask);
                if negb isDefault then dumpLoop fuel next
                else
                  let ifindex := match routeAddr addrlist (hAddrs rtm) RTA_IFP with
                                 | Some sdl => if saFamily sdl =? AF_LINK then sdlIndex sdl else hIndex rtm
                                 | None => hIndex rtm
                                 end in
                  if ifindex =? 0 then dumpLoop fuel next
                  else
                    ifname ← ask (IfIndexToName ifindex);
                    match ifname with
                    | None => dumpLoop fuel next
                    | Some name =>
                        if isTunnelInterfaceName name then dumpLoop fuel next
                        else match setDefault (saFamily dst) gateway ifindex with
                             | Some update => update
                             | None => dumpLoop fuel next
                             end
                    end
            | _, _, _ => dumpLoop fuel next
            end
  end.

Definition rtmFetchDefaultRoutes (family : Z) : monitoring bool :=
  table ← ask (Sysctl family);
  match table with
  | None => Ret false
  | Some table => dumpLoop (length table) table;; Ret true
  end.

Definition refreshPhysicalDefaultRoutes : monitoring unit :=
  g ← getGlobals;
  setGlobals (λ g, withDefault6 [] 0 (withDefault4 [] 0 g));;
  rtmFetchDefaultRoutes AF_INET;;
  rtmFetchDefaultRoutes AF_INET6;;
  notifyPhysicalDefaultRouteChanged (hasPhysicalDefaultRoute g).

Definition newMonitor (ifname : string) : routeMonitor := Monitor [] [] [] 0 0 ifname 0 0 0.

Definition construct : monitoring unit :=
  opened ← ask OpenSocket;
  if negb opened then Ret tt
  else
    g ← getGlobals;
    index ← ask (IfNameToIndex (m_ifname g));
    setGlobals (withIfindex index);;
    (if isEmpty (m_ifname g) then Ret tt
     else rtmFetchRoutes AF_INET;; rtmFetchRoutes AF_INET6;; Ret tt);;
    refreshPhysicalDefaultRoutes.
End model.

(** ** A message is read as it was written *)

(** An address with its padding. *)
Definition pack (sa : sockaddr) : list Z := take (Z.to_nat (saLen sa)) sa ++ padding (saLen sa).

(** An address that is as long as it says, and fits the buffer of a message. *)
Definition sockaddrOk (sa : sockaddr) : Prop := 1 ≤ saLen sa ≤ sizeofSockaddrStorage ∧ saLen sa ≤ size sa.

Lemma length_padding len : length (padding len) = Z.to_nat (-len mod 4).
Proof. unfold padding. by rewrite length_replicate. Qed.

Lemma length_pack sa : sockaddrOk sa → Z.of_nat (length (pack sa)) = padded (saLen sa).
Proof.
  intros [[Hl _] Hs]. unfold pack, padded, size in *. rewrite length_app, length_take, length_padding.
  rewrite (proj2 (Z.eqb_neq _ _)) by lia. cbn [orb]. destruct (Z.eqb_spec (saLen sa mod 4) 0) as [Hm|Hm]; cbn [negb].
  - rewrite Z.mod_opp_l_z by lia. lia.
  - rewrite Z.mod_opp_l_nz by lia. pose proof (Z.mod_pos_bound (saLen sa) 4). lia.
Qed.

Lemma saLen_pack sa rest : sockaddrOk sa → saLen (pack sa ++ rest) = saLen sa.
Proof.
  intros [[Hl _] Hs]. unfold pack, saLen in *. destruct sa as [|b sa]; [done|]. cbn in Hl.
  destruct (Z.to_nat _) eqn:E; [cbn in E; lia|]. done.
Qed.

Lemma parseAddrLoop_pack fuel l :
  Forall sockaddrOk l → (length (concat (pack <$> l)) ≤ fuel)%nat → parseAddrLoop fuel (concat (pack <$> l)) = pack <$> l.
Proof.
  intros Hl. revert fuel. induction Hl as [|sa l Hsa Hl IH]; intros fuel Hfuel; cbn [fmap list_fmap concat] in *.
  { by destruct fuel. }
  pose proof (length_pack sa Hsa) as Hlen. rewrite length_app in Hfuel.
  assert (4 ≤ padded (saLen sa)) as Hp.
  { destruct Hsa as [[? _] _]. unfold padded. rewrite (proj2 (Z.eqb_neq _ _)) by lia.
    destruct (Z.eqb_spec (saLen sa mod 4) 0); cbn; Z.to_euclidean_division_equations; lia. }
  destruct fuel as [|fuel]; [lia|]. cbn [parseAddrLoop]. rewrite saLen_pack by done.
  unfold size. rewrite length_app. rewrite (proj2 (Z.ltb_ge _ _)) by lia. rewrite (proj2 (Z.ltb_ge _ _)) by lia.
  rewrite <-Hlen, Nat2Z.id, take_app_length, drop_app_length. f_equal. apply IH. lia.
Qed.

Lemma parseAddrList_pack l : Forall sockaddrOk l → parseAddrList (concat (pack <$> l)) = pack <$> l.
Proof. intros Hl. by apply parseAddrLoop_pack. Qed.

(** An address of a host. *)
Definition sockaddrOf (a : hostAddress) : sockaddr :=
  match a with
  | HIPv6 bytes => sockaddrIn6 bytes
  | HIPv4 z => sockaddrIn (bytes32 z)
  | HNull => sockaddrIn (bytes32 0)
  end.

Lemma sockaddrOf_ok a : validHost a → sockaddrOk (sockaddrOf a) ∧ pack (sockaddrOf a) = sockaddrOf a.
Proof.
  destruct a as [|z|bytes]; cbn [validHost]; [done|..].
  - intros _. split; [|done]. by split; vm_compute.
  - intros [Hlen _]. do 16 (destruct bytes as [|? bytes]; [done|]). destruct bytes; [|done]. split; [|done].
    by split; vm_compute.
Qed.

Lemma dstAddr_of prefix : dstAddr prefix = sockaddrOf (address prefix).
Proof. done. Qed.

Lemma maskAddr_of prefix : validRange prefix → maskAddr prefix = Some (sockaddrOf (netmask prefix)).
Proof. intros [Hv _]. unfold maskAddr, netmask. by destruct (address prefix). Qed.

Lemma netmask_valid prefix : validRange prefix → validHost (netmask prefix).
Proof.
  destruct prefix as [[|z|bytes] p]; intros [Hv Hp]; cbn in *; [done|..].
  - destruct (Z.ltb_spec p 32); [|done].
    pose proof (forallb_seqZ (λ p, let m := Z.lxor 4294967295 (Z.shiftr 4294967295 p) in (0 <=? m) && (m <? 2 ^ 32))
      0 32 p) as Hf. cbn beta zeta in Hf. specialize (Hf ltac:(by vm_compute)). lia.
  - assert (0 ≤ p mod 8 < 8 ∧ 0 ≤ p / 8 ≤ 16) as [Hm Hd] by (Z.to_euclidean_division_equations; lia).
    assert (length (memset 255 0 (Z.to_nat (p / 8)) zeroBytes) = 16%nat) as Hlen by (rewrite length_memset; [done|cbn; lia]).
    assert (Forall (λ b, 0 ≤ b < 2 ^ 8) (memset 255 0 (Z.to_nat (p / 8)) zeroBytes)) as Hall.
    { unfold memset. rewrite take_0. cbn [app]. apply Forall_app_2; [by apply Forall_replicate|]. by apply Forall_drop, Forall_replicate. }
    destruct (p mod 8 =? 0); [done|]. rewrite length_insert. split; [done|]. apply Forall_insert; [done|].
    pose proof (forallb_seqZ (λ r, let m := Z.lxor 255 (Z.shiftr 255 r) in (0 <=? m) && (m <? 2 ^ 8)) 0 8 (p mod 8)) as Hf.
    cbn beta zeta in Hf. specialize (Hf ltac:(by vm_compute)). lia.
Qed.

(** The bytes of the addresses of a message, and the bits for them. *)
Lemma append_ok rtaddr sa m :
  sockaddrOk sa → rtm_msglen m mod 4 = 0 → rtm_msglen m + padded (saLen sa) ≤ rtmMaxSize →
  let m' := rtmAppendAddr rtmMaxSize rtaddr sa m in
  rtm_payload m' = rtm_payload m ++ pack sa ∧ rtm_addrs m' = Z.lor (rtm_addrs m) rtaddr ∧
  rtm_type m' = rtm_type m ∧ rtm_index m' = rtm_index m ∧ rtm_flags m' = rtm_flags m ∧
  rtm_msglen m' = rtm_msglen m + padded (saLen sa) ∧ rtm_msglen m' mod 4 = 0.
Proof.
  intros Hsa Hm Hmax m'. pose proof (length_pack sa Hsa) as Hlen.
  assert (saLen sa ≤ padded (saLen sa) ∧ padded (saLen sa) mod 4 = 0) as [Hle Hmod].
  { destruct Hsa as [[? _] _]. unfold padded. rewrite (proj2 (Z.eqb_neq _ _)) by lia.
    destruct (Z.eqb_spec (saLen sa mod 4) 0); cbn; Z.to_euclidean_division_equations; lia. }
  assert (rtm_payload m' = rtm_payload m ++ pack sa) as Hp.
  { unfold m', rtmAppendAddr. rewrite (proj2 (Z.ltb_ge _ _)) by lia. cbn. unfold pack, padding.
    do 4 f_equal. Z.to_euclidean_division_equations; lia. }
  assert (rtm_msglen m' = rtm_msglen m + padded (saLen sa)) as Hl.
  { unfold rtm_msglen. rewrite Hp, size_app. unfold size. lia. }
  split_and!; [done|..|done|]; try (unfold m', rtmAppendAddr; rewrite (proj2 (Z.ltb_ge _ _)) by lia; done).
  rewrite Hl. Z.to_euclidean_division_equations; lia.
Qed.

Definition gatewayPart (gateway : option sockaddr) : list sockaddr := match gateway with Some gw => [gw] | None => [] end.

(** The message for a route has its destination, the gateway when there is one, and
    the mask, and fits the buffer. *)
Lemma routeMessage_spec action prefix ifindex gateway flags seq :
  validRange prefix → (∀ gw, gateway = Some gw → sockaddrOk gw) →
  let m := routeMessage action prefix ifindex gateway flags seq in
  rtm_payload m = concat (pack <$> ([dstAddr prefix] ++ gatewayPart gateway ++ [sockaddrOf (netmask prefix)])) ∧
  rtm_addrs m = Z.lor (Z.lor RTA_DST (if gateway then RTA_GATEWAY else 0)) RTA_NETMASK ∧
  rtm_type m = action ∧ rtm_index m = ifindex mod 65536 ∧ rtm_msglen m ≤ rtmMaxSize.
Proof.
  intros Hp Hgw m. destruct (sockaddrOf_ok _ (proj1 Hp)) as [Hd _]. destruct (sockaddrOf_ok _ (netmask_valid _ Hp)) as [Hm _].
  assert (∀ a, validHost a → padded (saLen (sockaddrOf a)) ≤ 28) as Hlen by (by intros [|z|bytes] ?; vm_compute).
  unfold m, routeMessage. rewrite maskAddr_of by done. set (m0 := RtMessage _ _ _ _ _ []).
  pose proof (Hlen _ (proj1 Hp)) as Hl1. pose proof (Hlen _ (netmask_valid _ Hp)) as Hl2.
  destruct (append_ok RTA_DST (dstAddr prefix) m0 Hd) as (P1 & A1 & T1 & I1 & F1 & L1 & M1); [done|..].
  { rewrite dstAddr_of. change (rtm_msglen m0) with 92. change rtmMaxSize with 276. lia. }
  change (rtm_msglen m0) with 92 in L1.
  change (saLen (dstAddr prefix)) with (saLen (sockaddrOf (address prefix))) in L1.
  set (m1 := rtmAppendAddr rtmMaxSize RTA_DST (dstAddr prefix) m0) in *.
  destruct gateway as [gw|].
  - specialize (Hgw gw eq_refl). set (m1' := if _ || _ then withFlags RTF_GATEWAY m1 else m1).
    assert (rtm_payload m1' = rtm_payload m1 ∧ rtm_addrs m1' = rtm_addrs m1 ∧ rtm_type m1' = rtm_type m1 ∧
            rtm_index m1' = rtm_index m1 ∧ rtm_msglen m1' = rtm_msglen m1) as (P1' & A1' & T1' & I1' & L1')
      by (unfold m1'; by destruct (_ || _)).
    assert (padded (saLen gw) ≤ 128) as Hl.
    { destruct Hgw as [[? Hg] _]. unfold sizeofSockaddrStorage in Hg. unfold padded.
      rewrite (proj2 (Z.eqb_neq _ _)) by lia. destruct (Z.eqb_spec (saLen gw mod 4) 0); cbn; [lia|].
      Z.to_euclidean_division_equations; lia. }
    destruct (append_ok RTA_GATEWAY gw m1' Hgw) as (P2 & A2 & T2 & I2 & F2 & L2 & M2); [by rewrite L1'|..].
    { rewrite L1', L1. change rtmMaxSize with 276. lia. }
    set (m2 := rtmAppendAddr rtmMaxSize RTA_GATEWAY gw m1') in *.
    destruct (append_ok RTA_NETMASK _ m2 Hm M2) as (P3 & A3 & T3 & I3 & F3 & L3 & M3).
    { rewrite L2, L1', L1. change rtmMaxSize with 276. lia. }
    rewrite P3, A3, T3, I3, L3, P2, A2, T2, I2, L2, P1', A1', T1', I1', L1', P1, A1, T1, I1, L1. cbn [m0 rtm_payload rtm_addrs rtm_type rtm_index].
    split_and!; [|done..|change rtmMaxSize with 276; lia]. cbn. by rewrite app_nil_r, <-app_assoc.
  - destruct (append_ok RTA_NETMASK _ m1 Hm M1) as (P3 & A3 & T3 & I3 & F3 & L3 & M3).
    { rewrite L1. change rtmMaxSize with 276. lia. }
    rewrite P3, A3, T3, I3, L3, P1, A1, T1, I1, L1. cbn [m0 rtm_payload rtm_addrs rtm_type rtm_index].
    split_and!; [|done..|change rtmMaxSize with 276; lia]. cbn. by rewrite app_nil_r.
Qed.

Lemma routeMessage_parsed action prefix ifindex gateway flags seq :
  validRange prefix → (∀ gw, gateway = Some gw → sockaddrOk gw) →
  parseAddrList (rtm_payload (routeMessage action prefix ifindex gateway flags seq)) =
    [dstAddr prefix] ++ (pack <$> gatewayPart gateway) ++ [sockaddrOf (netmask prefix)].
Proof.
  intros Hp Hgw. destruct (routeMessage_spec action prefix ifindex gateway flags seq Hp Hgw) as (-> & _).
  destruct (sockaddrOf_ok _ (proj1 Hp)) as [Hd Hd']. destruct (sockaddrOf_ok _ (netmask_valid _ Hp)) as [Hm Hm'].
  rewrite parseAddrList_pack.
  - rewrite !fmap_app. cbn [fmap list_fmap]. by rewrite dstAddr_of, Hd', Hm'.
  - apply Forall_app_2; [by apply Forall_cons_2; [|apply Forall_nil_2]|]. apply Forall_app_2.
    + destruct gateway as [gw|]; [|by apply Forall_nil_2]. apply Forall_cons_2; [by apply Hgw|]. by apply Forall_nil_2.
    + by apply Forall_cons_2; [|apply Forall_nil_2].
Qed.

(** The mask that is sent is recognised as the one of a default route exactly when
    the prefix is empty. *)
Lemma isDefaultNetmask_netmask prefix :
  validRange prefix → isDefaultNetmask (sockaddrOf (netmask prefix)) = Some (prefixLength prefix =? 0).
Proof.
  destruct prefix as [[|z|bytes] p]; intros [Hv Hp]; cbn [address prefixLength validHost width] in *; [done|..].
  - set (f q := bool_decide (isDefaultNetmask (sockaddrOf (netmask (IPRange (HIPv4 0) q))) = Some (q =? 0))).
    pose proof (forallb_seqZ f 0 33 p ltac:(by vm_compute) ltac:(lia)) as Hf. by apply bool_decide_eq_true in Hf.
  - set (f q := bool_decide (isDefaultNetmask (sockaddrOf (netmask (IPRange (HIPv6 []) q))) = Some (q =? 0))).
    pose proof (forallb_seqZ f 0 129 p ltac:(by vm_compute) ltac:(lia)) as Hf. by apply bool_decide_eq_true in Hf.
Qed.

(** C27: what the monitor sends is what its own parser reads.  For every valid prefix
    and every gateway address of up to 128 bytes, no address is dropped from the
    message, the message fits its buffer, and parsing it finds the destination, the
    gateway and a mask that has exactly the bits of the prefix and that the monitor
    takes for the mask of a default route exactly when the prefix is empty. *)
Theorem sent_route_parsed (action : Z) (prefix : IPAddress) (ifindex : Z) (gw : sockaddr) (flags seq : Z) :
  validRange prefix → sockaddrOk gw →
  let m := routeMessage action prefix ifindex (Some gw) flags seq in
  let addrlist := parseAddrList (rtm_payload m) in
  rtm_msglen m ≤ rtmMaxSize ∧ complete (rtm_addrs m) addrlist = true ∧
  routeAddr addrlist (rtm_addrs m) RTA_DST = Some (sockaddrOf (address prefix)) ∧
  routeAddr addrlist (rtm_addrs m) RTA_GATEWAY = Some (pack gw) ∧
  routeAddr addrlist (rtm_addrs m) RTA_NETMASK = Some (sockaddrOf (netmask prefix)) ∧
  (∀ i, 0 ≤ i < width (address prefix) → bitAt (netmask prefix) i = bool_decide (i < prefixLength prefix)) ∧
  isDefaultNetmask (sockaddrOf (netmask prefix)) = Some (prefixLength prefix =? 0).
Proof.
  intros Hp Hgw m addrlist.
  destruct (routeMessage_spec action prefix ifindex (Some gw) flags seq Hp) as (_ & HA & _ & _ & Hlen); [by intros ? [= <-]|].
  assert (addrlist = [dstAddr prefix; pack gw; sockaddrOf (netmask prefix)]) as ->
    by (apply (routeMessage_parsed action prefix ifindex (Some gw) flags seq Hp); by intros ? [= <-]).
  fold m in HA, Hlen. rewrite HA. split_and!; [done..| |].
  - intros i Hi. by destruct (masks_exact prefix i Hp Hi) as [? _].
  - by apply isDefaultNetmask_netmask.
Qed.

(** ** The routes in the kernel *)

(** A message is about a prefix when its first address is the destination and its
    last one the mask of the prefix. *)
Definition describes (prefix : IPAddress) (m : rtMessage) : bool :=
  bool_decide (head (parseAddrList (rtm_payload m)) = Some (dstAddr prefix)) &&
  bool_decide (last (parseAddrList (rtm_payload m)) = maskAddr prefix).

Inductive routeStatus := Absent | Present (index : Z) (gateway : sockaddr) | Misused.

#[export] Instance routeStatus_eq_dec : EqDecision routeStatus.
Proof. solve_decision. Defined.

(** What the kernel does: adding a route that is there and changing one that is not
    are errors. *)
Definition applyAction (action index : Z) (gateway : sockaddr) (st : routeStatus) : routeStatus :=
  if action =? RTM_ADD then match st with Absent => Present index gateway | _ => Misused end
  else if action =? RTM_CHANGE then match st with Present _ _ => Present index gateway | _ => Misused end
  else if action =? RTM_DELETE then match st with Misused => Misused | _ => Absent end
  else st.

Definition gatewayOf (m : rtMessage) : sockaddr :=
  default [] (routeAddr (parseAddrList (rtm_payload m)) (rtm_addrs m) RTA_GATEWAY).

Definition statusStep (prefix : IPAddress) (st : routeStatus) (e : event monitorInterface) : routeStatus :=
  match evCall e with
  | WriteMessage m => if describes prefix m then applyAction (rtm_type m) (rtm_index m) (gatewayOf m) st else st
  | _ => st
  end.

Definition status (h : trace monitorInterface) (prefix : IPAddress) : routeStatus := foldl (statusStep prefix) Absent h.

(** The kernel accepts a route that is not there yet. *)
Definition kernel : environment monitorInterface := λ h c,
  match c as c return monitorAns c → Prop with
  | WriteMessage m => λ x, ∀ prefix, validRange prefix → describes prefix m = true →
      rtm_type m = RTM_ADD → status h prefix = Absent → x = None
  | _ => λ _, True
  end.

Lemma sockaddrOf_inj a b : validHost a → validHost b → sockaddrOf a = sockaddrOf b → a = b.
Proof.
  destruct a as [|x|xs], b as [|y|ys]; cbn [validHost]; try done; intros Ha Hb Heq.
  - injection Heq as H1 H2 H3 H4. f_equal. pose proof (bytes32_value x). pose proof (bytes32_value y). congruence.
  - unfold sockaddrOf, sockaddrIn6 in Heq. f_equal. apply (app_inj_1 _ _ (replicate 4 0) (replicate 4 0)).
    + by rewrite (proj1 Ha), (proj1 Hb).
    + by injection Heq.
Qed.

Lemma netmask_inj p q :
  validRange p → validRange q → width (address p) = width (address q) → netmask p = netmask q → prefixLength p = prefixLength q.
Proof.
  intros Hp Hq Hw Heq. destruct (Z.lt_trichotomy (prefixLength p) (prefixLength q)) as [Hlt|[?|Hlt]]; [exfalso|done|exfalso].
  - destruct Hp as [Hpv Hpl] eqn:Ep, Hq as [Hqv Hql] eqn:Eq. clear Ep Eq.
    destruct (masks_exact p (prefixLength p)) as [H1 _]; [done|lia|].
    destruct (masks_exact q (prefixLength p)) as [H2 _]; [done|lia|]. rewrite Heq in H1. rewrite H1 in H2.
    rewrite bool_decide_false, bool_decide_true in H2 by lia. done.
  - destruct Hp as [Hpv Hpl] eqn:Ep, Hq as [Hqv Hql] eqn:Eq. clear Ep Eq.
    destruct (masks_exact p (prefixLength q)) as [H1 _]; [done|lia|].
    destruct (masks_exact q (prefixLength q)) as [H2 _]; [done|lia|]. rewrite Heq in H1. rewrite H1 in H2.
    rewrite (bool_decide_true (_ < prefixLength p)), bool_decide_false in H2 by lia. done.
Qed.

Lemma last_app_one {X} (l : list X) x : last (l ++ [x]) = Some x.
Proof. induction l as [|y l IH]; [done|]. cbn. destruct (l ++ [x]) eqn:E; [by destruct l|done]. Qed.

(** A message is about the prefix it was made for, and about no other. *)
Lemma describes_message q action prefix ifindex gateway flags seq :
  validRange q → validRange prefix → (∀ gw, gateway = Some gw → sockaddrOk gw) →
  describes q (routeMessage action prefix ifindex gateway flags seq) = bool_decide (q = prefix).
Proof.
  intros Hq Hp Hgw. unfold describes. rewrite routeMessage_parsed by done. rewrite app_assoc, last_app_one.
  cbn [app head]. rewrite maskAddr_of by done. apply eq_true_iff_eq. rewrite andb_true_iff, !bool_decide_eq_true. split; [|by intros ->].
  intros [Hd Hm]. injection Hd as Hd. injection Hm as Hm.
  apply sockaddrOf_inj in Hd; [|apply Hp|apply Hq]. apply sockaddrOf_inj in Hm; [|by apply netmask_valid..].
  destruct q as [qa ql], prefix as [pa pl]. cbn in Hd. subst qa. f_equal. symmetry.
  apply (netmask_inj (IPRange pa pl) (IPRange pa ql)); done.
Qed.

Lemma gatewayOf_message action prefix ifindex gateway flags seq :
  validRange prefix → (∀ gw, gateway = Some gw → sockaddrOk gw) →
  gatewayOf (routeMessage action prefix ifindex gateway flags seq) = match gateway with Some gw => pack gw | None => [] end.
Proof.
  intros Hp Hgw. unfold gatewayOf. rewrite routeMessage_parsed by done.
  destruct (routeMessage_spec action prefix ifindex gateway flags seq Hp Hgw) as (_ & -> & _). by destruct gateway.
Qed.

(** ** Sending *)

Definition sendStatus (action ifindex : Z) (gateway : option sockaddr) (st : routeStatus) : routeStatus :=
  applyAction action (ifindex mod 65536) (match gateway with Some gw => pack gw | None => [] end) st.

Lemma status_snoc h prefix m x :
  status (h ++ [Ev (I := monitorInterface) (WriteMessage m) x]) prefix =
    if describes prefix m then applyAction (rtm_type m) (rtm_index m) (gatewayOf m) (status h prefix) else status h prefix.
Proof. unfold status. by rewrite foldl_snoc. Qed.

Lemma rtmSendRoute_status action prefix ifindex gateway flags g h :
  validRange prefix → (∀ gw, gateway = Some gw → sockaddrOk gw) →
  wp kernel (rtmSendRoute action prefix ifindex gateway flags) (λ r g' h', ∃ b, r = Returned b ∧
    g' = withRtseq (m_rtseq g + 1) g ∧
    (action = RTM_ADD → status h prefix = Absent → b = true) ∧
    ∀ q, validRange q →
      status h' q = if decide (q = prefix) then sendStatus action ifindex gateway (status h q) else status h q) g h.
Proof.
  intros Hp Hgw. set (m := routeMessage action prefix ifindex gateway flags (m_rtseq g)).
  destruct (routeMessage_spec action prefix ifindex gateway flags (m_rtseq g) Hp Hgw) as (_ & _ & HT & HI & _).
  unfold rtmSendRoute. apply wp_bind. cbn [getGlobals wp andThen id]. apply wp_bind. cbn [setGlobals wp andThen].
  apply wp_bind. intros x Hx. cbn [wp andThen]. fold m in HT, HI, Hx |- *. eexists. split; [done|]. split; [done|]. split.
  - intros Ha Hs. rewrite (Hx prefix Hp); [done| |by rewrite HT|done].
    unfold m. rewrite describes_message by done. by apply bool_decide_eq_true.
  - intros q Hq. rewrite status_snoc, HT, HI. unfold m. rewrite describes_message, gatewayOf_message by done. unfold sendStatus. case_bool_decide; case_decide; done.
Qed.

(** The loop over the exclusion routes sends to those of the protocol. *)
Lemma sendList_status action proto ifindex gateway l g h :
  Forall validRange l → NoDup l → (∀ gw, gateway = Some gw → sockaddrOk gw) →
  wp kernel (forEach l (λ prefix, if bool_decide (protocol (address prefix) = proto)
      then bind (rtmSendRoute action prefix ifindex gateway 0) (λ _, Ret tt) else Ret tt))
    (λ r g' h', r = Returned tt ∧ g' = withRtseq (m_rtseq g') g ∧
      ∀ q, validRange q → status h' q =
        if decide (q ∈ l ∧ protocol (address q) = proto) then sendStatus action ifindex gateway (status h q) else status h q) g h.
Proof.
  intros Hl Hnd Hgw. revert g h. induction l as [|p l IH]; intros g h; cbn [forEach].
  { split_and!; [done|by destruct g|]. intros q _. rewrite decide_False; [done|]. by intros [?%not_elem_of_nil _]. }
  apply Forall_cons in Hl as [Hp Hl]. apply NoDup_cons in Hnd as [Hnew Hnd]. specialize (IH Hl Hnd).
  case_bool_decide as Hproto.
  - apply wp_bind, wp_bind. eapply wp_mono; [|by apply rtmSendRoute_status].
    intros r g1 h1 (b & -> & -> & _ & Hst). cbn [wp andThen]. eapply wp_mono; [|apply IH].
    intros r g2 h2 (-> & Hg & Hst2). split_and!; [done|rewrite Hg; by destruct g|].
    intros q Hq. rewrite Hst2, Hst by done. destruct (decide (q = p)) as [->|Hne].
    + rewrite decide_False by tauto. rewrite decide_True; [done|]. split; [by left|done].
    + repeat case_decide; try done; set_solver.
  - apply wp_bind. cbn [wp andThen]. eapply wp_mono; [|apply IH]. intros r g2 h2 (-> & Hg & Hst2). split_and!; [done..|].
    intros q Hq. rewrite Hst2 by done. repeat case_decide; try done; set_solver.
Qed.

(** ** The invariant *)

(** The status that a prefix should have. *)
Definition expected (g : routeMonitor) (prefix : IPAddress) : routeStatus :=
  if bool_decide (prefix ∈ m_exclusionRoutes g) then
    match knownDefault g (protocol (address prefix)) with
    | Some (index, gateway) => Present (index mod 65536) (pack gateway)
    | None => Absent
    end
  else Absent.

(** A default route with an interface has a gateway. *)
Definition defaultsOk (g : routeMonitor) : Prop :=
  (m_defaultIfindexIpv4 g ≠ 0 → sockaddrOk (m_defaultGatewayIpv4 g)) ∧
  (m_defaultIfindexIpv6 g ≠ 0 → sockaddrOk (m_defaultGatewayIpv6 g)).

Record follows (g : routeMonitor) (h : trace monitorInterface) : Prop := {
  f_valid : Forall validRange (m_exclusionRoutes g);
  f_nodup : NoDup (m_exclusionRoutes g);
  f_defaults : defaultsOk g;
  f_status : ∀ prefix, validRange prefix → status h prefix = expected g prefix;
}.

Lemma follows_seq g h seq : follows g h → follows (withRtseq seq g) h.
Proof. intros []. by split. Qed.

Lemma sockaddrOk_ne gw : sockaddrOk gw → bool_decide (gw = []) = false.
Proof. intros [[Hl _] Hs]. apply bool_decide_eq_false. by intros ->. Qed.

(** The default route of a protocol after it was set. *)
Definition withDefault (proto : NetworkLayerProtocol) (gateway : sockaddr) (index : Z) : routeMonitor → routeMonitor :=
  match proto with
  | IPv4Protocol => withDefault4 gateway index
  | IPv6Protocol => withDefault6 gateway index
  | UnknownNetworkLayerProtocol => id
  end.

Definition defaultIndex (proto : NetworkLayerProtocol) (g : routeMonitor) : Z :=
  match proto with
  | IPv4Protocol => m_defaultIfindexIpv4 g
  | IPv6Protocol => m_defaultIfindexIpv6 g
  | UnknownNetworkLayerProtocol => 0
  end.

Lemma knownDefault_set proto gateway index g proto' :
  proto ≠ UnknownNetworkLayerProtocol →
  knownDefault (withDefault proto gateway index g) proto' =
    if decide (proto' = proto) then
      if negb (index =? 0) && negb (bool_decide (gateway = [])) then Some (index, gateway) else None
    else knownDefault g proto'.
Proof. by destruct proto, proto'. Qed.

Lemma knownDefault_index g proto :
  defaultsOk g → (defaultIndex proto g = 0 ↔ knownDefault g proto = None).
Proof.
  intros [H4 H6]. destruct proto; cbn; [| |done].
  - destruct (Z.eqb_spec (m_defaultIfindexIpv4 g) 0); [done|]. rewrite sockaddrOk_ne by auto. done.
  - destruct (Z.eqb_spec (m_defaultIfindexIpv6 g) 0); [done|]. rewrite sockaddrOk_ne by auto. done.
Qed.

(** Sending to the exclusion routes after the default route of a protocol was set or
    cleared brings the kernel up to date. *)
Lemma sendExclusions_follows proto gateway index action ifindex via g h :
  follows g h → proto ≠ UnknownNetworkLayerProtocol →
  (∀ gw, via = Some gw → sockaddrOk gw) → (index ≠ 0 → sockaddrOk gateway) →
  (∀ q, validRange q → q ∈ m_exclusionRoutes g → protocol (address q) = proto →
     sendStatus action ifindex via (expected g q) = expected (withDefault proto gateway index g) q) →
  wp kernel (sendExclusions action proto ifindex via) (λ r g' h', ∃ a, r = Returned a ∧ follows g' h')
    (withDefault proto gateway index g) h.
Proof.
  intros [Hv Hnd Hd Hst] Hproto Hvia Hgw Hsend. set (g1 := withDefault proto gateway index g) in *.
  assert (m_exclusionRoutes g1 = m_exclusionRoutes g) as Hex by (unfold g1; by destruct proto).
  assert (defaultsOk g1) as Hd1 by (unfold g1; destruct Hd, proto; by split).
  apply wp_bind. cbn [getGlobals wp andThen id]. rewrite Hex.
  eapply wp_mono; [|by apply sendList_status]. intros r g' h' (-> & Hg' & Hst'). eexists. split; [done|]. rewrite Hg'. apply follows_seq.
  split; [by rewrite Hex|by rewrite Hex|done|]. intros q Hq. rewrite Hst', Hst by done. case_decide as Hin; [by destruct Hin; apply Hsend|].
  unfold expected. rewrite Hex. case_bool_decide; [|done]. unfold g1. rewrite knownDefault_set by done.
  rewrite decide_False by naive_solver. done.
Qed.

Lemma setDefault_follows proto gateway ifindex g h :
  follows g h → proto ≠ UnknownNetworkLayerProtocol → sockaddrOk gateway → ifindex ≠ 0 →
  wp kernel (sendExclusions (if defaultIndex proto g =? 0 then RTM_ADD else RTM_CHANGE) proto ifindex (Some gateway))
    (λ r g' h', ∃ a, r = Returned a ∧ follows g' h') (withDefault proto gateway ifindex g) h.
Proof.
  intros Hf Hproto Hgw Hi. apply sendExclusions_follows; [done|done|by intros ? [= <-]|done|].
  intros q Hq Hin Hp. unfold expected. rewrite bool_decide_true by done.
  replace (m_exclusionRoutes (withDefault proto gateway ifindex g)) with (m_exclusionRoutes g) by (by destruct proto).
  rewrite bool_decide_true by done. rewrite Hp, knownDefault_set, decide_True by done.
  rewrite (proj2 (Z.eqb_neq ifindex 0)), sockaddrOk_ne by done. cbn [negb andb].
  pose proof (knownDefault_index g proto (f_defaults _ _ Hf)) as Hk.
  destruct (Z.eqb_spec (defaultIndex proto g) 0) as [Hz|Hz].
  - by rewrite (proj1 Hk Hz).
  - destruct (knownDefault g proto) as [[i gw]|]; [done|]. tauto.
Qed.

Lemma clearDefault_follows proto ifindex g h :
  follows g h → proto ≠ UnknownNetworkLayerProtocol →
  wp kernel (sendExclusions RTM_DELETE proto ifindex None)
    (λ r g' h', ∃ a, r = Returned a ∧ follows g' h') (withDefault proto [] 0 g) h.
Proof.
  intros Hf Hproto. apply sendExclusions_follows; [done..|].
  intros q Hq Hin Hp. unfold expected. rewrite bool_decide_true by done.
  replace (m_exclusionRoutes (withDefault proto [] 0 g)) with (m_exclusionRoutes g) by (by destruct proto).
  rewrite bool_decide_true by done. rewrite Hp, knownDefault_set, decide_True by done.
  by destruct (knownDefault g proto) as [[i gw]|].
Qed.

(** Requests that are no messages for routes. *)
Lemma status_other h c x q :
  match c with WriteMessage _ => False | _ => True end →
  status (h ++ [Ev (I := monitorInterface) c x]) q = status h q.
Proof. intros Hc. unfold status. rewrite foldl_snoc. unfold statusStep. cbn. by destruct c. Qed.

Lemma follows_other g h c x :
  match c with WriteMessage _ => False | _ => True end → follows g h → follows g (h ++ [Ev (I := monitorInterface) c x]).
Proof. intros Hc []. split; [done..|]. intros q Hq. by rewrite status_other, f_status0. Qed.

(** A program that returns and keeps the invariant. *)
Definition keepsRoutes {X} (p : monitoring X) : Prop :=
  ∀ g h, follows g h → wp kernel p (λ r g' h', ∃ a, r = Returned a ∧ follows g' h') g h.

Lemma held_bind {X Y} (p : monitoring X) (f : X → monitoring Y) : keepsRoutes p → (∀ x, keepsRoutes (f x)) → keepsRoutes (bind p f).
Proof.
  intros Hp Hf g h Hg. eapply wp_seq; [by apply Hp|]. intros r g' h' (a & -> & Hr). by apply Hf.
Qed.

Lemma held_ret {X} (x : X) : keepsRoutes (Ret x).
Proof. intros g h Hg. by exists x. Qed.

Lemma held_ask c : match c with WriteMessage _ => False | _ => True end → keepsRoutes (ask c).
Proof. intros Hc g h Hg x _. exists x. split; [done|]. by apply follows_other. Qed.

Lemma held_orUndefined {X} (x : option X) : x ≠ None → keepsRoutes (orUndefined x).
Proof. destruct x; [|done]. intros _. apply held_ret. Qed.

Lemma held_notify b : keepsRoutes (notifyPhysicalDefaultRouteChanged b).
Proof.
  intros g h Hg. apply wp_bind. cbn [getGlobals wp andThen id]. destruct (Bool.eqb _ _); [by exists tt|by apply held_ask].
Qed.

Lemma held_setDefault family gateway ifindex update :
  setDefault family gateway ifindex = Some update → sockaddrOk gateway → ifindex ≠ 0 → keepsRoutes update.
Proof.
  intros Hd Hgw Hi g h Hf. unfold setDefault in Hd.
  destruct (family =? AF_INET); [|destruct (family =? AF_INET6); [|done]]; injection Hd as <-;
    apply wp_bind; cbn [getGlobals wp andThen id].
  - exact (setDefault_follows IPv4Protocol gateway ifindex g h Hf ltac:(done) Hgw Hi).
  - exact (setDefault_follows IPv6Protocol gateway ifindex g h Hf ltac:(done) Hgw Hi).
Qed.

Lemma held_get {X} (f : routeMonitor → monitoring X) : (∀ g, keepsRoutes (f g)) → keepsRoutes (bind getGlobals f).
Proof. intros Hf g h Hg. apply wp_bind. cbn [getGlobals wp andThen id]. by apply Hf. Qed.

Lemma held_nameOf index : keepsRoutes (nameOf index).
Proof. apply held_bind; [by apply held_ask|]. intros x. apply held_ret. Qed.

(** What is assumed of a message with a destination, a gateway and a mask: the mask
    fits the structure of its family, and the gateway is well formed. *)
Definition addressesOk (addrlist : list sockaddr) : Prop :=
  ∀ dst gw mask rest, addrlist = dst :: gw :: mask :: rest → isDefaultNetmask mask ≠ None ∧ sockaddrOk gw.

Lemma complete_addresses addrs addrlist :
  complete addrs addrlist = true → ∃ dst gw mask rest, addrlist = dst :: gw :: mask :: rest.
Proof.
  intros [_ Hlen%Nat.leb_le]%andb_true_iff. destruct addrlist as [|dst [|gw [|mask rest]]]; cbn in Hlen; [lia..|]. by eauto.
Qed.

(** What is assumed of the loss of a default route: it is of one of the two families. *)
Definition deleteOk (payload : list Z) : Prop :=
  addressesOk (parseAddrList payload) ∧
  ∀ dst, head (parseAddrList payload) = Some dst → saFamily dst = AF_INET ∨ saFamily dst = AF_INET6.

Lemma held_handleRtmDelete rtm payload : deleteOk payload → keepsRoutes (handleRtmDelete rtm payload).
Proof.
  intros [Hok Hfamily]. unfold handleRtmDelete. apply held_get. intros g0.
  destruct (hIndex rtm =? m_ifindex g0); [apply held_ret|].
  apply held_bind; [destruct (hIndex rtm =? 0); [apply held_ret|apply held_nameOf]|]. intros ifname.
  destruct (isTunnelInterfaceName ifname); [apply held_ret|].
  destruct (complete _ _) eqn:Ec; [|apply held_ret]. destruct (has _ _); [apply held_ret|].
  apply complete_addresses in Ec as (dst & gw & mask & rest & E). destruct (Hok _ _ _ _ E) as [Hmask _].
  rewrite E in *. cbn [negb]. change ((dst :: gw :: mask :: rest) !!! 2%nat) with mask.
  change ((dst :: gw :: mask :: rest) !!! 0%nat) with dst. specialize (Hfamily dst eq_refl).
  apply held_bind; [by apply held_orUndefined|]. intros isDefault. destruct (negb isDefault); [apply held_ret|].
  apply held_bind; [|intros _; apply held_notify]. destruct Hfamily as [-> | ->]; cbn [Z.eqb AF_INET AF_INET6 Pos.eqb].
  - intros g h Hf. apply wp_bind. cbn [setGlobals wp andThen]. exact (clearDefault_follows IPv4Protocol _ g h Hf ltac:(done)).
  - intros g h Hf. apply wp_bind. cbn [setGlobals wp andThen]. exact (clearDefault_follows IPv6Protocol _ g h Hf ltac:(done)).
Qed.

(** What is assumed of an update: an interface has an index that is not zero. *)
Definition updateOk (rtm : rtHeader) (payload : list Z) : Prop :=
  addressesOk (parseAddrList payload) ∧ ∀ i, updateIndex rtm (parseAddrList payload) = Some i → i ≠ 0.

Lemma held_handleRtmUpdate rtm payload : updateOk rtm payload → keepsRoutes (handleRtmUpdate rtm payload).
Proof.
  intros [Hok Hindex]. unfold handleRtmUpdate. apply held_get. intros g.
  destruct (complete _ _) eqn:Ec; [|apply held_ret]. destruct (has _ RTF_IFSCOPE); [apply held_ret|].
  apply complete_addresses in Ec as (dst & gw & mask & rest & E). destruct (Hok _ _ _ _ E) as [Hmask Hgw].
  rewrite E in *. cbn [negb]. change ((dst :: gw :: mask :: rest) !!! 2%nat) with mask.
  change ((dst :: gw :: mask :: rest) !!! 0%nat) with dst. change ((dst :: gw :: mask :: rest) !!! 1%nat) with gw.
  destruct (_ =? m_ifindex g); [apply held_ret|]. apply held_bind; [by apply held_ask|]. intros pid.
  destruct (_ && _); [apply held_ret|]. destruct (updateIndex _ _) as [i|] eqn:Ei; [|apply held_ret].
  apply held_bind; [apply held_nameOf|]. intros ifname. destruct (isTunnelInterfaceName _); [apply held_ret|].
  apply held_bind; [by apply held_orUndefined|]. intros isDefault. destruct (negb isDefault); [apply held_ret|].
  destruct (setDefault _ _ _) as [update|] eqn:Ed; [|apply held_ret].
  apply held_bind; [|intros _; apply held_notify]. eapply held_setDefault; [exact Ed|done|by apply Hindex].
Qed.

Lemma held_addExclusionRoute prefix : validRange prefix → keepsRoutes (addExclusionRoute prefix).
Proof.
  intros Hp g h [Hv Hnd Hd Hst]. apply wp_bind. cbn [getGlobals wp andThen id].
  case_bool_decide as Hin; [by exists true; split; [|split]|]. apply wp_bind. cbn [setGlobals wp andThen].
  set (g1 := withExclusions (m_exclusionRoutes g ++ [prefix]) g).
  assert (∀ q, expected g1 q = if decide (q = prefix) then
      match knownDefault g (protocol (address prefix)) with
      | Some (index, gateway) => Present (index mod 65536) (pack gateway) | None => Absent end
    else expected g q) as Hexp.
  { intros q. unfold expected, g1. cbn [m_exclusionRoutes withExclusions]. case_decide as Hq.
    - subst q. rewrite bool_decide_true by set_solver. done.
    - rewrite (bool_decide_ext _ (q ∈ m_exclusionRoutes g)) by set_solver. done. }
  assert (∀ h', (∀ q, validRange q → status h' q = expected g1 q) → follows g1 h') as Hfollow.
  { intros h' Hst'. split; [..|done]; cbn; [|apply NoDup_app; split_and!; [done|set_solver|apply NoDup_singleton]|done].
    apply Forall_app_2; [done|]. by apply Forall_cons_2; [|apply Forall_nil_2]. }
  destruct (knownDefault g (protocol (address prefix))) as [[i gw]|] eqn:Ek.
  2:{ eexists. split; [done|]. apply Hfollow. intros q Hq. rewrite Hst, Hexp by done. case_decide as E; [|done]. subst q.
      unfold expected. by rewrite bool_decide_false. }
  assert (sockaddrOk gw) as Hgw.
  { destruct Hd as [H4 H6]. unfold knownDefault in Ek. destruct (protocol (address prefix)); [| |done];
      destruct (_ && _) eqn:E in Ek; try done; injection Ek as <- <-; apply andb_true_iff in E as [E _];
      apply negb_true_iff, Z.eqb_neq in E; auto. }
  apply wp_bind. eapply wp_mono; [|apply rtmSendRoute_status; [done|by intros ? [= <-]]].
  intros r g' h' (b & -> & -> & Hok & Hst'). cbn [andThen].
  assert (status h prefix = Absent) as Habs by (rewrite Hst by done; unfold expected; by rewrite bool_decide_false).
  rewrite (Hok eq_refl Habs). cbn. eexists. split; [done|]. apply follows_seq, Hfollow. intros q Hq. rewrite Hst', Hexp by done.
  case_decide as E; [|by apply Hst]. subst q. by rewrite Habs.
Qed.

(** Taking a prefix off the list and asking the kernel to delete its route. *)
Lemma sendDelete_follows prefix l g h :
  follows g h → validRange prefix → NoDup l → (∀ q, q ∈ l ↔ q ∈ m_exclusionRoutes g ∧ q ≠ prefix) →
  wp kernel (sendDelete prefix) (λ r g' h', ∃ a, r = Returned a ∧ g' = withRtseq (m_rtseq g') (withExclusions l g) ∧ follows g' h')
    (withExclusions l g) h.
Proof.
  intros [Hv Hnd Hd Hst] Hp Hl Hin.
  assert (∀ i h1 seq, (∀ q, validRange q → status h1 q =
      if decide (q = prefix) then sendStatus RTM_DELETE i None (status h q) else status h q) →
    follows (withRtseq seq (withExclusions l g)) h1) as Hdone.
  { intros i h1 seq Hst1. apply follows_seq. split; [|done..|].
    - apply Forall_forall. intros q Hq. apply Hin in Hq as [Hq _]. by eapply Forall_forall in Hv.
    - intros q Hq. rewrite Hst1, Hst by done. unfold expected. cbn [m_exclusionRoutes withExclusions].
      rewrite (bool_decide_ext _ _ (Hin q)). case_decide as E.
      + rewrite (bool_decide_false (_ ∧ _)) by tauto. case_bool_decide; [|done]. by destruct (knownDefault g _) as [[??]|].
      + by rewrite (bool_decide_ext (_ ∧ _) (q ∈ m_exclusionRoutes g)) by tauto. }
  unfold sendDelete. apply wp_bind. cbn [getGlobals wp andThen id].
  destruct Hp as [Ha Hlen] eqn:E. clear E. destruct (address prefix) as [|z|bytes] eqn:Ea; [done|..]; cbn [protocol];
    (eapply wp_mono; [|by apply rtmSendRoute_status]); intros r g' h' (b & -> & -> & _ & Hst'); by eauto 10.
Qed.

Lemma held_deleteExclusionRoute prefix : validRange prefix → keepsRoutes (deleteExclusionRoute prefix).
Proof.
  intros Hp g h Hf. unfold deleteExclusionRoute. apply wp_bind. cbn [setGlobals wp andThen]. unfold dropExclusion.
  eapply wp_mono; [|apply sendDelete_follows; [done|done|apply NoDup_filter, Hf|]].
  - intros r g' h' (a & -> & _ & Hf'). by eauto.
  - intros q. rewrite list_elem_of_filter. tauto.
Qed.

Lemma held_flushExclusionRoutes : keepsRoutes flushExclusionRoutes.
Proof.
  intros g h Hf. apply wp_bind. cbn [getGlobals wp andThen id].
  remember (m_exclusionRoutes g) as l eqn:El. symmetry in El. revert g h Hf El.
  induction l as [|p l IH]; intros g h Hf El; cbn [forEach]; [by exists tt|].
  pose proof (f_valid _ _ Hf) as Hv. pose proof (f_nodup _ _ Hf) as Hnd. rewrite El in Hv, Hnd.
  apply Forall_cons in Hv as [Hp Hv]. apply NoDup_cons in Hnd as [Hnew Hnd].
  apply wp_bind, wp_bind. cbn [setGlobals wp andThen]. rewrite El. cbn [tail]. apply wp_bind.
  eapply wp_mono; [|apply (sendDelete_follows p l); [done|done|done|]].
  - intros r g' h' (a & -> & Hg' & Hf'). cbn [wp andThen]. apply IH; [done|]. by rewrite Hg'.
  - intros q. rewrite El. set_solver.
Qed.

(** ** Buffers *)

(** A buffer that is a sequence of messages, none of them empty, that satisfy [ok];
    what is left at its end may be a message that was cut off. *)
Inductive framed (ok : list Z → list Z → Prop) : list Z → Prop :=
  | framed_nil : framed ok []
  | framed_cut buf n : field 2 0 buf = Some n → size buf < n → framed ok buf
  | framed_next buf n :
      field 2 0 buf = Some n → 0 < n ≤ size buf → ok buf (take (Z.to_nat n) buf) →
      framed ok (drop (Z.to_nat n) buf) → framed ok buf.

Lemma framed_mono (ok ok' : list Z → list Z → Prop) buf :
  (∀ b m, ok b m → ok' b m) → framed ok buf → framed ok' buf.
Proof. intros Hok. induction 1; by eauto using framed. Qed.

(** What is assumed of a message: it has a header, and its addresses are as the
    handlers expect them. *)
Definition messageOk (buf message : list Z) : Prop :=
  ∃ rtm, rtHeaderOf buf = Some rtm ∧
    let payload := drop (Z.to_nat sizeofRtMsghdr) message in
    (hType rtm ∈ [RTM_ADD; RTM_CHANGE; RTM_GET] → updateOk rtm payload) ∧
    (hType rtm = RTM_DELETE → deleteOk payload).

Lemma field_within width offset width' offset' buf :
  (offset + width ≤ offset' + width')%nat → field width' offset' buf ≠ None → field width offset buf ≠ None.
Proof.
  unfold field. intros Hle. destruct (Nat.ltb_spec (length buf) (offset' + width')); [done|].
  destruct (Nat.ltb_spec (length buf) (offset + width)); [lia|done].
Qed.

Lemma rtHeaderOf_fields buf rtm :
  rtHeaderOf buf = Some rtm → field 1 3 buf = Some (hType rtm) ∧ field 4 8 buf ≠ None ∧ field 2 12 buf ≠ None.
Proof.
  unfold rtHeaderOf. intros H. repeat (apply bind_Some in H as (? & ? & H)). injection H as <-. cbn [hType].
  split; [done|]. split; [congruence|]. apply (field_within 2 12 4 12); [lia|congruence].
Qed.

Lemma held_set f : (∀ g h, follows g h → follows (f g) h) → keepsRoutes (setGlobals f).
Proof. intros Hf g h Hg. exists tt. split; [done|]. by apply Hf. Qed.

Lemma held_handleMessage buf message : messageOk buf message → keepsRoutes (handleMessage buf message).
Proof.
  intros (rtm & Hr & Hup & Hdel). destruct (rtHeaderOf_fields _ _ Hr) as (Ht & Hf & Hi).
  unfold handleMessage. rewrite Ht, Hr. cbn [orUndefined bind].
  destruct (Z.eqb_spec (hType rtm) RTM_ADD) as [Ea|_]; [apply held_handleRtmUpdate, Hup; set_solver|].
  destruct (Z.eqb_spec (hType rtm) RTM_CHANGE) as [Ea|_]; [apply held_handleRtmUpdate, Hup; set_solver|].
  destruct (Z.eqb_spec (hType rtm) RTM_GET) as [Ea|_]; [apply held_handleRtmUpdate, Hup; set_solver|]. cbn [orb].
  destruct (Z.eqb_spec (hType rtm) RTM_DELETE) as [Ea|_]; [by apply held_handleRtmDelete, Hdel|].
  destruct (_ =? RTM_IFINFO); [|apply held_ret].
  apply held_bind; [by apply held_orUndefined|]. intros flags. apply held_bind; [by apply held_orUndefined|].
  intros index. apply held_get. intros g. apply held_bind; [by apply held_ask|]. intros own.
  destruct (negb _); [apply held_ret|]. apply held_set. intros g' h []. by split.
Qed.

(** The rounds of the loop over a buffer. *)
Lemma messageLoop_nil fuel : messageLoop (S fuel) [] = Ret tt.
Proof. done. Qed.

Lemma messageLoop_next fuel buf n :
  field 2 0 buf = Some n →
  messageLoop (S fuel) buf =
    if size buf <? n then Ret tt
    else bind (handleMessage buf (take (Z.to_nat n) buf)) (λ _, messageLoop fuel (drop (Z.to_nat n) buf)).
Proof. destruct buf; [done|]. intros E. cbn [messageLoop]. by rewrite E. Qed.

Lemma held_messageLoop fuel buf : framed messageOk buf → (length buf < fuel)%nat → keepsRoutes (messageLoop fuel buf).
Proof.
  intros Hb. revert fuel. induction Hb as [|buf n Hn Hlt|buf n Hn Hle Hok Hb IH]; intros [|fuel] Hfuel; try lia.
  - rewrite messageLoop_nil. apply held_ret.
  - rewrite (messageLoop_next _ _ n), (proj2 (Z.ltb_lt _ _)) by done. apply held_ret.
  - rewrite (messageLoop_next _ _ n), (proj2 (Z.ltb_ge _ _)) by (done || lia).
    apply held_bind; [by apply held_handleMessage|]. intros _. apply IH.
    rewrite length_drop. unfold size in Hle. lia.
Qed.

Lemma held_forEach {X} (l : list X) (f : X → monitoring unit) : (∀ x, x ∈ l → keepsRoutes (f x)) → keepsRoutes (forEach l f).
Proof.
  induction l as [|x l IH]; intros Hf; [apply held_ret|]. cbn [forEach]. apply held_bind; [apply Hf; set_solver|].
  intros _. apply IH. intros y Hy. apply Hf. set_solver.
Qed.

(** ** The operations *)

Inductive monitorOp :=
  | Received (buffers : list (list Z))
  | AddExclusion (prefix : IPAddress)
  | DeleteExclusion (prefix : IPAddress)
  | FlushExclusions.

Definition perform (op : monitorOp) : monitoring unit :=
  match op with
  | Received buffers => rtsockReady buffers
  | AddExclusion prefix => bind (addExclusionRoute prefix) (λ _, Ret tt)
  | DeleteExclusion prefix => bind (deleteExclusionRoute prefix) (λ _, Ret tt)
  | FlushExclusions => flushExclusionRoutes
  end.

Definition opOk (op : monitorOp) : Prop :=
  match op with
  | Received buffers => Forall (framed messageOk) buffers
  | AddExclusion prefix | DeleteExclusion prefix => validRange prefix
  | FlushExclusions => True
  end.

Lemma held_perform op : opOk op → keepsRoutes (perform op).
Proof.
  destruct op as [buffers|prefix|prefix|]; intros Hop; cbn [perform].
  - apply held_forEach. intros buf Hbuf. apply held_messageLoop; [|lia]. by eapply Forall_forall in Hop.
  - apply held_bind; [by apply held_addExclusionRoute|]. intros. apply held_ret.
  - apply held_bind; [by apply held_deleteExclusionRoute|]. intros. apply held_ret.
  - apply held_flushExclusionRoutes.
Qed.


(** ** The signal *)

Definition quiet (c : monitorRequest) : bool := match c with PhysicalDefaultRouteChanged _ => false | _ => true end.

(** The value of the last signal; there is no default route at first. *)
Definition signalStep (b : bool) (e : event monitorInterface) : bool :=
  match evCall e with PhysicalDefaultRouteChanged ready => ready | _ => b end.
Definition lastSignal (h : trace monitorInterface) : bool := foldl signalStep false h.

Lemma lastSignal_snoc h c x : lastSignal (h ++ [Ev (I := monitorInterface) c x]) =
  match c with PhysicalDefaultRouteChanged ready => ready | _ => lastSignal h end.
Proof. unfold lastSignal. by rewrite foldl_snoc. Qed.

(** A program that does not signal; when [same] is set it does not make a default
    route come or go either. *)
Definition steady {X} (same : bool) (p : monitoring X) : Prop :=
  ∀ g h, wp anything p (λ r g' h', r = Thrown ∨ ∃ a, r = Returned a ∧
    (same = true → hasPhysicalDefaultRoute g' = hasPhysicalDefaultRoute g) ∧ lastSignal h' = lastSignal h) g h.

Lemma steady_bind {X Y} same (p : monitoring X) (f : X → monitoring Y) : steady same p → (∀ x, steady same (f x)) → steady same (bind p f).
Proof.
  intros Hp Hf g h. eapply wp_seq; [by apply Hp|]. intros r g1 h1 [-> |(a & -> & Hg & Hh)]; [by left|].
  eapply wp_mono; [|apply Hf]. intros r g2 h2 [-> |(b & -> & Hg2 & Hh2)]; [by left|]. right. exists b.
  split_and!; [done| |congruence]. intros Hs. rewrite Hg2, Hg; done.
Qed.

Lemma steady_ret {X} same (x : X) : steady same (Ret x).
Proof. intros g h. right. by exists x. Qed.

Lemma steady_ask same c : quiet c = true → steady same (ask c).
Proof. intros Hc g h x _. right. exists x. rewrite lastSignal_snoc. by destruct c. Qed.

Lemma steady_orUndefined {X} same (x : option X) : steady same (orUndefined x).
Proof. destruct x; [apply steady_ret|]. intros g h. by left. Qed.

Lemma steady_get {X} same (f : routeMonitor → monitoring X) : (∀ g, steady same (f g)) → steady same (bind getGlobals f).
Proof. intros Hf g h. apply wp_bind. cbn [getGlobals wp andThen id]. apply Hf. Qed.

Lemma steady_set same f :
  (same = true → ∀ g, hasPhysicalDefaultRoute (f g) = hasPhysicalDefaultRoute g) → steady same (setGlobals f).
Proof. intros Hf g h. right. exists tt. by auto. Qed.

Lemma steady_forEach {X} same (l : list X) (f : X → monitoring unit) :
  (∀ x, steady same (f x)) → steady same (forEach l f).
Proof. intros Hf. induction l; cbn [forEach]; [apply steady_ret|by apply steady_bind]. Qed.

Lemma steady_nameOf same index : steady same (nameOf index).
Proof. apply steady_bind; [by apply steady_ask|]. intros. apply steady_ret. Qed.

Create HintDb signal.
#[local] Hint Resolve steady_ret steady_orUndefined steady_nameOf : signal.
#[local] Hint Extern 1 (steady _ (ask _)) => (by apply steady_ask) : signal.
#[local] Hint Extern 1 (steady _ (setGlobals _)) => (by apply steady_set) : signal.

(** Steady programs, by their shape. *)
Ltac solve_steady :=
  repeat match goal with
  | |- steady _ (bind getGlobals _) => apply steady_get
  | |- steady _ (bind _ _) => apply steady_bind
  | |- steady _ (forEach _ _) => apply steady_forEach
  | |- ∀ _, _ => intro
  | |- steady _ (if ?b then _ else _) => destruct b
  | |- steady _ (match ?x with _ => _ end) => destruct x eqn:?
  | |- _ => progress auto with signal
  end.

Lemma steady_rtmSendRoute same action prefix ifindex gateway flags :
  steady same (rtmSendRoute action prefix ifindex gateway flags).
Proof. unfold rtmSendRoute. solve_steady. Qed.

#[local] Hint Resolve steady_rtmSendRoute : signal.

Lemma steady_exclusions prefix :
  steady true (addExclusionRoute prefix) ∧ steady true (deleteExclusionRoute prefix) ∧ steady true flushExclusionRoutes.
Proof.
  unfold addExclusionRoute, deleteExclusionRoute, flushExclusionRoutes, sendDelete. split_and!; solve_steady.
Qed.

(** A program that starts with the value [b] signalled and ends with its own value
    signalled. *)
Definition reports {X} (b : bool) (p : monitoring X) : Prop :=
  ∀ g h, hasPhysicalDefaultRoute g = b → lastSignal h = b →
    wp anything p (λ r g' h', r = Thrown ∨ ∃ a, r = Returned a ∧ lastSignal h' = hasPhysicalDefaultRoute g') g h.

Lemma reports_steady {X} b (p : monitoring X) : steady true p → reports b p.
Proof.
  intros Hp g h Hg Hh. eapply wp_mono; [|apply Hp]. intros r g' h' [-> |(a & -> & Hg' & Hh')]; [by left|].
  right. exists a. split; [done|]. rewrite Hh', Hg' by done. congruence.
Qed.

Lemma reports_after {X Y} b (p : monitoring X) (f : X → monitoring Y) :
  steady true p → (∀ x, reports b (f x)) → reports b (bind p f).
Proof.
  intros Hp Hf g h Hg Hh. eapply wp_seq; [apply Hp|]. intros r g1 h1 [-> |(a & -> & Hg1 & Hh1)]; [by left|].
  apply Hf; [|congruence]. by rewrite Hg1.
Qed.

Lemma reports_get {X} b (f : routeMonitor → monitoring X) :
  (∀ g, hasPhysicalDefaultRoute g = b → reports b (f g)) → reports b (bind getGlobals f).
Proof. intros Hf g h Hg Hh. apply wp_bind. cbn [getGlobals wp andThen id]. by apply Hf. Qed.

(** The part of a program that changes the default routes and then notifies. *)
Definition notifies {X} (b : bool) (p : monitoring X) : Prop :=
  ∀ g h, lastSignal h = b →
    wp anything p (λ r g' h', r = Thrown ∨ ∃ a, r = Returned a ∧ lastSignal h' = hasPhysicalDefaultRoute g') g h.

Lemma notifies_after {X Y} b (p : monitoring X) (f : X → monitoring Y) :
  steady false p → (∀ x, notifies b (f x)) → notifies b (bind p f).
Proof.
  intros Hp Hf g h Hh. eapply wp_seq; [apply Hp|]. intros r g1 h1 [-> |(a & -> & _ & Hh1)]; [by left|].
  apply Hf. congruence.
Qed.

Lemma notifies_notify b : notifies b (notifyPhysicalDefaultRouteChanged b).
Proof.
  intros g h Hh. apply wp_bind. cbn [getGlobals wp andThen id]. destruct (Bool.eqb _ b) eqn:E.
  - apply eqb_prop in E. right. exists tt. split; [done|]. congruence.
  - intros x _. right. exists x. split; [done|]. by rewrite lastSignal_snoc.
Qed.

Lemma reports_notify {X} b (p : monitoring X) :
  steady false p → reports b (bind p (λ _, notifyPhysicalDefaultRouteChanged b)).
Proof. intros Hp g h _. apply notifies_after; [done|]. intros _. apply notifies_notify. Qed.

Lemma steady_setDefault family gateway ifindex update : setDefault family gateway ifindex = Some update → steady false update.
Proof.
  unfold setDefault, sendExclusions. intros Hd.
  destruct (family =? AF_INET); [|destruct (family =? AF_INET6); [|done]]; apply (inj Some) in Hd as <-; solve_steady.
Qed.

(** Reporting programs, by their shape. *)
Ltac solve_reports :=
  repeat match goal with
  | |- reports _ (if ?b then _ else _) => destruct b
  | |- reports _ (Ret _) => apply reports_steady, steady_ret
  | |- reports _ (bind (if _ then Ret _ else nameOf _) _) => apply reports_after; [solve_steady|intro]
  | |- reports _ (bind (ask _) _) => apply reports_after; [by apply steady_ask|intro]
  | |- reports _ (bind (nameOf _) _) => apply reports_after; [apply steady_nameOf|intro]
  | |- reports _ (bind (orUndefined _) _) => apply reports_after; [apply steady_orUndefined|intro]
  end.

Lemma reports_handleRtmDelete b rtm payload : reports b (handleRtmDelete rtm payload).
Proof.
  apply reports_get. intros g <-. cbv zeta. solve_reports. apply reports_notify. unfold sendExclusions. solve_steady.
  intros g' h'. by left.
Qed.

Lemma reports_handleRtmUpdate b rtm payload : reports b (handleRtmUpdate rtm payload).
Proof.
  apply reports_get. intros g <-. cbv zeta. solve_reports. destruct (updateIndex _ _); solve_reports.
  destruct (setDefault _ _ _) eqn:Ed; [|solve_reports]. by eapply reports_notify, steady_setDefault.
Qed.

Lemma reports_seq {X} (p : monitoring X) (f : X → monitoring unit) b :
  (∀ b, reports b p) → (∀ x b, reports b (f x)) → reports b (bind p f).
Proof.
  intros Hp Hf g h Hg Hh. eapply wp_seq; [by apply (Hp b)|]. intros r g1 h1 [-> |(a & -> & Hr)]; [by left|].
  by eapply Hf.
Qed.

Lemma reports_forEach {X} (l : list X) (f : X → monitoring unit) b :
  (∀ x b, x ∈ l → reports b (f x)) → reports b (forEach l f).
Proof.
  revert b. induction l as [|x l IH]; intros b Hf; cbn [forEach]; [solve_reports|].
  apply reports_seq; [intros; apply Hf; set_solver|]. intros _ b'. apply IH. intros y c Hy. apply Hf. set_solver.
Qed.

Lemma reports_handleMessage b buf message : reports b (handleMessage buf message).
Proof.
  unfold handleMessage, handleIfaceInfo. solve_reports.
  - apply reports_handleRtmUpdate.
  - apply reports_handleRtmDelete.
  - apply reports_steady. solve_steady.
Qed.

Lemma reports_messageLoop b fuel buf :
  framed (λ _ _, True) buf → (length buf < fuel)%nat → reports b (messageLoop fuel buf).
Proof.
  intros Hb. revert b fuel. induction Hb as [|buf n Hn Hlt|buf n Hn Hle _ Hb IH]; intros b [|fuel] Hfuel; try lia.
  - rewrite messageLoop_nil. solve_reports.
  - rewrite (messageLoop_next _ _ n), (proj2 (Z.ltb_lt _ _)) by done. solve_reports.
  - rewrite (messageLoop_next _ _ n), (proj2 (Z.ltb_ge _ _)) by (done || lia).
    apply reports_seq; [intros; apply reports_handleMessage|]. intros _ b'. apply IH.
    rewrite length_drop. unfold size in Hle. lia.
Qed.

Lemma steady_dumpLoop fuel table : steady false (dumpLoop fuel table).
Proof.
  revert table. induction fuel as [|fuel IH]; intros table; [apply steady_ret|]. cbn [dumpLoop].
  solve_steady. by eapply steady_setDefault.
Qed.

Lemma reports_refresh b : reports b refreshPhysicalDefaultRoutes.
Proof.
  apply reports_get. intros g <- g1 h1 _. unfold rtmFetchDefaultRoutes.
  apply notifies_after; [auto with signal|]. intros _.
  do 2 (apply notifies_after; [solve_steady; apply steady_dumpLoop|]; intros _). apply notifies_notify.
Qed.

(** The operations, and the refresh after the machine woke up. *)
Inductive watchOp :=
  | Operate (op : monitorOp)
  | Refresh.

Definition watch (op : watchOp) : monitoring unit :=
  match op with
  | Operate op => perform op
  | Refresh => refreshPhysicalDefaultRoutes
  end.

Definition watchOk (op : watchOp) : Prop :=
  match op with
  | Operate (Received buffers) => Forall (framed (λ _ _, True)) buffers
  | _ => True
  end.

Lemma reports_watch b op : watchOk op → reports b (watch op).
Proof.
  destruct op as [[buffers|prefix|prefix|]|]; intros Hop; cbn [watch perform].
  - apply reports_forEach. intros buf c Hbuf. apply reports_messageLoop; [|lia]. by eapply Forall_forall in Hop.
  - apply reports_steady, steady_bind; [apply steady_exclusions|intros; apply steady_ret].
  - apply reports_steady, steady_bind; [apply steady_exclusions|intros; apply steady_ret].
  - apply reports_steady, (steady_exclusions (IPRange HNull 0)).
  - apply reports_refresh.
Qed.

(** C29: the signal tells the truth.  Whatever the monitor is asked to do and whatever
    the system answers, no operation goes on forever, and after every operation the
    last value that was signalled, or none at first, is whether there is a physical
    default route for IPv4.  The exception is a message whose bytes cannot be read
    within their bounds, on which nothing is promised.  No message in a buffer has
    the length zero. *)
Theorem readiness_signalled (o : oracle monitorInterface) (ops : list watchOp) (ifname : string) :
  Forall watchOk ops →
  let r := run o (forEach ops watch) (newMonitor ifname) [] in
  resOutcome r = Thrown ∨
  (resOutcome r = Returned tt ∧ lastSignal (resTrace r) = hasPhysicalDefaultRoute (resGlobals r)).
Proof.
  intros Hops r.
  destruct (wp_run o (forEach ops watch) (λ r g' h', r = Thrown ∨ ∃ a, r = Returned a ∧
    lastSignal h' = hasPhysicalDefaultRoute g') (newMonitor ifname) []) as [Hr|([] & Hr & Hs)]; [|by left|by right].
  apply (reports_forEach ops watch false); [|done..]. intros op b Hop. apply reports_watch. by eapply Forall_forall in Hops.
Qed.

(** ** Examples *)

Definition tenNet : IPAddress := IPRange (HIPv4 0x0A000000) 8.
Definition homeRouter : sockaddr := sockaddrIn [192; 168; 1; 1].
Definition cafeRouter : sockaddr := sockaddrIn [172; 20; 0; 1].

Definition littleEndian (width : nat) (z : Z) : list Z := (λ i, (z / 256 ^ Z.of_nat i) mod 256) <$> seq 0 width.

(** A message of the kernel about the default route of IPv4. *)
Definition defaultRouteMessage (type index : Z) (gateway : sockaddr) : list Z :=
  littleEndian 2 (92 + 48) ++ [5; type] ++ littleEndian 2 index ++ [0; 0] ++ littleEndian 4 (Z.lor RTF_UP RTF_GATEWAY) ++
  littleEndian 4 7 ++ littleEndian 4 1 ++ replicate 72 0 ++
  sockaddrIn (replicate 4 0) ++ gateway ++ sockaddrIn (replicate 4 0).

(** A system whose interfaces are physical. *)
Definition accepting : oracle monitorInterface := λ _ c,
  match c as c return monitorAns c with
  | OpenSocket => true
  | WriteMessage _ => None
  | IfIndexToName _ => Some "en0"
  | IfNameToIndex _ => 9
  | GetPid => 77
  | Sysctl _ => None
  | PhysicalDefaultRouteChanged _ => tt
  end.

Lemma accepting_kernel h c : kernel h c (accepting h c).
Proof. by destruct c. Qed.

Definition homeMessage : list Z := defaultRouteMessage RTM_ADD 4 homeRouter.
Definition cafeMessage : list Z := defaultRouteMessage RTM_CHANGE 6 cafeRouter ++ littleEndian 2 200.

(** An update whose addresses are read. *)
Lemma messageOk_update buf message rtm dst gw mask :
  rtHeaderOf buf = Some rtm → hType rtm ≠ RTM_DELETE → has (hAddrs rtm) RTA_IFP = false → hIndex rtm ≠ 0 →
  parseAddrList (drop (Z.to_nat sizeofRtMsghdr) message) = [dst; gw; mask] →
  isDefaultNetmask mask ≠ None → sockaddrOk gw → messageOk buf message.
Proof.
  intros Hr Ht Hifp Hi Hp Hm Hg. exists rtm. split; [done|]. split; [|done]. intros _. split.
  - intros dst' gw' mask' rest E. rewrite Hp in E. injection E as <- <- <- _. done.
  - unfold updateIndex. rewrite Hifp. by intros i [= <-].
Qed.

Lemma homeMessage_framed : framed messageOk homeMessage.
Proof.
  apply (framed_next _ _ 140); [done|by vm_compute| |apply framed_nil].
  eapply messageOk_update; [by vm_compute|done|done|done|by vm_compute|done|]. by vm_compute.
Qed.

Lemma cafeMessage_framed : framed messageOk cafeMessage.
Proof.
  apply (framed_next _ _ 140); [done|by vm_compute| |apply (framed_cut _ _ 200); by vm_compute].
  eapply messageOk_update; [by vm_compute|done|done|done|by vm_compute|done|]. by vm_compute.
Qed.

Definition routeChanges : list monitorOp :=
  [AddExclusion tenNet; Received [homeMessage]; Received [cafeMessage; []]].

Lemma routeChanges_ok : Forall opOk routeChanges.
Proof.
  repeat first [apply Forall_cons_2|apply Forall_nil_2]; cbn [opOk].
  - by vm_compute.
  - apply homeMessage_framed.
  - apply cafeMessage_framed.
  - apply framed_nil.
Qed.

Lemma sent_route_parsed_witness :
  routeAddr (parseAddrList (rtm_payload (routeMessage RTM_ADD tenNet 4 (Some homeRouter) 0 1))) 7 RTA_GATEWAY = Some homeRouter.
Proof.
  destruct (sent_route_parsed RTM_ADD tenNet 4 homeRouter 0 1) as (_ & _ & _ & H & _); [by vm_compute..|]. exact H.
Defined.


Lemma readiness_signalled_witness :
  lastSignal (resTrace (run accepting (forEach (Operate <$> routeChanges) watch) (newMonitor "utun8") [])) = true.
Proof.
  destruct (readiness_signalled accepting (Operate <$> routeChanges) "utun8") as [H|[_ H]].
  - repeat first [apply Forall_cons_2|apply Forall_nil_2]; cbn [watchOk].
    + exact I.
    + by apply (framed_mono messageOk), homeMessage_framed.
    + by apply (framed_mono messageOk), cafeMessage_framed.
    + apply framed_nil.
  - vm_compute in H. discriminate H.
  - rewrite H. vm_compute. reflexivity.
Defined.

(** A message of the length zero is handled again and again: the length that the dump
    of the table checks is not checked here. *)
Lemma empty_message_repeats (o : oracle monitorInterface) (fuel : nat) (g : routeMonitor) h :
  resOutcome (run o (messageLoop fuel (replicate 4 0)) g h) = Unfinished.
Proof. revert g h. induction fuel as [|fuel IH]; intros g h; [done|]. cbn. apply IH. Qed.

(** The loss of a default route of another family, with exclusion routes: the protocol
    that the routes are compared with was never set. *)
Lemma other_family_reads_unset_protocol :
  resOutcome (run accepting (handleRtmDelete (RtHeader 4 0 7 0 RTM_DELETE)
      (sockaddrDl "en0" 4 ++ [0] ++ homeRouter ++ sockaddrIn (replicate 4 0)))
    (withExclusions [tenNet] (newMonitor "utun8")) []) = Thrown.
Proof. by vm_compute. Qed.
