(* ===== verification/RouterMac.v ===== *)
(** * The router of the service on macOS ([service/server/router_mac.cpp])

    The service adds and removes routes with the [route] command, and while hosts
    bypass the tunnel it keeps routes, leases and exceptions of the kill switch for
    the addresses that the hosts resolve to.  An operation is a program
    ([Effects.prog]) over the members of the object; the [route] command, the clock,
    the kill switch, the resolvers, the host lookups and the processes are requests
    with arbitrary answers.  A [QSet] or [QHash] is iterated in the order of the
    elements of the finite set or map; no theorem depends on the order.

    [no_route_outlives] accounts for every route that was added, [learned_routes_kept]
    says what a new answer of the DNS changes, [prewarm_progress] follows the host
    lookups to the end, and [router_keeps_protection] composes the router with the
    kill switch. *)

From Stdlib Require Import Ascii.
From S2P Require Import Prelude QtCore NetworkUtilities SplitTunnel DnsParser Effects.
From stdpp Require Import options.

#[local] Open Scope Z_scope.
#[local] Set Default Proof Using "Type*".

(** ** State *)

Record Route := RouteTo { dst : string; gw : string }.

(** The members with the prefix [m_dnsSplitTunnelPrewarm]. *)
Record prewarm := Prewarm {
  queue : list string;
  generation : Z;
  total : Z;
  started : Z;
  finished : Z;
  succeeded : Z;
  failed : Z;
  pending : Z;
}.

(** Times are milliseconds; the names of the members of the split tunnel are without
    their prefix [m_dnsSplitTunnel]. *)
Record routerMac := Router {
  m_addedRoutes : list Route;
  gateway : string;
  killSwitchEnabled : bool;
  ips : gset string;
  rulesKey : list string;
  hostLeases : gmap string (gmap string Z);
  hostCache : gmap string (list DnsIpv4Answer);
  warm : prewarm;
}.

Definition newRouter : routerMac := Router [] "" false ∅ [] ∅ ∅ (Prewarm [] 0 0 0 0 0 0 0).

Definition withRoutes (l : list Route) (g : routerMac) : routerMac :=
  Router l (gateway g) (killSwitchEnabled g) (ips g) (rulesKey g) (hostLeases g) (hostCache g) (warm g).
Definition withIps (s : gset string) (g : routerMac) : routerMac :=
  Router (m_addedRoutes g) (gateway g) (killSwitchEnabled g) s (rulesKey g) (hostLeases g) (hostCache g) (warm g).
Definition withConfiguration (gw : string) (enabled : bool) (key : list string) (g : routerMac) : routerMac :=
  Router (m_addedRoutes g) gw enabled (ips g) key (hostLeases g) (hostCache g) (warm g).
Definition withLeases (leases : gmap string (gmap string Z)) (cache : gmap string (list DnsIpv4Answer))
    (g : routerMac) : routerMac :=
  Router (m_addedRoutes g) (gateway g) (killSwitchEnabled g) (ips g) (rulesKey g) leases cache (warm g).
Definition withWarm (w : prewarm) (g : routerMac) : routerMac :=
  Router (m_addedRoutes g) (gateway g) (killSwitchEnabled g) (ips g) (rulesKey g) (hostLeases g) (hostCache g) w.

(** ** Requests *)

Inductive routerCall :=
  | RouteIface (argv : list string)
  | CurrentTime
  | AddAllowedRange (ranges : list string)
  | RemoveAllowedRange (ranges : list string)
  | ConfigureRules (rules : list string)
  | UpdateResolvers (ifname : string) (resolvers : list hostAddress)
  | RestoreResolvers
  | LookupHost (generation : Z) (host : string)
  | StartTimer (msec : Z)
  | StopTimer
  | StartProcess (program : string) (args : list string) (startTimeout : Z)
  | WaitForProcess (msec : Z)
  | ExitedNormally
  | Sleep (msec : Z).

(** The exit code of the [route] command, the time, the result of the kill switch,
    whether a process started, finished in time, and ended with the code 0. *)
Definition routerAns (c : routerCall) : Type :=
  match c with
  | RouteIface _ | CurrentTime => Z
  | AddAllowedRange _ | RemoveAllowedRange _ | UpdateResolvers _ _ | RestoreResolvers
  | StartProcess _ _ _ | WaitForProcess _ | ExitedNormally => bool
  | ConfigureRules _ | LookupHost _ _ | StartTimer _ | StopTimer | Sleep _ => unit
  end.

Canonical Structure routerInterface : interface := Interface routerCall routerAns.

Notation router := (prog routerInterface routerMac).

Section model.
Context `{HostAddressText}.
#[local] Open Scope script_scope.

Definition ask (c : routerCall) : router (routerAns c) := request (I := routerInterface) c.

(** What is undefined in C++ ends the program. *)
Definition orUndefined {A} (x : option A) : router A := match x with Some a => Ret a | None => Throw end.

(** The number of elements for which a loop succeeds. *)
Fixpoint countTrue {A} (f : A → router bool) (l : list A) : router Z :=
  match l with
  | [] => Ret 0
  | x :: l => b ← f x; n ← countTrue f l; Ret (if b : bool then 1 + n else n)
  end.

(** ** Routes *)

Definition EEXIST : Z := 17.
Definition ESRCH : Z := 3.

Definition runRouteCommand (cmd : string) : router Z := ask (RouteIface (splitChar " " cmd)).

(** The texts that are put into the commands were accepted as addresses and have no
    markers of their own. *)
Definition routeText (ipWithSubnet gw : string) : string :=
  let ip := ipAddressFromIpWithSubnet ipWithSubnet in
  let mask := netMaskFromIpWithSubnet ipWithSubnet in
  if bool_decide (mask = "255.255.255.255") then "-host " +:+ ip +:+ " " +:+ gw
  else "-net " +:+ ip +:+ " " +:+ gw +:+ " " +:+ mask.

Definition validRoute (ipWithSubnet gw : string) : bool :=
  checkIPv4Format (ipAddressFromIpWithSubnet ipWithSubnet) && checkIPv4Format gw.

Definition routeAddTransient (ipWithSubnet gw : string) : router bool :=
  if negb (validRoute ipWithSubnet gw) then Ret false
  else
    result ← runRouteCommand ("route add " +:+ routeText ipWithSubnet gw);
    Ret ((result =? 0) || (result =? EEXIST)).

Definition routeAdd (ipWithSubnet gw : string) : router bool :=
  if negb (validRoute ipWithSubnet gw) then Ret false
  else
    result ← runRouteCommand ("route add " +:+ routeText ipWithSubnet gw);
    if negb (result =? 0) && negb (result =? EEXIST) then Ret false
    else
      setGlobals (λ g, withRoutes (m_addedRoutes g ++ [RouteTo ipWithSubnet gw]) g);;
      Ret true.

Definition routeAddList (gw : string) (ips : list string) : router Z := countTrue (λ ip, routeAdd ip gw) ips.

Definition routeDelete (ipWithSubnet gw : string) : router bool :=
  if negb (validRoute ipWithSubnet gw) then Ret false
  else if bool_decide (ipWithSubnet = "0.0.0.0/0") then Ret true
  else
    result ← runRouteCommand ("route delete " +:+ routeText ipWithSubnet gw);
    Ret (negb (negb (result =? 0) && negb (result =? ESRCH))).

(** The count is converted to [bool]. *)
Definition routeDeleteList (gw : string) (ips : list string) : router bool :=
  cnt ← countTrue (λ ip, routeDelete ip gw) ips;
  Ret (negb (cnt =? 0)).

Definition clearSavedRoutes : router bool :=
  g ← getGlobals;
  cnt ← countTrue (λ r, routeDelete (dst r) (gw r)) (m_addedRoutes g);
  setGlobals (withRoutes []);;
  Ret (cnt =? Z.of_nat (length (m_addedRoutes g))).

(** ** Leases *)

Definition activeDnsSplitTunnelIps (leases : gmap string (gmap string Z)) : gset string :=
  ⋃ ((λ kv, dom (D := gset string) kv.2) <$> map_to_list leases).

(** The first loop of [syncDnsSplitTunnelIps]; the result is [added]. *)
Fixpoint addMissing (before : gset string) (desired : list string) : router (list string) :=
  match desired with
  | [] => Ret []
  | ip :: desired =>
      if bool_decide (ip ∈ before) then addMissing before desired
      else
        g ← getGlobals;
        ok ← routeAddTransient ip (gateway g);
        if ok : bool then
          setGlobals (λ g, withIps (ips g ∪ {[ip]}) g);;
          added ← addMissing before desired;
          Ret (ip :: added)
        else addMissing before desired
  end.

(** The second loop; the result is [removed]. *)
Fixpoint removeStale (desired : gset string) (before : list string) : router (list string) :=
  match before with
  | [] => Ret []
  | ip :: before =>
      if bool_decide (ip ∈ desired) then removeStale desired before
      else
        g ← getGlobals;
        ok ← routeDelete ip (gateway g);
        if ok : bool then
          setGlobals (λ g, withIps (ips g ∖ {[ip]}) g);;
          removed ← removeStale desired before;
          Ret (ip :: removed)
        else removeStale desired before
  end.

Definition syncDnsSplitTunnelIps (before : gset string) : router unit :=
  g ← getGlobals;
  let desired := activeDnsSplitTunnelIps (hostLeases g) in
  added ← addMissing before (elements desired);
  removed ← removeStale desired (elements before);
  (if negb (bool_decide (added = [])) && killSwitchEnabled g
   then ask (AddAllowedRange added);; Ret tt else Ret tt);;
  (if negb (bool_decide (removed = [])) && killSwitchEnabled g
   then ask (RemoveAllowedRange removed);; Ret tt else Ret tt).

(** [None] is the invalid date. *)
Definition nextExpiry (leases : gmap string (gmap string Z)) (now : Z) : option Z :=
  foldl (λ next expiry,
      if (now <? expiry) && match next with None => true | Some n => expiry <? n end
      then Some expiry else next)
    None (concat ((λ kv, (map_to_list kv.2).*2) <$> map_to_list leases)).

Definition scheduleDnsSplitTunnelLeaseTimer (now : Z) : router unit :=
  g ← getGlobals;
  match nextExpiry (hostLeases g) now with
  | None => ask StopTimer
  | Some next => ask (StartTimer (Z.max 1 (next - now)))
  end.

(** [now.addSecs(qBound(1, ttl, 86400))]. *)
Definition leaseUntil (now ttl : Z) : Z := now + 1000 * Z.max 1 (Z.min 86400 ttl).

(** The loop over the answers: the leases, the cache and its addresses. *)
Definition addAnswer (now : Z) (acc : gmap string Z * list DnsIpv4Answer) (a : DnsIpv4Answer) :
    gmap string Z * list DnsIpv4Answer :=
  if negb (checkIPv4Format (address a)) then acc
  else (<[address a := leaseUntil now (ttlSeconds a)]> acc.1,
        if bool_decide (address a ∈ address <$> acc.2) then acc.2 else acc.2 ++ [a]).

Definition updateDnsSplitTunnelHostLeases (host : string) (answers : list DnsIpv4Answer) : router unit :=
  g ← getGlobals;
  if isEmpty (gateway g) || bool_decide (answers = []) then Ret tt
  else
    now ← ask CurrentTime;
    let '(leases, cached) := foldl (addAnswer now)
      (default ∅ (hostLeases g !! host), default [] (hostCache g !! host)) answers in
    if bool_decide (leases = ∅) then Ret tt
    else
      setGlobals (λ g, withLeases (<[host := leases]> (hostLeases g)) (<[host := cached]> (hostCache g)) g);;
      syncDnsSplitTunnelIps (ips g);;
      scheduleDnsSplitTunnelLeaseTimer now.

Fixpoint dnsSplitTunnelHostMatchesRules (host : string) (rules : list string) : option bool :=
  match rules with
  | [] => Some false
  | text :: rules =>
      (rule ← fromText text;
       m ← (if isValid rule then matchesHost rule host else Some false);
       if m : bool then Some true else dnsSplitTunnelHostMatchesRules host rules)%stdpp
  end.

Definition seedLeases (now : Z) (answers : list DnsIpv4Answer) : gmap string Z :=
  foldl (λ leases a, if negb (checkIPv4Format (address a)) then leases
                     else <[address a := leaseUntil now (ttlSeconds a)]> leases) ∅ answers.

(** One entry of the cache. *)
Definition seedHost (rules : list string) (now : Z) (acc : gmap string (gmap string Z) * Z)
    (entry : string * list DnsIpv4Answer) : option (gmap string (gmap string Z) * Z) :=
  (m ← dnsSplitTunnelHostMatchesRules entry.1 rules;
   if negb m then Some acc
   else
     let leases := seedLeases now entry.2 in
     if bool_decide (leases = ∅) then Some acc
     else Some (<[entry.1 := leases]> acc.1, acc.2 + 1))%stdpp.

Fixpoint seedAll (rules : list string) (now : Z) (acc : gmap string (gmap string Z) * Z)
    (entries : list (string * list DnsIpv4Answer)) : option (gmap string (gmap string Z) * Z) :=
  match entries with
  | [] => Some acc
  | entry :: entries => (acc ← seedHost rules now acc entry; seedAll rules now acc entries)%stdpp
  end.

Definition seedDnsSplitTunnelLeasesFromCache (rules : list string) : router unit :=
  g ← getGlobals;
  if isEmpty (gateway g) || bool_decide (rules = []) || bool_decide (hostCache g = ∅) then Ret tt
  else
    now ← ask CurrentTime;
    seeded ← orUndefined (seedAll rules now (hostLeases g, 0) (map_to_list (hostCache g)));
    setGlobals (λ g, withLeases seeded.1 (hostCache g) g);;
    if 0 <? seeded.2 then
      syncDnsSplitTunnelIps (ips g);;
      scheduleDnsSplitTunnelLeaseTimer now
    else Ret tt.

Definition expireDnsSplitTunnelLeases : router unit := ask StopTimer.

Definition clearDnsSplitTunnelLeases : router unit :=
  ask StopTimer;;
  g ← getGlobals;
  (if negb (bool_decide (elements (ips g) = [])) && negb (isEmpty (gateway g)) then
     routeDeleteList (gateway g) (elements (ips g));;
     (if killSwitchEnabled g then ask (RemoveAllowedRange (elements (ips g)));; Ret tt else Ret tt)
   else Ret tt);;
  setGlobals (λ g, withLeases ∅ (hostCache g) (withIps ∅ g)).

(** ** Looking hosts up in advance *)

Definition kDnsSplitTunnelPrewarmConcurrency : Z := 8.

(** The hosts that are looked up: the valid rules for exactly one host. *)
Fixpoint prewarmHosts (rules : list string) : option (list string) :=
  match rules with
  | [] => Some []
  | text :: rules =>
      (rule ← fromText text;
       rest ← prewarmHosts rules;
       Some (if isValid rule && bool_decide (type rule = ExactHost) then normalizedText rule :: rest else rest))%stdpp
  end.

Definition takeHost (g : routerMac) : routerMac :=
  let w := warm g in
  withWarm (Prewarm (tail (queue w)) (generation w) (total w) (started w + 1) (finished w) (succeeded w) (failed w)
              (pending w + 1)) g.

(** The loop takes a host from the queue in every round. *)
Fixpoint pumpLoop (gen : Z) (hosts : list string) : router unit :=
  match hosts with
  | [] => Ret tt
  | host :: hosts =>
      g ← getGlobals;
      if pending (warm g) <? kDnsSplitTunnelPrewarmConcurrency then
        setGlobals takeHost;;
        ask (LookupHost gen host);;
        pumpLoop gen hosts
      else Ret tt
  end.

Definition pumpDnsSplitTunnelPrewarm : router unit :=
  g ← getGlobals; pumpLoop (generation (warm g)) (queue (warm g)).

(** [removeDuplicates] keeps the first of equal elements. *)
Definition startDnsSplitTunnelPrewarm (rules : list string) : router unit :=
  setGlobals (λ g, withWarm (Prewarm [] (generation (warm g) + 1) 0 0 0 0 0 0) g);;
  g ← getGlobals;
  if isEmpty (gateway g) || bool_decide (rules = []) then Ret tt
  else
    hosts ← orUndefined (prewarmHosts rules);
    let hosts := dedup hosts in
    setGlobals (λ g, withWarm (Prewarm hosts (generation (warm g)) (Z.of_nat (length hosts)) 0 0 0 0 0) g);;
    if bool_decide (hosts = []) then Ret tt else pumpDnsSplitTunnelPrewarm.

Definition finishHost (found : bool) (g : routerMac) : routerMac :=
  let w := warm g in
  withWarm (Prewarm (queue w) (generation w) (total w) (started w) (finished w + 1)
              (if found then succeeded w + 1 else succeeded w) (if found then failed w else failed w + 1)
              (pending w - 1)) g.

Definition finishDnsSplitTunnelPrewarmHost (gen : Z) (host : string) (addresses : list hostAddress) : router unit :=
  g ← getGlobals;
  if negb (gen =? generation (warm g)) then Ret tt
  else
    let answers := (λ a, Answer (printHost a) 3600) <$> filter (λ a, isIPv4 a = true) addresses in
    let found := negb (bool_decide (answers = [])) in
    setGlobals (finishHost found);;
    (if found then updateDnsSplitTunnelHostLeases host answers else Ret tt);;
    pumpDnsSplitTunnelPrewarm.

(** Sorted as [QString]s; only equality of the results is used. *)
Definition sortedRules (rules : list string) : list string := merge_sort String.le rules.

Definition configureDnsSplitTunnel (rules : list string) (gw : string) (enabled : bool) : router bool :=
  g ← getGlobals;
  (if negb (bool_decide (gateway g = gw)) || negb (bool_decide (rulesKey g = sortedRules rules)) ||
      bool_decide (rules = [])
   then clearDnsSplitTunnelLeases else Ret tt);;
  setGlobals (withConfiguration gw enabled (sortedRules rules));;
  ask (ConfigureRules rules);;
  seedDnsSplitTunnelLeasesFromCache rules;;
  startDnsSplitTunnelPrewarm rules;;
  Ret true.

(** ** Xray, devices and resolvers *)

Definition xrayRoute (verb half gateway ifname : string) : string :=
  "route " +:+ verb +:+ " -net " +:+ half +:+ " " +:+
  (if isEmpty gateway then "" else gateway +:+ " ") +:+ "-ifscope " +:+ ifname.

Definition routeAddXray (ifname gateway : string) : router bool :=
  if isEmpty ifname || isEmpty gateway then Ret false
  else
    first ← runRouteCommand (xrayRoute "add" "0.0.0.0/1" gateway ifname);
    second ← runRouteCommand (xrayRoute "add" "128.0.0.0/1" gateway ifname);
    let firstOk := (first =? 0) || (first =? EEXIST) in
    let secondOk := (second =? 0) || (second =? EEXIST) in
    Ret (negb (negb firstOk || negb secondOk)).

Definition routeDeleteXray (ifname gateway : string) : router bool :=
  if isEmpty ifname then Ret false
  else
    first ← runRouteCommand (xrayRoute "delete" "0.0.0.0/1" gateway ifname);
    second ← runRouteCommand (xrayRoute "delete" "128.0.0.0/1" gateway ifname);
    Ret (negb ((negb (first =? 0) && negb (first =? ESRCH)) || (negb (second =? 0) && negb (second =? ESRCH)))).

(** A process that is not waited for to start has the time 0. *)
Definition createTun (dev subnet : string) : router bool :=
  ok ← ask (StartProcess "sudo" ["ifconfig"; dev; "inet"; subnet; subnet; "up"] 1000);
  if negb ok then Ret false else ask (WaitForProcess 2000).

Definition tunExists (dev : string) : router bool :=
  ask (StartProcess "/sbin/ifconfig" [dev] 0);;
  ask (WaitForProcess 500);;
  ask ExitedNormally.

Fixpoint waitForRemoval (rounds : nat) (dev : string) : router bool :=
  match rounds with
  | O => Ret false
  | S rounds =>
      exists_ ← tunExists dev;
      if negb exists_ then Ret true
      else ask (Sleep 200);; waitForRemoval rounds dev
  end.

Definition deleteTun (dev : string) : router bool :=
  if isEmpty dev then Ret true
  else
    ask (StartProcess "/usr/bin/pkill" ["-f"; "tun2socks.*tun://" +:+ dev] 0);;
    ask (WaitForProcess 2000);;
    waitForRemoval 10 dev.

Definition updateResolvers (ifname : string) (resolvers : list hostAddress) : router bool :=
  ask (UpdateResolvers ifname resolvers).

Definition restoreResolvers : router bool := ask RestoreResolvers.

Definition flushDns : router bool :=
  ask (StartProcess "killall" ["-HUP"; "mDNSResponder"] 0);;
  ask (WaitForProcess 30000);;
  Ret true.
End model.

(** Reading and changing a state that is known. *)
Lemma triple_get_known {A} g0 (P : trace routerInterface → Prop) (k : routerMac → router A) Q :
  triple (λ g h, g = g0 ∧ P h) (k g0) Q → triple (λ g h, g = g0 ∧ P h) (bind getGlobals k) Q.
Proof. intros Hk g h [-> HP]. by apply Hk. Qed.

Lemma triple_set_known {A} g0 (P : trace routerInterface → Prop) (f : routerMac → routerMac) (k : router A) Q :
  triple (λ g h, g = f g0 ∧ P h) k Q → triple (λ g h, g = g0 ∧ P h) (bind (setGlobals f) (λ _, k)) Q.
Proof. intros Hk g h [-> HP]. by apply Hk. Qed.

Lemma triple_known {A} g0 (φ : Prop) (P : trace routerInterface → Prop) (p : router A) Q :
  (φ → triple (λ g h, g = g0 ∧ P h) p Q) → triple (λ g h, g = g0 ∧ φ ∧ P h) p Q.
Proof. intros Hp g h (-> & Hφ & HP). by apply Hp. Qed.

(** ** Operations *)

Inductive routerOp :=
  | AddRoute (ipWithSubnet gw : string)
  | AddRoutes (gw : string) (ips : list string)
  | DeleteRoute (ipWithSubnet gw : string)
  | DeleteRoutes (gw : string) (ips : list string)
  | ClearSavedRoutes
  | Configure (rules : list string) (gw : string) (enabled : bool)
  | HostResolved (host : string) (answers : list DnsIpv4Answer)
  | LookupFinished (gen : Z) (host : string) (addresses : list hostAddress)
  | LeaseTimeout.

Definition perform `{HostAddressText} (op : routerOp) : router unit :=
  (match op with
   | AddRoute ip gw => routeAdd ip gw;; Ret tt
   | AddRoutes gw ips => routeAddList gw ips;; Ret tt
   | DeleteRoute ip gw => routeDelete ip gw;; Ret tt
   | DeleteRoutes gw ips => routeDeleteList gw ips;; Ret tt
   | ClearSavedRoutes => clearSavedRoutes;; Ret tt
   | Configure rules gw enabled => configureDnsSplitTunnel rules gw enabled;; Ret tt
   | HostResolved host answers => updateDnsSplitTunnelHostLeases host answers
   | LookupFinished gen host addresses => finishDnsSplitTunnelPrewarmHost gen host addresses
   | LeaseTimeout => expireDnsSplitTunnelLeases
   end)%script.

(** ** The ledger of routes

    [ledger T h]: every route that a command of the history added successfully was
    the object of a later command that deletes it, or is in [T]. *)

Notation routeEvent argv x := (Ev (I := routerInterface) (RouteIface argv) x).

Definition addArgs (rest : list string) : list string := "route" :: "add" :: rest.
Definition deleteArgs (rest : list string) : list string := "route" :: "delete" :: rest.

Definition isDone (result : Z) : bool := (result =? 0) || (result =? EEXIST).

Definition ledger (T : list string → Prop) (h : trace routerInterface) : Prop :=
  ∀ h1 rest r h2, h = h1 ++ routeEvent (addArgs rest) r :: h2 → isDone r = true →
    (∃ x, routeEvent (deleteArgs rest) x ∈ h2) ∨ T rest.

Lemma ledger_mono (T T' : list string → Prop) h : (∀ rest, T rest → T' rest) → ledger T h → ledger T' h.
Proof. intros HT Hl h1 rest r h2 Heq Hr. destruct (Hl _ _ _ _ Heq Hr); auto. Qed.

Definition routeOf (e : event routerInterface) : option (list string * Z) :=
  match evCall e as c return routerAns c → option (list string * Z) with
  | RouteIface argv => λ x, Some (argv, x)
  | _ => λ _, None
  end (evAns e).

Lemma routeEvent_inj argv argv' x x' :
  routeEvent argv x = routeEvent argv' x' → argv = argv' ∧ x = x'.
Proof. intros Heq. apply (f_equal routeOf) in Heq. cbn in Heq. by injection Heq. Qed.

(** An event at the end of a history. *)
Lemma snoc_split {A} (h h1 h2 : list A) e e' :
  h ++ [e] = h1 ++ e' :: h2 → (h2 = [] ∧ e' = e ∧ h1 = h) ∨ ∃ h2', h2 = h2' ++ [e] ∧ h = h1 ++ e' :: h2'.
Proof.
  intros Heq. destruct (decide (h2 = [])) as [->|Hne].
  - left. apply app_inj_tail in Heq as [-> ->]. done.
  - right. apply exists_last in Hne as (h2' & e'' & ->). exists h2'. rewrite app_comm_cons, app_assoc in Heq.
    apply app_inj_tail in Heq as [-> ->]. done.
Qed.

Lemma ledger_snoc T h e :
  (∀ rest r, e = routeEvent (addArgs rest) r → isDone r = true → T rest) → ledger T h → ledger T (h ++ [e]).
Proof.
  intros He Hl h1 rest r h2 Heq Hr. apply snoc_split in Heq as [(-> & <- & ->)|(h2' & -> & ->)].
  - right. by eapply He.
  - destruct (Hl _ _ _ _ eq_refl Hr) as [[x Hx]|?]; [left; exists x; set_solver|by right].
Qed.

Lemma ledger_delete (T : list string → Prop) h rest x :
  ledger T h → ledger (λ r, T r ∧ r ≠ rest) (h ++ [routeEvent (deleteArgs rest) x]).
Proof.
  intros Hl h1 rest' r h2 Heq Hr. apply snoc_split in Heq as [(_ & [[=] _]%routeEvent_inj & _)|(h2' & -> & ->)].
  destruct (Hl _ _ _ _ eq_refl Hr) as [[y Hy]|HT]; [left; exists y; set_solver|].
  destruct (decide (rest' = rest)) as [->|]; [left; exists x; set_solver|by right].
Qed.

(** Requests that are not commands for routes. *)
Definition otherCall (c : routerCall) : bool := match c with RouteIface _ => false | _ => true end.

Section bookkeeping.
Context `{HostAddressText}.

(** The arguments of the commands for a route. *)
Definition routeArgs (ipWithSubnet gw : string) : list string := splitChar " " (routeText ipWithSubnet gw).

Lemma addArgs_text ip gw : splitChar " " ("route add " +:+ routeText ip gw) = addArgs (routeArgs ip gw).
Proof.
  change ("route add " +:+ routeText ip gw) with ("route" +:+ String " " ("add" +:+ String " " (routeText ip gw))).
  by rewrite !splitChar_app.
Qed.

Lemma deleteArgs_text ip gw : splitChar " " ("route delete " +:+ routeText ip gw) = deleteArgs (routeArgs ip gw).
Proof.
  change ("route delete " +:+ routeText ip gw) with ("route" +:+ String " " ("delete" +:+ String " " (routeText ip gw))).
  by rewrite !splitChar_app.
Qed.

(** The default route is never deleted. *)
Definition isDefault (rest : list string) : Prop := ∃ gw, rest = routeArgs "0.0.0.0/0" gw.

Definition savedRoute (l : list Route) (rest : list string) : Prop :=
  ∃ r, r ∈ l ∧ rest = routeArgs (dst r) (gw r).

Definition learnedRoute (g : routerMac) (rest : list string) : Prop :=
  ∃ ip, ip ∈ ips g ∧ rest = routeArgs ip (gateway g).

Definition tracked (g : routerMac) (rest : list string) : Prop :=
  isDefault rest ∨ savedRoute (m_addedRoutes g) rest ∨ learnedRoute g rest.

(** What the object remembers was accepted as a route. *)
Definition remembersValid (g : routerMac) : Prop :=
  Forall (λ r, validRoute (dst r) (gw r) = true) (m_addedRoutes g) ∧
  ∀ ip, ip ∈ ips g → validRoute ip (gateway g) = true.

(** ** Commands for one route *)

Lemma routeAddTransient_ledger g0 T ip gw :
  triple (λ g h, g = g0 ∧ ledger T h) (routeAddTransient ip gw)
    (λ ok g h, g = g0 ∧ (ok = true → validRoute ip gw = true) ∧
               ledger (λ r, T r ∨ ok = true ∧ r = routeArgs ip gw) h).
Proof.
  intros g h [-> Hl]. unfold routeAddTransient. destruct (validRoute ip gw); cbn [negb].
  2:{ exists false. split_and!; [done..|]. eapply ledger_mono; [|exact Hl]. auto. }
  intros x _. cbn. exists ((x =? 0) || (x =? EEXIST)). split_and!; [done..|]. rewrite addArgs_text.
  apply ledger_snoc; [|eapply ledger_mono; [|exact Hl]; auto].
  intros rest r [[= <-] <-]%routeEvent_inj Hr. auto.
Qed.

Lemma routeDelete_ledger g0 T ip gw :
  triple (λ g h, g = g0 ∧ ledger T h) (routeDelete ip gw)
    (λ _ g h, g = g0 ∧ ledger (λ r, T r ∧ (validRoute ip gw = true → r = routeArgs ip gw → isDefault r)) h).
Proof.
  intros g h [-> Hl]. unfold routeDelete. destruct (validRoute ip gw); cbn [negb].
  2:{ exists false. split_and!; [done..|]. eapply ledger_mono; [|exact Hl]. intros r Hr. by split. }
  case_bool_decide as Hd; cbn.
  - subst ip. exists true. split_and!; [done..|]. eapply ledger_mono; [|exact Hl]. intros r Hr. split; [done|].
    intros _ ->. by exists gw.
  - intros x _. eexists. split; [done|]. split; [done|]. rewrite deleteArgs_text.
    eapply ledger_mono; [|apply ledger_delete, Hl]. intros r [HT Hr]. by split.
Qed.

Lemma countTrue_ledger {X} g0 T (ipOf gwOf : X → string) l :
  triple (λ g h, g = g0 ∧ ledger T h) (countTrue (λ x, routeDelete (ipOf x) (gwOf x)) l)
    (λ _ g h, g = g0 ∧ ledger (λ r, T r ∧ ∀ x, x ∈ l → validRoute (ipOf x) (gwOf x) = true →
                                       r = routeArgs (ipOf x) (gwOf x) → isDefault r) h).
Proof.
  revert T. induction l as [|x l IH]; intros T.
  { apply triple_ret. intros g h [-> Hl]. split; [done|]. eapply ledger_mono; [|exact Hl].
    intros r Hr. split; [done|]. by intros x ?%not_elem_of_nil. }
  cbn [countTrue]. eapply triple_bind; [apply routeDelete_ledger|]. intros b.
  eapply triple_bind; [apply IH|]. intros n. apply triple_ret. intros g h [-> Hl]. split; [done|].
  eapply ledger_mono; [|exact Hl]. intros r [[HT Hx] Hr]. split; [done|]. intros y [->|Hy]%elem_of_cons; [done|by apply Hr].
Qed.

Definition learn (l : list string) (g : routerMac) : routerMac := withIps (ips g ∪ list_to_set l) g.

Lemma learn_nil g : learn [] g = g.
Proof. destruct g. unfold learn, withIps. cbn. f_equal. set_solver. Qed.

Lemma learn_app g ip l : learn l (learn [ip] g) = learn (ip :: l) g.
Proof. unfold learn, withIps. cbn. f_equal. set_solver. Qed.

Lemma learn_ledger g ip h :
  ledger (λ r, tracked g r ∨ true = true ∧ r = routeArgs ip (gateway g)) h → ledger (tracked (learn [ip] g)) h.
Proof.
  apply ledger_mono. intros r [[Hd|[Hs|(i & Hi' & ->)]]|[_ ->]];
    [by left|by right; left|right; right; exists i|right; right; exists ip]; cbn; set_solver.
Qed.

Lemma seedLeases_dom now answers ip :
  is_Some (seedLeases now answers !! ip) ↔ checkIPv4Format ip = true ∧ ip ∈ address <$> answers.
Proof.
  unfold seedLeases. 
  assert (∀ l : gmap string Z, is_Some (foldl (λ leases a, if negb (checkIPv4Format (address a)) then leases
      else <[address a := leaseUntil now (ttlSeconds a)]> leases) l answers !! ip) ↔
    is_Some (l !! ip) ∨ checkIPv4Format ip = true ∧ ip ∈ address <$> answers) as Hgen.
  { induction answers as [|a answers IH]; intros l; cbn [foldl fmap list_fmap].
    - split; [by left|]. intros [?|[_ []%not_elem_of_nil]]; done.
    - rewrite IH, elem_of_cons. destruct (checkIPv4Format (address a)) eqn:E; cbn [negb].
      + rewrite lookup_insert_is_Some'. split; [intros [[<-|?]|?]|intros [?|[? [->|?]]]]; tauto.
      + split; [tauto|]. intros [?|[? [->|?]]]; [tauto|congruence|tauto]. }
  rewrite Hgen, lookup_empty. split; [intros [[? [=]]|?]; done|by right].
Qed.

Lemma seedHost_counts rules now acc entry acc' :
  seedHost rules now acc entry = Some acc' → acc' = acc ∨ acc'.2 = acc.2 + 1.
Proof.
  unfold seedHost. destruct (dnsSplitTunnelHostMatchesRules _ _) as [[]|]; cbn; [|by intros [= <-]; left|done].
  case_bool_decide; intros [= <-]; [by left|by right].
Qed.

(** Without a seeded host the leases are as before. *)
Lemma seedAll_counts rules now acc entries acc' :
  seedAll rules now acc entries = Some acc' → acc.2 ≤ acc'.2 ∧ (acc'.2 ≤ acc.2 → acc'.1 = acc.1).
Proof.
  revert acc. induction entries as [|e entries IH]; intros acc; cbn [seedAll]; [by intros [= <-]|].
  destruct (seedHost rules now acc e) as [acc1|] eqn:E; cbn; [|done]. intros [Hle Heq]%IH.
  apply seedHost_counts in E as [->|E]; [done|]. split; [lia|]. intros ?. lia.
Qed.

Lemma addAnswers_dom now answers acc ip :
  is_Some (acc.1 !! ip) ∨ (checkIPv4Format ip = true ∧ ip ∈ address <$> answers) →
  is_Some ((foldl (addAnswer now) acc answers).1 !! ip).
Proof.
  revert acc. induction answers as [|a answers IH]; intros acc; cbn [foldl fmap list_fmap].
  { by intros [?|[_ []%not_elem_of_nil]]. }
  intros Hip. apply IH. unfold addAnswer. destruct (checkIPv4Format (address a)) eqn:E; cbn [negb fst].
  - rewrite lookup_insert_is_Some'. rewrite elem_of_cons in Hip.
    destruct Hip as [?|[? [->|?]]]; [by left; right|by left; left|by right].
  - destruct Hip as [?|[? [->|?]%elem_of_cons]]; [by left|congruence|by right].
Qed.

(** Every leased address has its route, unless the route was refused. *)
Definition unroutable (gw : string) (h : trace routerInterface) (ip : string) : Prop :=
  validRoute ip gw = false ∨ ∃ x, routeEvent (addArgs (routeArgs ip gw)) x ∈ h ∧ isDone x = false.

Definition served (g : routerMac) (h : trace routerInterface) : Prop :=
  ∀ ip, ip ∈ activeDnsSplitTunnelIps (hostLeases g) → ip ∈ ips g ∨ unroutable (gateway g) h ip.

Lemma unroutable_app gw h e ip : unroutable gw h ip → unroutable gw (h ++ [e]) ip.
Proof. intros [?|(x & Hx & ?)]; [by left|]. right. exists x. set_solver. Qed.

Lemma served_app g h e : served g h → served g (h ++ [e]).
Proof. intros Hs ip [?|?]%Hs; [by left|]. right. by apply unroutable_app. Qed.

Lemma routeAddTransient_served gw g0 (Q : trace routerInterface → Prop) ip :
  (∀ h e, Q h → Q (h ++ [e])) →
  triple (λ g h, g = g0 ∧ Q h) (routeAddTransient ip gw)
    (λ ok g h, g = g0 ∧ Q h ∧ (ok = true ∨ unroutable gw h ip)).
Proof.
  intros HQ g h [-> Hh]. unfold routeAddTransient. destruct (validRoute ip gw) eqn:Ev; cbn [negb].
  2:{ exists false. split_and!; [done..|]. right. by left. }
  intros x _. rewrite addArgs_text. eexists. split; [done|]. split_and!; [done|by apply HQ|]. fold (isDone x).
  destruct (isDone x) eqn:Ex; [by left|]. right. right. exists x. split; [set_solver|done].
Qed.

Lemma addMissing_served gw before desired (Q : trace routerInterface → Prop) :
  (∀ h e, Q h → Q (h ++ [e])) →
  triple (λ g h, gateway g = gw ∧ Q h) (addMissing before desired)
    (λ l g h, Q h ∧ ∀ ip, ip ∈ desired → ip ∈ before ∨ ip ∈ l ∨ unroutable gw h ip).
Proof.
  revert Q. induction desired as [|ip desired IH]; intros Q HQ; cbn [addMissing].
  { apply triple_ret. intros g h [_ Hh]. split; [done|]. by intros ip ?%not_elem_of_nil. }
  case_bool_decide.
  { eapply triple_conseq; [by apply (IH Q)|done|]. intros l g h [Hh Hl]. split; [done|]. intros ip' [->|?]%elem_of_cons; auto. }
  apply triple_get. intros g1. eapply (triple_conseq (λ g h, g = g1 ∧ (gateway g1 = gw ∧ Q h)));
    [|by intros g h (-> & <- & ?)|intros l g h HQ'; exact HQ'].
  apply triple_known. intros Hgw. rewrite Hgw. eapply triple_bind; [by apply routeAddTransient_served|]. intros ok.
  set (Q' h := Q h ∧ (ok = true ∨ unroutable gw h ip)).
  assert (∀ h e, Q' h → Q' (h ++ [e])) as HQ'.
  { intros h e [Hh Hu]. split; [by apply HQ|]. destruct Hu; [by left|right]. by apply unroutable_app. }
  destruct ok.
  - eapply (triple_bind _ _ _ (λ _ g h, gateway g = gw ∧ Q' h)).
    { apply triple_set. intros g h (-> & Hh). done. }
    intros ?. eapply triple_bind; [by apply (IH Q')|]. intros l. apply triple_ret. intros g h [[Hh _] Hl]. split; [done|].
    intros ip' [->|[?|[?|?]]%Hl]%elem_of_cons; [right; left; by left|by left|right; left; by right|by right; right].
  - eapply triple_conseq; [by apply (IH Q')|by intros g h (-> & Hh & ?)|]. intros l g h [[Hh [|Hu]] Hl]; [done|].
    split; [done|]. intros ip' [->|?]%elem_of_cons; [by right; right|auto].
Qed.

(** ** The invariant

    [A] is what the addresses that the router is told satisfy. *)

Section invariant.
Context (A : string → Prop).

Definition leased (g : routerMac) : Prop :=
  (∀ host l ip, hostLeases g !! host = Some l → is_Some (l !! ip) →
     checkIPv4Format ip = true ∧ A ip ∧ ip ∈ address <$> default [] (hostCache g !! host)) ∧
  (∀ host cached, hostCache g !! host = Some cached →
     is_Some (normalizeHostText host) ∧ Forall A (address <$> cached)) ∧
  ips g ⊆ activeDnsSplitTunnelIps (hostLeases g).

(** The kill switch is asked to permit such addresses only. *)
Definition grantsOnly (e : event routerInterface) : Prop :=
  match evCall e with AddAllowedRange l => Forall A l | _ => True end.

Definition stateOk (g : routerMac) : Prop := remembersValid g ∧ leased g.

Definition historyOk (g : routerMac) (h : trace routerInterface) : Prop :=
  ledger (tracked g) h ∧ Forall grantsOnly h.

Lemma elem_of_active leases ip :
  ip ∈ activeDnsSplitTunnelIps leases ↔ ∃ host l, leases !! host = Some l ∧ is_Some (l !! ip).
Proof.
  unfold activeDnsSplitTunnelIps. rewrite elem_of_union_list. split.
  - intros (X & ([host l] & -> & Hin%elem_of_map_to_list)%list_elem_of_fmap & Hip%elem_of_dom). eauto.
  - intros (host & l & Hl & Hip). exists (dom l). split; [|by apply elem_of_dom].
    apply list_elem_of_fmap. exists (host, l). by rewrite elem_of_map_to_list.
Qed.

(** *** Histories to which no deletion was added *)

Definition noDelete (e : event routerInterface) : Prop := ∀ rest x, e ≠ routeEvent (deleteArgs rest) x.

Definition onlyAdded (h0 h : trace routerInterface) : Prop := ∃ t, h = h0 ++ t ∧ Forall noDelete t.

Lemma onlyAdded_refl h : onlyAdded h h.
Proof. exists []. by rewrite app_nil_r. Qed.

Lemma onlyAdded_snoc h0 h e : noDelete e → onlyAdded h0 h → onlyAdded h0 (h ++ [e]).
Proof.
  intros He (t & -> & Ht). exists (t ++ [e]). rewrite app_assoc. split; [done|].
  apply Forall_app_2; [done|]. by apply Forall_cons_2; [|apply Forall_nil_2].
Qed.

Lemma noDelete_other c x : otherCall c = true → noDelete (Ev (I := routerInterface) c x).
Proof. intros Hc rest y He%(f_equal evCall). cbn in He. by subst c. Qed.

Lemma noDelete_add rest x : noDelete (routeEvent (addArgs rest) x).
Proof. intros rest' y [[=] _]%routeEvent_inj. Qed.

Lemma grantsOnly_route argv x h : Forall grantsOnly h → Forall grantsOnly (h ++ [routeEvent argv x]).
Proof. intros Hh. apply Forall_app_2; [done|]. by apply Forall_cons_2; [|apply Forall_nil_2]. Qed.

Lemma historyOk_other g h c x :
  otherCall c = true → (∀ l, c = AddAllowedRange l → Forall A l) →
  historyOk g h → historyOk g (h ++ [Ev (I := routerInterface) c x]).
Proof.
  intros Hc Hl [Hled Hg]. split.
  - apply ledger_snoc; [|done]. intros rest r He%(f_equal evCall). cbn in He. by subst c.
  - apply Forall_app_2; [done|]. apply Forall_cons_2; [|by apply Forall_nil_2]. unfold grantsOnly. cbn.
    destruct c; try done. by apply Hl.
Qed.

(** The books mention three members only. *)
Lemma historyOk_same g g' h :
  m_addedRoutes g' = m_addedRoutes g → gateway g' = gateway g → ips g' = ips g → historyOk g h → historyOk g' h.
Proof. unfold historyOk, ledger, tracked, learnedRoute. by intros -> -> ->. Qed.

Lemma remembersValid_same g g' :
  m_addedRoutes g' = m_addedRoutes g → gateway g' = gateway g → ips g' = ips g → remembersValid g → remembersValid g'.
Proof. unfold remembersValid. by intros -> -> ->. Qed.

(** A request that is no command for a route, in a history that grows by additions. *)
Lemma ask_known g0 h0 c :
  otherCall c = true → (∀ l, c = AddAllowedRange l → Forall A l) →
  triple (λ g h, g = g0 ∧ historyOk g0 h ∧ onlyAdded h0 h) (ask c)
    (λ _ g h, g = g0 ∧ True ∧ historyOk g0 h ∧ onlyAdded h0 h).
Proof.
  intros Hc Hl. apply triple_request. intros g h x (-> & Hh & Ha). split_and!; [done..| |].
  - by apply historyOk_other.
  - apply onlyAdded_snoc; [by apply noDelete_other|done].
Qed.

(** *** Routes *)

Lemma routeAddTransient_ok g0 h0 ip gw :
  triple (λ g h, g = g0 ∧ historyOk g0 h ∧ onlyAdded h0 h) (routeAddTransient ip gw)
    (λ ok g h, g = g0 ∧ (ok = true → validRoute ip gw = true) ∧
       (ledger (λ r, tracked g0 r ∨ ok = true ∧ r = routeArgs ip gw) h ∧ Forall grantsOnly h ∧ onlyAdded h0 h)).
Proof.
  eapply triple_conseq; [eapply triple_and; [apply (routeAddTransient_ledger g0 (tracked g0) ip gw)|]| |].
  - instantiate (1 := λ _ _ h, Forall grantsOnly h ∧ onlyAdded h0 h).
    instantiate (1 := λ _ h, Forall grantsOnly h ∧ onlyAdded h0 h).
    intros g h (Hg & Ha). unfold routeAddTransient. destruct (validRoute ip gw); cbn; [|by eauto 6].
    intros x _. rewrite addArgs_text. eexists. split_and!; [done| |].
    + by apply grantsOnly_route.
    + by apply onlyAdded_snoc; [apply noDelete_add|].
  - intros g h (-> & [] & Ha). done.
  - intros ok g h [(-> & Hv & Hl) (? & ?)]. by split_and!.
Qed.

Lemma learn_state g ip :
  stateOk g → ip ∈ activeDnsSplitTunnelIps (hostLeases g) → validRoute ip (gateway g) = true → stateOk (learn [ip] g).
Proof.
  intros [[Hr Hi] (Hls & Hc & Hact)] Hip Hv. split; [split; [done|cbn; set_solver]|].
  split_and!; [done..|]. cbn. set_solver.
Qed.

Lemma addMissing_ok g0 h0 before desired :
  stateOk g0 → Forall (λ ip, ip ∈ activeDnsSplitTunnelIps (hostLeases g0)) desired →
  triple (λ g h, g = g0 ∧ historyOk g0 h ∧ onlyAdded h0 h) (addMissing before desired)
    (λ l g h, g = learn l g0 ∧ (l ⊆ desired ∧ stateOk (learn l g0)) ∧ historyOk (learn l g0) h ∧ onlyAdded h0 h).
Proof.
  revert g0. induction desired as [|ip desired IH]; intros g0 Hg0 Hd; cbn [addMissing].
  { apply triple_ret. intros g h (-> & Hh & Ha). by rewrite learn_nil. }
  apply Forall_cons in Hd as [Hip Hd]. case_bool_decide.
  { eapply triple_conseq; [by apply IH|done|]. intros l g h (-> & [Hl Hs] & Hh & Ha). split_and!; [done|set_solver|done..]. }
  apply triple_get_known. eapply triple_bind; [apply routeAddTransient_ok|]. intros ok. apply triple_known. intros Hv. destruct ok.
  - apply triple_set_known. eapply triple_bind.
    { eapply triple_conseq; [apply (IH (learn [ip] g0))| |intros l g h HQ; exact HQ].
      - apply learn_state; auto.
      - done.
      - intros g h (-> & Hl & Hg & Ha). split_and!; [|split; [by apply learn_ledger|done]|done].
        unfold learn. f_equal. set_solver. }
    intros l. apply triple_ret. intros g h (-> & [Hl Hs] & Hh & Ha). rewrite learn_app in *.
    split_and!; [done|set_solver|done..].
  - eapply triple_conseq; [by apply IH| |].
    + intros g h (-> & Hl & Hg & Ha). split_and!; [done|split; [|done]|done].
      eapply ledger_mono; [|exact Hl]. intros r [?|[[=] _]]; done.
    + intros l g h (-> & [Hl Hs] & Hh & Ha). split_and!; [done|set_solver|done..].
Qed.

(** *** Leases *)

(** Learning addresses is all that happened to a state. *)
Definition grown (g0 : routerMac) (h0 : trace routerInterface) (g : routerMac) (h : trace routerInterface) : Prop :=
  (∃ l, g = learn l g0) ∧ stateOk g ∧ historyOk g h ∧ onlyAdded h0 h ∧ served g h.

Lemma removeStale_none desired before : Forall (λ ip, ip ∈ desired) before → removeStale desired before = Ret [].
Proof. induction 1 as [|ip before Hip _ IH]; [done|]. cbn [removeStale]. by rewrite bool_decide_true. Qed.

(** A request that is no command for a route keeps all that is known. *)
Lemma ask_served g0 h0 c :
  otherCall c = true → (∀ l, c = AddAllowedRange l → Forall A l) →
  triple (λ g h, g = g0 ∧ historyOk g0 h ∧ onlyAdded h0 h ∧ served g0 h) (ask c)
    (λ _ g h, g = g0 ∧ historyOk g0 h ∧ onlyAdded h0 h ∧ served g0 h).
Proof.
  intros Hc Hl. apply triple_request. intros g h x (-> & Hh & Ha & Hs). split_and!; [done| | |by apply served_app].
  - by apply historyOk_other.
  - apply onlyAdded_snoc; [by apply noDelete_other|done].
Qed.

Lemma addAll_ok g0 h0 :
  stateOk g0 →
  triple (λ g h, g = g0 ∧ historyOk g0 h ∧ onlyAdded h0 h)
    (addMissing (ips g0) (elements (activeDnsSplitTunnelIps (hostLeases g0))))
    (λ l g h, g = learn l g0 ∧ (Forall A l ∧ stateOk (learn l g0)) ∧
              historyOk (learn l g0) h ∧ onlyAdded h0 h ∧ served (learn l g0) h).
Proof.
  intros Hg0. set (desired := elements _).
  eapply triple_conseq;
    [eapply triple_and; [apply (addMissing_ok g0 h0 (ips g0) desired Hg0)|
       apply (addMissing_served (gateway g0) (ips g0) desired (λ _, True)); done]| |].
  - apply Forall_forall. intros ip. unfold desired. by rewrite elem_of_elements.
  - by intros g h (-> & ? & ?).
  - intros l g h [(-> & [Hl Hs] & Hh & Ha) [_ Hserved]]. split_and!; [done| |done..|].
    + apply Forall_forall. intros ip Hip%Hl. apply elem_of_elements, elem_of_active in Hip as (host & ls & Hls & Hip).
      by apply (proj1 (proj2 Hg0) host ls ip Hls Hip).
    + intros ip Hip. destruct (Hserved ip) as [?|[?|?]]; [by apply elem_of_elements|..]; [left|left|by right]; cbn; set_solver.
Qed.

Lemma syncDnsSplitTunnelIps_ok g0 h0 :
  stateOk g0 →
  triple (λ g h, g = g0 ∧ historyOk g0 h ∧ onlyAdded h0 h) (syncDnsSplitTunnelIps (ips g0)) (λ _, grown g0 h0).
Proof.
  intros Hg0. unfold syncDnsSplitTunnelIps. apply triple_get_known.
  eapply triple_bind; [by apply addAll_ok|]. intros added. rewrite removeStale_none; [cbn [bind]|].
  2:{ apply Forall_forall. intros ip Hip%elem_of_elements. by apply Hg0. }
  apply triple_known. intros [HA Hs].
  eapply (triple_bind _ _ _ (λ _ g h, g = learn added g0 ∧ historyOk (learn added g0) h ∧ onlyAdded h0 h ∧
                                      served (learn added g0) h)).
  { destruct (negb _ && _); [|by apply triple_ret].
    eapply triple_bind; [apply ask_served; [done|by intros ? [= <-]]|]. intros ?. by apply triple_ret. }
  intros _. cbn. apply triple_ret. intros g h (-> & Hh & Ha & Hv). split_and!; [by exists added|done..].
Qed.

Lemma scheduleDnsSplitTunnelLeaseTimer_ok g0 h0 now :
  triple (grown g0 h0) (scheduleDnsSplitTunnelLeaseTimer now) (λ _, grown g0 h0).
Proof.
  apply triple_get. intros g1.
  assert (∀ c : routerCall, otherCall c = true → (∀ l, c ≠ AddAllowedRange l) →
    triple (λ g h, g = g1 ∧ grown g0 h0 g h) (ask c) (λ _, grown g0 h0)) as Hask.
  { intros c Hc Hn. apply triple_request. intros g h x (-> & Hl & Hs & Hh & Ha & Hv). split_and!; [done..| | |].
    - apply historyOk_other; [done|by intros l ?; destruct (Hn l)|done].
    - apply onlyAdded_snoc; [by apply noDelete_other|done].
    - by apply served_app. }
  destruct (nextExpiry _ _); by apply Hask.
Qed.

Definition leaseEntry (l : gmap string Z) (cached : list DnsIpv4Answer) : Prop :=
  (∀ ip, is_Some (l !! ip) → checkIPv4Format ip = true ∧ A ip ∧ ip ∈ address <$> cached) ∧
  Forall A (address <$> cached).

Lemma addAnswer_entry now acc a :
  A (address a) → leaseEntry acc.1 acc.2 →
  leaseEntry (addAnswer now acc a).1 (addAnswer now acc a).2 ∧ dom acc.1 ⊆ dom (addAnswer now acc a).1.
Proof.
  intros Ha [Hl Hc]. unfold addAnswer. destruct (checkIPv4Format (address a)) eqn:Hf; cbn [negb]; [|done].
  cbn [fst snd]. split; [|rewrite dom_insert; set_solver].
  assert (∀ ip, ip = address a ∨ ip ∈ address <$> acc.2 →
    ip ∈ address <$> (if bool_decide (address a ∈ address <$> acc.2) then acc.2 else acc.2 ++ [a])) as Hin.
  { intros ip Hip. case_bool_decide; [by destruct Hip as [->|]|]. rewrite fmap_app. set_solver. }
  split.
  - intros ip. destruct (decide (ip = address a)) as [->|]; [auto|].
    rewrite lookup_insert_ne by done. intros (?&?&?)%Hl. auto.
  - case_bool_decide; [done|]. rewrite fmap_app. apply Forall_app_2; [done|].
    by apply Forall_cons_2; [|apply Forall_nil_2].
Qed.

Lemma addAnswers_entry now answers acc :
  Forall A (address <$> answers) → leaseEntry acc.1 acc.2 →
  let acc' := foldl (addAnswer now) acc answers in
  leaseEntry acc'.1 acc'.2 ∧ dom acc.1 ⊆ dom acc'.1.
Proof.
  revert acc. induction answers as [|a answers IH]; intros acc Ha Hacc; [done|]. cbn [foldl].
  cbn [fmap list_fmap] in Ha. apply Forall_cons in Ha as [Ha Has].
  destruct (addAnswer_entry now acc a Ha Hacc) as [He Hd]. destruct (IH _ Has He) as [He' Hd']. split; [done|]. by etrans.
Qed.

(** Leases of more addresses for one host. *)
Lemma leased_insert g host l cached :
  leased g → leaseEntry l cached → is_Some (normalizeHostText host) →
  dom (default ∅ (hostLeases g !! host)) ⊆ dom l →
  leased (withLeases (<[host := l]> (hostLeases g)) (<[host := cached]> (hostCache g)) g).
Proof.
  intros (Hls & Hc & Hact) [Hl HA] Hhost Hdom. split_and!; cbn.
  - intros host' l' ip. destruct (decide (host' = host)) as [->|].
    + rewrite !lookup_insert_eq. intros [= <-]. apply Hl.
    + rewrite !lookup_insert_ne by done. apply Hls.
  - intros host' cached'. destruct (decide (host' = host)) as [->|].
    + rewrite lookup_insert_eq. by intros [= <-].
    + rewrite lookup_insert_ne by done. apply Hc.
  - etrans; [exact Hact|]. intros ip (host' & l' & Hl' & Hip)%elem_of_active. apply elem_of_active.
    destruct (decide (host' = host)) as [->|].
    + exists host, l. rewrite lookup_insert_eq. split; [done|]. apply elem_of_dom, Hdom, elem_of_dom. by rewrite Hl'.
    + exists host', l'. by rewrite lookup_insert_ne.
Qed.

Lemma leaseEntry_of g host :
  leased g → leaseEntry (default ∅ (hostLeases g !! host)) (default [] (hostCache g !! host)).
Proof.
  intros (Hls & Hc & _). split.
  - intros ip. destruct (hostLeases g !! host) as [l|] eqn:E; cbn; [by apply Hls|]. rewrite lookup_empty. by intros [].
  - destruct (hostCache g !! host) as [cached|] eqn:E; cbn; [by apply (Hc host cached)|constructor].
Qed.

Lemma updateDnsSplitTunnelHostLeases_ok g0 h0 host answers :
  stateOk g0 → is_Some (normalizeHostText host) → Forall A (address <$> answers) →
  triple (λ g h, g = g0 ∧ historyOk g0 h ∧ onlyAdded h0 h ∧ served g0 h) (updateDnsSplitTunnelHostLeases host answers)
    (λ _ g h, (stateOk g ∧ historyOk g h ∧ onlyAdded h0 h ∧ served g h ∧ ips g0 ⊆ ips g) ∧
       gateway g = gateway g0 ∧
       (gateway g0 ≠ "" → ∀ ip, checkIPv4Format ip = true → ip ∈ address <$> answers →
          ip ∈ activeDnsSplitTunnelIps (hostLeases g))).
Proof.
  intros [Hv Hl] Hhost HA. unfold updateDnsSplitTunnelHostLeases. apply triple_get_known.
  destruct (isEmpty (gateway g0) || _) eqn:Ee.
  { apply triple_ret; intros g h (-> & Hh & Ha & Hserved). split; [by split_and!|]. split; [done|]. intros Hne ip _ Hip.
    apply orb_true_iff in Ee as [Ee| ->%bool_decide_eq_true]; [by destruct (gateway g0)|by apply not_elem_of_nil in Hip]. }
  eapply triple_bind; [by apply ask_served|]. intros now.
  set (acc := (default ∅ (hostLeases g0 !! host), default [] (hostCache g0 !! host))).
  destruct (addAnswers_entry now answers acc HA (leaseEntry_of g0 host Hl)) as [He Hd].
  pose proof (addAnswers_dom now answers acc) as Hnew.
  destruct (foldl _ _ _) as [leases cached]. cbn [fst snd] in He, Hd, Hnew. clear Ee. case_bool_decide as Hnone.
  { apply triple_ret; intros g h (-> & Hh & Ha & Hserved). split; [by split_and!|]. split; [done|]. intros _ ip Hf Hip.
    destruct (Hnew ip) as [z Hz]; [by right|]. by rewrite Hnone, lookup_empty in Hz. }
  apply triple_set_known.
  set (g1 := withLeases (<[host := leases]> (hostLeases g0)) (<[host := cached]> (hostCache g0)) g0).
  assert (stateOk g1) as Hg1 by (split; [exact Hv|by apply leased_insert]).
  eapply triple_bind.
  { eapply triple_conseq; [exact (syncDnsSplitTunnelIps_ok g1 h0 Hg1)| |intros ? g h HQ; exact HQ].
    by intros g h (-> & Hh & Ha & _). }
  intros ?. eapply triple_conseq; [apply scheduleDnsSplitTunnelLeaseTimer_ok|done|].
  intros _ g h ([l ->] & Hs & Hh & Ha & Hserved). split; [split_and!; [done..|cbn; set_solver]|]. split; [done|].
  intros _ ip Hf Hip. apply elem_of_active. exists host, leases. cbn. rewrite lookup_insert_eq. auto.
Qed.

(** Leases that are seeded from the cache. *)
Definition seededFrom (g : routerMac) (leases : gmap string (gmap string Z)) : Prop :=
  (∀ host l ip, leases !! host = Some l → is_Some (l !! ip) →
     checkIPv4Format ip = true ∧ A ip ∧ ip ∈ address <$> default [] (hostCache g !! host)) ∧
  activeDnsSplitTunnelIps (hostLeases g) ⊆ activeDnsSplitTunnelIps leases.

Lemma seedHost_ok g rules now acc entry :
  leased g → Forall (λ t, is_Some (normalizeHostText t)) rules →
  hostCache g !! entry.1 = Some entry.2 → seededFrom g acc.1 →
  ∃ acc', seedHost rules now acc entry = Some acc' ∧ seededFrom g acc'.1.
Proof.
  intros (Hls & Hc & _) Hrules He [Hacc Hact]. destruct (Hc _ _ He) as [[n Hn] HA]. unfold seedHost.
  assert (∃ m, dnsSplitTunnelHostMatchesRules entry.1 rules = Some m) as [m ->].
  { clear -Hrules Hn. induction Hrules as [|t rules [nt Ht] _ IH]; cbn; [by exists false|].
    unfold fromText. rewrite Ht. cbn. destruct (isValid _); cbn; [|exact IH].
    unfold matchesHost. rewrite Hn. cbn. destruct (match _ with ExactHost => _ | _ => _ end); [by eexists|exact IH]. }
  cbn. destruct m; cbn [negb]; [|by exists acc]. case_bool_decide; [by exists acc|].
  eexists. split; [done|]. cbn [fst]. split.
  - intros host l ip. destruct (decide (host = entry.1)) as [->|].
    + rewrite lookup_insert_eq. intros [= <-] [Hf Hin]%seedLeases_dom. rewrite He. split_and!; [done| |done].
      rewrite Forall_forall in HA. by apply HA.
    + rewrite lookup_insert_ne by done. apply Hacc.
  - etrans; [exact Hact|]. intros ip (host & l & Hl & Hip)%elem_of_active. apply elem_of_active.
    destruct (decide (host = entry.1)) as [->|].
    + exists entry.1, (seedLeases now entry.2). rewrite lookup_insert_eq. split; [done|]. apply seedLeases_dom.
      destruct (Hacc _ _ _ Hl Hip) as (Hf & _ & Hin). by rewrite He in Hin.
    + exists host, l. by rewrite lookup_insert_ne.
Qed.

Lemma seedAll_ok g rules now acc entries :
  leased g → Forall (λ t, is_Some (normalizeHostText t)) rules →
  Forall (λ e, hostCache g !! e.1 = Some e.2) entries → seededFrom g acc.1 →
  ∃ acc', seedAll rules now acc entries = Some acc' ∧ seededFrom g acc'.1.
Proof.
  intros Hl Hr He. revert acc. induction He as [|e entries He _ IH]; intros acc Hacc; [by exists acc|].
  cbn [seedAll]. destruct (seedHost_ok g rules now acc e Hl Hr He Hacc) as (acc' & -> & Hacc'). by apply IH.
Qed.

Lemma seed_ok g0 h0 rules :
  stateOk g0 → Forall (λ t, is_Some (normalizeHostText t)) rules →
  triple (λ g h, g = g0 ∧ historyOk g0 h ∧ onlyAdded h0 h ∧ served g0 h) (seedDnsSplitTunnelLeasesFromCache rules)
    (λ _ g h, stateOk g ∧ historyOk g h ∧ onlyAdded h0 h ∧ served g h ∧ ips g0 ⊆ ips g).
Proof.
  intros [Hv Hl] Hrules. unfold seedDnsSplitTunnelLeasesFromCache. apply triple_get_known.
  destruct (isEmpty (gateway g0) || _ || _); [by apply triple_ret; intros g h (-> & Hh & Ha & Hserved)|].
  eapply triple_bind; [by apply ask_served|]. intros now.
  destruct (seedAll_ok g0 rules now (hostLeases g0, 0) (map_to_list (hostCache g0)) Hl Hrules) as (acc & Hseed & Hacc).
  { apply Forall_forall. intros [host cached] Hin. by apply elem_of_map_to_list. }
  { split; [apply Hl|done]. }
  rewrite Hseed. apply seedAll_counts in Hseed as [_ Hnone]. cbn [fst snd] in Hnone.
  cbn [orUndefined bind]. apply triple_set_known. set (g1 := withLeases acc.1 (hostCache g0) g0).
  assert (stateOk g1) as Hg1.
  { split; [exact Hv|]. destruct Hl as (_ & Hc & Hact). destruct Hacc as [Hls Hsub]. split_and!; [exact Hls|exact Hc|].
    etrans; [exact Hact|exact Hsub]. }
  destruct (Z.ltb_spec 0 acc.2) as [_|Hz].
  2:{ apply triple_ret. intros g h (-> & Hh & Ha & Hserved). split_and!; [done..| |done].
      unfold served, g1. cbn [hostLeases withLeases]. by rewrite (Hnone Hz). }
  eapply triple_bind.
  { eapply triple_conseq; [exact (syncDnsSplitTunnelIps_ok g1 h0 Hg1)| |intros ? g h HQ; exact HQ].
    by intros g h (-> & Hh & Ha & _). }
  intros ?.
  eapply triple_conseq; [apply scheduleDnsSplitTunnelLeaseTimer_ok|done|].
  intros _ g h ([l ->] & Hs & Hh & Ha & Hserved). split_and!; [done..|]. cbn. set_solver.
Qed.

(** *** Deletions *)

(** What commands for routes do not change stays. *)
Lemma delete_keeps {X} (P : trace routerInterface → Prop) (ipOf gwOf : X → string) l :
  (∀ argv x h, P h → P (h ++ [routeEvent argv x])) →
  triple (λ _ h, P h) (countTrue (λ x, routeDelete (ipOf x) (gwOf x)) l) (λ _ _ h, P h).
Proof.
  intros HP. induction l as [|x l IH]; [by apply triple_ret|]. cbn [countTrue].
  eapply (triple_bind _ _ _ (λ _ _ h, P h)).
  - intros g h Hh. unfold routeDelete. destruct (negb _); [by eexists|]. destruct (bool_decide _); [by eexists|].
    intros y _. cbn. eexists. split; [done|]. by apply HP.
  - intros b. eapply triple_bind; [apply IH|]. intros n. by apply triple_ret.
Qed.

(** Deleting the routes of a list: none of those that were accepted is left. *)
Lemma deleteAll_ok {X} g0 (ipOf gwOf : X → string) l :
  triple (λ g h, g = g0 ∧ historyOk g0 h) (countTrue (λ x, routeDelete (ipOf x) (gwOf x)) l)
    (λ _ g h, g = g0 ∧ (ledger (λ r, tracked g0 r ∧ ∀ x, x ∈ l → validRoute (ipOf x) (gwOf x) = true →
                          r = routeArgs (ipOf x) (gwOf x) → isDefault r) h ∧ Forall grantsOnly h)).
Proof.
  eapply triple_conseq;
    [eapply triple_and; [apply (countTrue_ledger g0 (tracked g0) ipOf gwOf l)|
                         apply (delete_keeps (Forall grantsOnly) ipOf gwOf l grantsOnly_route)]| |].
  - intros g h [-> [? ?]]. done.
  - intros n g h [[-> Hl] Hg]. done.
Qed.

Lemma routeDeleteList_ok g0 gw l :
  triple (λ g h, g = g0 ∧ historyOk g0 h) (routeDeleteList gw l)
    (λ _ g h, g = g0 ∧ (ledger (λ r, tracked g0 r ∧ ∀ ip, ip ∈ l → validRoute ip gw = true →
                          r = routeArgs ip gw → isDefault r) h ∧ Forall grantsOnly h)).
Proof.
  eapply triple_bind; [apply (deleteAll_ok g0 id (λ _, gw) l)|]. intros cnt. by apply triple_ret.
Qed.

Lemma clearSavedRoutes_ok g0 :
  stateOk g0 →
  triple (λ g h, g = g0 ∧ historyOk g0 h) clearSavedRoutes
    (λ _ g h, g = withRoutes [] g0 ∧ stateOk (withRoutes [] g0) ∧ historyOk (withRoutes [] g0) h).
Proof.
  intros [[Hr Hi] Hl]. unfold clearSavedRoutes. apply triple_get_known.
  eapply triple_bind; [apply (deleteAll_ok g0 dst gw)|]. intros cnt. apply triple_set_known, triple_ret.
  intros g h (-> & Hled & Hg). split; [done|]. split; [by split|]. split; [|done].
  eapply ledger_mono; [|exact Hled]. intros r [[Hd|[(rt & Hin & ->)|Hips]] Hdel]; [by left| |by right; right].
  left. apply (Hdel rt Hin); [|done]. rewrite Forall_forall in Hr. by apply Hr.
Qed.

Definition cleared (g : routerMac) : routerMac := withLeases ∅ (hostCache g) (withIps ∅ g).

Lemma cleared_state g : stateOk g → stateOk (cleared g).
Proof.
  intros [[Hr _] (_ & Hc & _)]. split; [split; [done|cbn; set_solver]|]. split_and!; [|done|cbn; set_solver].
  intros host l ip. cbn. by rewrite lookup_empty.
Qed.

Lemma ask_history g0 c :
  otherCall c = true → (∀ l, c = AddAllowedRange l → Forall A l) →
  triple (λ g h, g = g0 ∧ historyOk g0 h) (ask c) (λ _ g h, g = g0 ∧ historyOk g0 h).
Proof. intros Hc Hl. apply triple_request. intros g h x (-> & Hh). split; [done|]. by apply historyOk_other. Qed.

Lemma clearDnsSplitTunnelLeases_ok g0 :
  stateOk g0 →
  triple (λ g h, g = g0 ∧ historyOk g0 h) clearDnsSplitTunnelLeases (λ _ g h, g = cleared g0 ∧ historyOk (cleared g0) h).
Proof.
  intros [[Hr Hi] Hl]. unfold clearDnsSplitTunnelLeases. eapply triple_bind; [by apply ask_history|]. intros ?.
  apply triple_get_known. 
  eapply (triple_bind _ _ _ (λ _ g h, g = g0 ∧ historyOk (cleared g0) h)).
  2:{ intros ?. apply triple_set. by intros g h [-> Hh]. }
  destruct (negb _ && negb _) eqn:E.
  - eapply triple_bind; [apply routeDeleteList_ok|]. intros b.
    eapply (triple_conseq (λ g h, g = g0 ∧ historyOk (cleared g0) h)); [| |intros ? g h HQ; exact HQ].
    + destruct (killSwitchEnabled g0); [|by apply triple_ret].
      eapply (triple_bind _ _ _ (λ _ g h, g = g0 ∧ historyOk (cleared g0) h)); [|intros ?; by apply triple_ret].
      apply triple_request. intros g h x [-> Hh]. split; [done|]. by apply historyOk_other.
    + intros g h (-> & Hled & Hg). split; [done|]. split; [|done]. eapply ledger_mono; [|exact Hled].
      intros r [[Hd|[Hs|(ip & Hip & ->)]] Hdel]; [by left|by right; left|]. left.
      apply (Hdel ip); [by apply elem_of_elements|by apply Hi|done].
  - apply triple_ret. intros g h [-> [Hled Hg]]. split; [done|]. split; [|done]. eapply ledger_mono; [|exact Hled].
    intros r [Hd|[Hs|(ip & Hip & ->)]]; [by left|by right; left|]. exfalso. specialize (Hi ip Hip).
    apply andb_false_iff in E as [E|E]; apply negb_false_iff in E.
    + apply bool_decide_eq_true, elements_empty_iff in E. set_solver.
    + unfold validRoute, checkIPv4Format in Hi. rewrite E, andb_false_r in Hi. done.
Qed.

(** *** Every operation *)

Definition steady (h0 : trace routerInterface) (I : gset string) (g : routerMac) (h : trace routerInterface) : Prop :=
  stateOk g ∧ historyOk g h ∧ onlyAdded h0 h ∧ served g h ∧ I ⊆ ips g.

Lemma update_steady h0 I host answers :
  is_Some (normalizeHostText host) → Forall A (address <$> answers) →
  triple (steady h0 I) (updateDnsSplitTunnelHostLeases host answers) (λ _, steady h0 I).
Proof.
  intros Hhost HA g h (Hs & Hh & Ha & Hv & Hi). eapply wp_mono; [|by apply (updateDnsSplitTunnelHostLeases_ok g h0)].
  intros r g' h' (u & -> & (Hs' & Hh' & Ha' & Hv' & Hi') & _). exists u. split; [done|]. split_and!; [done..|by etrans].
Qed.

Lemma warm_steady h0 I w g h : steady h0 I g h → steady h0 I (withWarm w g) h.
Proof. intros (Hs & Hh & Ha & Hv & Hi). split_and!; [exact Hs|exact Hh|exact Ha|exact Hv|exact Hi]. Qed.

Lemma ask_steady h0 I c :
  otherCall c = true → (∀ l, c = AddAllowedRange l → Forall A l) → triple (steady h0 I) (ask c) (λ _, steady h0 I).
Proof.
  intros Hc Hl. apply triple_request. intros g h x (Hs & Hh & Ha & Hv & Hi). split_and!; [done| | |by apply served_app|done].
  - by apply historyOk_other.
  - apply onlyAdded_snoc; [by apply noDelete_other|done].
Qed.

Lemma pump_steady h0 I : triple (steady h0 I) pumpDnsSplitTunnelPrewarm (λ _, steady h0 I).
Proof.
  apply triple_get. intros g1. generalize (queue (warm g1)) as hosts. generalize (generation (warm g1)) as gen. intros gen hosts.
  eapply (triple_conseq (steady h0 I)); [|by intros g h [_ ?]|intros ? g h HQ; exact HQ].
  induction hosts as [|host hosts IH]; [by apply triple_ret|]. cbn [pumpLoop]. apply triple_get. intros g2.
  eapply (triple_conseq (steady h0 I)); [|by intros g h [_ ?]|intros ? g h HQ; exact HQ].
  destruct (_ <? _); [|by apply triple_ret].
  eapply (triple_bind _ _ _ (λ _, steady h0 I)); [apply triple_set; intros g h; apply warm_steady|]. intros ?.
  eapply triple_bind; [by apply ask_steady|]. intros ?. exact IH.
Qed.

Lemma finish_steady h0 I gen host addresses :
  is_Some (normalizeHostText host) → Forall A (printHost <$> filter (λ a, isIPv4 a = true) addresses) →
  triple (steady h0 I) (finishDnsSplitTunnelPrewarmHost gen host addresses) (λ _, steady h0 I).
Proof.
  intros Hhost HA. apply triple_get. intros g1.
  eapply (triple_conseq (steady h0 I)); [|by intros g h [_ ?]|intros ? g h HQ; exact HQ].
  destruct (negb _); [by apply triple_ret|].
  eapply (triple_bind _ _ _ (λ _, steady h0 I)); [apply triple_set; intros g h; apply warm_steady|]. intros ?.
  eapply (triple_bind _ _ _ (λ _, steady h0 I)); [|intros ?; apply pump_steady].
  destruct (negb _); [|by apply triple_ret]. apply update_steady; [done|].
  by rewrite <-list_fmap_compose.
Qed.

Lemma prewarmHosts_defined rules :
  Forall (λ t, is_Some (normalizeHostText t)) rules → is_Some (prewarmHosts rules).
Proof.
  induction 1 as [|t rules [n Hn] _ [hosts IH]]; cbn; [by eexists|]. unfold fromText. rewrite Hn, IH. cbn. by eexists.
Qed.

Lemma startPrewarm_steady h0 I rules :
  Forall (λ t, is_Some (normalizeHostText t)) rules →
  triple (steady h0 I) (startDnsSplitTunnelPrewarm rules) (λ _, steady h0 I).
Proof.
  intros [hosts Hhosts]%prewarmHosts_defined. unfold startDnsSplitTunnelPrewarm. rewrite Hhosts.
  eapply (triple_bind _ _ _ (λ _, steady h0 I)); [apply triple_set; intros g h; apply warm_steady|]. intros ?.
  apply triple_get. intros g1.
  eapply (triple_conseq (steady h0 I)); [|by intros g h [_ ?]|intros ? g h HQ; exact HQ].
  destruct (isEmpty _ || _); [by apply triple_ret|]. cbn [orUndefined bind].
  eapply (triple_bind _ _ _ (λ _, steady h0 I)); [apply triple_set; intros g h; apply warm_steady|]. intros ?.
  case_bool_decide; [by apply triple_ret|apply pump_steady].
Qed.

Lemma configuration_ok g gw enabled key h :
  stateOk g → historyOk g h → served g h → (ips g = ∅ ∧ hostLeases g = ∅) ∨ gateway g = gw →
  let g' := withConfiguration gw enabled key g in stateOk g' ∧ historyOk g' h ∧ served g' h.
Proof.
  intros [[Hr Hi] Hl] [Hled Hg] Hserved Hgw.
  split_and!; [split; [split; [done|]|exact Hl]|split; [|done]|]; cbn.
  - destruct Hgw as [[Hgw _]| <-]; [rewrite Hgw; set_solver|done].
  - eapply ledger_mono; [|exact Hled]. intros r [Hd|[Hs|(ip & Hip & ->)]]; [by left|by right; left|].
    destruct Hgw as [[Hgw _]| <-]; [rewrite Hgw in Hip; set_solver|]. right; right. by exists ip.
  - destruct Hgw as [[_ Hgw]| <-]; [|done]. intros ip. cbn. rewrite Hgw. intros (? & ? & []%lookup_empty_Some & _)%elem_of_active.
Qed.

Lemma seed_none (Q : outcome unit → routerMac → trace routerInterface → Prop) g h :
  Q (Returned tt) g h → wp anything (seedDnsSplitTunnelLeasesFromCache []) Q g h.
Proof.
  intros HQ. cbn. destruct (isEmpty (gateway g)); exact HQ.
Qed.

Lemma start_none (Q : outcome unit → routerMac → trace routerInterface → Prop) g h :
  Q (Returned tt) (withWarm (Prewarm [] (generation (warm g) + 1) 0 0 0 0 0 0) g) h →
  wp anything (startDnsSplitTunnelPrewarm []) Q g h.
Proof.
  intros HQ. cbn. destruct (isEmpty (gateway g)); exact HQ.
Qed.

Lemma cleared_served g h : served (cleared g) h.
Proof. intros ip (host & l & Hl & _)%elem_of_active. cbn in Hl. by rewrite lookup_empty in Hl. Qed.

(** The part of [configureDnsSplitTunnel] that may forget what was learned. *)
Lemma configure_forget g0 h rules gw :
  stateOk g0 → historyOk g0 h → served g0 h →
  wp anything
    (if negb (bool_decide (gateway g0 = gw)) || negb (bool_decide (rulesKey g0 = sortedRules rules)) ||
        bool_decide (rules = [])
     then clearDnsSplitTunnelLeases else Ret tt)
    (λ r g h, ∃ u, r = Returned u ∧ (stateOk g ∧ historyOk g h ∧ served g h) ∧
       ((ips g = ∅ ∧ hostLeases g = ∅) ∨ gateway g = gw) ∧ (rules = [] → ips g = ∅)) g0 h.
Proof.
  intros Hs Hh Hv. destruct (_ || _ || _) eqn:E.
  - eapply wp_mono; [|by apply (clearDnsSplitTunnelLeases_ok g0 Hs g0 h)].
    intros r g' h' (u & -> & -> & Hh'). exists u.
    split_and!; [done|by apply cleared_state|done|by apply cleared_served|by left|done].
  - exists tt. apply orb_false_iff in E as [E En%bool_decide_eq_false].
    apply orb_false_iff in E as [E%negb_false_iff%bool_decide_eq_true _]. split_and!; [done..|by right|done].
Qed.

Lemma configure_ok rules gw enabled :
  Forall (λ t, is_Some (normalizeHostText t)) rules →
  triple (λ g h, stateOk g ∧ historyOk g h ∧ served g h) (configureDnsSplitTunnel rules gw enabled)
    (λ _ g h, (stateOk g ∧ historyOk g h ∧ served g h) ∧ (rules = [] → ips g = ∅)).
Proof.
  intros Hrules. apply triple_get. intros g0 g h (-> & Hs & Hh & Hv).
  eapply wp_seq; [by apply configure_forget|].
  intros r g1 h1 (u & -> & (Hs1 & Hh1 & Hv1) & Hgw & Hempty). cbn [andThen].
  apply wp_bind. cbn [andThen setGlobals wp]. apply wp_bind.
  destruct (configuration_ok g1 gw enabled (sortedRules rules) h1 Hs1 Hh1 Hv1 Hgw) as (Hs2 & Hh2 & Hv2).
  intros x _. cbn [andThen]. set (g2 := withConfiguration gw enabled (sortedRules rules) g1) in *.
  set (h2 := h1 ++ _). assert (historyOk g2 h2) as Hh3 by (by apply historyOk_other).
  assert (served g2 h2) as Hv3 by (by apply served_app).
  destruct (decide (rules = [])) as [->|Hne].
  - apply wp_bind, seed_none. apply wp_bind, start_none. exists true. split; [done|].
    split_and!; [exact Hs2|exact Hh3|exact Hv3|done].
  - eapply wp_seq; [by apply (seed_ok g2 h2 rules Hs2 Hrules); split_and!; [| |apply onlyAdded_refl|]|].
    intros r g3 h3 (u' & -> & Hs3 & Hh4 & Ha & Hv4 & Hi). cbn [andThen].
    eapply wp_seq; [by apply (startPrewarm_steady h2 ∅ rules Hrules); split_and!; [..|set_solver]|].
    intros r g4 h4 (u'' & -> & Hs4 & Hh5 & _ & Hv5 & _). cbn. exists true. by split_and!.
Qed.

(** What is assumed of an operation: the texts are not made of slashes only, and the
    addresses satisfy [A]. *)
Definition opOk (op : routerOp) : Prop :=
  match op with
  | Configure rules _ _ => Forall (λ t, is_Some (normalizeHostText t)) rules
  | HostResolved host answers => is_Some (normalizeHostText host) ∧ Forall A (address <$> answers)
  | LookupFinished _ host addresses =>
      is_Some (normalizeHostText host) ∧ Forall A (printHost <$> filter (λ a, isIPv4 a = true) addresses)
  | _ => True
  end.

Definition routerOk (g : routerMac) (h : trace routerInterface) : Prop := stateOk g ∧ historyOk g h ∧ served g h.

Lemma routeAdd_ok ip gw : triple routerOk (routeAdd ip gw) (λ _, routerOk).
Proof.
  intros g h (Hs & [Hled Hg] & Hv). unfold routeAdd, runRouteCommand, ask, request.
  destruct (validRoute ip gw) eqn:Evalid; cbn [negb]; [|by exists false].
  cbn [bind wp]. intros x _. rewrite addArgs_text. pose proof (grantsOnly_route (addArgs (routeArgs ip gw)) x h Hg) as Hg'.
  pose proof (served_app g h (routeEvent (addArgs (routeArgs ip gw)) x) Hv) as Hv'.
  destruct (negb (x =? 0) && negb (x =? EEXIST)) eqn:Ex; cbn.
  - exists false. split; [done|]. split_and!; [done| |done]. split; [|done]. apply ledger_snoc; [|done].
    intros rest r [_ <-]%routeEvent_inj. unfold isDone. destruct (x =? 0), (x =? EEXIST); done.
  - exists true. split; [done|]. destruct Hs as [[Hr Hi] Hl]. split_and!; [|split; [|done]|done].
    + split; [split; [|done]|done]. cbn. apply Forall_app_2; [done|]. by apply Forall_cons_2; [|apply Forall_nil_2].
    + assert (∀ r, tracked g r → tracked (withRoutes (m_addedRoutes g ++ [RouteTo ip gw]) g) r) as Hmono.
      { intros r [?|[(rt & Hin & ->)|?]]; [by left|right; left|by right; right]. exists rt. cbn. set_solver. }
      apply ledger_snoc; [|by eapply ledger_mono]. intros rest r [[= <-] _]%routeEvent_inj _. right; left.
      exists (RouteTo ip gw). cbn. set_solver.
Qed.

Lemma delete_ok ip gw : triple routerOk (routeDelete ip gw) (λ _, routerOk).
Proof.
  intros g h (Hs & [Hled Hg] & Hv). unfold routeDelete. destruct (negb _); [by eexists|]. destruct (bool_decide _); [by eexists|].
  intros x _. cbn. eexists. split; [done|]. rewrite deleteArgs_text. split_and!; [done|split|by apply served_app].
  - eapply ledger_mono; [|by apply ledger_delete]. by intros r [? _].
  - by apply grantsOnly_route.
Qed.

Lemma countTrue_ok {X} (f : X → router bool) l :
  (∀ x, triple routerOk (f x) (λ _, routerOk)) → triple routerOk (countTrue f l) (λ _, routerOk).
Proof.
  intros Hf. induction l as [|x l IH]; [by apply triple_ret|]. cbn [countTrue].
  eapply triple_bind; [apply Hf|]. intros b. eapply triple_bind; [apply IH|]. intros n. by apply triple_ret.
Qed.

Lemma clear_ok : triple routerOk clearSavedRoutes (λ _ g h, routerOk g h ∧ m_addedRoutes g = []).
Proof.
  intros g h (Hs & Hh & Hv).
  assert (triple (λ _ h, served g h) clearSavedRoutes (λ _ _ h, served g h)) as Hkeep.
  { intros g' h' Hv'. apply wp_bind. cbn. eapply wp_seq.
    - apply (delete_keeps (served g) dst gw (m_addedRoutes g') (λ argv x h', served_app g h' _) g' h' Hv').
    - intros r g1 h1 (n & -> & Hv1). cbn. by eexists. }
  eapply wp_mono; [|apply (triple_and _ _ _ _ _ (clearSavedRoutes_ok g Hs) Hkeep g h); done].
  intros r g' h' (b & -> & (-> & Hs' & Hh') & Hv'). exists b. split; [done|]. split; [|done].
  split_and!; [exact Hs'|exact Hh'|exact Hv'].
Qed.

Lemma perform_ok op : opOk op → triple routerOk (perform op) (λ _, routerOk).
Proof.
  assert (∀ {X} (p : router X) (Q : X → routerMac → trace routerInterface → Prop),
    triple routerOk p Q → (∀ x g h, Q x g h → routerOk g h) →
    triple routerOk (bind p (λ _, Ret tt)) (λ _, routerOk)) as Hdone.
  { intros X p Q Hp HQ. eapply triple_bind; [exact Hp|]. intros x. apply triple_ret. apply HQ. }
  intros Hop. destruct op as [ip gw|gw l|ip gw|gw l| |rules gw enabled|host answers|gen host addresses|]; cbn [perform].
  - by eapply Hdone; [apply routeAdd_ok|].
  - apply (Hdone _ _ (λ _, routerOk)); [|done]. apply countTrue_ok. intros ip. apply routeAdd_ok.
  - by eapply Hdone; [apply delete_ok|].
  - apply (Hdone _ _ (λ _, routerOk)); [|done]. eapply triple_bind; [apply countTrue_ok; intros ip; apply delete_ok|].
    intros n. by apply triple_ret.
  - eapply Hdone; [apply clear_ok|]. by intros ??? [? _].
  - eapply Hdone; [by apply configure_ok|]. by intros ??? [? _].
  - intros g h (Hs & Hh & Hv). eapply wp_mono; [|by apply (update_steady h ∅ host answers); [apply Hop..|];
      split_and!; [..|apply onlyAdded_refl|done|set_solver]].
    intros r g' h' (u & -> & Hs' & Hh' & _ & Hv' & _). exists u. split; [done|]. by split_and!.
  - intros g h (Hs & Hh & Hv). eapply wp_mono; [|by apply (finish_steady h ∅ gen host addresses); [apply Hop..|];
      split_and!; [..|apply onlyAdded_refl|done|set_solver]].
    intros r g' h' (u & -> & Hs' & Hh' & _ & Hv' & _). exists u. split; [done|]. by split_and!.
  - intros g h (Hs & Hh & Hv) x _. exists x. split; [done|].
    split_and!; [done|by apply historyOk_other|by apply served_app].
Qed.

Lemma forEach_app {X} (l k : list X) (f : X → router unit) Q g h :
  wp anything (forEach l f) (andThen anything (λ _, forEach k f) Q) g h → wp anything (forEach (l ++ k) f) Q g h.
Proof.
  revert g h. induction l as [|x l IH]; intros g h; cbn [forEach app]; [done|]. rewrite !wp_bind.
  apply wp_mono. intros [u| |] g' h'; cbn [andThen]; [apply IH|done..].
Qed.

Lemma performs_ok ops : Forall opOk ops → triple routerOk (forEach ops perform) (λ _, routerOk).
Proof. intros Hops. apply triple_forEach. intros op Hop. rewrite Forall_forall in Hops. by apply perform_ok, Hops. Qed.

Lemma routerOk_new : routerOk newRouter [].
Proof.
  split_and!; [split; [split; [by apply Forall_nil_2|set_solver]|split_and!]|split; [|by apply Forall_nil_2]|].
  - intros host l ip. cbn. by rewrite lookup_empty.
  - intros host cached. cbn. by rewrite lookup_empty.
  - set_solver.
  - intros h1 rest r h2 Heq. by destruct h1.
  - intros ip (host & l & Hl & _)%elem_of_active. cbn in Hl. by rewrite lookup_empty in Hl.
Qed.
End invariant.
End bookkeeping.



(** ** Host lookups in advance *)

Section lookups.
Context `{HostAddressText}.

Definition lookupOf (gen : Z) (e : event routerInterface) : option string :=
  match evCall e with LookupHost gen' host => if gen =? gen' then Some host else None | _ => None end.

(** The hosts that were looked up for a generation, in order. *)
Definition lookups (gen : Z) (h : trace routerInterface) : list string := omap (lookupOf gen) h.

Definition noLookup (c : routerCall) : bool := match c with LookupHost _ _ => false | _ => true end.

(** Programs that have nothing to do with the lookups and keep the gateway. *)
Fixpoint framed {X} (p : router X) : Prop :=
  match p with
  | Ret _ | Throw | OutOfFuel => True
  | Update f k => (∀ g, warm (f g) = warm g ∧ gateway (f g) = gateway g) ∧ ∀ g, framed (k g)
  | Vis c k => noLookup c = true ∧ ∀ x, framed (k x)
  end.

Lemma framed_bind {X Y} (p : router X) (f : X → router Y) : framed p → (∀ x, framed (f x)) → framed (bind p f).
Proof. intros Hp Hf. induction p as [a| | |u k IH|c k IH]; cbn in *; naive_solver. Qed.

Lemma framed_wp {X} (p : router X) g h :
  framed p →
  wp anything p (λ _ g' h', (warm g' = warm g ∧ gateway g' = gateway g) ∧ ∀ gen, lookups gen h' = lookups gen h) g h.
Proof.
  revert g h. induction p as [a| | |u k IH|c k IH]; intros g h Hp; cbn in *; [done..| |].
  - destruct Hp as [Hu Hk]. eapply wp_mono; [|apply IH, Hk]. cbn. intros r g' h' [[-> ->] ?]. split; [apply Hu|done].
  - destruct Hp as [Hc Hk]. intros x _. eapply wp_mono; [|apply IH, Hk]. cbn. intros r g' h' [? Hl]. split; [done|].
    intros gen. rewrite Hl. unfold lookups. rewrite omap_app. cbn. unfold lookupOf at 2. cbn.
    destruct c; try discriminate Hc; by rewrite app_nil_r.
Qed.

Ltac solve_framed :=
  repeat match goal with
  | |- framed (bind _ _) => apply framed_bind
  | |- ∀ _, _ => intro
  | |- framed (ask _) => split; [reflexivity|intro]
  | |- framed (request _) => split; [reflexivity|intro]
  | |- framed (Ret _) => exact I
  | |- framed getGlobals => split; [done|]
  | |- framed (setGlobals _) => split; [done|]
  | |- framed (orUndefined ?x) => destruct x; exact I
  | |- framed (if ?b then _ else _) => destruct b
  | |- framed (match ?x with _ => _ end) => destruct x
  | |- True => exact I
  | |- _ => solve [auto]
  end.

Lemma framed_routeAddTransient ip gw : framed (routeAddTransient ip gw).
Proof. unfold routeAddTransient, runRouteCommand. solve_framed. Qed.

Lemma framed_routeDelete ip gw : framed (routeDelete ip gw).
Proof. unfold routeDelete, runRouteCommand. solve_framed. Qed.

Lemma framed_countTrue {X} (f : X → router bool) l : (∀ x, framed (f x)) → framed (countTrue f l).
Proof. intros Hf. induction l as [|x l IH]; cbn [countTrue]; solve_framed. Qed.

Lemma framed_sync before : framed (syncDnsSplitTunnelIps before).
Proof.
  assert (∀ l, framed (addMissing before l)) as Hadd.
  { intros l. induction l as [|ip l IH]; cbn [addMissing]; pose proof framed_routeAddTransient; solve_framed. }
  assert (∀ d l, framed (removeStale d l)) as Hremove.
  { intros d l. induction l as [|ip l IH]; cbn [removeStale]; pose proof framed_routeDelete; solve_framed. }
  unfold syncDnsSplitTunnelIps. solve_framed.
Qed.

Lemma framed_update host answers : framed (updateDnsSplitTunnelHostLeases host answers).
Proof.
  unfold updateDnsSplitTunnelHostLeases, scheduleDnsSplitTunnelLeaseTimer. pose proof framed_sync. solve_framed.
Qed.

Lemma framed_seed rules : framed (seedDnsSplitTunnelLeasesFromCache rules).
Proof.
  unfold seedDnsSplitTunnelLeasesFromCache, scheduleDnsSplitTunnelLeaseTimer. pose proof framed_sync. solve_framed.
Qed.

Lemma framed_clear : framed clearDnsSplitTunnelLeases.
Proof.
  unfold clearDnsSplitTunnelLeases, routeDeleteList.
  pose proof (λ gw ips, framed_countTrue (λ ip, routeDelete ip gw) ips (λ ip, framed_routeDelete ip gw)). solve_framed.
Qed.

(** *** The pump *)

Definition advance (k : nat) (w : prewarm) : prewarm :=
  Prewarm (drop k (queue w)) (generation w) (total w) (started w + Z.of_nat k) (finished w) (succeeded w) (failed w)
    (pending w + Z.of_nat k).

Lemma advance_0 w : advance 0 w = w.
Proof. destruct w. unfold advance. cbn. f_equal; lia. Qed.

Lemma advance_S k w : advance k (advance 1 w) = advance (S k) w.
Proof. unfold advance. cbn. rewrite drop_drop. f_equal; lia. Qed.

Lemma lookups_snoc gen gen' host h x :
  lookups gen (h ++ [Ev (I := routerInterface) (LookupHost gen' host) x]) =
    lookups gen h ++ (if gen =? gen' then [host] else []).
Proof. unfold lookups. rewrite omap_app. cbn. unfold lookupOf at 2. cbn. by destruct (gen =? gen'). Qed.

(** The pump looks up hosts from the front of the queue until eight lookups are
    pending or the queue is empty. *)
Lemma pumpLoop_spec gen hosts g h :
  queue (warm g) = hosts → 
  wp anything (pumpLoop gen hosts) (λ r g' h', r = Returned tt ∧
    ∃ k, (k ≤ length hosts)%nat ∧ warm g' = advance k (warm g) ∧
      (∀ gen', lookups gen' h' = lookups gen' h ++ (if gen' =? gen then take k hosts else [])) ∧
      (k = length hosts ∨ 8 ≤ pending (warm g) + Z.of_nat k) ∧
      (k = 0%nat ∨ pending (warm g) + Z.of_nat k ≤ 8)) g h.
Proof.
  revert g h. induction hosts as [|host hosts IH]; intros g h Hq; cbn [pumpLoop].
  { split; [done|]. exists 0%nat. rewrite advance_0. split_and!; [done..| |by left|by left].
    intros gen'. destruct (_ =? _); by rewrite app_nil_r. }
  apply wp_bind. cbn [getGlobals wp andThen id]. unfold kDnsSplitTunnelPrewarmConcurrency.
  destruct (Z.ltb_spec (pending (warm g)) 8) as [Hlt|Hge].
  2:{ split; [done|]. exists 0%nat. rewrite advance_0. split_and!; [lia|done| |right; lia|by left].
      intros gen'. destruct (_ =? _); by rewrite app_nil_r. }
  apply wp_bind. cbn [setGlobals wp andThen]. apply wp_bind. intros x _. cbn [wp andThen].
  assert (warm (takeHost g) = advance 1 (warm g)) as Hw.
  { unfold takeHost, advance. cbn. by destruct (queue (warm g)). }
  eapply wp_mono; [|apply (IH (takeHost g))].
  - intros r g' h' [-> (k & Hk & Hwarm & Hl & Hstop & Hmax)]. split; [done|]. exists (S k). rewrite Hw, advance_S in Hwarm.
    rewrite Hw in Hstop, Hmax. cbn [pending advance] in Hstop, Hmax. cbn [length].
    split_and!; [lia|done| |lia|right; lia].
    intros gen'. rewrite Hl, lookups_snoc. destruct (gen' =? gen); [by rewrite <-app_assoc|by rewrite !app_nil_r].
  - rewrite Hw. cbn. by rewrite Hq.
Qed.

(** [warmed gen L s f]: of the hosts [L] of the generation, [s] were looked up and [f]
    lookups have finished. *)
Record warmed (gen : Z) (L : list string) (s f : nat) (g : routerMac) (h : trace routerInterface) : Prop := {
  w_generation : generation (warm g) = gen;
  w_queue : queue (warm g) = drop s L;
  w_total : total (warm g) = Z.of_nat (length L);
  w_started : started (warm g) = Z.of_nat s;
  w_finished : finished (warm g) = Z.of_nat f;
  w_pending : pending (warm g) = Z.of_nat s - Z.of_nat f;
  w_lookups : lookups gen h = take s L;
  w_order : (f ≤ s ≤ length L)%nat;
  w_bound : (s ≤ f + 8)%nat;
}.

(** Nothing that could be looked up is left waiting. *)
Definition busy (L : list string) (s f : nat) : Prop := s = length L ∨ s = (f + 8)%nat.

Lemma pump_warmed gen L s f g h :
  warmed gen L s f g h →
  wp anything pumpDnsSplitTunnelPrewarm (λ r g' h', r = Returned tt ∧ ∃ s', warmed gen L s' f g' h' ∧ busy L s' f) g h.
Proof.
  intros []. apply wp_bind. cbn [getGlobals wp andThen id].
  eapply wp_mono; [|by apply (pumpLoop_spec (generation (warm g)) (queue (warm g)))].
  intros r g' h' [-> (k & Hk & Hw & Hl & Hstop & Hmax)]. split; [done|].
  rewrite w_queue0, length_drop in *. exists (s + k)%nat. split.
  - split; rewrite ?Hw; cbn; [done| |done|lia|done|lia| |lia|lia].
    + by rewrite w_queue0, drop_drop.
    + rewrite Hl, w_generation0, Z.eqb_refl, w_lookups0. by rewrite take_take_drop.
  - unfold busy. lia.
Qed.

Lemma framed_warmed {X} (p : router X) gen L s f g h :
  framed p → warmed gen L s f g h → wp anything p (λ _ g' h', warmed gen L s f g' h') g h.
Proof.
  intros Hp []. eapply wp_mono; [|by apply framed_wp]. cbn. intros r g' h' [[Hw _] Hl].
  split; rewrite ?Hw, ?Hl; done.
Qed.

(** *** Updates always return *)

Lemma completes_wp_returns {X} (p : router X) (Q : outcome X → routerMac → trace routerInterface → Prop) g h :
  completes false p → wp anything p Q g h → wp anything p (λ r g' h', ∃ a, r = Returned a ∧ Q r g' h') g h.
Proof. revert g h. induction p as [a| | |u k IH|c k IH]; intros g h Hc Hw; cbn in *; eauto; done. Qed.

Lemma completes_update host answers : completes false (updateDnsSplitTunnelHostLeases host answers).
Proof.
  assert (∀ ip gw, completes false (routeAddTransient ip gw)) as Ha.
  { intros ip gw. unfold routeAddTransient, runRouteCommand, ask. solve_completes. }
  assert (∀ ip gw, completes false (routeDelete ip gw)) as Hd.
  { intros ip gw. unfold routeDelete, runRouteCommand, ask. solve_completes. }
  assert (∀ before l, completes false (addMissing before l)) as Hadd.
  { intros before l. induction l as [|ip l IH]; cbn [addMissing]; solve_completes. }
  assert (∀ d l, completes false (removeStale d l)) as Hremove.
  { intros d l. induction l as [|ip l IH]; cbn [removeStale]; solve_completes. }
  unfold updateDnsSplitTunnelHostLeases, syncDnsSplitTunnelIps, scheduleDnsSplitTunnelLeaseTimer, ask. solve_completes.
Qed.

Lemma finishHost_warmed gen L s f found g h :
  warmed gen L s f g h → (f < s)%nat → warmed gen L s (S f) (finishHost found g) h.
Proof. intros [] Hf. split; cbn; [done..|lia|lia|done|lia|lia]. Qed.

(** A lookup that finishes makes room for the next one. *)
Lemma finish_warmed gen L s f host addresses g h :
  warmed gen L s f g h → (f < s)%nat →
  wp anything (finishDnsSplitTunnelPrewarmHost gen host addresses)
    (λ r g' h', r = Returned tt ∧ ∃ s', warmed gen L s' (S f) g' h' ∧ busy L s' (S f)) g h.
Proof.
  intros Hw Hf. apply wp_bind. cbn [getGlobals wp andThen id]. rewrite (w_generation _ _ _ _ _ _ Hw), Z.eqb_refl. cbn [negb].
  apply wp_bind. cbn [setGlobals wp andThen]. set (answers := _ <$> _). set (found := negb _).
  pose proof (finishHost_warmed _ _ _ _ found _ _ Hw Hf) as Hw1.
  eapply (wp_seq _ _ _ (λ r g' h', r = Returned tt ∧ warmed gen L s (S f) g' h')).
  - destruct found; [|done]. eapply wp_mono;
      [|apply completes_wp_returns; [apply completes_update|by apply framed_warmed; [apply framed_update|]]].
    by intros r g' h' ([] & -> & Hw').
  - intros r g' h' [-> Hw']. by eapply pump_warmed.
Qed.

(** *** Generations *)

Definition fresh (g : routerMac) (h : trace routerInterface) : Prop :=
  ∀ gen, generation (warm g) < gen → lookups gen h = [].

Lemma framed_fresh {X} (p : router X) g h : framed p → fresh g h → wp anything p (λ _ g' h', fresh g' h') g h.
Proof.
  intros Hp Hf. eapply wp_mono; [|by apply framed_wp]. cbn. intros r g' h' [[Hw _] Hl] gen Hgen.
  rewrite Hl. apply Hf. by rewrite <-Hw.
Qed.

Lemma pump_fresh g h : fresh g h → wp anything pumpDnsSplitTunnelPrewarm (λ _ g' h', fresh g' h') g h.
Proof.
  intros Hf. apply wp_bind. cbn [getGlobals wp andThen id]. eapply wp_mono; [|by apply pumpLoop_spec].
  intros r g' h' [-> (k & _ & Hw & Hl & _)] gen Hgen. rewrite Hw in Hgen. cbn in Hgen.
  rewrite Hl, (Hf gen Hgen), (proj2 (Z.eqb_neq _ _)) by lia. done.
Qed.

(** A configuration begins a generation whose lookups are the hosts of the rules. *)
Lemma start_warmed rules hosts g h :
  fresh g h → isEmpty (gateway g) = false → prewarmHosts rules = Some hosts →
  wp anything (startDnsSplitTunnelPrewarm rules) (λ r g' h', r = Returned tt ∧
    ∃ s, warmed (generation (warm g) + 1) (dedup hosts) s 0 g' h' ∧ busy (dedup hosts) s 0) g h.
Proof.
  intros Hf Hg Hhosts. unfold startDnsSplitTunnelPrewarm. apply wp_bind. cbn [setGlobals wp andThen].
  apply wp_bind. cbn [getGlobals wp andThen id]. cbn [gateway withWarm]. rewrite Hg. cbn [orb].
  assert (lookups (generation (warm g) + 1) h = []) as Hnone by (apply Hf; lia).
  case_bool_decide as Hr.
  { subst rules. injection Hhosts as <-. split; [done|]. exists 0%nat. split; [|by left]. by split; cbn; try lia. }
  rewrite Hhosts. cbn [orUndefined bind]. apply wp_bind. cbn [setGlobals wp andThen].
  set (g1 := withWarm _ _).
  assert (warmed (generation (warm g) + 1) (dedup hosts) 0 0 g1 h) as Hw by (by split; cbn; try lia).
  case_bool_decide as Hh; [|by eapply pump_warmed]. split; [done|]. exists 0%nat. split; [done|]. left. by rewrite Hh.
Qed.

Definition keepsFresh {X} (p : router X) : Prop := ∀ g h, fresh g h → wp anything p (λ _ g' h', fresh g' h') g h.

Lemma keepsFresh_bind {X Y} (p : router X) (f : X → router Y) :
  keepsFresh p → (∀ x, keepsFresh (f x)) → keepsFresh (bind p f).
Proof. intros Hp Hf g h Hg. eapply wp_seq; [by apply Hp|]. intros [x| |] g' h' Hg'; [by apply Hf|done..]. Qed.

Lemma keepsFresh_framed {X} (p : router X) : framed p → keepsFresh p.
Proof. intros Hp g h. by apply framed_fresh. Qed.

Lemma keepsFresh_set f : (∀ g, generation (warm g) ≤ generation (warm (f g))) → keepsFresh (setGlobals f).
Proof. intros Hf g h Hg gen Hgen. apply Hg. specialize (Hf g). lia. Qed.

Lemma keepsFresh_start rules : keepsFresh (startDnsSplitTunnelPrewarm rules).
Proof.
  apply keepsFresh_bind; [apply keepsFresh_set; intros g; cbn; lia|]. intros _.
  apply keepsFresh_bind; [by apply keepsFresh_framed; solve_framed|]. intros g.
  destruct (_ || _); [by apply keepsFresh_framed|].
  apply keepsFresh_bind; [by apply keepsFresh_framed; solve_framed|]. intros hosts.
  apply keepsFresh_bind; [by apply keepsFresh_set|]. intros _.
  destruct (bool_decide _); [by apply keepsFresh_framed|exact pump_fresh].
Qed.

Lemma keepsFresh_perform op : keepsFresh (perform op).
Proof.
  pose proof framed_routeDelete as Hdelete. pose proof framed_update as Hupdate.
  assert (∀ ip gw, framed (routeAdd ip gw)) as Hadd by (intros; unfold routeAdd, runRouteCommand; solve_framed).
  destruct op as [ip gw|gw l|ip gw|gw l| |rules gw enabled|host answers|gen host addresses|]; cbn [perform].
  - apply keepsFresh_framed. solve_framed.
  - apply keepsFresh_framed. apply framed_bind; [by apply framed_countTrue|done].
  - apply keepsFresh_framed. solve_framed.
  - apply keepsFresh_framed. repeat (apply framed_bind; [|done]). by apply framed_countTrue.
  - apply keepsFresh_framed. apply framed_bind; [|done]. apply framed_bind; [by solve_framed|]. intros g.
    apply framed_bind; [by apply framed_countTrue|solve_framed].
  - apply keepsFresh_bind; [|intros _; by apply keepsFresh_framed].
    apply keepsFresh_bind; [by apply keepsFresh_framed; solve_framed|]. intros g.
    apply keepsFresh_bind; [pose proof framed_clear; apply keepsFresh_framed; solve_framed|]. intros _.
    apply keepsFresh_bind; [by apply keepsFresh_set|]. intros _.
    apply keepsFresh_bind; [by apply keepsFresh_framed; solve_framed|]. intros _.
    apply keepsFresh_bind; [apply keepsFresh_framed, framed_seed|]. intros _.
    apply keepsFresh_bind; [apply keepsFresh_start|]. intros _. by apply keepsFresh_framed.
  - by apply keepsFresh_framed.
  - apply keepsFresh_bind; [by apply keepsFresh_framed; solve_framed|]. intros g.
    destruct (negb _); [by apply keepsFresh_framed|].
    apply keepsFresh_bind; [by apply keepsFresh_set|]. intros _.
    apply keepsFresh_bind; [apply keepsFresh_framed; solve_framed|]. intros _. exact pump_fresh.
  - apply keepsFresh_framed. by split.
Qed.

Lemma keepsFresh_performs ops : keepsFresh (forEach ops perform).
Proof.
  induction ops as [|op ops IH]; [by intros g h|]. cbn [forEach]. apply keepsFresh_bind; [apply keepsFresh_perform|done].
Qed.

Lemma configure_warmed rules hosts gw enabled g h :
  fresh g h → gw ≠ "" → prewarmHosts rules = Some hosts →
  wp anything (perform (Configure rules gw enabled)) (λ r g' h', r = Returned tt →
    ∃ s, warmed (generation (warm g')) (dedup hosts) s 0 g' h' ∧ busy (dedup hosts) s 0) g h.
Proof.
  intros Hf Hgw Hhosts. cbn [perform]. apply wp_bind. unfold configureDnsSplitTunnel. apply wp_bind. cbn [getGlobals wp andThen id].
  eapply wp_seq; [eapply framed_fresh; [|exact Hf]; pose proof framed_clear; solve_framed|].
  intros [u| |] g1 h1 Hf1; [|done..]. cbn [andThen]. apply wp_bind. cbn [setGlobals wp andThen]. apply wp_bind.
  intros x _. cbn [wp andThen]. set (g2 := withConfiguration gw enabled _ g1). set (h2 := h1 ++ _).
  assert (fresh g2 h2) as Hf2.
  { intros gen Hgen. unfold h2, lookups. rewrite omap_app. cbn. rewrite app_nil_r. by apply Hf1. }
  apply wp_bind. eapply wp_mono; [|apply (framed_wp _ g2 h2), framed_seed].
  intros [u'| |] g3 h3 [[Hw Hg] Hl]; [|done..]. cbn [andThen].
  assert (fresh g3 h3) as Hf3 by (intros gen Hgen; rewrite Hl; apply Hf2; by rewrite <-Hw).
  eapply wp_seq; [apply (start_warmed rules hosts g3 h3 Hf3); [|done]|].
  { rewrite Hg. cbn. by destruct gw. }
  intros r g4 h4 [-> (s & Hs & Hb)] _. exists s. split; [|done]. by rewrite (w_generation _ _ _ _ _ _ Hs).
Qed.

(** *** Runs *)

Implicit Types (o : oracle routerInterface) (ans : list string).

(** What can happen until the next configuration: a lookup of this generation that
    has not finished yet finishes with any addresses, or something else happens. *)
Definition elsewhere (gen : Z) (op : routerOp) : bool :=
  match op with
  | Configure _ _ _ => false
  | LookupFinished gen' _ _ => negb (gen' =? gen)
  | _ => true
  end.

Inductive warmStep o (gen : Z) :
    routerMac * trace routerInterface * list string → routerMac * trace routerInterface * list string → Prop :=
  | lookup_finished host addresses g h ans :
      host ∈ lookups gen h → host ∉ ans →
      let r := run o (perform (LookupFinished gen host addresses)) g h in
      warmStep o gen (g, h, ans) (resGlobals r, resTrace r, host :: ans)
  | something_else op g h ans :
      elsewhere gen op = true →
      let r := run o (perform op) g h in
      warmStep o gen (g, h, ans) (resGlobals r, resTrace r, ans).

Definition progress (gen : Z) (L : list string) (x : routerMac * trace routerInterface * list string) : Prop :=
  let '(g, h, ans) := x in
  NoDup ans ∧ ans ⊆ lookups gen h ∧
  ∃ s, warmed gen L s (length ans) g h ∧ busy L s (length ans).

Lemma elsewhere_framed gen op g h :
  elsewhere gen op = true → generation (warm g) = gen →
  wp anything (perform op) (λ _ g' h', warm g' = warm g ∧ lookups gen h' = lookups gen h) g h.
Proof.
  intros Hop Hgen.
  assert (∀ {X} (p : router X), framed p →
    wp anything p (λ _ g' h', warm g' = warm g ∧ lookups gen h' = lookups gen h) g h) as Hfr.
  { intros X p Hp. eapply wp_mono; [|by apply framed_wp]. cbn. intros r g' h' [[? _] ?]. auto. }
  pose proof framed_routeDelete as Hdelete.
  assert (∀ ip gw, framed (routeAdd ip gw)) as Hadd by (intros; unfold routeAdd, runRouteCommand; solve_framed).
  destruct op as [ip gw|gw l|ip gw|gw l| |rules gw enabled|host answers|gen' host addresses|]; cbn [perform]; try done.
  - apply Hfr. solve_framed.
  - apply Hfr. apply framed_bind; [by apply framed_countTrue|done].
  - apply Hfr. solve_framed.
  - apply Hfr. repeat (apply framed_bind; [|done]). by apply framed_countTrue.
  - apply Hfr. apply framed_bind; [|done]. apply framed_bind; [by solve_framed|]. intros g'.
    apply framed_bind; [by apply framed_countTrue|solve_framed].
  - apply Hfr, framed_update.
  - cbn in Hop. apply wp_bind. cbn [getGlobals wp andThen id]. rewrite Hgen, Hop. done.
  - by apply Hfr; split.
Qed.

Lemma progress_step o gen L x y : NoDup L → warmStep o gen x y → progress gen L x → progress gen L y.
Proof.
  intros HL [host addresses g h ans Hin Hnew r|op g h ans Hop r] (Hnd & Hsub & s & Hw & Hb).
  - assert (length ans < s)%nat as Hlt.
    { rewrite (w_lookups _ _ _ _ _ _ Hw) in *. pose proof (w_order _ _ _ _ _ _ Hw).
      assert (length (host :: ans) ≤ length (take s L))%nat as Hle.
      { apply submseteq_length, NoDup_submseteq; [by constructor|]. set_solver. }
      rewrite length_take in Hle. cbn in Hle. lia. }
    destruct (wp_run o _ _ g h (finish_warmed gen L s (length ans) host addresses g h Hw Hlt)) as [_ (s' & Hw' & Hb')].
    split; [by constructor|]. split; [|by exists s'].
    replace (lookups gen (resTrace r)) with (take s' L) by (symmetry; exact (w_lookups _ _ _ _ _ _ Hw')).
    rewrite (w_lookups _ _ _ _ _ _ Hw) in *.
    assert (s ≤ s')%nat as Hs.
    { pose proof (w_order _ _ _ _ _ _ Hw). pose proof (w_order _ _ _ _ _ _ Hw'). pose proof (w_bound _ _ _ _ _ _ Hw). unfold busy in *. cbn [length] in *. lia. }
    assert (take s L ⊆ take s' L) as Htake.
    { replace s with (s `min` s')%nat at 1 by lia.
      rewrite <-take_take. intros z (i & Hi & _)%elem_of_take. by eapply list_elem_of_lookup_2. }
    set_solver.
  - destruct (wp_run o _ _ g h (elsewhere_framed gen op g h Hop (w_generation _ _ _ _ _ _ Hw))) as [Hwarm Hl].
    fold r in Hwarm, Hl. split; [done|]. split; [by rewrite Hl|]. exists s. split; [|done]. destruct Hw. by split; rewrite ?Hwarm, ?Hl.
Qed.
End lookups.

(** C22: every host of the rules is looked up.  From any state of the router, a
    configuration with a gateway starts lookups for the different hosts [L] of the
    rules for one host; whatever the answers, the order in which they arrive and what
    else happens in between, when [n] lookups have finished the router waits for
    exactly the next [min 8 (length L - n)] hosts, each looked up once and in the
    order of the rules.  So there is a lookup to wait for as long as a host is left,
    and when none is pending all of [L] have been looked up. *)
Theorem prewarm_progress `{HostAddressText} (o : oracle routerInterface) (ops : list routerOp)
    (rules hosts : list string) (gw : string) (enabled : bool) g h ans :
  Forall (opOk (λ _, True)) (ops ++ [Configure rules gw enabled]) → gw ≠ "" →
  prewarmHosts rules = Some hosts →
  let r := run o (forEach (ops ++ [Configure rules gw enabled]) perform) newRouter [] in
  let gen := generation (warm (resGlobals r)) in
  let L := dedup hosts in
  rtc (warmStep o gen) (resGlobals r, resTrace r, []) (g, h, ans) →
  ∃ s, lookups gen h = take s L ∧ ans ⊆ take s L ∧ NoDup ans ∧
    (s - length ans = Nat.min 8 (length L - length ans))%nat ∧ (length ans ≤ s ≤ length L)%nat ∧
    pending (warm g) = Z.of_nat (s - length ans) ∧ finished (warm g) = Z.of_nat (length ans).
Proof.
  intros Hops Hgw Hhosts r gen L Hrun.
  assert (progress gen L (resGlobals r, resTrace r, [])) as Hstart.
  { split; [constructor|]. split; [by intros ? ?%not_elem_of_nil|]. 
    destruct (triple_run o _ _ _ newRouter [] (performs_ok _ _ Hops) (routerOk_new _)) as ([] & Hr & _).
    assert (wp anything (forEach (ops ++ [Configure rules gw enabled]) perform) (λ r g' h', r = Returned tt →
      ∃ s, warmed (generation (warm g')) L s 0 g' h' ∧ busy L s 0) newRouter []) as Hw.
    { apply forEach_app. eapply wp_mono; [|apply (keepsFresh_performs ops newRouter [])]; [|done].
      intros [u| |] g' h' Hf; [|done..]. cbn [andThen forEach]. apply wp_bind.
      eapply wp_mono; [|by apply (configure_warmed rules hosts gw enabled g' h')].
      intros [[]| |] g'' h'' Hc; [|done..]. intros _. by apply Hc. }
    exact (wp_run o _ _ _ _ Hw Hr). }
  assert (progress gen L (g, h, ans)) as (Hnd & Hsub & s & Hw & Hb).
  { revert Hstart. generalize dependent (resGlobals r, resTrace r, @nil string). intros x Hrun Hx.
    remember (g, h, ans) as y eqn:Ey. clear Ey. induction Hrun as [|x1 x2 x3 Hstep _ IH]; [done|].
    apply IH. eapply progress_step; [apply NoDup_dedup|exact Hstep|exact Hx]. }
  exists s. destruct Hw. rewrite w_lookups0 in Hsub. unfold busy in Hb. split_and!; [done..|lia|lia|lia|lia|done].
Qed.

(** ** Examples *)

Section examples.
#[local] Existing Instance quadText.

(** A system in which every command succeeds. *)
Definition obliging : oracle routerInterface := λ _ c,
  match c as c return routerAns c with
  | RouteIface _ | CurrentTime => 0
  | AddAllowedRange _ | RemoveAllowedRange _ | UpdateResolvers _ _ | RestoreResolvers
  | StartProcess _ _ _ | WaitForProcess _ | ExitedNormally => true
  | ConfigureRules _ | LookupHost _ _ | StartTimer _ | StopTimer | Sleep _ => tt
  end.

Definition home : string := "192.168.1.1".

Definition session : list routerOp :=
  [AddRoute "10.0.0.0/8" home; Configure ["example.com"; "example.org"] home true;
   HostResolved "example.com" [Answer "93.184.216.34" 60]].

Lemma session_ok : Forall (opOk (λ _, True)) session.
Proof.
  apply Forall_cons_2; [done|]. apply Forall_cons_2; [|apply Forall_cons_2; [|by apply Forall_nil_2]].
  - apply Forall_cons_2; [by eexists; vm_compute|]. apply Forall_cons_2; [by eexists; vm_compute|]. by apply Forall_nil_2.
  - split; [by eexists; vm_compute|]. apply Forall_cons_2; [done|]. by apply Forall_nil_2.
Qed.

Definition afterSession (more : list routerOp) : Effects.result unit :=
  run obliging (forEach (session ++ more) perform) newRouter [].



Lemma prewarm_progress_witness :
  let r := run obliging (forEach ([] ++ [Configure ["example.com"; "example.org"] home true]) perform) newRouter [] in
  let g := resGlobals r in
  ∃ s, lookups (generation (warm g)) (resTrace r) = take s ["example.com"; "example.org"] ∧ s = 2%nat.
Proof.
  set (r := run _ _ _ _).
  destruct (prewarm_progress obliging [] ["example.com"; "example.org"] ["example.com"; "example.org"] home true
    (resGlobals r) (resTrace r) []) as (s & Hl & _ & _ & Hs & Ho & _).
  - apply Forall_cons_2; [|by apply Forall_nil_2].
    apply Forall_cons_2; [by eexists; vm_compute|]. apply Forall_cons_2; [by eexists; vm_compute|]. by apply Forall_nil_2.
  - done.
  - by vm_compute.
  - apply rtc_refl.
  - exists s. split; [exact Hl|]. change (length (dedup _)) with 2%nat in Hs, Ho. cbn in Hs, Ho. lia.
Defined.

(** A route that a rule learned and that was also saved is deleted with the leases,
    while the router still remembers it as saved. *)
Example clearing_leases_deletes_saved_route :
  let r := run obliging (forEach [AddRoute "93.184.216.34" home; Configure ["example.com"] home false;
             HostResolved "example.com" [Answer "93.184.216.34" 60]; Configure [] home false] perform) newRouter [] in
  m_addedRoutes (resGlobals r) = [RouteTo "93.184.216.34" home] ∧
  last (omap routeOf (resTrace r)) = Some (deleteArgs ["-host"; "93.184.216.34"; home], 0).
Proof. by vm_compute. Qed.

(** A route that was there before is taken for one that the router added, and is
    deleted in the end. *)
Example existing_route_is_deleted :
  let existing : oracle routerInterface := λ h c,
    match c as c return routerAns c with RouteIface _ => EEXIST | c => obliging h c end in
  let r := run existing (forEach [AddRoute "10.0.0.0/8" home; ClearSavedRoutes] perform) newRouter [] in
  omap routeOf (resTrace r) =
    [(addArgs ["-net"; "10.0.0.0"; home; "255.0.0.0"], EEXIST);
     (deleteArgs ["-net"; "10.0.0.0"; home; "255.0.0.0"], EEXIST)].
Proof. by vm_compute. Qed.

Definition allowed (h : trace routerInterface) : list (list string) :=
  omap (λ e, match evCall e with AddAllowedRange l => Some l | _ => None end) h.

(** The kill switch that is switched on with the same rules and gateway is not told
    the addresses that were learned before. *)
Example late_kill_switch_is_not_told :
  let ops := [Configure ["example.com"] home false; HostResolved "example.com" [Answer "93.184.216.34" 60];
              Configure ["example.com"] home true] in
  let r := run obliging (forEach ops perform) newRouter [] in
  killSwitchEnabled (resGlobals r) = true ∧ elements (ips (resGlobals r)) = ["93.184.216.34"] ∧ allowed (resTrace r) = [].
Proof. by vm_compute. Qed.
End examples.
