(* ===== verification/VpnConnection.v ===== *)
(** * The connection ([vpnConnection.cpp])

    [VpnConnection] of the macOS desktop build as a state and programs over it
    ([Effects]): every slot of the class is a program that reads and changes the
    state, emits signals and asks the local service, the protocol object and the
    system.  Answers come from the surroundings and are arbitrary.

    Protocol objects are known by a number.  What a call of [start], [stop] or
    [requestStatus] makes the object emit is part of the call's answer and is
    delivered to the slots that are connected, in order, before the call returns.
    A call on a null protocol pointer is [Throw], and so is a rule text without a
    host.  Timers are single flags: whether they run.  A slot runs to its end before
    the next event is handled; the nested event loops of the calls that wait for a
    reply of the service are not modelled. *)

From Stdlib Require Import Ascii.
From S2P Require Import Prelude QtCore Regex Variant NetworkUtilities SplitTunnel.
From S2P Require Import SecureSettings AppSettings ConnectionHealth Containers VpnProtocol VpnConfig.
From S2P Require Import ServerConfig Effects.
From stdpp Require Import functions options.

(** ** Data *)

(** What the connection reads of the servers: the default server, the kind of a
    server, and the default container of its configuration. *)
Record serversRepository := Servers {
  defaultServerId : string;
  serverKind : string → ConfigType;
  selfHostedAdminConfig : string → option DockerContainer;
  selfHostedUserConfig : string → option DockerContainer;
  nativeConfig : string → option DockerContainer;
  apiV2Config : string → option DockerContainer;
}.

Inductive PendingNetworkAction := NoAction | StartConnection | RequestReconnect | StartSilentReconnect.

#[export] Instance PendingNetworkAction_eq_dec : EqDecision PendingNetworkAction.
Proof. solve_decision. Defined.

Inductive timer := ConnectingTimer | HealthTimer | RecoveryTimer | PendingTimer | DeadlineTimer.

#[export] Instance timer_eq_dec : EqDecision timer.
Proof. solve_decision. Defined.

(** A protocol object and which of its signals are connected. *)
Record protocolRef := Ref { pid : nat; errorConnected : bool; stateConnected : bool; bytesConnected : bool }.

(** ** The surroundings *)

Inductive vpnCall :=
  (* signals of the connection *)
  | EmitState (state : Vpn.ConnectionState)
  | EmitHealth (health : ConnectionHealth)
  | EmitError (error : ErrorCode)
  | EmitBytes (received sent : Z)
  (* the local service *)
  | ServiceAvailable
  | ConnectServiceSignals
  | PhysicalNetworkReady
  | SetConnectionProtection (enabled : bool) (config : QJsonObject)
  | ResetIpStack
  | FlushDns
  | ClearSavedRoutes
  | RouteAddList (gateway : string) (ips : list string)
  | RouteDeleteList (gateway : string) (ips : list string)
  | ConfigureDnsSplitTunnel (rules : list string) (gateway : string) (syncKillSwitch : bool)
  | AddKillSwitchAllowedRange (ips : list string)
  | SetAlwaysBlockedSites (ips : list string)
  | RefreshKillSwitch (enabled : bool)
  (* the protocol object *)
  | CreateProtocol (id : nat) (container : DockerContainer) (config : QJsonObject)
  | ProtocolPrepare (id : nat)
  | ProtocolStart (id : nat)
  | ProtocolStop (id : nat)
  | ProtocolRequestStatus (id : nat)
  | ProtocolLastError (id : nat)
  | VpnGateway (id : nat)
  | RouteGateway (id : nat)
  | StartRoutesTimer (id : nat) (mode : RouteMode)
  (* the system *)
  | ResolveAddress (host : string)
  | CurrentMSecs
  | LookupHost (host : string)
  | ConnectProbe
  | PostResume
  | PostHealthCheck.

(** A reply that did not arrive in time is [None], or [false] where the code treats
    it like a negative one. *)
Definition vpnAns (c : vpnCall) : Type :=
  match c with
  | ServiceAvailable | SetConnectionProtection _ _ | FlushDns | AddKillSwitchAllowedRange _
  | RefreshKillSwitch _ => bool
  | PhysicalNetworkReady => option bool
  | RouteAddList _ _ => option Z
  | ProtocolStart _ => list protocolSignal * ErrorCode
  | ProtocolStop _ => list protocolSignal
  | ProtocolRequestStatus _ => list protocolSignal * bool
  | ProtocolLastError _ => ErrorCode
  | VpnGateway _ | RouteGateway _ | ResolveAddress _ => string
  | CurrentMSecs => Z
  | _ => unit
  end.

Canonical Structure vpnIO : interface := Interface vpnCall vpnAns.

(** ** Tables *)

Definition kMaxConnectedRecoveryAttempts : Z := 3.

Definition connectionHealthForError (error : ErrorCode) : ConnectionHealth :=
  match error with
  | ErrorCode.AmneziaServiceConnectionFailed | ErrorCode.VpnBackendFailure => Health.LocalServiceUnavailable
  | ErrorCode.VpnHandshakeTimeout => Health.HandshakeTimeout
  | ErrorCode.VpnNoTrafficError => Health.NoTraffic
  | _ => Health.UnknownFailure
  end.

Definition recoverableProtocolError (error : ErrorCode) : bool :=
  match error with
  | ErrorCode.AmneziaServiceConnectionFailed | ErrorCode.VpnBackendFailure | ErrorCode.VpnHandshakeTimeout
  | ErrorCode.VpnNoTrafficError => true
  | _ => false
  end.

(** The container that the switch over the kind of a server gives. *)
Definition containerOfServer (servers : serversRepository) (id : string) : DockerContainer :=
  default Docker.None
    match serverKind servers id with
    | SelfHostedAdmin => selfHostedAdminConfig servers id
    | SelfHostedUser => selfHostedUserConfig servers id
    | Native => nativeConfig servers id
    | AmneziaPremiumV2 | AmneziaFreeV3 | ExternalPremium => apiV2Config servers id
    | _ => None
    end.

Definition defaultContainerForServer (servers : serversRepository) (id : string) : DockerContainer :=
  if isEmpty id then Docker.None else containerOfServer servers id.

(** The containers whose routes and resolver the daemon manages itself. *)
Definition daemonManaged (c : DockerContainer) : bool :=
  isAwgContainer c || bool_decide (c = Docker.WireGuard).

(** The host rules of a list of sites. *)
Definition hostRules (sites : QVariantMap) : option (list string) :=
  rules ← mapM (λ kv, rule ← fromText kv.1;
                      Some (if isValid rule && negb (bool_decide (type rule = IpSubnet))
                            then [normalizedText rule] else [])) (qitems sites);
  Some (dedup (concat rules)).

(** The addresses of the valid rules of a list of sites. *)
Definition siteRoutes `{HostAddressText} (sites : QVariantMap) : option (list string) :=
  rules ← collectSites (SiteRules [] [] false) (qitems sites);
  Some (dedup (ruleSites rules)).

#[local] Open Scope script_scope.

Section connection.
Context {S : Type} `{SettingsStore S} `{HostAddressText}.

(** ** State *)

Record vpnConnection := Connection {
  connectionState : Vpn.ConnectionState;
  connectionHealth : ConnectionHealth;
  lastErrorCode : ErrorCode;
  healthChecks : Z;
  recoveryAttempts : Z;
  noTrafficAttempted : bool;
  silentReconnect : bool;
  stoppingAfterFailure : bool;
  pendingAction : PendingNetworkAction;
  serverId : string;
  container : DockerContainer;
  configuration : QJsonObject;
  remoteAddress : string;
  protocol : option protocolRef;
  nextPid : nat;
  timers : timer → bool;
  probe : option Z;
  probeWindow : list Z;
  settingsRepo : option (appSettings S);
  serversRepo : option serversRepository;
}.

Definition set_connectionState (v : Vpn.ConnectionState) (g : vpnConnection) : vpnConnection :=
  Connection
    v (connectionHealth g) (lastErrorCode g) (healthChecks g) (recoveryAttempts g) (noTrafficAttempted g)
    (silentReconnect g) (stoppingAfterFailure g) (pendingAction g) (serverId g) (container g) (configuration g)
    (remoteAddress g) (protocol g) (nextPid g) (timers g) (probe g) (probeWindow g) (settingsRepo g)
    (serversRepo g).
Definition set_connectionHealth (v : ConnectionHealth) (g : vpnConnection) : vpnConnection :=
  Connection
    (connectionState g) v (lastErrorCode g) (healthChecks g) (recoveryAttempts g) (noTrafficAttempted g)
    (silentReconnect g) (stoppingAfterFailure g) (pendingAction g) (serverId g) (container g) (configuration g)
    (remoteAddress g) (protocol g) (nextPid g) (timers g) (probe g) (probeWindow g) (settingsRepo g)
    (serversRepo g).
Definition set_lastErrorCode (v : ErrorCode) (g : vpnConnection) : vpnConnection :=
  Connection
    (connectionState g) (connectionHealth g) v (healthChecks g) (recoveryAttempts g) (noTrafficAttempted g)
    (silentReconnect g) (stoppingAfterFailure g) (pendingAction g) (serverId g) (container g) (configuration g)
    (remoteAddress g) (protocol g) (nextPid g) (timers g) (probe g) (probeWindow g) (settingsRepo g)
    (serversRepo g).
Definition set_healthChecks (v : Z) (g : vpnConnection) : vpnConnection :=
  Connection
    (connectionState g) (connectionHealth g) (lastErrorCode g) v (recoveryAttempts g) (noTrafficAttempted g)
    (silentReconnect g) (stoppingAfterFailure g) (pendingAction g) (serverId g) (container g) (configuration g)
    (remoteAddress g) (protocol g) (nextPid g) (timers g) (probe g) (probeWindow g) (settingsRepo g)
    (serversRepo g).
Definition set_recoveryAttempts (v : Z) (g : vpnConnection) : vpnConnection :=
  Connection
    (connectionState g) (connectionHealth g) (lastErrorCode g) (healthChecks g) v (noTrafficAttempted g)
    (silentReconnect g) (stoppingAfterFailure g) (pendingAction g) (serverId g) (container g) (configuration g)
    (remoteAddress g) (protocol g) (nextPid g) (timers g) (probe g) (probeWindow g) (settingsRepo g)
    (serversRepo g).
Definition set_noTrafficAttempted (v : bool) (g : vpnConnection) : vpnConnection :=
  Connection
    (connectionState g) (connectionHealth g) (lastErrorCode g) (healthChecks g) (recoveryAttempts g) v
    (silentReconnect g) (stoppingAfterFailure g) (pendingAction g) (serverId g) (container g) (configuration g)
    (remoteAddress g) (protocol g) (nextPid g) (timers g) (probe g) (probeWindow g) (settingsRepo g)
    (serversRepo g).
Definition set_silentReconnect (v : bool) (g : vpnConnection) : vpnConnection :=
  Connection
    (connectionState g) (connectionHealth g) (lastErrorCode g) (healthChecks g) (recoveryAttempts g)
    (noTrafficAttempted g) v (stoppingAfterFailure g) (pendingAction g) (serverId g) (container g)
    (configuration g) (remoteAddress g) (protocol g) (nextPid g) (timers g) (probe g) (probeWindow g)
    (settingsRepo g) (serversRepo g).
Definition set_stoppingAfterFailure (v : bool) (g : vpnConnection) : vpnConnection :=
  Connection
    (connectionState g) (connectionHealth g) (lastErrorCode g) (healthChecks g) (recoveryAttempts g)
    (noTrafficAttempted g) (silentReconnect g) v (pendingAction g) (serverId g) (container g) (configuration g)
    (remoteAddress g) (protocol g) (nextPid g) (timers g) (probe g) (probeWindow g) (settingsRepo g)
    (serversRepo g).
Definition set_pendingAction (v : PendingNetworkAction) (g : vpnConnection) : vpnConnection :=
  Connection
    (connectionState g) (connectionHealth g) (lastErrorCode g) (healthChecks g) (recoveryAttempts g)
    (noTrafficAttempted g) (silentReconnect g) (stoppingAfterFailure g) v (serverId g) (container g)
    (configuration g) (remoteAddress g) (protocol g) (nextPid g) (timers g) (probe g) (probeWindow g)
    (settingsRepo g) (serversRepo g).
Definition set_serverId (v : string) (g : vpnConnection) : vpnConnection :=
  Connection
    (connectionState g) (connectionHealth g) (lastErrorCode g) (healthChecks g) (recoveryAttempts g)
    (noTrafficAttempted g) (silentReconnect g) (stoppingAfterFailure g) (pendingAction g) v (container g)
    (configuration g) (remoteAddress g) (protocol g) (nextPid g) (timers g) (probe g) (probeWindow g)
    (settingsRepo g) (serversRepo g).
Definition set_container (v : DockerContainer) (g : vpnConnection) : vpnConnection :=
  Connection
    (connectionState g) (connectionHealth g) (lastErrorCode g) (healthChecks g) (recoveryAttempts g)
    (noTrafficAttempted g) (silentReconnect g) (stoppingAfterFailure g) (pendingAction g) (serverId g) v
    (configuration g) (remoteAddress g) (protocol g) (nextPid g) (timers g) (probe g) (probeWindow g)
    (settingsRepo g) (serversRepo g).
Definition set_configuration (v : QJsonObject) (g : vpnConnection) : vpnConnection :=
  Connection
    (connectionState g) (connectionHealth g) (lastErrorCode g) (healthChecks g) (recoveryAttempts g)
    (noTrafficAttempted g) (silentReconnect g) (stoppingAfterFailure g) (pendingAction g) (serverId g)
    (container g) v (remoteAddress g) (protocol g) (nextPid g) (timers g) (probe g) (probeWindow g)
    (settingsRepo g) (serversRepo g).
Definition set_remoteAddress (v : string) (g : vpnConnection) : vpnConnection :=
  Connection
    (connectionState g) (connectionHealth g) (lastErrorCode g) (healthChecks g) (recoveryAttempts g)
    (noTrafficAttempted g) (silentReconnect g) (stoppingAfterFailure g) (pendingAction g) (serverId g)
    (container g) (configuration g) v (protocol g) (nextPid g) (timers g) (probe g) (probeWindow g)
    (settingsRepo g) (serversRepo g).
Definition set_protocol (v : option protocolRef) (g : vpnConnection) : vpnConnection :=
  Connection
    (connectionState g) (connectionHealth g) (lastErrorCode g) (healthChecks g) (recoveryAttempts g)
    (noTrafficAttempted g) (silentReconnect g) (stoppingAfterFailure g) (pendingAction g) (serverId g)
    (container g) (configuration g) (remoteAddress g) v (nextPid g) (timers g) (probe g) (probeWindow g)
    (settingsRepo g) (serversRepo g).
Definition set_nextPid (v : nat) (g : vpnConnection) : vpnConnection :=
  Connection
    (connectionState g) (connectionHealth g) (lastErrorCode g) (healthChecks g) (recoveryAttempts g)
    (noTrafficAttempted g) (silentReconnect g) (stoppingAfterFailure g) (pendingAction g) (serverId g)
    (container g) (configuration g) (remoteAddress g) (protocol g) v (timers g) (probe g) (probeWindow g)
    (settingsRepo g) (serversRepo g).
Definition set_timers (v : timer → bool) (g : vpnConnection) : vpnConnection :=
  Connection
    (connectionState g) (connectionHealth g) (lastErrorCode g) (healthChecks g) (recoveryAttempts g)
    (noTrafficAttempted g) (silentReconnect g) (stoppingAfterFailure g) (pendingAction g) (serverId g)
    (container g) (configuration g) (remoteAddress g) (protocol g) (nextPid g) v (probe g) (probeWindow g)
    (settingsRepo g) (serversRepo g).
Definition set_probe (v : option Z) (g : vpnConnection) : vpnConnection :=
  Connection
    (connectionState g) (connectionHealth g) (lastErrorCode g) (healthChecks g) (recoveryAttempts g)
    (noTrafficAttempted g) (silentReconnect g) (stoppingAfterFailure g) (pendingAction g) (serverId g)
    (container g) (configuration g) (remoteAddress g) (protocol g) (nextPid g) (timers g) v (probeWindow g)
    (settingsRepo g) (serversRepo g).
Definition set_probeWindow (v : list Z) (g : vpnConnection) : vpnConnection :=
  Connection
    (connectionState g) (connectionHealth g) (lastErrorCode g) (healthChecks g) (recoveryAttempts g)
    (noTrafficAttempted g) (silentReconnect g) (stoppingAfterFailure g) (pendingAction g) (serverId g)
    (container g) (configuration g) (remoteAddress g) (protocol g) (nextPid g) (timers g) (probe g) v
    (settingsRepo g) (serversRepo g).
Definition set_settingsRepo (v : option (appSettings S)) (g : vpnConnection) : vpnConnection :=
  Connection
    (connectionState g) (connectionHealth g) (lastErrorCode g) (healthChecks g) (recoveryAttempts g)
    (noTrafficAttempted g) (silentReconnect g) (stoppingAfterFailure g) (pendingAction g) (serverId g)
    (container g) (configuration g) (remoteAddress g) (protocol g) (nextPid g) (timers g) (probe g)
    (probeWindow g) v (serversRepo g).
Definition set_serversRepo (v : option serversRepository) (g : vpnConnection) : vpnConnection :=
  Connection
    (connectionState g) (connectionHealth g) (lastErrorCode g) (healthChecks g) (recoveryAttempts g)
    (noTrafficAttempted g) (silentReconnect g) (stoppingAfterFailure g) (pendingAction g) (serverId g)
    (container g) (configuration g) (remoteAddress g) (protocol g) (nextPid g) (timers g) (probe g)
    (probeWindow g) (settingsRepo g) v.

Notation program := (prog vpnIO vpnConnection).
Notation modify := (setGlobals (I := vpnIO) (G := vpnConnection)).
Notation get := (getGlobals (I := vpnIO) (G := vpnConnection)).
Notation ask c := (request (G := vpnConnection) (c : call vpnIO)).
Notation skip := (Ret tt : program unit).

(** A new connection object. *)
Definition newConnection (servers : option serversRepository) (settings : option (appSettings S)) : vpnConnection :=
  Connection Vpn.Disconnected Health.Idle ErrorCode.NoError 0 0 false false false NoAction "" Docker.None ∅ ""
    None 0 (λ _, false) None [] settings servers.

Definition startTimer (t : timer) : program unit := modify (λ g, set_timers (<[t := true]> (timers g)) g).
Definition stopTimer (t : timer) : program unit := modify (λ g, set_timers (<[t := false]> (timers g)) g).

Definition when (b : bool) (p : program unit) : program unit := if b then p else skip.

(** [IpcClient::withInterface]. *)
Definition withInterface {A} (onReady : program A) (otherwise : A) : program A :=
  available ← ask ServiceAvailable;
  if (available : bool) then onReady else Ret otherwise.

(** The protocol pointer, which must not be null. *)
Definition currentProtocol : program nat :=
  g ← get;
  match protocol g with Some p => Ret (pid p) | None => Throw end.

(** ** Health *)

Definition markLastError (error : ErrorCode) : program unit := modify (set_lastErrorCode error).

Definition shouldPublishConnectionHealth (g : vpnConnection) (health : ConnectionHealth) : bool :=
  match connectionState g with
  | Vpn.Disconnected =>
      bool_decide (health = Health.Idle) ||
      (negb (bool_decide (lastErrorCode g = ErrorCode.NoError)) && connectionHealthProblem health)
  | Vpn.Error => connectionHealthProblem health
  | _ => true
  end.

Definition setConnectionHealth (health : ConnectionHealth) : program unit :=
  g ← get;
  if negb (shouldPublishConnectionHealth g health) then skip
  else if bool_decide (connectionHealth g = health) then skip
  else modify (set_connectionHealth health);; ask (EmitHealth health).

(** ** Timers and probes *)

Definition startConnectingWatchdog : program unit := startTimer ConnectingTimer.
Definition stopConnectingWatchdog : program unit := stopTimer ConnectingTimer.
Definition stopConnectedRecovery : program unit := stopTimer RecoveryTimer.

Definition stopPendingNetworkAction : program unit :=
  modify (set_pendingAction NoAction);; stopTimer PendingTimer;; stopTimer DeadlineTimer.

Definition startConnectedHealthCheck : program unit :=
  modify (set_healthChecks 0);;
  g ← get;
  when (negb (connectionHealthProblem (connectionHealth g))) (setConnectionHealth Health.CheckingTraffic);;
  startTimer HealthTimer;; ask PostHealthCheck.

Definition stopConnectedHealthCheck : program unit :=
  stopTimer HealthTimer;; modify (set_healthChecks 0).

Definition startConnectivityProbe : program unit :=
  g ← get;
  match probe g with
  | Some _ => skip
  | None => now ← ask CurrentMSecs; modify (set_probe (Some now));; ask ConnectProbe
  end.

Definition stopConnectivityProbe : program unit := modify (set_probe None).

Definition kWindowSize : nat := 20.

(** The window keeps the last samples; what else the source computes from it is only
    logged. *)
Definition recordConnectivityProbe (connectMs : Z) : program unit :=
  modify (λ g, let window := probeWindow g ++ [connectMs] in
               set_probeWindow (drop (length window - kWindowSize) window) g).

(** ** Routes and the resolver *)

Definition configureDnsSplitTunnel (gw : string) (mode : RouteMode) : program unit :=
  g ← get;
  match settingsRepo g, serversRepo g with
  | Some settings, Some servers =>
      if daemonManaged (defaultContainerForServer servers (defaultServerId servers)) then skip
      else match hostRules (vpnSites settings mode) with
           | None => Throw
           | Some rules =>
               let syncKillSwitch := bool_decide (mode = VpnAllExceptSites) && isKillSwitchEnabled settings in
               setConnectionHealth Health.CheckingDns;;
               withInterface (ask (ConfigureDnsSplitTunnel rules gw syncKillSwitch)) tt
           end
  | _, _ => skip
  end.

Definition addSplitTunnelRoutes (gw : string) (mode : RouteMode) (ips : list string) : program bool :=
  if bool_decide (ips = []) then Ret true
  else
    setConnectionHealth Health.ApplyingRoutes;;
    withInterface (
      added ← ask (RouteAddList gw ips);
      let ok := bool_decide ((added : option Z) = Some (Z.of_nat (length ips))) in
      when (negb ok) (setConnectionHealth Health.RouteMismatch);;
      g ← get;
      let killSwitch := match settingsRepo g with Some settings => isKillSwitchEnabled settings | None => false end in
      let allowedIps := killSwitchAllowedIps mode killSwitch ips in
      if bool_decide (allowedIps = []) then Ret ok
      else
        setConnectionHealth Health.CheckingFirewall;;
        allowed ← ask (AddKillSwitchAllowedRange allowedIps);
        if (allowed : bool) then Ret ok
        else setConnectionHealth Health.FirewallBlocked;; Ret false) false.

Definition addSitesRoutes (gw : string) (mode : RouteMode) : program unit :=
  g ← get;
  match settingsRepo g, serversRepo g with
  | Some settings, Some servers =>
      if daemonManaged (defaultContainerForServer servers (defaultServerId servers)) then skip
      else match siteRoutes (vpnSites settings mode) with
           | None => Throw
           | Some ips => addSplitTunnelRoutes gw mode ips;; skip
           end
  | _, _ => skip
  end.

(** ** Changes of state *)

(** The first switch of [onConnectionStateChanged]. *)
Definition enterState (state : Vpn.ConnectionState) : program unit :=
  match state with
  | Vpn.Connecting =>
      g ← get;
      setConnectionHealth (if silentReconnect g then Health.Recovering else Health.StartingProtocol);;
      stopConnectedRecovery;; startConnectingWatchdog;; stopConnectivityProbe;; stopConnectedHealthCheck
  | Vpn.Reconnecting =>
      setConnectionHealth Health.Recovering;;
      stopConnectedRecovery;; startConnectingWatchdog;; stopConnectivityProbe;; stopConnectedHealthCheck
  | Vpn.Connected =>
      stopConnectingWatchdog;; setConnectionHealth Health.ApplyingRoutes
  | Vpn.Disconnected =>
      stopConnectingWatchdog;; stopConnectivityProbe;; stopConnectedHealthCheck;; stopConnectedRecovery;;
      g ← get;
      when (negb (connectionHealthProblem (connectionHealth g))) (markLastError ErrorCode.NoError);;
      setConnectionHealth Health.Idle
  | Vpn.Error =>
      stopConnectingWatchdog;; stopConnectivityProbe;; stopConnectedHealthCheck;; stopConnectedRecovery;;
      g ← get;
      when (negb (connectionHealthProblem (connectionHealth g))) (setConnectionHealth Health.UnknownFailure)
  | Vpn.Preparing => setConnectionHealth Health.PreparingConfig
  | Vpn.Disconnecting | Vpn.Unknown =>
      stopConnectingWatchdog;; stopConnectivityProbe;; stopConnectedHealthCheck;; stopConnectedRecovery
  end.

(** Whether a reply to a request for routes confirms [n] of them. *)
Definition routesAdded (reply : option Z) (n : Z) : bool := bool_decide (reply = Some n).

(** The routes of a tunnel for everything except the listed sites. *)
Definition routeAllExceptSites (dns1 dns2 : string) : program unit :=
  setConnectionHealth Health.ApplyingRoutes;;
  p ← currentProtocol;
  gw ← ask (VpnGateway p);
  firstHalf ← ask (RouteAddList gw ["0.0.0.0/1"]);
  secondHalf ← ask (RouteAddList gw ["128.0.0.0/1"]);
  when (negb (routesAdded firstHalf 1) || negb (routesAdded secondHalf 1))
    (setConnectionHealth Health.RouteMismatch);;
  gateway ← ask (RouteGateway p);
  g ← get;
  remoteRoute ← ask (RouteAddList gateway [remoteAddress g]);
  when (negb (routesAdded remoteRoute 1)) (setConnectionHealth Health.RouteMismatch);;
  setConnectionHealth Health.CheckingDns;;
  dnsRoutes ← ask (RouteAddList gateway [dns1; dns2]);
  when (negb (routesAdded dnsRoutes 2)) (setConnectionHealth Health.DnsFailed);;
  configureDnsSplitTunnel gateway VpnAllExceptSites;;
  addSitesRoutes gateway VpnAllExceptSites.

(** The routes and the resolver of a connected tunnel that the daemon does not
    manage. *)
Definition routeConnected (settings : appSettings S) : program unit :=
  ask ResetIpStack;;
  setConnectionHealth Health.CheckingDns;;
  flushed ← ask FlushDns;
  when (negb flushed) (setConnectionHealth Health.DnsFailed);;
  g ← get;
  let dns1 := toStringJ "" (jvalue (configuration g) keyDns1) in
  let dns2 := toStringJ "" (jvalue (configuration g) keyDns2) in
  let splitting := isSitesSplitTunnelingEnabled settings in
  when (negb splitting || negb (bool_decide (routeMode settings = Some VpnAllExceptSites))) (
    p ← currentProtocol; gw ← ask (VpnGateway p); ask (RouteAddList gw [dns1; dns2]);; skip);;
  if splitting then
    p ← currentProtocol;
    gw ← ask (VpnGateway p);
    ask (RouteDeleteList gw ["0.0.0.0"]);;
    match routeMode settings with
    | Some VpnOnlyForwardSites => ask (StartRoutesTimer p VpnOnlyForwardSites)
    | Some VpnAllExceptSites => routeAllExceptSites dns1 dns2
    | _ => skip
    end
  else configureDnsSplitTunnel "" VpnAllSites.

Definition routeStopped : program unit :=
  configureDnsSplitTunnel "" VpnAllSites;; ask FlushDns;; ask ClearSavedRoutes.

Definition onConnectionStateChanged (state : Vpn.ConnectionState) : program unit :=
  enterState state;;
  g ← get;
  (match serversRepo g, settingsRepo g with
   | Some servers, Some settings =>
       if daemonManaged (containerOfServer servers (defaultServerId servers)) then skip
       else withInterface
              match state with
              | Vpn.Connected => routeConnected settings
              | Vpn.Disconnected | Vpn.Error => routeStopped
              | _ => skip
              end tt
   | _, _ => skip
   end);;
  when (bool_decide (state = Vpn.Connected)) startConnectedHealthCheck.

(** [setConnectionState] after its first guard. *)
Definition applyState (state : Vpn.ConnectionState) : program unit :=
  g ← get;
  let previousState := connectionState g in
  if stoppingAfterFailure g && bool_decide (state = Vpn.Disconnected) then skip
  else if bool_decide (previousState = Vpn.Error) && bool_decide (state = Vpn.Disconnected) &&
          negb (bool_decide (lastErrorCode g = ErrorCode.NoError)) then skip
  else
    when (bool_decide (state = Vpn.Connected)) (modify (set_silentReconnect false));;
    (if bool_decide (state = Vpn.Error) && bool_decide (lastErrorCode g = ErrorCode.NoError) then
       match protocol g with
       | None => markLastError ErrorCode.UnknownError
       | Some p =>
           protocolError ← ask (ProtocolLastError (pid p));
           when (bool_decide ((protocolError : ErrorCode) = ErrorCode.NoError)) (markLastError ErrorCode.UnknownError)
       end
     else skip);;
    if bool_decide (state = Vpn.Disconnected) && bool_decide (previousState = Vpn.Reconnecting) then
      modify (set_connectionState state);; onConnectionStateChanged state;; modify (set_connectionState previousState)
    else
      modify (set_connectionState state);; onConnectionStateChanged state;; ask (EmitState state).

(** Schedules a silent reconnect of a connected tunnel; [false] when it is not
    possible any more. *)
Definition recoverConnectedTunnel (health : ConnectionHealth) (error : ErrorCode) : program bool :=
  markLastError error;;
  setConnectionHealth health;;
  g ← get;
  if negb (bool_decide (connectionState g = Vpn.Connected)) || silentReconnect g ||
     negb (bool_decide (is_Some (protocol g))) || isEmpty (serverId g)
  then stopConnectedHealthCheck;; Ret false
  else if timers g RecoveryTimer || negb (bool_decide (pendingAction g = NoAction)) then Ret true
  else if (kMaxConnectedRecoveryAttempts <=? recoveryAttempts g)%Z then stopConnectedHealthCheck;; Ret false
  else
    modify (λ g, set_recoveryAttempts (recoveryAttempts g + 1) g);;
    modify (set_noTrafficAttempted true);;
    stopConnectedHealthCheck;; stopConnectivityProbe;; startTimer RecoveryTimer;; Ret true.

(** [disconnect] of the three signals, [createProtocolConnections]. *)
Definition setConnections (b : bool) : program unit :=
  modify (λ g, set_protocol ((λ p, Ref (pid p) b b b) <$> protocol g) g).

(** The signals that the object emits in [stop] reach nobody here, they are
    disconnected before.  The last change of state is to an error, which the first
    guard of [setConnectionState] lets through. *)
Definition handleSilentReconnectFailure (health : ConnectionHealth) (error : ErrorCode) : program bool :=
  stopConnectingWatchdog;;
  modify (set_silentReconnect false);;
  g ← get;
  (match protocol g with
   | None => skip
   | Some p =>
       modify (set_stoppingAfterFailure true);;
       setConnections false;;
       ask (ProtocolStop (pid p));;
       modify (set_stoppingAfterFailure false)
   end);;
  recovering ← recoverConnectedTunnel health error;
  if (recovering : bool) then Ret true
  else applyState Vpn.Error;; ask (EmitError error);; Ret false.

Definition setConnectionState (state : Vpn.ConnectionState) : program unit :=
  g ← get;
  if silentReconnect g && bool_decide (state = Vpn.Disconnected) &&
     bool_decide (connectionState g = Vpn.Connected)
  then handleSilentReconnectFailure Health.LocalServiceUnavailable ErrorCode.AmneziaServiceConnectionFailed;; skip
  else applyState state.

Definition onProtocolError (error : ErrorCode) : program unit :=
  g ← get;
  if silentReconnect g && recoverableProtocolError error
  then handleSilentReconnectFailure (connectionHealthForError error) error;; skip
  else
    markLastError error;;
    when (bool_decide (error = ErrorCode.AmneziaServiceConnectionFailed) ||
          bool_decide (error = ErrorCode.VpnBackendFailure))
      (setConnectionHealth Health.LocalServiceUnavailable);;
    g ← get;
    when (negb (bool_decide (connectionState g = Vpn.Disconnected)) &&
          negb (bool_decide (connectionState g = Vpn.Disconnecting)))
      (modify (set_silentReconnect false);; setConnectionState Vpn.Error);;
    ask (EmitError error).

Definition onBytesChanged (received sent : Z) : program unit :=
  g ← get;
  when (bool_decide (connectionState g = Vpn.Connected) && (0 <? received)%Z) (modify (set_healthChecks 0));;
  ask (EmitBytes received sent).

(** A signal of a protocol object reaches its slot while it is connected. *)
Definition onSignal (id : nat) (signal : protocolSignal) : program unit :=
  g ← get;
  match protocol g with
  | Some p =>
      if negb (Nat.eqb (pid p) id) then skip
      else match signal with
           | ProtocolError error => when (errorConnected p) (onProtocolError error)
           | StateChanged state => when (stateConnected p) (setConnectionState state)
           | BytesChanged received sent => when (bytesConnected p) (onBytesChanged received sent)
           end
  | None => skip
  end.

Fixpoint onSignals (id : nat) (signals : list protocolSignal) : program unit :=
  match signals with
  | [] => skip
  | signal :: signals => onSignal id signal;; onSignals id signals
  end.

Definition stopProtocol (id : nat) : program unit :=
  signals ← ask (ProtocolStop id); onSignals id signals.

(** ** The physical network *)

Definition physicalNetworkReady : program bool :=
  withInterface (ready ← ask PhysicalNetworkReady; Ret (default true (ready : option bool))) true.

Definition deferUntilPhysicalNetworkReady (action : PendingNetworkAction) (health : ConnectionHealth) : program bool :=
  ready ← physicalNetworkReady;
  if (ready : bool) then Ret false
  else
    modify (set_pendingAction action);;
    startTimer PendingTimer;;
    when (bool_decide (action = StartConnection)) (startTimer DeadlineTimer);;
    stopConnectingWatchdog;; stopConnectedRecovery;; stopConnectivityProbe;;
    setConnectionHealth health;;
    ask PostResume;;
    Ret true.

(** ** Starting a protocol *)

(** [m_vpnProtocol] is set to a new object. *)
Definition createProtocol : program nat :=
  g ← get;
  modify (λ g, set_nextPid (Datatypes.S (nextPid g)) (set_protocol (Some (Ref (nextPid g) false false false)) g));;
  ask (CreateProtocol (nextPid g) (container g) (configuration g));;
  Ret (nextPid g).

Definition isCurrent (g : vpnConnection) (id : nat) : bool :=
  match protocol g with Some p => Nat.eqb (pid p) id | None => false end.

Definition startConfiguredConnection : program unit :=
  stopPendingNetworkAction;;
  startConnectingWatchdog;;
  g ← get;
  if negb (factorySupports (container g)) then
    modify (set_protocol None);;
    markLastError ErrorCode.InternalError;;
    setConnectionState Vpn.Error;;
    ask (EmitError ErrorCode.InternalError)
  else
    id ← createProtocol;
    ask (ProtocolPrepare id);;
    setConnections true;;
    started ← ask (ProtocolStart id);
    onSignals id (started : list protocolSignal * ErrorCode).1;;
    g ← get;
    if negb (isCurrent g id) then skip
    else
      let err := (started : list protocolSignal * ErrorCode).2 in
      if negb (bool_decide (err = ErrorCode.NoError)) then
        markLastError err;;
        setConnectionHealth Health.ProtocolStartFailed;;
        setConnectionState Vpn.Error;;
        ask (EmitError err)
      else when (negb (silentReconnect g)) (setConnectionHealth Health.WaitingHandshake).

Definition connectServiceSignals : program unit := withInterface (ask ConnectServiceSignals) tt.

(** The request that arms the kill switch before a connection; [false] also when the
    service is not there. *)
Definition protectConnection (settings : appSettings S) (firewallConfig : QJsonObject) : program bool :=
  withInterface (ask (SetConnectionProtection (isKillSwitchEnabled settings) firewallConfig)) false.

Definition connectToVpn (newServerId : string) (newContainer : DockerContainer) (newConfiguration : QJsonObject) :
    program unit :=
  g ← get;
  match settingsRepo g, serversRepo g with
  | Some settings, Some _ =>
      markLastError ErrorCode.NoError;;
      modify (set_recoveryAttempts 0);;
      modify (set_noTrafficAttempted false);;
      stopConnectedRecovery;;
      modify (set_stoppingAfterFailure false);;
      modify (set_serverId newServerId);;
      modify (set_container newContainer);;
      address ← ask (ResolveAddress (toStringJ "" (jvalue newConfiguration keyHostName)));
      modify (set_remoteAddress address);;
      stopPendingNetworkAction;;
      connectServiceSignals;;
      setConnectionState Vpn.Connecting;;
      match appendSplitTunnelingConfig settings newContainer (appendKillSwitchConfig settings newConfiguration) with
      | None => Throw
      | Some config =>
          modify (set_configuration config);;
          protected ← protectConnection settings (<["vpnServer" := JString address]> config);
          if negb protected then
            markLastError ErrorCode.AmneziaServiceConnectionFailed;;
            setConnectionHealth Health.LocalServiceUnavailable;;
            setConnectionState Vpn.Error;;
            ask (EmitError ErrorCode.AmneziaServiceConnectionFailed)
          else
            g ← get;
            (match protocol g with
             | None => skip
             | Some p =>
                 modify (set_protocol (Some (Ref (pid p) false (stateConnected p) (bytesConnected p))));;
                 stopProtocol (pid p);;
                 modify (set_protocol None)
             end);;
            deferred ← deferUntilPhysicalNetworkReady StartConnection Health.CheckingLocalNetwork;
            when (negb deferred) startConfiguredConnection
      end
  | _, _ => setConnectionState Vpn.Error
  end.

Definition startSilentReconnect : program unit :=
  g ← get;
  if silentReconnect g then skip
  else
    deferred ← deferUntilPhysicalNetworkReady StartSilentReconnect Health.Recovering;
    if (deferred : bool) then skip
    else
      stopPendingNetworkAction;;
      stopConnectingWatchdog;;
      stopConnectedRecovery;;
      modify (set_silentReconnect true);;
      setConnectionHealth Health.Recovering;;
      setConnections false;;
      p ← currentProtocol;
      ask (ProtocolStop p);;
      g ← get;
      if negb (factorySupports (container g)) then
        modify (set_protocol None);;
        modify (set_silentReconnect false);;
        markLastError ErrorCode.InternalError;;
        setConnectionHealth Health.ProtocolStartFailed;;
        setConnectionState Vpn.Error;;
        ask (EmitError ErrorCode.InternalError)
      else
        id ← createProtocol;
        setConnections true;;
        startConnectingWatchdog;;
        started ← ask (ProtocolStart id);
        onSignals id (started : list protocolSignal * ErrorCode).1;;
        g ← get;
        if negb (isCurrent g id) then skip
        else
          let err := (started : list protocolSignal * ErrorCode).2 in
          if negb (bool_decide (err = ErrorCode.NoError)) then
            if recoverableProtocolError err
            then handleSilentReconnectFailure (connectionHealthForError err) err;; skip
            else
              stopConnectingWatchdog;;
              modify (set_silentReconnect false);;
              markLastError err;;
              setConnectionHealth Health.ProtocolStartFailed;;
              setConnectionState Vpn.Error;;
              ask (EmitError err)
          else when (silentReconnect g) (setConnectionHealth Health.Recovering).

(** The test [recoveryAttempts < kMaxConnectedRecoveryAttempts] follows a reset to
    zero, so it always passes. *)
Definition reconnectToVpn : program unit :=
  g ← get;
  if negb (bool_decide (is_Some (protocol g))) then skip
  else if silentReconnect g || timers g RecoveryTimer || negb (bool_decide (pendingAction g = NoAction)) then skip
  else if negb (bool_decide (connectionState g = Vpn.Connected)) then skip
  else
    deferred ← deferUntilPhysicalNetworkReady RequestReconnect Health.Recovering;
    if (deferred : bool) then skip
    else
      g ← get;
      when (negb (silentReconnect g)) (modify (set_recoveryAttempts 0));;
      g ← get;
      if (kMaxConnectedRecoveryAttempts <=? recoveryAttempts g)%Z then skip
      else
        modify (λ g, set_recoveryAttempts (recoveryAttempts g + 1) g);;
        modify (set_noTrafficAttempted true);;
        startSilentReconnect.

Definition resumePendingNetworkAction : program unit :=
  g ← get;
  if bool_decide (pendingAction g = NoAction) then skip
  else
    ready ← physicalNetworkReady;
    if negb ready then skip
    else
      g ← get;
      let action := pendingAction g in
      stopPendingNetworkAction;;
      match action with
      | StartConnection => when (bool_decide (connectionState g = Vpn.Connecting)) startConfiguredConnection
      | RequestReconnect => when (bool_decide (connectionState g = Vpn.Connected)) reconnectToVpn
      | StartSilentReconnect => when (bool_decide (connectionState g = Vpn.Connected)) startSilentReconnect
      | NoAction => skip
      end.

Definition onPhysicalNetworkReadyChanged (ready : bool) : program unit := when ready resumePendingNetworkAction.

(** ** Disconnecting *)

Definition disconnectFromVpn : program unit :=
  withInterface (ask (SetConnectionProtection false ∅);; skip) tt;;
  stopPendingNetworkAction;;
  modify (set_silentReconnect false);;
  modify (set_stoppingAfterFailure false);;
  modify (set_recoveryAttempts 0);;
  modify (set_noTrafficAttempted false);;
  stopConnectedRecovery;;
  stopConnectingWatchdog;;
  g ← get;
  match protocol g with
  | None => setConnectionState Vpn.Disconnected
  | Some p =>
      setConnectionState Vpn.Disconnecting;;
      stopProtocol (pid p);;
      modify (set_protocol None);;
      g ← get;
      when (bool_decide (connectionState g = Vpn.Disconnecting)) (setConnectionState Vpn.Disconnected)
  end.

Definition disconnectSlots : program unit := setConnections false.

(** ** Watchdogs *)

Definition onConnectingTimedOut : program unit :=
  g ← get;
  let silentReconnectTimedOut := silentReconnect g && bool_decide (connectionState g = Vpn.Connected) in
  if silentReconnectTimedOut then
    handleSilentReconnectFailure Health.HandshakeTimeout ErrorCode.VpnHandshakeTimeout;; skip
  else if negb (bool_decide (connectionState g = Vpn.Connecting)) &&
          negb (bool_decide (connectionState g = Vpn.Reconnecting)) then skip
  else
    markLastError ErrorCode.VpnHandshakeTimeout;;
    setConnectionHealth Health.HandshakeTimeout;;
    g ← get;
    (match protocol g with
     | None => skip
     | Some p => modify (set_stoppingAfterFailure true);; stopProtocol (pid p)
     end);;
    setConnectionState Vpn.Error;;
    modify (set_stoppingAfterFailure false);;
    ask (EmitError ErrorCode.VpnHandshakeTimeout).

Definition onRecoveryTimeout : program unit :=
  g ← get;
  if negb (bool_decide (connectionState g = Vpn.Connected)) || silentReconnect g ||
     negb (bool_decide (is_Some (protocol g))) || isEmpty (serverId g)
  then skip else startSilentReconnect.

Definition onDeadlineTimeout : program unit :=
  g ← get;
  if negb (bool_decide (pendingAction g = StartConnection)) then skip
  else stopPendingNetworkAction;; onConnectingTimedOut.

Definition checkDnsHealth : program unit := ask (LookupHost "cloudflare.com").

(** The reply to the lookup of [checkDnsHealth]. *)
Definition onDnsHealthReply (resolved : bool) : program unit :=
  g ← get;
  if negb (bool_decide (connectionState g = Vpn.Connected)) then skip
  else if silentReconnect g then skip
  else if negb resolved then recoverConnectedTunnel Health.DnsFailed ErrorCode.VpnNoTrafficError;; skip
  else when (bool_decide (connectionHealth g = Health.DnsFailed))
         (markLastError ErrorCode.NoError;; setConnectionHealth Health.Healthy).

Definition checkConnectedHealth : program unit :=
  g ← get;
  if negb (bool_decide (connectionState g = Vpn.Connected)) then stopConnectedHealthCheck
  else if silentReconnect g then skip
  else
    checkDnsHealth;;
    g ← get;
    if bool_decide (connectionHealth g = Health.DnsFailed) then skip
    else if bool_decide (connectionHealth g = Health.Healthy) then startConnectivityProbe
    else match protocol g with
         | None => startConnectivityProbe
         | Some p =>
             status ← ask (ProtocolRequestStatus (pid p));
             onSignals (pid p) (status : list protocolSignal * bool).1;;
             if negb (status : list protocolSignal * bool).2 then startConnectivityProbe
             else
               modify (λ g, set_healthChecks (healthChecks g + 1) g);;
               g ← get;
               when (5 <=? healthChecks g)%Z startConnectivityProbe
         end.

Definition onConnectivityProbeSucceeded : program unit :=
  g ← get;
  stopConnectivityProbe;;
  when (bool_decide (connectionState g = Vpn.Connected)) (
    markLastError ErrorCode.NoError;;
    modify (set_recoveryAttempts 0);;
    modify (set_noTrafficAttempted false);;
    g ← get;
    when (negb (bool_decide (connectionHealth g = Health.DnsFailed))) (setConnectionHealth Health.Healthy)).

Definition onConnectivityProbeFailed : program unit :=
  g ← get;
  stopConnectivityProbe;;
  when (bool_decide (connectionState g = Vpn.Connected) && negb (silentReconnect g))
    (recoverConnectedTunnel Health.NoTraffic ErrorCode.VpnNoTrafficError;; skip).

(** ** Settings *)

Definition syncAlwaysBlockedSites : program unit :=
  g ← get;
  match settingsRepo g with
  | None => skip
  | Some settings =>
      let blocked := if isKillSwitchEnabled settings && isSitesSplitTunnelingEnabled settings
                     then cachedSiteIps (vpnSites settings VpnOnlyForwardSites) else Some [] in
      match blocked with
      | None => Throw
      | Some ips => withInterface (ask (SetAlwaysBlockedSites ips)) tt
      end
  end.

Definition onKillSwitchModeChanged (enabled : bool) : program unit :=
  syncAlwaysBlockedSites;; withInterface (ask (RefreshKillSwitch enabled);; skip) tt.

Definition refreshSiteSplitTunnelRoutes : program unit :=
  g ← get;
  if negb (bool_decide (connectionState g = Vpn.Connected)) then skip
  else match settingsRepo g with
       | None => skip
       | Some settings =>
           match routeMode settings with
           | None => Throw
           | Some mode =>
               gw ← (match protocol g with
                     | None => Ret ""
                     | Some p => if bool_decide (mode = VpnAllExceptSites)
                                 then ask (RouteGateway (pid p)) else ask (VpnGateway (pid p))
                     end : program string);
               configureDnsSplitTunnel gw mode;; addSitesRoutes gw mode
           end
       end.

(** [lastError], which asks the protocol object only for its own error. *)
Definition lastError : program ErrorCode :=
  g ← get;
  if negb (bool_decide (lastErrorCode g = ErrorCode.NoError)) then Ret (lastErrorCode g)
  else
    protocolError ← (match protocol g with
                     | None => Ret ErrorCode.NoError
                     | Some p => ask (ProtocolLastError (pid p))
                     end : program ErrorCode);
    Ret (if negb (bool_decide (protocolError = ErrorCode.NoError)) then protocolError
         else if bool_decide (connectionState g = Vpn.Error) then ErrorCode.UnknownError
         else ErrorCode.NoError).

(** ** Events *)

Inductive vpnEvent :=
  (* requests of the application *)
  | Connect (newServerId : string) (newContainer : DockerContainer) (newConfiguration : QJsonObject)
  | Disconnect
  | Diagnostic (health : ConnectionHealth)
  | KillSwitchModeChanged (enabled : bool)
  | SitesChanged (mode : RouteMode)
  | SitesSplittingChanged
  | RefreshRoutes
  | DisconnectSlots
  | SettingsChanged (settings : appSettings S)
  | SetRepositories (servers : option serversRepository) (settings : option (appSettings S))
  (* the local service *)
  | NetworkChanged
  | NetworkReadyChanged (ready : bool)
  | DnsConfigured (ok : bool)
  (* the protocol object *)
  | Signal (id : nat) (signal : protocolSignal)
  (* timers, posted calls and replies *)
  | TimerFires (t : timer)
  | RoutesTimerFires (id : nat) (mode : RouteMode)
  | PostedResume
  | PostedHealthCheck
  | DnsHealthReply (resolved : bool)
  | ProbeConnected
  | ProbeFailed.

(** A timer fires only while it runs, a probe answers only while there is one, and
    the timer of a protocol object dies with it. *)
Definition enabled (g : vpnConnection) (e : vpnEvent) : bool :=
  match e with
  | TimerFires t => timers g t
  | RoutesTimerFires id _ => isCurrent g id
  | ProbeConnected | ProbeFailed => bool_decide (is_Some (probe g))
  | _ => true
  end.

Definition onTimer (t : timer) : program unit :=
  match t with
  | ConnectingTimer => stopTimer ConnectingTimer;; onConnectingTimedOut
  | HealthTimer => checkConnectedHealth
  | RecoveryTimer => stopTimer RecoveryTimer;; onRecoveryTimeout
  | PendingTimer => resumePendingNetworkAction
  | DeadlineTimer => stopTimer DeadlineTimer;; onDeadlineTimeout
  end.

Definition handle (e : vpnEvent) : program unit :=
  match e with
  | Connect newServerId newContainer newConfiguration => connectToVpn newServerId newContainer newConfiguration
  | Disconnect => disconnectFromVpn
  | Diagnostic health => setConnectionHealth health
  | KillSwitchModeChanged b => onKillSwitchModeChanged b
  | SitesChanged mode => when (bool_decide (mode = VpnOnlyForwardSites)) syncAlwaysBlockedSites
  | SitesSplittingChanged => syncAlwaysBlockedSites
  | RefreshRoutes => refreshSiteSplitTunnelRoutes
  | DisconnectSlots => disconnectSlots
  | SettingsChanged settings => modify (λ g, set_settingsRepo ((λ _, settings) <$> settingsRepo g) g)
  | SetRepositories servers settings =>
      modify (set_serversRepo servers);; modify (set_settingsRepo settings)
  | NetworkChanged => reconnectToVpn
  | NetworkReadyChanged ready => onPhysicalNetworkReadyChanged ready
  | DnsConfigured ok => when (negb ok) (setConnectionHealth Health.DnsFailed)
  | Signal id signal => onSignal id signal
  | TimerFires t => onTimer t
  | RoutesTimerFires id mode =>
      p ← currentProtocol; gw ← ask (VpnGateway p); configureDnsSplitTunnel gw mode;;
      p ← currentProtocol; gw ← ask (VpnGateway p); addSitesRoutes gw mode
  | PostedResume => resumePendingNetworkAction
  | PostedHealthCheck => checkConnectedHealth;; startConnectivityProbe
  | DnsHealthReply resolved => onDnsHealthReply resolved
  | ProbeConnected =>
      g ← get;
      now ← ask CurrentMSecs;
      recordConnectivityProbe (now - default 0 (probe g))%Z;; onConnectivityProbeSucceeded
  | ProbeFailed => recordConnectivityProbe (-1);; onConnectivityProbeFailed
  end.

(** A run of the connection: the events in order, those that cannot happen left out.
    [None] is a run that dereferences a null pointer. *)
Fixpoint runEvents (o : oracle vpnIO) (es : list vpnEvent) (g : vpnConnection) (h : trace vpnIO) :
    option (vpnConnection * trace vpnIO) :=
  match es with
  | [] => Some (g, h)
  | e :: es =>
      if enabled g e then
        let result := run o (handle e) g h in
        match resOutcome result with
        | Returned _ => runEvents o es (resGlobals result) (resTrace result)
        | _ => None
        end
      else runEvents o es g h
  end.

End connection.

#[global] Arguments vpnConnection S : clear implicits.
#[global] Arguments vpnEvent S : clear implicits.
