(* ===== verification/ConnectionSafety.v ===== *)
(** * Safety of the connection

    What holds in every run of [VpnConnection] ([vpnConnection.cpp]), whatever the
    service, the protocol objects and the timers do: an invariant of the state, which
    also excludes the null dereferences of the source, and the order of requests that
    keeps the kill switch armed while a protocol runs. *)

From Stdlib Require Import Ascii.
From S2P Require Import Prelude QtCore Regex Variant NetworkUtilities SplitTunnel.
From S2P Require Import SecureSettings AppSettings ConnectionHealth Containers VpnProtocol VpnConfig.
From S2P Require Import ServerConfig Effects VpnConnection.
From stdpp Require Import functions options.
#[local] Open Scope script_scope.

(** Requests that neither start a protocol nor touch the kill switch. *)
Definition quiet (c : vpnCall) : bool :=
  match c with ProtocolStart _ | SetConnectionProtection _ _ => false | _ => true end.

Section safety.
Context {S : Type} `{SettingsStore S} `{HostAddressText}.

Notation vpnConnection := (vpnConnection S).
Notation program := (prog vpnIO vpnConnection).

(** ** The invariant *)

(** The stored rules and modes are ones the code can use. *)
Definition rulesDefined (r : appSettings S) : Prop :=
  (∀ mode k, is_Some (vpnSites r mode !! k) → is_Some (fromText k)) ∧
  is_Some (routeMode r) ∧ is_Some (appsRouteMode r).

Definition pidOf (g : vpnConnection) : option nat := pid <$> protocol g.

(** The part of the state that connecting and disconnecting change: the protocol
    object [x] and the action [a] that waits for the network. *)
Record calm (x : option nat) (a : PendingNetworkAction) (g : vpnConnection) : Prop := Calm {
  calm_pid : pidOf g = x;
  calm_action : pendingAction g = a;
  calm_pending : timers g PendingTimer = negb (bool_decide (a = NoAction));
  calm_deadline : timers g DeadlineTimer = true → a = StartConnection;
  calm_recovery : timers g RecoveryTimer = true → a = NoAction;
  calm_attempts : (0 ≤ recoveryAttempts g ≤ kMaxConnectedRecoveryAttempts)%Z;
  calm_window : length (probeWindow g) ≤ kWindowSize;
  calm_settings : ∀ r, settingsRepo g = Some r → rulesDefined r;
}.

(** The health fits the state. *)
Definition healthFits (state : Vpn.ConnectionState) (health : ConnectionHealth) : Prop :=
  match state with
  | Vpn.Error => connectionHealthProblem health = true
  | Vpn.Disconnected => health = Health.Idle ∨ connectionHealthProblem health = true
  | Vpn.Connecting => health ≠ Health.Idle
  | _ => True
  end.

(** [b]: whether the flag [stoppingAfterFailure] may be set; [φ]: what is known of the
    state and the health. *)
Record framed (φ : Vpn.ConnectionState → ConnectionHealth → Prop) (x : option nat) (a : PendingNetworkAction)
    (b : bool) (g : vpnConnection) : Prop := Framed {
  framed_calm : calm x a g;
  framed_health : φ (connectionState g) (connectionHealth g);
  framed_stopping : stoppingAfterFailure g = true → b = true;
}.

Notation steady := (framed healthFits).

Notation keeps P p := (hoare quiet P p (λ _, P)).

Lemma keeps_bind {A B} (P : vpnConnection → Prop) (p : program A) (f : A → program B) :
  keeps P p → (∀ v, keeps P (f v)) → keeps P (bind p f).
Proof. intros Hp Hf. by eapply hoare_bind. Qed.

Lemma keeps_get {A} (P : vpnConnection → Prop) (k : vpnConnection → program A) :
  (∀ g, P g → keeps P (k g)) → keeps P (bind getGlobals k).
Proof. intros Hk. apply hoare_get. intros g HP. eapply hoare_pre; [by apply Hk|]. by intros ? ->. Qed.

Lemma keeps_ret {A} (P : vpnConnection → Prop) (v : A) : keeps P (Ret v : program A).
Proof. by apply hoare_ret. Qed.

Lemma keeps_when (P : vpnConnection → Prop) b (p : program unit) : keeps P p → keeps P (when b p).
Proof. intros Hp. destruct b; [done|]. apply keeps_ret. Qed.

Lemma keeps_request (P : vpnConnection → Prop) (c : vpnCall) :
  quiet c = true → keeps P (request (I := vpnIO) c).
Proof. intros Hc. by apply hoare_request. Qed.

Lemma keeps_withInterface {A} (P : vpnConnection → Prop) (p : program A) otherwise :
  keeps P p → keeps P (withInterface p otherwise).
Proof.
  intros Hp. apply keeps_bind; [by apply keeps_request|]. intros []; [done|]. apply keeps_ret.
Qed.

(** Splits a program into its steps. *)
Ltac keep_steps :=
  repeat match goal with
  | |- ∀ _, _ => intro
  | |- hoare _ _ (bind getGlobals _) _ => apply keeps_get; intros
  | |- hoare _ _ (bind _ _) _ => apply keeps_bind
  | |- hoare _ _ (Ret _) _ => apply keeps_ret
  | |- hoare _ _ (request ?c) _ => apply (keeps_request _ c); reflexivity
  | |- hoare _ _ (withInterface _ _) _ => apply keeps_withInterface
  | |- hoare _ _ (when _ _) _ => apply keeps_when
  | |- hoare _ _ (if ?c then _ else _) _ => destruct c eqn:?
  | |- hoare _ _ (match ?c with _ => _ end) _ => destruct c eqn:?
  | |- _ => solve [eauto with vpn]
  end.

(** Takes the first step of a program, which keeps [P]. *)
Ltac keep_first P := apply (hoare_bind _ _ _ _ (λ _, P)); [keep_steps|intros ?].

(** A change of the state that keeps [framed]. *)
Ltac framed_parts :=
  (split; [split|..]); cbn in *; intros;
  repeat match goal with
  | H : context [<[?t := ?v]> ?f ?t'] |- _ =>
      (rewrite fn_lookup_insert in H || rewrite (fn_lookup_insert_ne f t t') in H by done)
  | |- context [<[?t := ?v]> ?f ?t'] =>
      (rewrite fn_lookup_insert || rewrite (fn_lookup_insert_ne f t t') by done)
  end; try (eauto; done).

Ltac framed_update := apply hoare_set; intros ? [[] ? ?]; framed_parts.

Section steps.
Context (φ : Vpn.ConnectionState → ConnectionHealth → Prop) (x : option nat) (a : PendingNetworkAction) (b : bool).

Lemma keeps_markLastError e : keeps (framed φ x a b) (markLastError e).
Proof. unfold markLastError. framed_update. Qed.

Lemma keeps_set_silentReconnect v : keeps (framed φ x a b) (setGlobals (set_silentReconnect v)).
Proof. framed_update. Qed.

Lemma keeps_set_noTrafficAttempted v : keeps (framed φ x a b) (setGlobals (set_noTrafficAttempted v)).
Proof. framed_update. Qed.

Lemma keeps_set_healthChecks v : keeps (framed φ x a b) (setGlobals (λ g, set_healthChecks (v g) g)).
Proof. framed_update. Qed.

Lemma keeps_set_healthChecks_0 : keeps (framed φ x a b) (setGlobals (set_healthChecks 0)).
Proof. framed_update. Qed.

Lemma keeps_set_probe v : keeps (framed φ x a b) (setGlobals (set_probe v)).
Proof. framed_update. Qed.

Lemma keeps_set_stopping_false : keeps (framed φ x a b) (setGlobals (set_stoppingAfterFailure false)).
Proof. framed_update. Qed.

Lemma keeps_resetAttempts : keeps (framed φ x a b) (setGlobals (set_recoveryAttempts 0)).
Proof. framed_update. Qed.

Lemma keeps_set_serverId v : keeps (framed φ x a b) (setGlobals (set_serverId v)).
Proof. framed_update. Qed.

Lemma keeps_set_container v : keeps (framed φ x a b) (setGlobals (set_container v)).
Proof. framed_update. Qed.

Lemma keeps_set_remoteAddress v : keeps (framed φ x a b) (setGlobals (set_remoteAddress v)).
Proof. framed_update. Qed.

Lemma keeps_set_configuration v : keeps (framed φ x a b) (setGlobals (set_configuration v)).
Proof. framed_update. Qed.

Lemma keeps_stopTimer t : t ≠ PendingTimer → keeps (framed φ x a b) (stopTimer t).
Proof. intros Ht. destruct t; [..|done|]; unfold stopTimer; framed_update. Qed.

Lemma keeps_startTimer t : t = ConnectingTimer ∨ t = HealthTimer → keeps (framed φ x a b) (startTimer t).
Proof. intros [->| ->]; unfold startTimer; framed_update. Qed.

Lemma keeps_recordConnectivityProbe ms : keeps (framed φ x a b) (recordConnectivityProbe ms).
Proof.
  unfold recordConnectivityProbe. framed_update. rewrite length_drop. lia.
Qed.

Lemma keeps_setConnections v : keeps (framed φ x a b) (setConnections v).
Proof.
  unfold setConnections. framed_update. unfold pidOf in *. cbn. subst. by destruct (protocol _).
Qed.

(** A health that is published or not, according to the state. *)
Lemma setConnectionHealth_framed (ψ : Vpn.ConnectionState → ConnectionHealth → Prop) h :
  (∀ st old, φ st old → (st = Vpn.Disconnected ∧ h ≠ Health.Idle ∨
     st = Vpn.Error ∧ connectionHealthProblem h = false) → ψ st old) →
  (∀ st old, φ st old → (st = Vpn.Disconnected → h = Health.Idle ∨ connectionHealthProblem h = true) →
     (st = Vpn.Error → connectionHealthProblem h = true) → ψ st h) →
  hoare quiet (framed φ x a b) (setConnectionHealth h) (λ _, framed ψ x a b).
Proof.
  intros Hhidden Hshown. apply hoare_get. intros g [Hcalm Hφ Hst].
  assert (Hcase : if shouldPublishConnectionHealth g h then ψ (connectionState g) h
    else ψ (connectionState g) (connectionHealth g)).
  { unfold shouldPublishConnectionHealth. destruct (connectionState g); try by eapply Hshown.
    - case_bool_decide as Hidle; cbn [orb]; [eapply Hshown; [done|auto|done]|].
      destruct (_ && _) eqn:Hp; [|eapply Hhidden; eauto]. reflect_bools. eapply Hshown; [done|auto|done].
    - destruct (connectionHealthProblem h) eqn:Hp; [eapply Hshown|eapply Hhidden]; eauto. }
  destruct (shouldPublishConnectionHealth g h); cbn [negb].
  2:{ apply hoare_ret. intros ? ->. done. }
  case_bool_decide as Hsame.
  { apply hoare_ret. intros ? ->. subst h. done. }
  eapply (hoare_bind _ _ _ _ (λ _, framed ψ x a b)).
  - apply hoare_set. intros ? ->. destruct Hcalm. done.
  - intros _. by apply (keeps_request _ (EmitHealth h)).
Qed.

End steps.

#[local] Hint Resolve keeps_markLastError keeps_set_silentReconnect keeps_set_noTrafficAttempted keeps_set_healthChecks
  keeps_set_healthChecks_0 keeps_set_probe keeps_set_stopping_false keeps_resetAttempts
  keeps_recordConnectivityProbe keeps_setConnections keeps_set_serverId keeps_set_container
  keeps_set_remoteAddress keeps_set_configuration : vpn.
#[local] Hint Extern 2 (hoare _ _ (stopTimer _) _) => apply keeps_stopTimer; discriminate : vpn.
#[local] Hint Extern 2 (hoare _ _ (startTimer _) _) => apply keeps_startTimer; auto : vpn.

Lemma keeps_stopConnectingWatchdog φ x a b : keeps (framed φ x a b) stopConnectingWatchdog.
Proof. by apply keeps_stopTimer. Qed.

Lemma keeps_startConnectingWatchdog φ x a b : keeps (framed φ x a b) startConnectingWatchdog.
Proof. apply keeps_startTimer. auto. Qed.

Lemma keeps_stopConnectedRecovery φ x a b : keeps (framed φ x a b) stopConnectedRecovery.
Proof. by apply keeps_stopTimer. Qed.

#[local] Hint Resolve keeps_stopConnectingWatchdog keeps_startConnectingWatchdog keeps_stopConnectedRecovery : vpn.

Lemma keeps_setConnectionHealth x a b h : h ≠ Health.Idle → keeps (steady x a b) (setConnectionHealth h).
Proof.
  intros Hh. apply setConnectionHealth_framed; [done|]. intros st old _ Hd He.
  destruct st; cbn; auto.
Qed.

#[local] Hint Extern 2 (hoare _ _ (setConnectionHealth _) _) => apply keeps_setConnectionHealth; discriminate : vpn.

Lemma keeps_stopConnectedHealthCheck φ x a b : keeps (framed φ x a b) stopConnectedHealthCheck.
Proof. unfold stopConnectedHealthCheck. keep_steps. Qed.

Lemma keeps_stopConnectivityProbe φ x a b : keeps (framed φ x a b) stopConnectivityProbe.
Proof. unfold stopConnectivityProbe. keep_steps. Qed.

Lemma keeps_startConnectivityProbe φ x a b : keeps (framed φ x a b) startConnectivityProbe.
Proof. unfold startConnectivityProbe. keep_steps. Qed.

Lemma keeps_startConnectedHealthCheck x a b : keeps (steady x a b) startConnectedHealthCheck.
Proof. unfold startConnectedHealthCheck. keep_steps. Qed.

#[local] Hint Resolve keeps_stopConnectedHealthCheck keeps_stopConnectivityProbe keeps_startConnectivityProbe
  keeps_startConnectedHealthCheck : vpn.

(** ** Routes and the resolver *)

Lemma fromText_defined r mode k v : rulesDefined r → (k, v) ∈ qitems (vpnSites r mode) → is_Some (fromText k).
Proof. intros [Hk _] Hin%elem_of_qitems. eauto. Qed.

Lemma hostRules_defined r mode : rulesDefined r → is_Some (hostRules (vpnSites r mode)).
Proof.
  intros Hr. unfold hostRules. destruct (mapM _ _) eqn:Hm; [eauto|]. exfalso.
  apply eq_None_not_Some in Hm. apply Hm, mapM_is_Some_2, Forall_forall. intros [k v] Hin%list_elem_of_In.
  destruct (fromText_defined r mode k v Hr Hin) as [rule Hk]. cbn. rewrite Hk. eauto.
Qed.

Lemma collectSites_defined entries acc :
  (∀ k v, (k, v) ∈ entries → is_Some (fromText k)) → is_Some (collectSites acc entries).
Proof.
  revert acc. induction entries as [|[k v] entries IH]; intros acc Hk; [eauto|]. cbn [collectSites].
  destruct (Hk k v) as [rule Hr]; [set_solver|]. unfold collectSite. cbn [fst]. rewrite Hr. cbn.
  apply IH. intros k' v' Hin. apply (Hk k' v'). set_solver.
Qed.

Lemma siteRoutes_defined r mode : rulesDefined r → is_Some (siteRoutes (vpnSites r mode)).
Proof.
  intros Hr. unfold siteRoutes.
  destruct (collectSites_defined (qitems (vpnSites r mode)) (SiteRules [] [] false)) as [rules ->]; [|cbn; eauto].
  intros k v. by apply fromText_defined.
Qed.

Lemma cachedSiteIps_defined r mode : rulesDefined r → is_Some (cachedSiteIps (vpnSites r mode)).
Proof.
  intros Hr. unfold cachedSiteIps. destruct (mapM _ _) eqn:Hm; [cbn; eauto|]. exfalso.
  apply eq_None_not_Some in Hm. apply Hm, mapM_is_Some_2, Forall_forall. intros [k v] Hin%list_elem_of_In.
  destruct (fromText_defined r mode k v Hr Hin) as [rule Hk]. unfold siteIps. cbn. rewrite Hk. cbn. eauto.
Qed.

Lemma appendSplitTunnelingConfig_defined r c cfg :
  rulesDefined r → is_Some (appendSplitTunnelingConfig r c cfg).
Proof.
  intros Hr. unfold appendSplitTunnelingConfig. destruct (normalizeWireGuard c cfg) as [allow cfg1].
  assert (is_Some (splitSites r allow cfg1)) as [[[mode sites] hosts] ->].
  { unfold splitSites. destruct (isSitesSplitTunnelingEnabled r); [|cbn; eauto].
    destruct Hr as (Hk & [mode Hm] & Ha). rewrite Hm. cbn. destruct allow; [|cbn; eauto].
    destruct (collectSites_defined (qitems (vpnSites r mode)) (SiteRules [] [] false)) as [rules ->].
    { intros k v. by apply fromText_defined. }
    cbn. repeat case_match; eauto. }
  cbn. assert (is_Some (splitApps r)) as [[appsMode apps] ->]; [|cbn; eauto].
  unfold splitApps. destruct (isAppsSplitTunnelingEnabled r); [|eauto].
  destruct Hr as (_ & _ & [m ->]). cbn. eauto.
Qed.

(** A stored rule that can be used is never missing. *)
Lemma settings_defined φ x a b g r : framed φ x a b g → settingsRepo g = Some r → rulesDefined r.
Proof. intros [[] _ _]. auto. Qed.

Ltac use_defined :=
  repeat match goal with
  | Hf : framed _ _ _ _ ?g, Hr : settingsRepo ?g = Some ?r |- _ =>
      lazymatch goal with
      | _ : rulesDefined r |- _ => fail
      | _ => pose proof (settings_defined _ _ _ _ _ _ Hf Hr)
      end
  | Hr : rulesDefined ?r, Hn : hostRules (vpnSites ?r ?m) = None |- _ =>
      by destruct (hostRules_defined r m Hr) as [? Hsome]; rewrite Hn in Hsome
  | Hr : rulesDefined ?r, Hn : siteRoutes (vpnSites ?r ?m) = None |- _ =>
      by destruct (siteRoutes_defined r m Hr) as [? Hsome]; rewrite Hn in Hsome
  | Hr : rulesDefined ?r, Hn : routeMode ?r = None |- _ =>
      by destruct Hr as (_ & [? Hsome] & _); rewrite Hn in Hsome
  end.

Lemma keeps_configureDnsSplitTunnel x a b gw mode : keeps (steady x a b) (configureDnsSplitTunnel gw mode).
Proof. unfold configureDnsSplitTunnel. keep_steps. use_defined. Qed.

Lemma keeps_addSplitTunnelRoutes x a b gw mode ips : keeps (steady x a b) (addSplitTunnelRoutes gw mode ips).
Proof. unfold addSplitTunnelRoutes. keep_steps. Qed.

#[local] Hint Resolve keeps_configureDnsSplitTunnel keeps_addSplitTunnelRoutes : vpn.

Lemma keeps_addSitesRoutes x a b gw mode : keeps (steady x a b) (addSitesRoutes gw mode).
Proof. unfold addSitesRoutes. keep_steps. use_defined. Qed.

#[local] Hint Resolve keeps_addSitesRoutes : vpn.

Lemma keeps_currentProtocol φ n a b : keeps (framed φ (Some n) a b) currentProtocol.
Proof.
  unfold currentProtocol. keep_steps.
  match goal with Hf : framed _ _ _ _ _ |- _ => destruct Hf as [[Hp] _ _] end.
  unfold pidOf in Hp. by simplify_option_eq.
Qed.

#[local] Hint Resolve keeps_currentProtocol : vpn.

Lemma keeps_routeAllExceptSites n a b dns1 dns2 : keeps (steady (Some n) a b) (routeAllExceptSites dns1 dns2).
Proof. unfold routeAllExceptSites. keep_steps. Qed.

#[local] Hint Resolve keeps_routeAllExceptSites : vpn.

Lemma keeps_routeConnected n a b settings : keeps (steady (Some n) a b) (routeConnected settings).
Proof. unfold routeConnected. keep_steps. Qed.

Lemma keeps_routeStopped x a b : keeps (steady x a b) routeStopped.
Proof. unfold routeStopped. keep_steps. Qed.

#[local] Hint Resolve keeps_routeConnected keeps_routeStopped : vpn.

(** ** Changes of state *)

(** The state was set, the health does not have to fit yet. *)
Notation entering st := (framed (λ state _, state = st)).

(** Entering a state makes the health fit it. *)
Notation entered st := (framed (λ state health, state = st ∧ healthFits state health)).

Lemma setConnectionHealth_entering st x a b h :
  h ≠ Health.Idle → st ≠ Vpn.Disconnected → (st = Vpn.Error → connectionHealthProblem h = true) →
  hoare quiet (entering st x a b) (setConnectionHealth h) (λ _, entered st x a b).
Proof.
  intros Hh Hd He. apply setConnectionHealth_framed.
  - intros ? old -> [[? _]|[-> Hp]]; [done|]. rewrite He in Hp by done. done.
  - intros ? old -> _ _. split; [done|]. destruct st; cbn; auto.
Qed.

Lemma setConnectionHealth_idle x a b :
  hoare quiet (entering Vpn.Disconnected x a b) (setConnectionHealth Health.Idle)
    (λ _, entered Vpn.Disconnected x a b).
Proof.
  apply setConnectionHealth_framed.
  - intros ? old -> [[_ ?]|[? _]]; done.
  - intros ? old -> _ _. cbn. auto.
Qed.

Lemma entering_fits st x a b g :
  entering st x a b g → healthFits st (connectionHealth g) → entered st x a b g.
Proof. intros [Hc <- Hs] Hf. by split. Qed.

Lemma enterState_entered st x a b :
  hoare quiet (entering st x a b) (enterState st) (λ _, entered st x a b).
Proof.
  assert (Hnone : ∀ g, match st with Vpn.Connecting | Vpn.Error | Vpn.Disconnected => False | _ => True end →
    entering st x a b g → entered st x a b g).
  { intros g Hst Hg. apply entering_fits; [done|]. by destruct st. }
  destruct st; cbn [enterState].
  - apply (hoare_post _ _ _ (λ _, entering Vpn.Unknown x a b)); [keep_steps|]. intros _ g. by apply Hnone.
  - do 4 keep_first (entering Vpn.Disconnected x a b).
    apply hoare_get. intros g Hg. 
    apply (hoare_bind _ _ _ _ (λ _, entering Vpn.Disconnected x a b)); [|intros _; apply setConnectionHealth_idle].
    eapply hoare_pre; [apply keeps_when; apply keeps_markLastError|]. by intros ? ->.
  - by apply setConnectionHealth_entering.
  - apply hoare_get. intros g Hg. apply (hoare_bind _ _ _ _ (λ _, entered Vpn.Connecting x a b)).
    { eapply hoare_pre; [apply (setConnectionHealth_entering Vpn.Connecting x a b); [by destruct (silentReconnect g)|done|done]|]. by intros ? ->. }
    intros _. keep_steps.
  - keep_first (entering Vpn.Connected x a b). by apply setConnectionHealth_entering.
  - apply (hoare_post _ _ _ (λ _, entering Vpn.Disconnecting x a b)); [keep_steps|]. intros _ g. by apply Hnone.
  - apply (hoare_bind _ _ _ _ (λ _, entered Vpn.Reconnecting x a b)); [by apply setConnectionHealth_entering|].
    keep_steps.
  - do 4 keep_first (entering Vpn.Error x a b).
    apply hoare_get. intros g Hg. destruct (connectionHealthProblem (connectionHealth g)) eqn:Hp; cbn [negb when].
    + apply hoare_ret. intros ? ->. by apply entering_fits.
    + eapply hoare_pre; [by apply setConnectionHealth_entering|]. by intros ? ->.
Qed.

Lemma entered_steady st x a b g : entered st x a b g → steady x a b g.
Proof. intros [Hc [_ Hf] Hs]. by split. Qed.

Lemma onConnectionStateChanged_steady st x a b :
  (st = Vpn.Connected → is_Some x) →
  hoare quiet (entering st x a b) (onConnectionStateChanged st) (λ _, steady x a b).
Proof.
  intros Hx. unfold onConnectionStateChanged. apply (hoare_bind _ _ _ _ (λ _, steady x a b)).
  { apply (hoare_post _ _ _ (λ _, entered st x a b)); [apply enterState_entered|]. intros _ g. apply entered_steady. }
  intros _. destruct (decide (st = Vpn.Connected)) as [->|Hst].
  - destruct Hx as [n ->]; [done|]. keep_steps.
  - destruct st; try done; keep_steps.
Qed.

Lemma keeps_applyState st x a b :
  (st = Vpn.Connected → is_Some x) → keeps (steady x a b) (applyState st).
Proof.
  intros Hx. unfold applyState. apply keeps_get. intros g Hg. destruct (_ && _); [keep_steps|].
  destruct (_ && _); [keep_steps|].
  apply keeps_bind; [keep_steps|intros _]. apply keeps_bind; [keep_steps|intros _].
  assert (Hset : hoare quiet (steady x a b) (setGlobals (I := vpnIO) (set_connectionState st)) (λ _, entering st x a b)).
  { apply hoare_set. intros g' [[] _ ?]. by split. }
  destruct (bool_decide (st = Vpn.Disconnected) && _) eqn:Hre.
  - apply (hoare_bind _ _ _ _ (λ _, entering st x a b)); [apply Hset|intros _].
    apply (hoare_bind _ _ _ _ (λ _, steady x a b)); [by apply onConnectionStateChanged_steady|intros _].
    apply andb_true_iff in Hre as [_ Hre]. apply bool_decide_eq_true in Hre.
    apply hoare_set. intros g' [[] _ ?]. split; [by split|cbn; by rewrite Hre|done].
  - apply (hoare_bind _ _ _ _ (λ _, entering st x a b)); [apply Hset|intros _].
    apply (hoare_bind _ _ _ _ (λ _, steady x a b)); [by apply onConnectionStateChanged_steady|intros _]. keep_steps.
Qed.

Lemma keeps_recoverConnectedTunnel h e x a b :
  h ≠ Health.Idle → keeps (steady x a b) (recoverConnectedTunnel h e).
Proof.
  intros Hh. unfold recoverConnectedTunnel. apply keeps_bind; [keep_steps|intros _].
  apply keeps_bind; [by apply keeps_setConnectionHealth|intros _].
  apply hoare_get. intros g Hg. destruct (_ || isEmpty (serverId g)).
  { eapply hoare_pre; [keep_steps|]. by intros ? ->. }
  destruct (timers g RecoveryTimer || _) eqn:Hidle.
  { eapply hoare_pre; [keep_steps|]. by intros ? ->. }
  destruct (kMaxConnectedRecoveryAttempts <=? _)%Z eqn:Hmax.
  { eapply hoare_pre; [keep_steps|]. by intros ? ->. }
  apply orb_false_iff in Hidle as [_ Hidle]. reflect_bools. apply Z.leb_gt in Hmax.
  assert (a = NoAction) as -> by (destruct Hg as [[]]; congruence).
  eapply (hoare_bind _ _ _ _ (λ _, steady x NoAction b)).
  { apply hoare_set. intros ? ->. destruct Hg as [[] ? ?]. framed_parts. lia. }
  intros _. do 3 (apply keeps_bind; [keep_steps|intros _]).
  apply keeps_bind; [|intros _; apply keeps_ret]. unfold startTimer. framed_update.
Qed.

Lemma keeps_handleSilentReconnectFailure h e x a b :
  h ≠ Health.Idle → keeps (steady x a b) (handleSilentReconnectFailure h e).
Proof.
  intros Hh. unfold handleSilentReconnectFailure. do 2 (apply keeps_bind; [keep_steps|intros _]).
  apply keeps_get. intros g Hg. apply keeps_bind.
  - destruct (protocol g) as [p|]; [|keep_steps].
    eapply (hoare_bind _ _ _ _ (λ _, steady x a true)); [framed_update|intros _].
    do 2 (eapply (hoare_bind _ _ _ _ (λ _, steady x a true)); [keep_steps|intros ?]).
    framed_update.
  - intros _. apply keeps_bind; [by apply keeps_recoverConnectedTunnel|]. intros []; [keep_steps|].
    apply keeps_bind; [by apply keeps_applyState|]. keep_steps.
Qed.

Lemma keeps_setConnectionState st x a b :
  (st = Vpn.Connected → is_Some x) → keeps (steady x a b) (setConnectionState st).
Proof.
  intros Hx. unfold setConnectionState. apply keeps_get. intros g Hg. destruct (_ && _).
  - apply keeps_bind; [by apply keeps_handleSilentReconnectFailure|keep_steps].
  - by apply keeps_applyState.
Qed.

Lemma connectionHealthForError_not_idle e : connectionHealthForError e ≠ Health.Idle.
Proof. by destruct e. Qed.

#[local] Hint Extern 2 (hoare _ _ (setConnectionState _) _) => apply keeps_setConnectionState; done : vpn.
#[local] Hint Extern 2 (hoare _ _ (handleSilentReconnectFailure _ _) _) =>
  apply keeps_handleSilentReconnectFailure; first [discriminate | apply connectionHealthForError_not_idle] : vpn.
#[local] Hint Extern 2 (hoare _ _ (recoverConnectedTunnel _ _) _) =>
  apply keeps_recoverConnectedTunnel; discriminate : vpn.

Lemma keeps_onProtocolError e x a b : keeps (steady x a b) (onProtocolError e).
Proof. unfold onProtocolError. keep_steps. Qed.

Lemma keeps_onBytesChanged received sent φ x a b : keeps (framed φ x a b) (onBytesChanged received sent).
Proof. unfold onBytesChanged. keep_steps. Qed.

#[local] Hint Resolve keeps_onProtocolError keeps_onBytesChanged : vpn.

Lemma keeps_onSignal id s x a b : keeps (steady x a b) (onSignal id s).
Proof.
  unfold onSignal. apply keeps_get. intros g Hg. destruct (protocol g) as [p|] eqn:Hp; [|keep_steps].
  assert (is_Some x) by (destruct Hg as [[<-]]; unfold pidOf; rewrite Hp; eauto).
  destruct (negb _); [keep_steps|]. destruct s; apply keeps_when; [keep_steps| |keep_steps].
  by apply keeps_setConnectionState.
Qed.

Lemma keeps_onSignals id signals x a b : keeps (steady x a b) (onSignals id signals).
Proof.
  induction signals as [|s signals IH]; cbn [onSignals]; [keep_steps|].
  apply keeps_bind; [apply keeps_onSignal|done].
Qed.

#[local] Hint Resolve keeps_onSignal keeps_onSignals : vpn.

Lemma keeps_stopProtocol id x a b : keeps (steady x a b) (stopProtocol id).
Proof. unfold stopProtocol. keep_steps. Qed.

#[local] Hint Resolve keeps_stopProtocol : vpn.

(** ** Watchdogs, health checks and settings *)

Lemma keeps_physicalNetworkReady φ x a b : keeps (framed φ x a b) physicalNetworkReady.
Proof. unfold physicalNetworkReady. keep_steps. Qed.

#[local] Hint Resolve keeps_physicalNetworkReady : vpn.

Lemma keeps_onConnectingTimedOut x a : keeps (steady x a false) onConnectingTimedOut.
Proof.
  unfold onConnectingTimedOut. apply keeps_get. intros g Hg. destruct (_ && _); [keep_steps|].
  destruct (_ && _); [keep_steps|]. do 2 keep_first (steady x a false). clear g Hg. apply keeps_get. intros g Hg.
  apply (hoare_bind _ _ _ _ (λ _, steady x a true)).
  { destruct (protocol g) as [p|].
    - apply (hoare_bind _ _ _ _ (λ _, steady x a true)); [framed_update|]. keep_steps.
    - apply hoare_ret. intros ? []. by split. }
  intros _. keep_first (steady x a true).
  apply (hoare_bind _ _ _ _ (λ _, steady x a false)); [framed_update|]. keep_steps.
Qed.

Lemma keeps_onDnsHealthReply resolved x a b : keeps (steady x a b) (onDnsHealthReply resolved).
Proof. unfold onDnsHealthReply. keep_steps. Qed.

Lemma keeps_checkConnectedHealth x a b : keeps (steady x a b) checkConnectedHealth.
Proof. unfold checkConnectedHealth, checkDnsHealth. keep_steps. Qed.

Lemma keeps_onConnectivityProbeSucceeded x a b : keeps (steady x a b) onConnectivityProbeSucceeded.
Proof. unfold onConnectivityProbeSucceeded. keep_steps. Qed.

Lemma keeps_onConnectivityProbeFailed x a b : keeps (steady x a b) onConnectivityProbeFailed.
Proof. unfold onConnectivityProbeFailed. keep_steps. Qed.

Lemma keeps_syncAlwaysBlockedSites φ x a b : keeps (framed φ x a b) syncAlwaysBlockedSites.
Proof.
  unfold syncAlwaysBlockedSites. apply keeps_get. intros g Hg.
  destruct (settingsRepo g) as [r|] eqn:Hr; [|keep_steps]. use_defined.
  destruct (cachedSiteIps_defined r VpnOnlyForwardSites) as [ips Hips]; [done|].
  destruct (_ && _); [rewrite Hips|]; keep_steps.
Qed.

#[local] Hint Resolve keeps_onDnsHealthReply keeps_checkConnectedHealth keeps_onConnectivityProbeSucceeded
  keeps_onConnectivityProbeFailed keeps_syncAlwaysBlockedSites : vpn.

Lemma keeps_onKillSwitchModeChanged v φ x a b : keeps (framed φ x a b) (onKillSwitchModeChanged v).
Proof. unfold onKillSwitchModeChanged. keep_steps. Qed.

Lemma keeps_refreshSiteSplitTunnelRoutes x a b : keeps (steady x a b) refreshSiteSplitTunnelRoutes.
Proof. unfold refreshSiteSplitTunnelRoutes. keep_steps. use_defined. Qed.

(** ** Actions that wait for the network *)

Lemma stopPendingNetworkAction_none φ x a b :
  hoare quiet (framed φ x a b) stopPendingNetworkAction (λ _, framed φ x NoAction b).
Proof.
  intros g h [[] ? ?]. unfold stopPendingNetworkAction, stopTimer. cbn. exists tt, []. rewrite app_nil_r.
  split_and!; [done|done|constructor|]. framed_parts.
Qed.

Lemma deferUntilPhysicalNetworkReady_pending action h x b :
  action ≠ NoAction → h ≠ Health.Idle →
  hoare quiet (steady x NoAction b) (deferUntilPhysicalNetworkReady action h)
    (λ deferred, steady x (if deferred then action else NoAction) b).
Proof.
  intros Ha Hh. unfold deferUntilPhysicalNetworkReady.
  apply (hoare_bind _ _ _ _ (λ _, steady x NoAction b)); [keep_steps|]. intros [].
  { by apply hoare_ret. }
  assert (Hrest : hoare quiet (steady x action b)
    (stopConnectivityProbe;; setConnectionHealth h;; request (I := vpnIO) PostResume;; Ret true)
    (λ deferred, steady x (if deferred then action else NoAction) b)).
  { keep_first (steady x action b).
    apply (hoare_bind _ _ _ _ (λ _, steady x action b)); [by apply keeps_setConnectionHealth|intros _].
    keep_first (steady x action b). by apply hoare_ret. }
  unfold when. case_bool_decide as Hstart; cbn [bind].
  - subst. do 5 apply hoare_update. eapply hoare_pre; [exact Hrest|].
    intros g5 (? & (? & (? & (? & (? & [[] ? ?] & ->) & ->) & ->) & ->) & ->). framed_parts.
  - do 4 apply hoare_update. eapply hoare_pre; [exact Hrest|].
    intros g4 (? & (? & (? & (? & [[] ? ?] & ->) & ->) & ->) & ->). framed_parts.
    + by rewrite bool_decide_false.
    + match goal with Hd : ?t = true → NoAction = StartConnection, Ht : ?t = true |- _ => discriminate (Hd Ht) end.
Qed.

(** ** The kill switch and the start of protocols *)

Definition protectedAfter (armed : bool) (e : event vpnIO) : bool :=
  match e with
  | Ev (SetConnectionProtection _ config) answer => if bool_decide (size config = 0) then false else armed || answer
  | _ => armed
  end.

(** The service has confirmed the protection of a connection, and it has not been
    asked to release it since. *)
Definition protectedNow (h : trace vpnIO) : bool := foldl protectedAfter false h.

Definition isStart (c : vpnCall) : bool := match c with ProtocolStart _ => true | _ => false end.

(** Every start of a protocol happened under protection. *)
Definition startsProtected (h : trace vpnIO) : Prop :=
  ∀ h1 e h2, h = h1 ++ e :: h2 → isStart (evCall e) = true → protectedNow h1 = true.

Lemma protectedNow_quiet h t : allCalls quiet t → protectedNow (h ++ t) = protectedNow h.
Proof.
  unfold protectedNow. intros Ht. rewrite foldl_app. generalize (foldl protectedAfter false h).
  induction Ht as [|[c x] t Hc _ IH]; intros armed; cbn; [done|]. rewrite IH. by destruct c.
Qed.

Lemma startsProtected_nil : startsProtected [].
Proof. intros h1 e h2 Heq. by destruct h1. Qed.

Lemma startsProtected_snoc h e :
  startsProtected h → (isStart (evCall e) = true → protectedNow h = true) → startsProtected (h ++ [e]).
Proof.
  intros Hh He h1 e' h2 Heq Hs. destruct h2 as [|z h2 _] using rev_ind.
  - apply app_inj_tail in Heq as [-> ->]. auto.
  - rewrite app_comm_cons, app_assoc in Heq. apply app_inj_tail in Heq as [-> _]. by eapply Hh.
Qed.

Lemma startsProtected_quiet h t : startsProtected h → allCalls quiet t → startsProtected (h ++ t).
Proof.
  intros Hh Ht. revert h Hh. induction Ht as [|[c x] t Hc _ IH]; intros h Hh; [by rewrite app_nil_r|].
  replace (h ++ Ev c x :: t) with ((h ++ [Ev c x]) ++ t) by by rewrite <-app_assoc.
  apply IH, startsProtected_snoc; [done|]. by destruct c.
Qed.

(** Contracts that also speak of the protection. *)
Definition contract {A} (P : bool → vpnConnection → Prop) (p : program A) (Q : A → bool → vpnConnection → Prop) : Prop :=
  ∀ g h, P (protectedNow h) g → startsProtected h →
    wp anything p (λ r g' h', ∃ v, r = Returned v ∧ Q v (protectedNow h') g' ∧ startsProtected h') g h.

Lemma contract_bind {A B} P (p : program A) (f : A → program B) Q R :
  contract P p Q → (∀ v, contract (Q v) (f v) R) → contract P (bind p f) R.
Proof.
  intros Hp Hf g h HP Hh. eapply wp_seq; [by apply Hp|]. intros r g1 h1 (v & -> & Hq & Hh1). cbn.
  by apply Hf.
Qed.

Lemma contract_quiet {A} armed P (p : program A) Q :
  hoare quiet P p Q → contract (λ b g, b = armed ∧ P g) p (λ v b g, b = armed ∧ Q v g).
Proof.
  intros Hp g h [<- HP] Hh. eapply wp_mono; [|by apply Hp].
  intros r g' h' (v & t & -> & -> & Ht & Hq). exists v. rewrite protectedNow_quiet by done.
  split_and!; [done..|]. by apply startsProtected_quiet.
Qed.

Lemma contract_conseq {A} (P P' : bool → vpnConnection → Prop) (p : program A) (Q Q' : A → bool → vpnConnection → Prop) :
  (∀ b g, P' b g → P b g) → (∀ v b g, Q v b g → Q' v b g) → contract P p Q → contract P' p Q'.
Proof.
  intros HP HQ Hp g h Hg Hh. eapply wp_mono; [|by apply Hp, Hh; apply HP].
  intros r g' h' (v & -> & Hq & Hh'). eauto.
Qed.

Lemma contract_weaken {A} (P P' : bool → vpnConnection → Prop) (p : program A) Q :
  contract P p Q → (∀ b g, P' b g → P b g) → contract P' p Q.
Proof. intros Hp HP. by apply (contract_conseq P _ _ Q). Qed.

Lemma contract_start id (P : vpnConnection → Prop) :
  contract (λ b g, b = true ∧ P g) (request (I := vpnIO) (ProtocolStart id)) (λ _ b g, b = true ∧ P g).
Proof.
  intros g h [Hb HP] Hh x _. exists x. split; [done|]. split.
  - split; [|done]. unfold protectedNow. rewrite foldl_app. exact Hb.
  - by apply startsProtected_snoc.
Qed.

Lemma contract_protect armed enabled config (P : vpnConnection → Prop) :
  size config ≠ 0 →
  contract (λ b g, b = armed ∧ P g) (request (I := vpnIO) (SetConnectionProtection enabled config))
    (λ (answer : bool) b g, b = armed || answer ∧ P g).
Proof.
  intros Hc g h [<- HP] Hh x _. exists x. split; [done|]. split.
  - split; [|done]. unfold protectedNow. rewrite foldl_app. cbn. by rewrite bool_decide_false.
  - by apply startsProtected_snoc.
Qed.

Lemma contract_release (P : vpnConnection → Prop) :
  contract (λ _, P) (request (I := vpnIO) (SetConnectionProtection false ∅)) (λ _ b g, P g).
Proof.
  intros g h HP Hh x _. exists x. split_and!; [done..|]. by apply startsProtected_snoc.
Qed.

Lemma contract_get {A} P (k : vpnConnection → program A) Q :
  (∀ armed g0, P armed g0 → contract (λ b g, b = armed ∧ g = g0) (k g0) Q) → contract P (bind getGlobals k) Q.
Proof. intros Hk g h HP Hh. by apply (Hk (protectedNow h) g HP). Qed.

Lemma contract_ret {A} P (v : A) Q : (∀ b g, P b g → Q v b g) → contract P (Ret v : program A) Q.
Proof. intros HQ g h HP Hh. exists v. auto. Qed.

(** ** Starting protocols *)

Notation armed P := (λ (b : bool) (g : vpnConnection), b = true ∧ P g).

Lemma contract_keep {A} (P : vpnConnection → Prop) (p : program A) :
  keeps P p → contract (armed P) p (λ _, armed P).
Proof. apply contract_quiet. Qed.

Ltac armed_first P := apply (contract_bind _ _ _ (λ _, armed P)); [apply contract_keep; keep_steps|intros ?].

Lemma createProtocol_steady x a b :
  hoare quiet (steady x a b) createProtocol (λ id, steady (Some id) a b).
Proof.
  apply hoare_get. intros g Hg. apply (hoare_bind _ _ _ _ (λ _, steady (Some (nextPid g)) a b)).
  { apply hoare_set. intros ? ->. destruct Hg as [[] ? ?]. framed_parts. }
  intros _. keep_first (steady (Some (nextPid g)) a b). by apply hoare_ret.
Qed.

Lemma dropProtocol_steady x a b :
  a = NoAction ∨ a = StartConnection →
  hoare quiet (steady x a b) (setGlobals (I := vpnIO) (set_protocol None)) (λ _, steady None a b).
Proof. intros Ha. framed_update. Qed.

(** After a start: some protocol or none, and nothing waits. *)
Definition started (g : vpnConnection) : Prop := ∃ x, steady x NoAction false g.

(** The rest of a program is quiet. *)
Lemma contract_rest {A} (P : vpnConnection → Prop) (p : program A) Q (R : A → vpnConnection → Prop) :
  hoare quiet P p Q → (∀ v g, Q v g → R v g) → contract (armed P) p (λ v, armed (R v)).
Proof.
  intros Hp HR. eapply contract_conseq; [| |apply (contract_quiet true), Hp]; [done|]. intros v b g [-> Hq]. auto.
Qed.

Lemma contract_pre {A} (P P' : vpnConnection → Prop) (p : program A) Q :
  contract (armed P) p Q → (∀ g, P' g → P g) → contract (armed P') p Q.
Proof. intros Hp HP. eapply contract_conseq; [| |apply Hp]; [|done]. intros b g [-> Hg]. auto. Qed.

(** Reading the state does not lose what is known of it. *)
Lemma contract_read {A} (P : vpnConnection → Prop) (k : vpnConnection → program A) Q :
  (∀ g, P g → contract (armed P) (k g) Q) → contract (armed P) (bind getGlobals k) Q.
Proof.
  intros Hk. apply contract_get. intros b g [-> Hg]. eapply contract_conseq; [| |by apply (Hk g)]; [|done].
  intros ? ? [-> ->]. done.
Qed.

Lemma startConfiguredConnection_contract x a :
  contract (armed (steady x a false)) startConfiguredConnection (λ _, armed started).
Proof.
  unfold startConfiguredConnection.
  apply (contract_bind _ _ _ (λ _, armed (steady x NoAction false))).
  { apply contract_quiet, stopPendingNetworkAction_none. }
  intros _. armed_first (steady x NoAction false).
  apply contract_read. intros g Hg. destruct (negb (factorySupports _)).
  - apply (contract_rest _ _ (λ _, steady None NoAction false)); [|by eexists].
    apply (hoare_bind _ _ _ _ (λ _, steady None NoAction false)); [apply dropProtocol_steady; auto|keep_steps].
  - apply (contract_bind _ _ _ (λ id, armed (steady (Some id) NoAction false))).
    { apply contract_quiet, createProtocol_steady. }
    intros id. do 2 armed_first (steady (Some id) NoAction false).
    apply (contract_bind _ _ _ (λ _, armed (steady (Some id) NoAction false))); [apply contract_start|intros result].
    apply (contract_rest _ _ (λ _, steady (Some id) NoAction false)); [|by eexists]. keep_steps.
Qed.

(** A silent reconnect runs with a protocol object, and can only wait itself. *)
Definition reconnecting (g : vpnConnection) : Prop :=
  ∃ x a, steady x a false g ∧ (a = NoAction ∨ a = StartSilentReconnect ∧ is_Some x ∨ a = RequestReconnect ∧ is_Some x).

Lemma startSilentReconnect_contract n :
  contract (armed (steady (Some n) NoAction false)) startSilentReconnect (λ _, armed reconnecting).
Proof.
  assert (Hdone : ∀ x g, steady x NoAction false g → reconnecting g).
  { intros x g Hg. exists x, NoAction. auto. }
  unfold startSilentReconnect. apply contract_read. intros g Hg. destruct (silentReconnect g).
  { apply contract_ret. intros b g' [-> Hg']. eauto. }
  apply (contract_bind _ _ _
    (λ deferred : bool, armed (steady (Some n) (if deferred then StartSilentReconnect else NoAction) false))).
  { by apply contract_quiet, deferUntilPhysicalNetworkReady_pending. }
  intros [].
  { apply contract_ret. intros b g' [-> Hg']. split; [done|]. exists (Some n), StartSilentReconnect. split; [done|eauto]. }
  apply (contract_bind _ _ _ (λ _, armed (steady (Some n) NoAction false))).
  { apply contract_quiet, stopPendingNetworkAction_none. }
  intros _. do 6 armed_first (steady (Some n) NoAction false). armed_first (steady (Some n) NoAction false).
  clear g Hg. apply contract_read. intros g Hg. destruct (negb (factorySupports _)).
  - apply (contract_rest _ _ (λ _, steady None NoAction false)); [|by eauto].
    apply (hoare_bind _ _ _ _ (λ _, steady None NoAction false)); [apply dropProtocol_steady; auto|keep_steps].
  - apply (contract_bind _ _ _ (λ id, armed (steady (Some id) NoAction false))).
    { apply contract_quiet, createProtocol_steady. }
    intros id. do 2 armed_first (steady (Some id) NoAction false).
    apply (contract_bind _ _ _ (λ _, armed (steady (Some id) NoAction false))); [apply contract_start|intros result].
    apply (contract_rest _ _ (λ _, steady (Some id) NoAction false)); [|by eauto]. keep_steps.
Qed.

Lemma reconnectToVpn_contract n :
  contract (armed (steady (Some n) NoAction false)) reconnectToVpn (λ _, armed reconnecting).
Proof.
  assert (Hdone : ∀ x g, steady x NoAction false g → reconnecting g).
  { intros x g Hg. exists x, NoAction. auto. }
  assert (Hskip : contract (armed (steady (Some n) NoAction false)) (Ret tt : program unit) (λ _, armed reconnecting)).
  { apply contract_ret. intros b g' [-> Hg']. eauto. }
  unfold reconnectToVpn. apply contract_read. intros g Hg. destruct (negb _); [done|].
  destruct (_ || _); [done|]. destruct (negb _); [done|].
  apply (contract_bind _ _ _
    (λ deferred : bool, armed (steady (Some n) (if deferred then RequestReconnect else NoAction) false))).
  { by apply contract_quiet, deferUntilPhysicalNetworkReady_pending. }
  intros [].
  { apply contract_ret. intros b g' [-> Hg']. split; [done|]. exists (Some n), RequestReconnect. split; [done|eauto]. }
  clear g Hg. apply contract_read. intros g Hg. armed_first (steady (Some n) NoAction false).
  clear g Hg. apply contract_get. intros ? g [-> Hg]. destruct (_ <=? _)%Z eqn:Hmax.
  { apply contract_ret. intros ? ? [-> ->]. eauto. }
  apply Z.leb_gt in Hmax. apply (contract_bind _ _ _ (λ _, armed (steady (Some n) NoAction false))).
  { apply contract_quiet, hoare_set. intros ? ->. destruct Hg as [[] ? ?]. framed_parts. lia. }
  intros _. armed_first (steady (Some n) NoAction false). apply startSilentReconnect_contract.
Qed.

(** ** Every event *)

(** The invariant of a connection: a protocol object, or a first connection that
    waits for the network, means protection; a reconnect waits only with an object. *)
Definition invariant (b : bool) (g : vpnConnection) : Prop :=
  ∃ x a, steady x a false g ∧ (is_Some x ∨ a = StartConnection → b = true) ∧
    (a = RequestReconnect ∨ a = StartSilentReconnect → is_Some x).

Lemma started_invariant b g : b = true ∧ started g → invariant b g.
Proof. intros [-> [x Hg]]. exists x, NoAction. naive_solver. Qed.

Lemma reconnecting_invariant b g : b = true ∧ reconnecting g → invariant b g.
Proof. intros [-> (x & a & Hg & Ha)]. exists x, a. naive_solver. Qed.

Lemma contract_any {A} (P : vpnConnection → Prop) (p : program A) Q :
  hoare quiet P p Q → contract (λ _, P) p (λ v _, Q v).
Proof.
  intros Hp g h HP Hh. eapply wp_mono; [|by apply (contract_quiet (protectedNow h) P p Q Hp)].
  intros r g' h' (v & -> & [_ Hq] & Hh'). eauto.
Qed.

(** A program that keeps the connection steady keeps the invariant. *)
Lemma contract_invariant (p : program unit) :
  (∀ x a, keeps (steady x a false) p) → contract invariant p (λ _, invariant).
Proof.
  intros Hp g h (x & a & Hg & Hb & Ha) Hh.
  eapply wp_mono; [|by apply (contract_quiet (protectedNow h) _ _ _ (Hp x a))].
  intros r g' h' (v & -> & [Hb' Hg'] & Hh'). exists v. split_and!; [done| |done].
  exists x, a. rewrite Hb'. auto.
Qed.

Lemma contract_after (p : program unit) (Q : bool → vpnConnection → Prop) P :
  (∀ b g, Q b g → invariant b g) → contract P p (λ _, Q) → contract P p (λ _, invariant).
Proof. intros HQ Hp. eapply contract_conseq; [| |exact Hp]; auto. Qed.

Lemma resumePendingNetworkAction_contract : contract invariant resumePendingNetworkAction (λ _, invariant).
Proof.
  unfold resumePendingNetworkAction. apply contract_get. intros b g (x & a & Hg & Hb & Ha).
  set (P := λ (b' : bool) (g : vpnConnection), b' = b ∧ steady x a false g).
  assert (HP : ∀ b' g', P b' g' → invariant b' g') by (intros b' g' [-> Hg']; exists x, a; auto).
  apply (contract_conseq P _ _ (λ _, invariant)); [intros ? ? [-> ->]; done|done|].
  case_bool_decide; [by apply contract_ret|].
  apply (contract_bind _ _ _ (λ _, P)); [apply contract_quiet; keep_steps|]. intros []; cbn [negb]; [|by apply contract_ret].
  apply contract_get. intros ? g1 [-> Hg1].
  assert (Hact : pendingAction g1 = a) by apply Hg1. rewrite Hact.
  apply (contract_bind _ _ _ (λ _ b' g', b' = b ∧ steady x NoAction false g')).
  { apply contract_quiet. eapply hoare_pre; [apply stopPendingNetworkAction_none|]. by intros ? ->. }
  intros _.
  assert (Hskip : contract (λ b' g', b' = b ∧ steady x NoAction false g') (Ret tt : program unit) (λ _, invariant)).
  { apply contract_ret. intros b' g' [-> Hg']. exists x, NoAction. naive_solver. }
  destruct a; [done|..]; unfold when; case_bool_decide; try done.
  - rewrite Hb by auto. eapply contract_after; [apply started_invariant|]. apply startConfiguredConnection_contract.
  - destruct Ha as [n ->]; [auto|]. rewrite Hb by eauto.
    eapply contract_after; [apply reconnecting_invariant|]. apply reconnectToVpn_contract.
  - destruct Ha as [n ->]; [auto|]. rewrite Hb by eauto.
    eapply contract_after; [apply reconnecting_invariant|]. apply startSilentReconnect_contract.
Qed.

Lemma pidOf_Some x a b g p : steady x a b g → protocol g = Some p → x = Some (pid p).
Proof. intros [[<-] _ _] Hp. unfold pidOf. by rewrite Hp. Qed.

(** The timer of a scheduled recovery fires: nothing waits. *)
Lemma onRecoveryTimeout_contract :
  contract (λ b g, ∃ x, steady x NoAction false g ∧ (is_Some x → b = true)) onRecoveryTimeout (λ _, invariant).
Proof.
  apply contract_get. intros b g (x & Hg & Hb). destruct (_ || _) eqn:Hc.
  - apply contract_ret. intros ? ? [-> ->]. exists x, NoAction. naive_solver.
  - reflect_bools. match goal with Hs : is_Some (protocol g) |- _ => destruct Hs as [p Hp] end.
    assert (x = Some (pid p)) as -> by by eapply pidOf_Some. rewrite Hb by eauto.
    eapply contract_after; [apply reconnecting_invariant|].
    eapply contract_weaken; [apply startSilentReconnect_contract|]. by intros ? ? [-> ->].
Qed.

Lemma networkChanged_contract : contract invariant reconnectToVpn (λ _, invariant).
Proof.
  intros g h (x & a & Hg & Hb & Ha) Hh. destruct (decide (a = NoAction ∧ is_Some x)) as [[-> [n ->]]|Hno].
  - refine (contract_after _ _ _ reconnecting_invariant (reconnectToVpn_contract n) g h _ Hh).
    split; [apply Hb; eauto|done].
  - assert (invariant (protectedNow h) g) by (exists x, a; auto).
    unfold reconnectToVpn. apply (contract_get (λ b g', b = protectedNow h ∧ g' = g)); [|done|done].
    intros ? ? [-> ->]. case_bool_decide as Hp; cbn [negb]; [|apply contract_ret; by intros ? ? [-> ->]].
    assert (pendingAction g ≠ NoAction) as Hne.
    { destruct Hp as [p Hp]. assert (x = Some (pid p)) as -> by by eapply pidOf_Some. destruct Hg as [[]]. intros ?.
      apply Hno. split; [congruence|eauto]. }
    rewrite (bool_decide_false (pendingAction g = NoAction)) by done. cbn [negb]. rewrite orb_true_r.
    apply contract_ret. by intros ? ? [-> ->].
Qed.

Lemma disconnectFromVpn_contract : contract invariant disconnectFromVpn (λ _, invariant).
Proof.
  assert (Hend : ∀ b g, steady None NoAction false g → invariant b g).
  { intros b g Hg. exists None, NoAction. split; [done|].
    split; [intros [[? ?]|?]|intros [?|?]]; discriminate. }
  intros g0 h0 (x & a & Hg0 & _ & _). revert g0 h0 Hg0.
  change (contract (λ _, steady x a false) disconnectFromVpn (λ _, invariant)).
  unfold disconnectFromVpn. apply (contract_bind _ _ _ (λ _ _, steady x a false)).
  { apply (contract_bind _ _ _ (λ _ _, steady x a false)); [apply contract_any; keep_steps|].
    intros []; [|by apply contract_ret].
    apply (contract_bind _ _ _ (λ _ _, steady x a false)); [apply contract_release|]. intros _. by apply contract_ret. }
  intros _. apply (contract_conseq (λ _, steady x a false) _ _ (λ _ _, steady None NoAction false));
    [done|intros ? b g; apply Hend|apply contract_any].
  apply (hoare_bind _ _ _ _ (λ _, steady x NoAction false)); [apply stopPendingNetworkAction_none|intros _].
  do 6 keep_first (steady x NoAction false). apply hoare_get. intros g Hg.
  destruct (protocol g) as [p|] eqn:Hp.
  - apply (hoare_pre _ (steady x NoAction false)); [|by intros ? ->]. do 2 keep_first (steady x NoAction false).
    apply (hoare_bind _ _ _ _ (λ _, steady None NoAction false)); [apply dropProtocol_steady; auto|]. keep_steps.
  - assert (x = None) as -> by (destruct Hg as [[<-] _ _]; unfold pidOf; by rewrite Hp).
    apply (hoare_pre _ (steady None NoAction false)); [keep_steps|by intros ? ->].
Qed.

Lemma protectConnection_contract r config b P :
  size config ≠ 0 →
  contract (λ b' g, b' = b ∧ P g) (protectConnection r config) (λ (ok : bool) b' g, b' = b || ok ∧ P g).
Proof.
  intros Hc. apply (contract_bind _ _ _ (λ _ b' g, b' = b ∧ P g)); [apply contract_quiet; by apply keeps_request|].
  intros []; [by apply contract_protect|]. apply contract_ret. intros b' g [-> HP]. by rewrite orb_false_r.
Qed.

(** The old protocol is stopped and dropped. *)
Lemma dropOldProtocol_contract x g :
  steady x NoAction false g →
  contract (λ b g', b = true ∧ g' = g)
    match protocol g with
    | None => Ret tt
    | Some p =>
        setGlobals (set_protocol (Some (Ref (pid p) false (stateConnected p) (bytesConnected p))));;
        stopProtocol (pid p);; setGlobals (set_protocol None)
    end (λ _, armed (steady None NoAction false)).
Proof.
  intros Hg. apply (contract_quiet true). destruct (protocol g) as [p|] eqn:Hp.
  - apply (hoare_bind _ _ _ _ (λ _, steady x NoAction false)).
    { apply hoare_set. intros ? ->. destruct Hg as [[] ? ?]. framed_parts. subst. unfold pidOf. by rewrite Hp. }
    intros _. keep_first (steady x NoAction false). apply dropProtocol_steady. auto.
  - assert (x = None) as -> by (destruct Hg as [[<-] _ _]; unfold pidOf; by rewrite Hp).
    apply hoare_ret. by intros ? ->.
Qed.

Lemma connectToVpn_contract newServer newContainer newConfig :
  contract invariant (connectToVpn newServer newContainer newConfig) (λ _, invariant).
Proof.
  unfold connectToVpn. apply contract_get. intros b g (x & a & Hg & Hb & Ha).
  set (P := λ a (b' : bool) (g : vpnConnection), b' = b ∧ steady x a false g).
  apply (contract_conseq (P a) _ _ (λ _, invariant)); [intros ? ? [-> ->]; done|done|].
  assert (HP : ∀ b' g', P a b' g' → invariant b' g') by (intros b' g' [-> Hg']; exists x, a; auto).
  assert (HPn : ∀ b' g', P NoAction b' g' → invariant b' g') by (intros b' g' [-> Hg']; exists x, NoAction; naive_solver).
  assert (Hstay : ∀ p : program unit, (∀ x a, keeps (steady x a false) p) →
    contract (P a) p (λ _, P a) ∧ contract (P NoAction) p (λ _, P NoAction)).
  { intros p Hp. split; apply contract_quiet, Hp. }
  destruct (settingsRepo g) as [settings|] eqn:Hset; [|apply (contract_after _ (P a)); [done|apply contract_quiet; keep_steps]].
  destruct (serversRepo g) as [servers|]; [|apply (contract_after _ (P a)); [done|apply contract_quiet; keep_steps]].
  do 7 (apply (contract_bind _ _ _ (λ _, P a)); [apply contract_quiet; keep_steps|intros _]).
  apply (contract_bind _ _ _ (λ _, P a)); [apply contract_quiet; by apply keeps_request|intros address].
  apply (contract_bind _ _ _ (λ _, P a)); [apply contract_quiet; keep_steps|intros _].
  apply (contract_bind _ _ _ (λ _, P NoAction)); [apply contract_quiet, stopPendingNetworkAction_none|intros _].
  do 2 (apply (contract_bind _ _ _ (λ _, P NoAction)); [apply contract_quiet; unfold connectServiceSignals; keep_steps|intros _]).
  destruct (appendSplitTunnelingConfig_defined settings newContainer (appendKillSwitchConfig settings newConfig))
    as [config ->]; [by eapply settings_defined|].
  apply (contract_bind _ _ _ (λ _, P NoAction)); [apply contract_quiet; keep_steps|intros _].
  apply (contract_bind _ _ _ (λ (ok : bool) b' g, b' = b || ok ∧ steady x NoAction false g)).
  { apply protectConnection_contract. rewrite map_size_insert. destruct (_ !! _) eqn:E; [|done].
    apply map_size_non_empty_iff. intros ->. by rewrite lookup_empty in E. }
  intros []; cbn [negb].
  - rewrite orb_true_r. apply contract_get. intros ? g1 [-> Hg1].
    apply (contract_bind _ _ _ (λ _, armed (steady None NoAction false))); [by apply (dropOldProtocol_contract x)|intros _].
    apply (contract_bind _ _ _
      (λ deferred : bool, armed (steady None (if deferred then StartConnection else NoAction) false))).
    { by apply (contract_quiet true), deferUntilPhysicalNetworkReady_pending. }
    intros []; cbn [negb when].
    + apply contract_ret. intros ? g2 [-> Hg2]. exists None, StartConnection. naive_solver.
    + eapply contract_after; [apply started_invariant|]. apply startConfiguredConnection_contract.
  - rewrite orb_false_r. apply (contract_after _ (P NoAction)); [done|]. apply contract_quiet. keep_steps.
Qed.

(** Events that the application can cause: settings it can use, and no blank
    diagnostic. *)
Definition admissible (e : vpnEvent S) : Prop :=
  match e with
  | SettingsChanged r => rulesDefined r
  | SetRepositories _ (Some r) => rulesDefined r
  | Diagnostic health => health ≠ Health.Idle
  | _ => True
  end.

Lemma settings_update_invariant (f : option (appSettings S) → option (appSettings S)) :
  (∀ o r, f o = Some r → (∀ r, o = Some r → rulesDefined r) → rulesDefined r) →
  contract invariant (setGlobals (I := vpnIO) (λ g, set_settingsRepo (f (settingsRepo g)) g)) (λ _, invariant).
Proof. intros Hf. apply contract_invariant. intros x a. framed_update. Qed.

Lemma onTimer_contract t :
  contract (λ b g, invariant b g ∧ timers g t = true) (onTimer t) (λ _, invariant).
Proof.
  destruct t; cbn [onTimer].
  - apply (contract_weaken invariant); [|by intros b g []]. apply contract_invariant. intros x a.
    apply keeps_bind; [keep_steps|intros _]. apply keeps_onConnectingTimedOut.
  - apply (contract_weaken invariant); [|by intros b g []]. apply contract_invariant. intros x a. keep_steps.
  - apply (contract_bind _ _ _ (λ _ b g, ∃ x, steady x NoAction false g ∧ (is_Some x → b = true))).
    + intros g h [(x & a & Hg & Hb & Ha) Ht] Hh. destruct Hg as [[] ? ?].
      assert (a = NoAction) as -> by auto. exists tt. split; [done|]. split; [|done].
      exists x. split; [framed_parts|auto].
    + intros _. apply onRecoveryTimeout_contract.
  - apply (contract_weaken invariant); [|by intros b g []]. apply resumePendingNetworkAction_contract.
  - apply (contract_bind _ _ _ (λ _, invariant)).
    { apply (contract_weaken invariant); [|by intros b g []]. apply contract_invariant. intros x a. keep_steps. }
    intros _. apply contract_get. intros b g (x & a & Hg & Hb & Ha). case_bool_decide as Hpending; cbn [negb].
    + apply (contract_conseq (λ b' g', b' = b ∧ steady x a false g') _ _ (λ _ b' g', b' = b ∧ steady x NoAction false g'));
        [by intros ? ? [-> ->]|intros ? ? g' [-> Hg']; exists x, NoAction; naive_solver|].
      apply contract_quiet. apply (hoare_bind _ _ _ _ (λ _, steady x NoAction false)).
      { apply stopPendingNetworkAction_none. }
      intros _. apply keeps_onConnectingTimedOut.
    + apply contract_ret. intros ? ? [-> ->]. exists x, a. auto.
Qed.

#[local] Hint Resolve keeps_onKillSwitchModeChanged keeps_refreshSiteSplitTunnelRoutes : vpn.

Lemma routesTimer_contract id mode :
  contract (λ b g, invariant b g ∧ isCurrent g id = true) (handle (RoutesTimerFires id mode)) (λ _, invariant).
Proof.
  intros g h [(x & a & Hg & Hb & Ha) Hid] Hh. unfold isCurrent in Hid.
  destruct (protocol g) as [p|] eqn:Hp; [|done]. assert (x = Some (pid p)) as -> by by eapply pidOf_Some.
  set (P := λ (b : bool) (g' : vpnConnection), b = protectedNow h ∧ steady (Some (pid p)) a false g').
  refine (contract_conseq P P _ (λ _, P) (λ _, invariant) _ _ _ g h _ Hh).
  - done.
  - intros _ b g' [-> Hg']. exists (Some (pid p)), a. auto.
  - apply contract_quiet. cbn [handle]. keep_steps.
  - done.
Qed.

Lemma handle_contract e :
  admissible e → contract (λ b g, invariant b g ∧ enabled g e = true) (handle e) (λ _, invariant).
Proof.
  intros He.
  unfold enabled. destruct e; try solve [apply onTimer_contract | apply routesTimer_contract];
    try ((apply (contract_weaken invariant); [|by intros b g []]); cbn [handle]);
    try (apply contract_invariant; intros x a; solve [unfold disconnectSlots; keep_steps]).
  - apply connectToVpn_contract.
  - apply disconnectFromVpn_contract.
  - apply contract_invariant. intros x a. by apply keeps_setConnectionHealth.
  - apply (settings_update_invariant (fmap (λ _, settings))). intros [] r Hr _; by simplify_eq/=.
  - apply (contract_bind _ _ _ (λ _, invariant)).
    { apply contract_invariant. intros x a. framed_update. }
    intros _. apply (settings_update_invariant (λ _, settings)). intros _ r -> _. exact He.
  - apply networkChanged_contract.
  - unfold onPhysicalNetworkReadyChanged, when. destruct ready; [apply resumePendingNetworkAction_contract|].
    by apply contract_ret.
  - apply resumePendingNetworkAction_contract.
Qed.

(** ** Properties *)

Lemma runEvents_invariant o es g h :
  Forall admissible es → invariant (protectedNow h) g → startsProtected h →
  ∃ g' h', runEvents o es g h = Some (g', h') ∧ invariant (protectedNow h') g' ∧ startsProtected h'.
Proof.
  intros Hes. revert g h. induction Hes as [|e es He _ IH]; intros g h Hg Hh; cbn [runEvents]; [by eauto|].
  destruct (enabled g e) eqn:Hen; [|by apply IH].
  pose proof (wp_run o _ _ _ _ (handle_contract e He g h (conj Hg Hen) Hh)) as (v & Hv & Hg' & Hh').
  cbv zeta. rewrite Hv. by apply IH.
Qed.

Definition usable (settings : option (appSettings S)) : Prop := ∀ r, settings = Some r → rulesDefined r.

Lemma newConnection_invariant servers settings :
  usable settings → invariant (protectedNow []) (newConnection servers settings).
Proof.
  intros Hs. exists None, NoAction. split; [|split; [intros [[? ?]|?]|intros [?|?]]; discriminate].
  split; [split|cbn; auto|done]; cbn; try done; unfold kWindowSize, kMaxConnectedRecoveryAttempts; lia.
Qed.

Lemma runEvents_new o es servers settings :
  usable settings → Forall admissible es →
  ∃ g h, runEvents o es (newConnection servers settings) [] = Some (g, h) ∧
    invariant (protectedNow h) g ∧ startsProtected h.
Proof.
  intros Hs Hes. apply runEvents_invariant; [done|by apply newConnection_invariant|apply startsProtected_nil].
Qed.



(** The status line is never blank while connecting or after an error, an error is
    always shown with a health that names a problem, and a disconnected state shows
    either nothing or a problem. *)
Lemma status_is_shown o es servers settings g h :
  usable settings → Forall admissible es →
  runEvents o es (newConnection servers settings) [] = Some (g, h) →
  (connectionState g ≠ Vpn.Reconnecting → connectionStatusText (connectionState g) (connectionHealth g) ≠ "") ∧
  (connectionState g = Vpn.Error → connectionHealthProblem (connectionHealth g) = true) ∧
  (connectionState g = Vpn.Disconnected →
     connectionHealth g = Health.Idle ∨ connectionHealthProblem (connectionHealth g) = true).
Proof.
  intros Hs Hes Hrun.
  destruct (runEvents_new o es servers settings Hs Hes) as (g' & h' & Hrun' & (x & a & Hg & _) & _).
  rewrite Hrun in Hrun'. simplify_eq. destruct Hg as [_ Hfit _]. split_and!.
  - intros Hre Hempty%connectionStatusText_empty. destruct Hempty as [Hidle Hst].
    rewrite Hidle in Hfit. destruct Hst as [Hst|[Hst|Hst]]; rewrite Hst in *; done.
  - intros Hst. by rewrite Hst in Hfit.
  - intros Hst. by rewrite Hst in Hfit.
Qed.

End safety.

(** ** Concrete runs *)

#[local] Existing Instance sampleStore.
#[local] Existing Instance quadText.

Definition sampleServers : serversRepository :=
  Servers "home" (λ _, Native) (λ _, None) (λ _, None) (λ _, Some Docker.Xray) (λ _, None).

(** A service that confirms everything; the network is ready, except for the second
    question about it.  A protocol that is stopped announces it. *)
Definition sampleOracle : oracle vpnIO := λ h c,
  match c return vpnAns c with
  | ServiceAvailable | SetConnectionProtection _ _ | FlushDns | AddKillSwitchAllowedRange _
  | RefreshKillSwitch _ => true
  | PhysicalNetworkReady =>
      Some (negb (Nat.eqb (length (List.filter (λ e : event vpnIO,
        match evCall e with PhysicalNetworkReady => true | _ => false end) h)) 1))
  | RouteAddList _ ips => Some (Z.of_nat (length ips))
  | ProtocolStart _ => ([], ErrorCode.NoError)
  | ProtocolStop _ => [StateChanged Vpn.Disconnected]
  | ProtocolRequestStatus _ => ([], false)
  | ProtocolLastError _ => ErrorCode.NoError
  | VpnGateway _ | RouteGateway _ | ResolveAddress _ => "10.8.0.1"
  | CurrentMSecs => 0%Z
  | _ => tt
  end.

Lemma sampleRepository_usable : usable (Some sampleRepository).
Proof.
  intros r [= <-]. split_and!; [|by eexists; by_compute..].
  intros mode k Hk. destruct mode.
  - assert (vpnSites sampleRepository VpnAllSites = ∅) as Hv by by_compute.
    rewrite Hv in Hk. by apply lookup_empty_is_Some in Hk.
  - assert (vpnSites sampleRepository VpnOnlyForwardSites = ∅) as Hv by by_compute.
    rewrite Hv in Hk. by apply lookup_empty_is_Some in Hk.
  - assert (vpnSites sampleRepository VpnAllExceptSites = <["a.com" := VString "1.1.1.1"]> ∅) as Hv by by_compute.
    rewrite Hv in Hk. apply lookup_insert_is_Some in Hk as [<-|[_ Hk]]; [by eexists; by_compute|].
    by apply lookup_empty_is_Some in Hk.
Qed.

(** A connection whose protocol fails, and a second attempt while the network is
    down. *)
Definition sampleEvents : list (vpnEvent (secureQSettings unit)) :=
  [Connect "home" Docker.Xray ∅; Signal 0 (StateChanged Vpn.Connected);
   Signal 0 (ProtocolError ErrorCode.XrayExecutableCrashed); Connect "home" Docker.Xray ∅; PostedResume].

Lemma sampleEvents_admissible : Forall admissible sampleEvents.
Proof. by repeat constructor. Qed.

Definition sampleResult : option (vpnConnection (secureQSettings unit) * trace vpnIO) :=
  runEvents sampleOracle sampleEvents (newConnection (Some sampleServers) (Some sampleRepository)) [].



Lemma status_is_shown_example :
  match sampleResult with
  | Some (g, h) => connectionStatusText (connectionState g) (connectionHealth g) ≠ ""
  | None => False
  end.
Proof.
  unfold sampleResult. destruct (runEvents _ _ _ _) as [[g h]|] eqn:Hrun; [|exfalso; vm_compute in Hrun; discriminate].
  destruct (status_is_shown sampleOracle sampleEvents (Some sampleServers) (Some sampleRepository) g h)
    as [Hshown _]; [apply sampleRepository_usable|apply sampleEvents_admissible|exact Hrun|].
  apply Hshown. vm_compute in Hrun. injection Hrun as <- <-. discriminate.
Defined.

(** The second attempt of the sample run is lost: stopping the failed protocol
    announces a disconnection, which the connection takes for its own state, so the
    attempt that waited for the network is dropped when the network is back.  No
    protocol runs, nothing waits, and the kill switch stays armed. *)
Lemma second_attempt_lost :
  match sampleResult with
  | Some (g, h) =>
      connectionState g = Vpn.Disconnected ∧ protocol g = None ∧ pendingAction g = NoAction ∧ protectedNow h = true
  | None => False
  end.
Proof. vm_compute. repeat split. Qed.
