(* ===== verification/Ifw.v ===== *)
(** * The scripting interface of the Qt Installer Framework

    The installer scripts ([deploy/installer/qif]) are JavaScript run by the Qt
    Installer Framework.  Everything they do to the outside goes through the
    objects the framework gives them ([installer], [gui], [component],
    [systemInfo], [QMessageBox], ...).  The framework is not part of the
    repository: a call on it is a request, and the framework, the user and the
    operating system are the oracle of [Effects]. *)

From Stdlib Require Import Ascii.
From S2P Require Import Prelude QtCore Effects.
From stdpp Require Import options.

(** ** JavaScript values *)

(** White space of [String.prototype.trim] on Latin-1. *)
Definition jsSpace (c : ascii) : bool :=
  let n := code c in ((9 <=? n) && (n <=? 13) || (n =? 32) || (n =? 160))%N.

Fixpoint jsTrimLeft (s : string) : string :=
  match s with
  | EmptyString => ""
  | String c t => if jsSpace c then jsTrimLeft t else s
  end.

Fixpoint jsTrimRight (s : string) : string :=
  match s with
  | EmptyString => ""
  | String c t =>
      match jsTrimRight t with
      | EmptyString => if jsSpace c then "" else String c ""
      | t => String c t
      end
  end.

Definition jsTrim (s : string) : string := jsTrimRight (jsTrimLeft s).

(** [Number(s)] for the decimal integers that the scripts read from the output
    of a program; [None] is [NaN].  An empty string is zero. *)
Definition Number (s : string) : option Z :=
  match jsTrim s with
  | EmptyString => Some 0%Z
  | String c EmptyString => digitsValue 0 (String c "")
  | String c t =>
      if eqChar c "-" then Z.opp <$> digitsValue 0 t
      else if eqChar c "+" then digitsValue 0 t
      else digitsValue 0 (String c t)
  end.

(** [s.split(/\n+/)[0]]: what comes before the first newline. *)
Fixpoint firstLine (s : string) : string :=
  match s with
  | EmptyString => ""
  | String c t => if (code c =? 10)%N then "" else String c (firstLine t)
  end.

(** A double quote and a line feed. *)
Definition dquote : string := String (ascii_of_N 34) "".
Definition lf : string := String (ascii_of_N 10) "".

(** ** Requests *)

(** The enumerators of [QInstaller] that the scripts name as pages. *)
Inductive page :=
  | IntroductionPage | TargetDirectory | ComponentSelection | LicenseCheck
  | StartMenuSelection | StartMenuDirectoryPage | ReadyForInstallation
  | PerformInstallation | FinishedPage.

Inductive guiButton := NextButton | FinishButton | CancelButton | CommitButton.

(** Buttons of a [QMessageBox]. *)
Inductive boxButton := Ok | Cancel | Retry | Abort | Yes | No | OtherButton.

Inductive boxKind := Information | Warning.

(** [installer.status]: the scripts only ask whether it is [QInstaller.Success]. *)
Inductive installerStatus := Success | NotSuccess.

(** An argument of [component.addOperation]: a string or an array of strings. *)
Inductive operationArg := Str (s : string) | Arr (l : list string).

(** What [installer.execute] returns: an array of the output and the exit code,
    or an empty array when the program could not be started. *)
Definition execResult : Type := option (string * Z).

Inductive ifwCall :=
  (* installer *)
  | Value (key : string)
  | SetValue (key v : string)
  | FileExists (path : option string)
  | FindPath (name : string) (paths : list string)
  | Execute (program : option string) (args : list string)
  | ExecuteDetached (program : string) (args : list string) (workingDirectory : string)
  | IsInstaller | IsUpdater | IsUninstaller
  | Status
  | SetDefaultPageVisible (p : page) (visible : bool)
  | SetCancelled
  | AutoAcceptMessageBoxes
  | SetMessageBoxAutomaticAnswer (identifier : string) (answer : boxButton)
  | GainAdminRights | DropAdminRights
  | Connect (signal handler : string)
  | Disconnect (signal handler : string)
  (* component *)
  | CreateOperations
  | AddOperation (elevated : bool) (name : string) (args : list operationArg)
  (* gui and its pages *)
  | ClickButton (b : guiButton)
  | PageById (p : page)
  | CurrentPageWidget
  | LineEditText
  | LineEditSetText (s : string)
  | HideChild (name : string)
  (* the rest *)
  | MessageBox (kind : boxKind) (identifier title text : string) (buttons : list boxButton)
  | SystemInfo (field : string)
  | DesktopLocation
  | QsTr (s : string)
  | Now
  | ConsoleLog (s : string).

(** The type of the answer.  A page object is answered by whether it is there. *)
Definition ifwAns (c : ifwCall) : Type :=
  match c with
  | Value _ | FindPath _ _ | LineEditText | SystemInfo _ | DesktopLocation | QsTr _ => string
  | FileExists _ | IsInstaller | IsUpdater | IsUninstaller | GainAdminRights
  | PageById _ | CurrentPageWidget => bool
  | Execute _ _ => execResult
  | Status => installerStatus
  | MessageBox _ _ _ _ _ => boxButton
  | Now => Z
  | _ => unit
  end.

Canonical Structure ifw : interface := Interface ifwCall ifwAns.
