(* ===== verification/ControlScript.v ===== *)
(** * The installer's control script ([deploy/installer/qif/controlscript.js])

    The script drives the pages of the installer, makes sure that the application
    is not running, and removes an existing installation before a new one.  Its
    global variables are the record [globals]; each function is a [prog] over
    them.  The two loops without a bound of their own, the busy wait of [sleep]
    and the recursion of [isDesktopAppProcessRunningMessageLoop], take fuel. *)

From Stdlib Require Import Ascii.
From S2P Require Import Prelude QtCore Effects Ifw.
From stdpp Require Import options.

Open Scope script_scope.

Record globals := Globals {
  requestToQuitFromApp : bool;
  updaterCompleted : Z;
  desktopAppProcessRunning : bool;
  appInstalledUninstallerPath : option string;      (* [None] is [undefined] *)
  appInstalledUninstallerPath_x86 : option string;
}.

Definition initialGlobals : globals := Globals false 0 false None None.

Notation script := (prog ifw globals).

Definition setRequestToQuit (b : bool) (g : globals) : globals :=
  Globals b (updaterCompleted g) (desktopAppProcessRunning g)
    (appInstalledUninstallerPath g) (appInstalledUninstallerPath_x86 g).

Definition setUpdaterCompleted (n : Z) (g : globals) : globals :=
  Globals (requestToQuitFromApp g) n (desktopAppProcessRunning g)
    (appInstalledUninstallerPath g) (appInstalledUninstallerPath_x86 g).

Definition setProcessRunning (b : bool) (g : globals) : globals :=
  Globals (requestToQuitFromApp g) (updaterCompleted g) b
    (appInstalledUninstallerPath g) (appInstalledUninstallerPath_x86 g).

Definition setUninstallerPath (p : string) (g : globals) : globals :=
  Globals (requestToQuitFromApp g) (updaterCompleted g) (desktopAppProcessRunning g)
    (Some p) (appInstalledUninstallerPath_x86 g).

Definition setUninstallerPath_x86 (p : string) (g : globals) : globals :=
  Globals (requestToQuitFromApp g) (updaterCompleted g) (desktopAppProcessRunning g)
    (appInstalledUninstallerPath g) (Some p).

(** ** Queries *)

Definition appName : script string := request (Value "Name").

Definition runningOnWindows : script bool :=
  os ← request (Value "os"); Ret (bool_decide (os = "win")).

Definition runningOnMacOS : script bool :=
  os ← request (Value "os"); Ret (bool_decide (os = "mac")).

Definition runningOnLinux : script bool :=
  os ← request (Value "os");
  if bool_decide (os = "linux") then Ret true
  else os ← request (Value "os"); Ret (bool_decide (os = "x11")).

Definition appExecutableFileName : script string :=
  win ← runningOnWindows;
  if win then name ← appName; Ret (name +:+ ".exe") else appName.

Definition appInstalled : script bool :=
  win ← runningOnWindows;
  (if win then
     root ← request (Value "RootDir");
     setGlobals (setUninstallerPath (root +:+ "Program Files/AmneziaVPN/maintenancetool.exe")) ;;
     root ← request (Value "RootDir");
     setGlobals (setUninstallerPath_x86 (root +:+ "Program Files (x86)/AmneziaVPN/maintenancetool.exe"))
   else
     mac ← runningOnMacOS;
     if mac then
       name ← appName;
       setGlobals (setUninstallerPath
         ("/Applications/" +:+ name +:+ ".app/maintenancetool.app/Contents/MacOS/maintenancetool"))
     else
       linux ← runningOnLinux;
       if linux then
         name ← appName;
         setGlobals (setUninstallerPath ("/opt/" +:+ name +:+ "/maintenancetool"))
       else Ret tt) ;;
  g ← getGlobals;
  found ← request (FileExists (appInstalledUninstallerPath g));
  if (found : bool) then Ret true
  else request (FileExists (appInstalledUninstallerPath_x86 g)).

(** [str.indexOf(suffix, str.length - suffix.length) !== -1]; a negative start
    counts as zero. *)
Definition endsWith (str suffix : string) : bool :=
  bool_decide (is_Some (indexOf str suffix
    (Z.to_nat (Z.of_nat (String.length str) - Z.of_nat (String.length suffix))))).

(** The busy wait: [while (currentTime + milliseconds >= now) {}]. *)
Fixpoint sleepUntil (fuel : nat) (limit : Z) : script unit :=
  match fuel with
  | 0 => OutOfFuel
  | S fuel =>
      now ← request Now;
      if (now <=? limit)%Z then sleepUntil fuel limit else Ret tt
  end.

Definition sleep (fuel : nat) (milliseconds : Z) : script unit :=
  currentTime ← request Now;
  sleepUntil fuel (currentTime + milliseconds)%Z.

Definition raiseInstallerWindow : script unit :=
  mac ← runningOnMacOS;
  if negb mac then Ret tt
  else
    name ← appName;
    result ← request (Execute (Some "/bin/bash")
      ["-c"; "ps -A | grep -m1 '" +:+ name +:+ "' | awk '{print $1}'"]);
    match (result : execResult) with
    | Some (out, _) =>
        match Number out with
        | Some pid =>
            if (0 <? pid)%Z then
              let arg :=
                "tell application " +:+ dquote +:+ "System Events" +:+ dquote +:+ " " +:+
                lf +:+ "      set frontmost of the first process whose unix id is " +:+
                pretty pid +:+ " to true " +:+ lf +:+ "      end tell" +:+ lf +:+ "       " in
              request (Execute (Some "osascript") ["-e"; arg]) ;; Ret tt
            else Ret tt
        | None => Ret tt
        end
    | None => Ret tt
    end.

(** Reading [result[0].trim()] of an empty array throws. *)
Definition checkProcessIsRunning (arg : string) : script bool :=
  result ← request (Execute (Some "/bin/bash") ["-c"; arg]);
  match (result : execResult) with
  | None => Throw
  | Some (out, _) =>
      match Number (firstLine (jsTrim out)) with
      | Some resultArg1 => Ret (2 <=? resultArg1)%Z
      | None => Ret false
      end
  end.

Definition appProcessIsRunning : script bool :=
  win ← runningOnWindows;
  if win then
    result ← request (Execute (Some "tasklist") []);
    match (result : execResult) with
    | Some (out, exitCode) =>
        if (exitCode =? 0)%Z then
          exe ← appExecutableFileName; Ret (contains out exe)
        else Ret false
    | None => Ret false
    end
  else
    name ← appName;
    checkProcessIsRunning ("pgrep -x '" +:+ name +:+ "'").

(** ** Leaving the installer *)

Definition requestToQuit : script unit :=
  setGlobals (setRequestToQuit true) ;;
  request (SetDefaultPageVisible IntroductionPage false) ;;
  request (SetDefaultPageVisible TargetDirectory false) ;;
  request (SetDefaultPageVisible ComponentSelection false) ;;
  request (SetDefaultPageVisible LicenseCheck false) ;;
  request (SetDefaultPageVisible StartMenuSelection false) ;;
  request (SetDefaultPageVisible ReadyForInstallation false) ;;
  request (SetDefaultPageVisible PerformInstallation false) ;;
  request (SetDefaultPageVisible FinishedPage false) ;;
  request (ClickButton NextButton) ;;
  request (ClickButton FinishButton) ;;
  request (ClickButton CancelButton) ;;
  win ← runningOnWindows;
  if win then request SetCancelled else Ret tt.

(** ** Page callbacks *)

Definition PerformInstallationPageCallback : script unit := request (ClickButton NextButton).

Definition LicenseAgreementPageCallback : script unit := request (ClickButton NextButton).

Definition FinishedPageCallback : script unit :=
  g ← getGlobals;
  if desktopAppProcessRunning g then request (ClickButton FinishButton)
  else
    updater ← request IsUpdater;
    if (updater : bool) then
      request AutoAcceptMessageBoxes ;; request (ClickButton FinishButton)
    else Ret tt.

Definition RestartPageCallback : script unit :=
  setGlobals (setUpdaterCompleted 1) ;; request (ClickButton FinishButton).

Definition StartMenuDirectoryPageCallback : script unit := request (ClickButton NextButton).

Definition ComponentSelectionPageCallback : script unit := request (ClickButton NextButton).

Definition ReadyForInstallationPageCallback : script unit :=
  updater ← request IsUpdater;
  if (updater : bool) then request (ClickButton CommitButton) else Ret tt.

Definition TargetDirectoryPageCallback : script unit :=
  widget ← request (PageById TargetDirectory);
  if (widget : bool) then
    request (Disconnect "BrowseDirectoryButton.clicked" "onBrowseButtonClicked") ;;
    request (Connect "BrowseDirectoryButton.clicked" "onBrowseButtonClicked") ;;
    request (ClickButton NextButton)
  else Ret tt.

Definition IntroductionPageCallback : script unit :=
  widget ← request CurrentPageWidget;
  updater ← request IsUpdater;
  g ← getGlobals;
  if (updater : bool) && (updaterCompleted g =? 1)%Z then
    request (ClickButton FinishButton) ;; request (ClickButton CancelButton)
  else
    uninstaller ← request IsUninstaller;
    (if (uninstaller : bool) then
       if (widget : bool) then
         request (HideChild "PackageManagerRadioButton") ;;
         request (HideChild "UpdaterRadioButton")
       else Ret tt
     else Ret tt) ;;
    updater ← request IsUpdater;
    if (updater : bool) then request (ClickButton NextButton) else Ret tt.

Definition onBrowseButtonClicked : script unit :=
  widget ← request (PageById TargetDirectory);
  if (widget : bool) then
    win ← runningOnWindows;
    if win then
      text ← request LineEditText;
      name ← appName;
      targetDir ← (if negb (endsWith text name)
                   then name ← appName; Ret (text +:+ "\" +:+ name)
                   else Ret text);
      request (SetValue "TargetDir" targetDir) ;;
      dir ← request (Value "TargetDir");
      request (LineEditSetText dir)
    else Ret tt
  else Ret tt.

Definition onNextButtonClicked : script unit :=
  widget ← request (PageById TargetDirectory);
  if (widget : bool) then
    text ← request LineEditText;
    request (SetValue "APP_BUNDLE_TARGET_DIR" text)
  else Ret tt.

(** ** Waiting for the application to exit *)

(** The loop of at most [n] checks an updater makes. *)
Fixpoint pollProcess (n : nat) : script unit :=
  match n with
  | 0 => Ret tt
  | S n =>
      running ← appProcessIsRunning;
      setGlobals (setProcessRunning running) ;;
      if running then pollProcess n else Ret tt
  end.

Fixpoint isDesktopAppProcessRunningMessageLoop (fuel : nat) : script unit :=
  match fuel with
  | 0 => OutOfFuel
  | S fuel =>
      g ← getGlobals;
      if requestToQuitFromApp g then Ret tt
      else
        updater ← request IsUpdater;
        (if (updater : bool) then pollProcess 400 else Ret tt) ;;
        running ← appProcessIsRunning;
        setGlobals (setProcessRunning running) ;;
        if running then
          name ← appName;
          name' ← appName;
          answer ← request (MessageBox Warning "QMessageBox" (name +:+ " installer")
            (name' +:+ " is active. Close the app and press " +:+ dquote +:+ "Retry" +:+ dquote +:+
             " button to continue installation. Press " +:+ dquote +:+ "Abort" +:+ dquote +:+
             " button to abort the installer and exit.") [Retry; Abort]);
          match (answer : boxButton) with
          | Retry => isDesktopAppProcessRunningMessageLoop fuel
          | _ => setGlobals (setRequestToQuit true)
          end
        else Ret tt
  end.

(** The loop of at most [n] waits for the uninstaller to remove itself. *)
Fixpoint awaitRemoval (fuel n : nat) : script unit :=
  match n with
  | 0 => Ret tt
  | S n =>
      sleep fuel 100 ;;
      g ← getGlobals;
      there ← request (FileExists (appInstalledUninstallerPath g));
      if (there : bool) then awaitRemoval fuel n else Ret tt
  end.

(** ** The controller *)

(** Line 265 to 273: start an uninstaller that exists; the array keeps its value
    otherwise. *)
Definition startUninstaller (path : option string) (resultArray : execResult) : script execResult :=
  there ← request (FileExists path);
  if (there : bool) then
    request (ConsoleLog ("Starting uninstallation " +:+ default "undefined" path)) ;;
    request (Execute path [])
  else Ret resultArray.

(** [Number(resultArray[1]) === 0]; of an empty array it is [NaN]. *)
Definition exitedZero (resultArray : execResult) : bool :=
  match resultArray with Some (_, c) => (c =? 0)%Z | None => false end.

(** Line 275 to 288: cancel unless the exit code is zero, else wait.  The result
    is whether the constructor goes on. *)
Definition finishUninstall (fuel : nat) (resultArray : execResult) : script bool :=
  request (ConsoleLog ("Uninstaller finished with code: " +:+
    match resultArray with Some (_, c) => pretty c | None => "undefined" end)) ;;
  if exitedZero resultArray
  then awaitRemoval fuel 300 ;; Ret true
  else
    request (ConsoleLog "Uninstallation aborted by user") ;;
    request SetCancelled ;; Ret false.

(** Line 263 to 288: both uninstallers; the second result replaces the first. *)
Definition removeOldInstallation (fuel : nat) : script bool :=
  g ← getGlobals;
  resultArray ← startUninstaller (appInstalledUninstallerPath_x86 g) None;
  resultArray ← startUninstaller (appInstalledUninstallerPath g) resultArray;
  finishUninstall fuel resultArray.

(** Line 256 to 297: ask, remove, raise the window. *)
Definition replaceOldInstallation (fuel : nat) : script unit :=
  name ← appName;
  text1 ← request (QsTr "The application is already installed.");
  text2 ← request (QsTr "We need to remove the old installation first. Do you wish to proceed?");
  answer ← request (MessageBox Information "os.information" name (text1 +:+ " " +:+ text2) [Ok; Cancel]);
  match (answer : boxButton) with
  | Ok =>
      installed ← appInstalled;
      goOn ← (if (installed : bool) then removeOldInstallation fuel else Ret true);
      if (goOn : bool) then raiseInstallerWindow else Ret tt
  | _ =>
      request (ConsoleLog "Request to quit from user") ;;
      request SetCancelled
  end.

Definition jsBool (b : bool) : string := if b then "true" else "false".

Definition Controller (sleepFuel loopFuel : nat) : script unit :=
  product ← request (SystemInfo "prettyProductName");
  cpu ← request (SystemInfo "currentCpuArchitecture");
  request (ConsoleLog (replace (replace "OS: %1, architecture: %2" "%1" product) "%2" cpu)) ;;
  installer ← request IsInstaller;
  updater ← (if (installer : bool) then Ret true else request IsUpdater);
  (if (updater : bool) then
     installed ← appInstalled;
     request (ConsoleLog ("Check if app already installed: " +:+ jsBool installed))
   else Ret tt) ;;
  win ← runningOnWindows;
  (if win then request (SetValue "AllUsers" "true") else Ret tt) ;;
  installer ← request IsInstaller;
  if (installer : bool) then
    request (SetDefaultPageVisible ComponentSelection false) ;;
    request (SetDefaultPageVisible TargetDirectory false) ;;
    request (SetDefaultPageVisible StartMenuDirectoryPage false) ;;
    request (SetDefaultPageVisible LicenseCheck false) ;;
    isDesktopAppProcessRunningMessageLoop loopFuel ;;
    g ← getGlobals;
    if requestToQuitFromApp g then requestToQuit
    else
      mac ← runningOnMacOS;
      (if mac then request (SetMessageBoxAutomaticAnswer "OverwriteTargetDirectory" Yes) else Ret tt) ;;
      installed ← appInstalled;
      if (installed : bool) then replaceOldInstallation sleepFuel else Ret tt
  else
    uninstaller ← request IsUninstaller;
    if (uninstaller : bool) then
      isDesktopAppProcessRunningMessageLoop loopFuel ;;
      g ← getGlobals;
      if requestToQuitFromApp g then requestToQuit else Ret tt
    else
      updater ← request IsUpdater;
      if (updater : bool) then
        request (SetMessageBoxAutomaticAnswer "cancelInstallation" No) ;;
        request (Connect "installer.installationFinished" "clickNextButton")
      else Ret tt.

(** ** Suffixes *)

Lemma endsWith_true str suffix : endsWith str suffix = true ↔ ∃ p, str = p +:+ suffix.
Proof.
  unfold endsWith. rewrite bool_decide_eq_true. split.
  - intros [i Hi]. apply indexOf_Some in Hi as (p & t & -> & Hle & _).
    rewrite !slength_app in Hle. destruct t as [|c t]; [|simpl in Hle; lia].
    exists p. by rewrite sapp_nil_r.
  - intros [p ->]. rewrite slength_app.
    replace (Z.to_nat _) with (String.length p) by lia.
    apply (indexOf_at _ _ _ ""). by rewrite sapp_nil_r.
Qed.

(** ** The uninstaller runs only with consent

    The only programs the script starts without arguments are [tasklist] and an
    uninstaller. *)

Definition isUninstall (c : ifwCall) : bool :=
  match c with
  | Execute p [] => negb (bool_decide (p = Some "tasklist"))
  | _ => false
  end.

Definition harmless (c : ifwCall) : bool := negb (isUninstall c).

(** The user pressed Ok when asked whether to remove the old installation. *)
Definition isConsent (e : event ifw) : bool :=
  match e with
  | Ev (MessageBox Information _ _ _ _) Ok => true
  | _ => false
  end.

(** Each start of an uninstaller comes after a consent and after its file was
    seen to exist. *)
Definition consented (h : trace ifw) : Prop :=
  ∀ h1 h2 p args r, h = h1 ++ Ev (Execute p args) r :: h2 →
    isUninstall (Execute p args) = true →
    Exists (λ e, isConsent e = true) h1 ∧ Ev (FileExists p) true ∈ h1.

Lemma harmless_runningOnWindows : only harmless runningOnWindows.
Proof. unfold runningOnWindows. solve_only. Qed.
Lemma harmless_runningOnMacOS : only harmless runningOnMacOS.
Proof. unfold runningOnMacOS. solve_only. Qed.
Lemma harmless_runningOnLinux : only harmless runningOnLinux.
Proof. unfold runningOnLinux. solve_only. Qed.
Lemma harmless_appName : only harmless appName.
Proof. unfold appName. solve_only. Qed.
#[export] Hint Resolve harmless_runningOnWindows harmless_runningOnMacOS
  harmless_runningOnLinux harmless_appName : vpn.

Lemma harmless_appExecutableFileName : only harmless appExecutableFileName.
Proof. unfold appExecutableFileName. solve_only. Qed.
Lemma harmless_appInstalled : only harmless appInstalled.
Proof. unfold appInstalled. solve_only. Qed.
Lemma harmless_checkProcess arg : only harmless (checkProcessIsRunning arg).
Proof. unfold checkProcessIsRunning. solve_only. Qed.
Lemma harmless_raise : only harmless raiseInstallerWindow.
Proof. unfold raiseInstallerWindow. solve_only. Qed.
Lemma harmless_requestToQuit : only harmless requestToQuit.
Proof. unfold requestToQuit. solve_only. Qed.
#[export] Hint Resolve harmless_appExecutableFileName harmless_appInstalled
  harmless_checkProcess harmless_raise harmless_requestToQuit : vpn.

Lemma harmless_appProcessIsRunning : only harmless appProcessIsRunning.
Proof. unfold appProcessIsRunning. solve_only. Qed.
#[export] Hint Resolve harmless_appProcessIsRunning : vpn.

Lemma harmless_pollProcess n : only harmless (pollProcess n).
Proof. induction n as [|n IH]; cbn [pollProcess]; solve_only. Qed.
#[export] Hint Resolve harmless_pollProcess : vpn.

Lemma harmless_messageLoop fuel : only harmless (isDesktopAppProcessRunningMessageLoop fuel).
Proof.
  induction fuel as [|fuel IH]; cbn [isDesktopAppProcessRunningMessageLoop]; solve_only.
Qed.

Lemma harmless_sleepUntil fuel limit : only harmless (sleepUntil fuel limit).
Proof. induction fuel as [|fuel IH]; cbn [sleepUntil]; solve_only. Qed.
#[export] Hint Resolve harmless_messageLoop harmless_sleepUntil : vpn.

Lemma harmless_awaitRemoval fuel n : only harmless (awaitRemoval fuel n).
Proof. induction n as [|n IH]; cbn [awaitRemoval]; unfold sleep; solve_only. Qed.
#[export] Hint Resolve harmless_awaitRemoval : vpn.

Lemma consented_snoc h e :
  consented h →
  (∀ p args r, e = Ev (Execute p args) r → isUninstall (Execute p args) = true →
     Exists (λ e, isConsent e = true) h ∧ Ev (FileExists p) true ∈ h) →
  consented (h ++ [e]).
Proof.
  intros Hh He h1 h2 p args r Heq Hun.
  destruct h2 as [|e' h2 _] using rev_ind.
  - apply app_inj_tail in Heq as [-> ->]. eauto.
  - rewrite app_comm_cons, app_assoc in Heq. apply app_inj_tail in Heq as [-> _]. eauto.
Qed.

Lemma consented_snoc_harmless h e :
  consented h → harmless (evCall e) = true → consented (h ++ [e]).
Proof.
  intros Hh He. apply consented_snoc; [done|]. intros p args r -> Hun.
  unfold harmless in He. cbn [evCall] in He. by rewrite Hun in He.
Qed.

Lemma consented_app h t : consented h → allCalls harmless t → consented (h ++ t).
Proof.
  intros Hh Ht. induction t as [|e t IH] using rev_ind; [by rewrite app_nil_r|].
  rewrite app_assoc. apply Forall_app in Ht as [Ht He].
  apply consented_snoc_harmless; [by apply IH | by inversion He].
Qed.

(** A part that starts no uninstaller keeps the assertion. *)
Lemma consented_only {A} (p : script A) g h :
  only harmless p → consented h → wp anything p (λ _ _ h', consented h') g h.
Proof.
  intros Hp Hh. eapply wp_mono; [|by apply (only_wp _ harmless)].
  intros o g' h' (t & -> & Ht). by apply consented_app.
Qed.

Lemma consented_seq {A B} (p : script A) (f : A → script B) g h :
  only harmless p → consented h →
  (∀ a g' h', consented h' → wp anything (f a) (λ _ _ h, consented h) g' h') →
  wp anything (bind p f) (λ _ _ h, consented h) g h.
Proof.
  intros Hp Hh Hf. eapply wp_seq; [by apply consented_only|].
  intros [a| |] g' h' Hh'; simpl; auto.
Qed.

Ltac consent_steps :=
  repeat (apply consented_seq; [solve [solve_only] | assumption | ]; intros ? ? ? ?).

Lemma consented_startUninstaller path result g h :
  consented h → Exists (λ e, isConsent e = true) h →
  wp anything (startUninstaller path result)
    (λ _ _ h', consented h' ∧ Exists (λ e, isConsent e = true) h') g h.
Proof.
  intros Hh Hc. unfold startUninstaller. cbn [bind wp request]. intros [] _.
  - cbn [bind wp request]. intros u _ r _. split.
    + apply consented_snoc; [by repeat apply consented_snoc_harmless|].
      intros p args r' [= -> -> _] _. split; [by repeat (apply Exists_app; left)|set_solver].
    + by repeat (apply Exists_app; left).
  - split; [by apply consented_snoc_harmless|]. by apply Exists_app; left.
Qed.

Lemma harmless_finishUninstall fuel result : only harmless (finishUninstall fuel result).
Proof. unfold finishUninstall. solve_only. Qed.

Lemma consented_remove fuel g h :
  consented h → Exists (λ e, isConsent e = true) h →
  wp anything (removeOldInstallation fuel) (λ _ _ h, consented h) g h.
Proof.
  intros Hh Hc. unfold removeOldInstallation. cbn [bind getGlobals wp id].
  eapply wp_seq; [by apply consented_startUninstaller|].
  intros [r1| |] g1 h1 [Hh1 Hc1]; [|done..].
  eapply wp_seq; [by apply consented_startUninstaller|].
  intros [r2| |] g2 h2 [Hh2 Hc2]; [|done..].
  by apply consented_only; [apply harmless_finishUninstall|].
Qed.

Lemma consented_replace fuel g h :
  consented h → wp anything (replaceOldInstallation fuel) (λ _ _ h, consented h) g h.
Proof.
  intros Hh. unfold replaceOldInstallation. cbn [bind wp request appName].
  intros name _ t1 _ t2 _ answer _.
  match goal with |- wp _ _ _ _ ?h' => set (h1 := h') end.
  assert (Hh1 : consented h1) by by repeat apply consented_snoc_harmless.
  destruct answer; cbn iota; try (apply consented_only; [solve [solve_only]|done]).
  apply wp_bind. eapply wp_mono; [|by apply (only_wp _ harmless), harmless_appInstalled].
  intros [installed| |] g2 h2 (t & -> & Ht); try by apply consented_app.
  assert (Hh2 : consented (h1 ++ t)) by by apply consented_app.
  assert (Hc : Exists (λ e, isConsent e = true) (h1 ++ t)).
  { subst h1. apply Exists_app; left. apply Exists_app; right. by constructor. }
  cbn [andThen]. eapply wp_seq.
  - destruct installed; [by apply consented_remove|].
    apply (consented_only (A := bool)); [exact I|done].
  - intros [[]| |] g3 h3 Hh3; try done. by apply consented_only; [apply harmless_raise|].
Qed.

(** ** The loops end *)

Lemma completes_appInstalled : completes true appInstalled.
Proof.
  unfold appInstalled, runningOnWindows, runningOnMacOS, runningOnLinux, appName. solve_completes.
Qed.

Lemma completes_appProcessIsRunning : completes true appProcessIsRunning.
Proof.
  unfold appProcessIsRunning, checkProcessIsRunning, appExecutableFileName, runningOnWindows, appName.
  solve_completes.
Qed.

Lemma completes_raise : completes true raiseInstallerWindow.
Proof. unfold raiseInstallerWindow, runningOnMacOS, appName. solve_completes. Qed.

Lemma completes_requestToQuit : completes true requestToQuit.
Proof. unfold requestToQuit, runningOnWindows. solve_completes. Qed.
#[export] Hint Resolve completes_appInstalled completes_appProcessIsRunning completes_raise
  completes_requestToQuit : vpn.

Lemma completes_pollProcess n : completes true (pollProcess n).
Proof. induction n as [|n IH]; cbn [pollProcess]; solve_completes. Qed.
#[export] Hint Resolve completes_pollProcess : vpn.

Lemma completes_startUninstaller path r : completes true (startUninstaller path r).
Proof. unfold startUninstaller. solve_completes. Qed.
#[export] Hint Resolve completes_startUninstaller : vpn.

Definition isBox (e : event ifw) : bool :=
  match e with Ev (MessageBox _ _ _ _ _) _ => true | _ => false end.

Fixpoint boxes (h : trace ifw) : nat :=
  match h with [] => 0 | e :: h => (if isBox e then 1 else 0) + boxes h end.

Lemma boxes_app h t : boxes (h ++ t) = boxes h + boxes t.
Proof. induction h as [|e h IH]; simpl; [done|]. rewrite IH. lia. Qed.

Lemma boxes_prefix h t : h `prefix_of` t → boxes h ≤ boxes t.
Proof. intros [k ->]. rewrite boxes_app. lia. Qed.

(** After [n] message boxes the user no longer presses Retry. *)
Definition patient (n : nat) (o : oracle ifw) : Prop :=
  ∀ h k i t x bs, n ≤ boxes h → o h (MessageBox k i t x bs) ≠ Retry.

(** At most [rate] requests are made within a millisecond of the clock. *)
Definition paced (rate : Z) (o : oracle ifw) : Prop :=
  ∀ h t, (Z.of_nat (length t) ≤ rate * (o (h ++ t) Now - o h Now))%Z.

Definition finished {A} (r : outcome A) (_ : globals) (_ : trace ifw) : Prop := r ≠ Unfinished.

(** Sequencing keeps the history growing. *)
Lemma finished_seq {A B} o (p : script A) (f : A → script B) g h :
  wp (exactly o) p (λ r _ h', r ≠ Unfinished ∧ h `prefix_of` h') g h →
  (∀ a g' h', h `prefix_of` h' → wp (exactly o) (f a) finished g' h') →
  wp (exactly o) (bind p f) finished g h.
Proof.
  intros Hp Hf. eapply wp_seq; [exact Hp|].
  intros [a| |] g' h' [Hr Hpre]; simpl; [auto|done|done].
Qed.

Lemma finished_free {A} o (p : script A) g h : completes true p → wp (exactly o) p finished g h.
Proof. intros Hp. eapply wp_mono; [|by apply (completes_wp _ true)]. by intros r g' h' []. Qed.

Lemma finished_seq_free {A B} o (p : script A) (f : A → script B) g h :
  completes true p →
  (∀ a g' h', h `prefix_of` h' → wp (exactly o) (f a) finished g' h') →
  wp (exactly o) (bind p f) finished g h.
Proof. intros Hp. apply finished_seq. by apply (completes_wp _ true). Qed.

Lemma messageLoop_finished o n fuel g h :
  patient n o → 0 < fuel → n < boxes h + fuel →
  wp (exactly o) (isDesktopAppProcessRunningMessageLoop fuel)
    (λ r _ h', r ≠ Unfinished ∧ h `prefix_of` h') g h.
Proof.
  intros Hpat. revert g h. induction fuel as [|fuel IH]; intros g h Hpos Hn; [lia|].
  cbn [isDesktopAppProcessRunningMessageLoop bind wp getGlobals id].
  destruct (requestToQuitFromApp g); [done|].
  eapply wp_seq; [apply (completes_wp _ true (request IsUpdater)); solve_completes|].
  intros [upd| |] g1 h1 [Hr1 Hp1]; [|done..]. cbn [andThen].
  eapply wp_seq; [apply (completes_wp _ true); solve_completes|].
  intros [[]| |] g2 h2 [Hr2 Hp2]; [|split; [done|by etrans]|done]. cbn [andThen].
  eapply wp_seq; [apply (completes_wp _ true); solve_completes|].
  intros [[]| |] g3 h3 [Hr3 Hp3]; [| |split; [done|by repeat (etrans; [done|])]|done];
    cbn [andThen wp bind setGlobals appName request];
    [|split; [done|by repeat (etrans; [done|])]].
  intros name _ name' _ answer Hans.
  assert (Hp : h `prefix_of` h3) by by repeat (etrans; [done|]).
  pose proof (boxes_prefix _ _ Hp) as Hb.
  assert (Hpa : ∀ t, h `prefix_of` h3 ++ t) by (intros t; by apply prefix_app_r).
  destruct answer; cbn [wp setGlobals]; rewrite <-?app_assoc; auto.
  eapply wp_mono; [|apply IH; rewrite ?boxes_app; simpl].
  - intros r g' h' [Hr Hpre]. split; [done|]. etrans; [|exact Hpre]. apply Hpa.
  - unfold exactly in Hans. destruct (decide (n ≤ boxes h3)); [|lia].
    exfalso. symmetry in Hans. revert Hans. apply Hpat. rewrite !boxes_app. simpl. lia.
  - lia.
Qed.

Lemma sleepUntil_finished o rate fuel h0 t limit g :
  (0 < rate)%Z → paced rate o → 0 < fuel →
  (rate * (limit - o h0 Now) < Z.of_nat (fuel + length t) - 1)%Z →
  wp (exactly o) (sleepUntil fuel limit) (λ r _ h', r ≠ Unfinished ∧ h0 `prefix_of` h') g (h0 ++ t).
Proof.
  intros Hrate Hpace. revert g t. induction fuel as [|fuel IH]; intros g t Hpos Hf; [lia|].
  cbn [sleepUntil bind wp request]. intros now Hnow. unfold exactly in Hnow.
  pose proof (Hpace h0 t) as Hp. rewrite <-Hnow in Hp. rewrite <-app_assoc.
  destruct (Z.leb_spec now limit) as [Hle|Hgt]; [|split; [done|by apply prefix_app_r]].
  apply IH; [|rewrite length_app; simpl; lia].
  assert (rate * (now - o h0 Now) ≤ rate * (limit - o h0 Now))%Z by nia. lia.
Qed.

Lemma awaitRemoval_finished o rate fuel n g h :
  (0 < rate)%Z → paced rate o → (rate * 100 < Z.of_nat fuel)%Z →
  wp (exactly o) (awaitRemoval fuel n) finished g h.
Proof.
  intros Hrate Hpace Hfuel. revert g h. induction n as [|n IH]; intros g h; [done|].
  cbn [awaitRemoval]. apply finished_seq.
  - unfold sleep. cbn [bind wp request]. intros start Hstart. unfold exactly in Hstart. subst start.
    apply (sleepUntil_finished _ rate); [done|done|lia|]. simpl length. nia.
  - intros _ g1 h1 _. simpl. intros [] _; [apply IH|done].
Qed.

Lemma replace_finished o rate fuel g h :
  (0 < rate)%Z → paced rate o → (rate * 100 < Z.of_nat fuel)%Z →
  wp (exactly o) (replaceOldInstallation fuel) finished g h.
Proof.
  intros Hrate Hpace Hfuel. unfold replaceOldInstallation, appName.
  do 4 (apply finished_seq_free; [solve_completes|]; intros ? ? ? _).
  case_match; try (apply finished_free; solve [solve_completes]).
  apply finished_seq_free; [solve_completes|]. intros installed g1 h1 _.
  eapply (wp_seq _ _ _ finished); [|intros [[]| |] g2 h2 Hr2; try done].
  - destruct installed; [|done]. unfold removeOldInstallation.
    do 3 (apply finished_seq_free; [solve_completes|]; intros ? ? ? _).
    unfold finishUninstall. apply finished_seq_free; [solve_completes|]. intros ? ? ? _.
    destruct (exitedZero _); [|apply finished_free; solve_completes].
    eapply wp_seq; [by eapply awaitRemoval_finished|].
    by intros [] g3 h3 Hr3.
  - apply finished_free; solve_completes.
Qed.

(** ** The result of the check for a running application *)

(** The check leaves the global variables alone. *)
Lemma wp_appProcessIsRunning E (Q : outcome bool → globals → trace ifw → Prop) g h :
  (∀ r h', Q r g h') → wp E appProcessIsRunning Q g h.
Proof.
  intros HQ. unfold appProcessIsRunning, checkProcessIsRunning, appExecutableFileName,
    runningOnWindows, appName. cbn [bind wp request]. intros os _.
  case_bool_decide; cbn [bind wp request].
  - intros [[out c]|] _; [|apply HQ]. destruct (c =? 0)%Z; [|apply HQ].
    cbn [bind wp request]. intros os' _. case_bool_decide; cbn [bind wp request]; intros; apply HQ.
  - intros name _ [[out c]|] _; [|apply HQ]. destruct (Number _); apply HQ.
Qed.

(** A warning that the application is active was not answered by Retry. *)
Definition isAbort (e : event ifw) : bool :=
  match e with
  | Ev (MessageBox Warning _ _ _ _) b => match b with Retry => false | _ => true end
  | _ => false
  end.

Definition loopPost (r : outcome unit) (g : globals) (h : trace ifw) : Prop :=
  r = Returned tt →
  if requestToQuitFromApp g
  then desktopAppProcessRunning g = true ∧ ∃ e, last h = Some e ∧ isAbort e = true
  else desktopAppProcessRunning g = false.

Lemma wp_pollProcess E n (Q : outcome unit → globals → trace ifw → Prop) g h :
  (∀ r g' h', requestToQuitFromApp g' = requestToQuitFromApp g → Q r g' h') →
  wp E (pollProcess n) Q g h.
Proof.
  revert g h. induction n as [|n IH]; intros g h HQ; cbn [pollProcess]; [by apply HQ|].
  apply wp_bind, wp_appProcessIsRunning. intros [b| |] h'; [|by apply HQ..].
  cbn [andThen bind setGlobals wp]. destruct b; [by apply IH | by apply HQ].
Qed.

Lemma messageLoop_post E fuel g h :
  requestToQuitFromApp g = false →
  wp E (isDesktopAppProcessRunningMessageLoop fuel) loopPost g h.
Proof.
  revert g h. induction fuel as [|fuel IH]; intros g h Hg; [done|].
  cbn [isDesktopAppProcessRunningMessageLoop bind wp getGlobals id request]. rewrite Hg.
  cbn [bind wp request]. intros upd _. apply wp_bind.
  assert (Hrest : ∀ r g' h', requestToQuitFromApp g' = requestToQuitFromApp g →
    ∀ f, (∀ g' h', requestToQuitFromApp g' = false → wp E (f tt) loopPost g' h') →
    andThen E f loopPost r g' h').
  { intros [[]| |] g' h' Hg' f Hf; cbn [andThen]; [apply Hf; congruence|done|done]. }
  set (f := λ _ : unit, _).
  assert (Hf : ∀ g' h', requestToQuitFromApp g' = false → wp E (f tt) loopPost g' h').
  { intros g1 h1 Hg1. subst f. cbv beta. apply wp_bind, wp_appProcessIsRunning.
    intros [[]| |] h2; cbn [andThen bind wp setGlobals appName request]; [|by intros _; simpl; rewrite Hg1|done|done].
    intros name _ name' _ answer _.
    destruct answer; try (intros _; simpl; split; [done|]; rewrite last_snoc; eauto).
    by apply IH. }
  destruct upd; [apply wp_pollProcess; intros; by apply Hrest | by apply (Hrest (Returned tt))].
Qed.

(** ** The result of the uninstallers *)

Definition startsProgram (c : ifwCall) : bool :=
  match c with Execute _ [] => true | _ => false end.

(** What the last program started without arguments returned. *)
Fixpoint lastResult (r : execResult) (h : trace ifw) : execResult :=
  match h with
  | [] => r
  | Ev (Execute _ []) r' :: h => lastResult r' h
  | _ :: h => lastResult r h
  end.

Lemma lastResult_app r h t : lastResult r (h ++ t) = lastResult (lastResult r h) t.
Proof.
  revert r. induction h as [|[c x] h IH]; intros r; [done|].
  destruct c as [| | | |program [|a args]| | | | | | | | | | | | | | | | | | | | | | | | | | |]; simpl; apply IH.
Qed.

Lemma lastResult_other r h : allCalls (λ c, negb (startsProgram c)) h → lastResult r h = r.
Proof.
  revert r. induction h as [|[c x] h IH]; intros r Hh; [done|]. apply Forall_cons in Hh as [Hc Hh].
  destruct c as [| | | |program [|a args]| | | | | | | | | | | | | | | | | | | | | | | | | | |]; simpl in *; auto; done.
Qed.

Lemma startless_sleepUntil fuel limit : only (λ c, negb (startsProgram c)) (sleepUntil fuel limit).
Proof. induction fuel as [|fuel IH]; cbn [sleepUntil]; solve_only. Qed.
#[export] Hint Resolve startless_sleepUntil : vpn.

Lemma startless_awaitRemoval fuel n : only (λ c, negb (startsProgram c)) (awaitRemoval fuel n).
Proof. induction n as [|n IH]; cbn [awaitRemoval]; unfold sleep; solve_only. Qed.

Lemma startUninstaller_result E path r r0 g h :
  lastResult r0 h = r →
  wp E (startUninstaller path r) (λ res g' h', ∃ r', res = Returned r' ∧ lastResult r0 h' = r') g h.
Proof.
  intros Hr. unfold startUninstaller. cbn [bind wp request].
  intros [] _; cbn [bind wp request]; intros; eexists; (split; [done|]);
    rewrite !lastResult_app; simpl; done.
Qed.

Lemma finishUninstall_result E fuel r g h :
  lastResult None h = r →
  wp E (finishUninstall fuel r) (λ res _ h', ∀ b, res = Returned b →
    b = exitedZero (lastResult None h') ∧
    (b = false → last h' = Some (Ev SetCancelled tt))) g h.
Proof.
  intros Hr. unfold finishUninstall. cbn [bind wp request]. intros [] _.
  destruct (exitedZero r) eqn:H0.
  - eapply wp_seq; [apply (only_wp _ (λ c, negb (startsProgram c))), startless_awaitRemoval|].
    intros [[]| |] g' h' (t & -> & Ht); [|done..]. cbn [andThen wp]. intros b [= <-].
    split; [|done]. rewrite !lastResult_app, Hr, (lastResult_other _ t) by done. simpl.
    done.
  - cbn [bind wp request]. intros [] _ [] _ b [= <-]. split; [|by rewrite last_snoc].
    rewrite !lastResult_app, Hr. simpl. done.
Qed.

(** ** Properties *)

(** C11: whatever the framework and the user answer, the constructor of the control
    script starts an uninstaller only after the user agreed to remove the old
    installation, and only one whose file it has seen to exist. *)
Theorem uninstaller_needs_consent o sleepFuel loopFuel g :
  consented (resTrace (run o (Controller sleepFuel loopFuel) g [])).
Proof.
  apply (wp_run o (Controller sleepFuel loopFuel) (λ _ _ h, consented h)).
  assert (Hnil : consented []) by (intros [] h2 p args r Heq; discriminate).
  unfold Controller.
  consent_steps.
  case_match; [|by apply consented_only; [solve_only|]].
  consent_steps.
  case_match; [by apply consented_only; [solve_only|]|].
  consent_steps.
  case_match; [by apply consented_replace | by apply consented_only; [solve_only|]].
Qed.




(** The browse button sets the target directory to a path that ends with the
    application's name: the chosen one, or the chosen one with a backslash and the
    name appended. *)
Lemma browse_target_dir o name g d :
  (∀ h, o h (Value "Name") = name) →
  Ev (SetValue "TargetDir" d) tt ∈ resTrace (run o onBrowseButtonClicked g []) →
  endsWith d name = true ∧
  ∃ h, d = o h LineEditText ∨
       endsWith (o h LineEditText) name = false ∧ d = o h LineEditText +:+ "\" +:+ name.
Proof.
  intros Hname.
  apply (wp_exactly o onBrowseButtonClicked (λ _ _ tr, Ev (SetValue "TargetDir" d) tt ∈ tr → _)).
  unfold onBrowseButtonClicked, runningOnWindows, appName. cbn [bind wp request].
  intros [] _; [|cbn [wp]; set_solver]. cbn [bind wp request]. intros os _.
  case_bool_decide; [|cbn [wp]; set_solver]. cbn [bind wp request].
  intros text -> n1 ->. rewrite Hname.
  match goal with |- context [o ?x LineEditText] => set (h := x) end.
  destruct (endsWith (o h LineEditText) name) eqn:Hends; cbn [negb bind wp request].
  - intros [] _ dir _ [] _ Hin. assert (d = o h LineEditText) as -> by set_solver. eauto.
  - intros n2 -> [] _ dir _ [] _ Hin. rewrite Hname in Hin.
    assert (d = o h LineEditText +:+ "\" +:+ name) as -> by set_solver.
    split; [|eauto]. apply endsWith_true. exists (o h LineEditText +:+ "\"). by rewrite sapp_assoc.
Qed.

(** ** Witnesses

    A 64-bit Windows system with a 64-bit and a 32-bit installation.  The 32-bit
    uninstaller, started first, fails with code 5; the other one succeeds.  The
    user agrees to everything except to try again. *)

Definition uninstallersRun (h : trace ifw) : nat :=
  length (filter (λ e, isUninstall (evCall e) = true) h).

Definition windowsOracle : oracle ifw := λ h c,
  match c as c return ifwAns c with
  | Value k =>
      if bool_decide (k = "os") then "win"
      else if bool_decide (k = "RootDir") then "C:/" else "AmneziaVPN"
  | FileExists _ => bool_decide (uninstallersRun h < 2)
  | FindPath _ _ => ""
  | Execute p _ =>
      Some ("", if bool_decide (p = Some "C:/Program Files (x86)/AmneziaVPN/maintenancetool.exe")
                then 5%Z else 0%Z)
  | IsInstaller => true
  | IsUpdater => false
  | IsUninstaller => false
  | GainAdminRights => true
  | PageById _ => true
  | CurrentPageWidget => true
  | LineEditText => "D:\Programs"
  | SystemInfo _ => "x86_64"
  | DesktopLocation => "C:\Users\Public\Desktop"
  | QsTr s => s
  | Status => Success
  | MessageBox Information _ _ _ _ => Ok
  | MessageBox Warning _ _ _ _ => Abort
  | Now => (1000 * Z.of_nat (length h))%Z
  | _ => tt
  end.

Definition windowsGlobals : globals :=
  Globals false 0 false (Some "C:/Program Files/AmneziaVPN/maintenancetool.exe")
    (Some "C:/Program Files (x86)/AmneziaVPN/maintenancetool.exe").


Lemma windowsOracle_paced : paced 1 windowsOracle.
Proof. intros h t. cbn [windowsOracle]. rewrite length_app. lia. Qed.

Lemma windowsOracle_patient : patient 0 windowsOracle.
Proof. intros h [] i t x bs _; discriminate. Qed.



Lemma browse_target_dir_example :
  endsWith "D:\Programs\AmneziaVPN" "AmneziaVPN" = true ∧
  ∃ h, "D:\Programs\AmneziaVPN" = windowsOracle h LineEditText ∨
       endsWith (windowsOracle h LineEditText) "AmneziaVPN" = false ∧
       "D:\Programs\AmneziaVPN" = windowsOracle h LineEditText +:+ "\" +:+ "AmneziaVPN".
Proof.
  apply (browse_target_dir windowsOracle "AmneziaVPN" initialGlobals); [reflexivity|].
  vm_compute. set_solver.
Defined.
