(* ===== verification/ComponentScript.v ===== *)
(** * The installer's component script ([deploy/installer/qif/componentscript.js])

    The script adds the operations that install the application and its service,
    and starts both when the installation is finished.  It keeps no state of its
    own between the calls, so its functions are scripts over [unit].  Starting and
    ending of administrator rights are requests like any other: the theorems read
    them off the history of a run. *)

From Stdlib Require Import Ascii.
From S2P Require Import Prelude QtCore Effects Ifw.
From stdpp Require Import options.

Open Scope script_scope.

Notation script := (prog ifw unit).

Definition appName : script string := request (Value "Name").

Definition serviceName : script string := name ← appName; Ret (name +:+ "-service").

Definition kernelTypeIs (k : string) : script bool :=
  t ← request (SystemInfo "kernelType"); Ret (bool_decide (t = k)).

Definition runningOnWindows : script bool := kernelTypeIs "winnt".
Definition runningOnMacOS : script bool := kernelTypeIs "darwin".
Definition runningOnLinux : script bool := kernelTypeIs "linux".

Definition appExecutableFileName : script string :=
  win ← runningOnWindows;
  if win then name ← appName; Ret (name +:+ ".exe") else appName.

Definition vcRuntimeIsInstalled : script bool :=
  root ← request (Value "RootDir");
  found ← request (FindPath "msvcp140.dll" [root +:+ "\Windows\System32\"]);
  Ret (negb (isEmpty found)).

Definition Component : script unit :=
  request (Connect "component.loaded" "componentLoaded") ;;
  request (Connect "installer.installationFinished" "installationFinishedPageIsShown") ;;
  request (Connect "installer.finishButtonClicked" "installationFinished").

Definition componentLoaded : script unit := Ret tt.

Definition installationFinishedPageIsShown : script unit :=
  installer ← request IsInstaller;
  if (installer : bool) then
    status ← request Status;
    match (status : installerStatus) with
    | Success => request (ClickButton FinishButton)
    | NotSuccess => Ret tt
    end
  else Ret tt.

(** [path.replace(/\//g, '\\')]. *)
Definition backslashes (path : string) : string := replace path "/" "\".

(** Line 75 to 85: the run-time library, when it is missing and bundled. *)
Definition addRedistributable : script unit :=
  installed ← vcRuntimeIsInstalled;
  if negb installed then
    arch ← request (SystemInfo "currentCpuArchitecture");
    let vcRedistFileName :=
      if negb (contains arch "64") then "vc_redist.x86.exe" else "vc_redist.x64.exe" in
    dir ← request (Value "TargetDir");
    found ← request (FindPath vcRedistFileName [backslashes dir]);
    if negb (isEmpty found) then
      request (AddOperation true "Execute"
        [Str ("@TargetDir@\" +:+ vcRedistFileName); Str "/install"; Str "/quiet"; Str "/norestart";
         Str "/log"; Str "vc_redist.log"])
    else
      request (ConsoleLog (vcRedistFileName +:+
        " is not bundled, relying on the application-local MSVC runtime"))
  else request (ConsoleLog "Microsoft Visual C++ Redistributable already installed").

(** Line 66 to 73: a shortcut to the executable, on the desktop and in the menu. *)
Definition addShortcut (elevated : bool) (folder : script string) : script unit :=
  exe ← appExecutableFileName;
  folder ← folder;
  name ← appName;
  exe' ← appExecutableFileName;
  request (AddOperation elevated "CreateShortcut"
    [Str ("@TargetDir@/" +:+ exe); Str (folder +:+ "/" +:+ name +:+ ".lnk");
     Str "workingDirectory=@TargetDir@"; Str ("iconPath=@TargetDir@\" +:+ exe'); Str "iconId=0"]).

(** Line 87 to 93: register the service, and the script that runs after. *)
Definition addService : script unit :=
  dir ← request (Value "TargetDir");
  let pu_path := backslashes dir +:+ "\" in
  service ← serviceName;
  service' ← serviceName;
  request (AddOperation true "Execute"
    [Arr ["sc"; "create"; service; "binpath="; pu_path +:+ service' +:+ ".exe";
          "start="; "auto"; "depend="; "BFE/nsi"];
     Str "UNDOEXECUTE"; Str "cmd"; Str "/c"; Str (pu_path +:+ "post_uninstall.cmd")]) ;;
  request (AddOperation true "Execute"
    [Str "cmd"; Str "/c"; Str (pu_path +:+ "post_install.cmd")]).

Definition createOperations : script unit :=
  request CreateOperations ;;
  win ← runningOnWindows;
  if win then
    addShortcut false (request DesktopLocation) ;;
    addShortcut true (request (Value "AllUsersStartMenuProgramsPath")) ;;
    addRedistributable ;;
    addService
  else
    mac ← runningOnMacOS;
    if mac then
      request (AddOperation true "Execute"
        [Str "@TargetDir@/post_install.sh"; Str "UNDOEXECUTE"; Str "@TargetDir@/post_uninstall.sh"])
    else
      linux ← runningOnLinux;
      if linux then
        request (AddOperation true "Execute"
          [Str "bash"; Str "@TargetDir@/post_install.sh"; Str "UNDOEXECUTE";
           Str "bash"; Str "@TargetDir@/post_uninstall.sh"])
      else Ret tt.

(** The text of an array of an output and an exit code. *)
Definition showResult (r : execResult) : string :=
  match r with Some (out, c) => out +:+ "," +:+ pretty c | None => "" end.

(** Line 113 to 126: the command that starts the application; on Windows the
    service is started first. *)
Definition launchCommand : script string :=
  win ← runningOnWindows;
  if win then
    exe ← appExecutableFileName;
    service ← serviceName;
    status1 ← request (Execute (Some "net") ["start"; service]);
    service ← serviceName;
    request (ConsoleLog (replace (replace "%1 started with status: %2 " "%1" service)
      "%2" (showResult status1))) ;;
    service ← serviceName;
    status2 ← request (Execute (Some "sc")
      ["failure"; service; "reset="; "100"; "actions="; "restart/2000/restart/2000/restart/2000"]);
    service ← serviceName;
    request (ConsoleLog (replace (replace "Changed settings for %1 with status: %2 " "%1" service)
      "%2" (showResult status2))) ;;
    Ret ("@TargetDir@/" +:+ exe)
  else
    mac ← runningOnMacOS;
    if mac then
      name ← appName;
      name' ← appName;
      Ret ("/Applications/" +:+ name +:+ ".app/Contents/MacOS/" +:+ name')
    else
      linux ← runningOnLinux;
      if linux then name ← appName; Ret ("@TargetDir@/client/" +:+ name) else Ret "".

Definition installationFinished : script unit :=
  status ← request Status;
  match (status : installerStatus) with
  | NotSuccess => Ret tt
  | Success =>
      installer ← request IsInstaller;
      go ← (if (installer : bool) then Ret true else request IsUpdater);
      if (go : bool) then
        admin ← request GainAdminRights;
        if negb (admin : bool) then
          request (ConsoleLog "Fatal error! Cannot get admin rights!")
        else
          command ← launchCommand;
          request DropAdminRights ;;
          dir ← request (Value "TargetDir");
          request (ExecuteDetached command [] dir)
      else Ret tt
  end.

(** ** Administrator rights *)

(** Whether the rights are held after a history. *)
Definition rightsAfter (held : bool) (e : event ifw) : bool :=
  match e with
  | Ev GainAdminRights granted => granted
  | Ev DropAdminRights _ => false
  | _ => held
  end.

(** Commands of the service manager run with the rights, the application is
    started without them, and no other program is started. *)
Definition allowedWith (held : bool) (c : ifwCall) : bool :=
  match c with
  | Execute p _ => held && (bool_decide (p = Some "net") || bool_decide (p = Some "sc"))
  | ExecuteDetached _ _ _ => negb held
  | _ => true
  end.

Fixpoint privilegesRespected (held : bool) (h : trace ifw) : bool :=
  match h with
  | [] => true
  | e :: h => allowedWith held (evCall e) && privilegesRespected (rightsAfter held e) h
  end.

Definition rights (held : bool) (h : trace ifw) : bool := foldl rightsAfter held h.

Lemma privileges_app held h t :
  privilegesRespected held (h ++ t) =
  privilegesRespected held h && privilegesRespected (rights held h) t.
Proof.
  revert held. induction h as [|e h IH]; intros held; [done|]. simpl. by rewrite IH, andb_assoc.
Qed.

Lemma rights_app held h t : rights held (h ++ t) = rights (rights held h) t.
Proof. apply foldl_app. Qed.

Ltac wp_steps :=
  repeat match goal with
  | |- wp _ (if negb ?b then _ else _) _ _ _ => destruct b; cbn [negb]
  | |- wp _ (if ?b then _ else _) _ _ _ => destruct b
  | |- wp _ (bind (if ?b then _ else _) _) _ _ _ => destruct b
  | |- wp _ (match ?x with _ => _ end) _ _ _ => destruct x
  | |- ∀ _, _ => intro
  | |- wp _ _ _ _ _ => progress cbn [bind wp request negb]
  end.

(** The history so far is fine and the rights are held. *)
Definition elevated (h : trace ifw) : Prop :=
  privilegesRespected false h = true ∧ rights false h = true.

Lemma launchCommand_elevated g h :
  elevated h → wp anything launchCommand (λ r _ h', elevated h' ∧ ∃ c, r = Returned c) g h.
Proof.
  intros [Hp Hr].
  unfold launchCommand, serviceName, appExecutableFileName, runningOnWindows, runningOnMacOS,
    runningOnLinux, kernelTypeIs, appName, elevated.
  wp_steps; (split; [|eauto]); rewrite !privileges_app, !rights_app, Hp, Hr; done.
Qed.

(** What [installationFinished] leaves behind. *)
Definition finishPost (r : outcome unit) (_ : unit) (h : trace ifw) : Prop :=
  r = Returned tt ∧ privilegesRespected false h = true ∧ rights false h = false.

Lemma installationFinished_post g : wp anything installationFinished finishPost g [].
Proof.
  unfold installationFinished, finishPost.
  wp_steps; try (split_and!; [by repeat match goal with x : ans _ |- _ => destruct x end | done | done]).
  all: eapply wp_seq; [by apply launchCommand_elevated|].
  all: intros r g' h' [[Hp Hr] [c ->]]; cbn [andThen]; wp_steps.
  all: match goal with |- Returned ?x = _ ∧ _ => destruct x end.
  all: split; [done|]; rewrite !privileges_app, !rights_app, Hp, Hr; done.
Qed.

(** ** Operations *)

(** An operation that runs a program and names the program that undoes it. *)
Definition isUndoKeyword (a : operationArg) : bool :=
  match a with Str s => bool_decide (s = "UNDOEXECUTE") | Arr _ => false end.

Definition hasUndo (c : ifwCall) : bool :=
  match c with
  | AddOperation true name args => bool_decide (name = "Execute") && existsb isUndoKeyword args
  | _ => false
  end.

Definition undoable (h : trace ifw) : nat := length (filter (λ e, hasUndo (evCall e) = true) h).

Lemma undoable_snoc h e :
  undoable (h ++ [e]) = undoable h + (if hasUndo (evCall e) then 1 else 0).
Proof.
  unfold undoable. rewrite filter_app, length_app, filter_cons, filter_nil.
  by destruct (hasUndo (evCall e)).
Qed.

Lemma undoable_other h t : allCalls (λ c, negb (hasUndo c)) t → undoable (h ++ t) = undoable h.
Proof.
  intros Ht. induction t as [|e t IH] using rev_ind; [by rewrite app_nil_r|].
  apply Forall_app in Ht as [Ht He]. apply Forall_cons in He as [He _].
  rewrite app_assoc, undoable_snoc, IH by done. destruct (hasUndo (evCall e)); [done|lia].
Qed.

(** A part that always returns and adds no such operation. *)
Lemma undoable_seq {A} E (p : script A) (f : A → script unit) n g h :
  only (λ c, negb (hasUndo c)) p → completes false p → undoable h = 0 →
  (∀ a g' h', undoable h' = 0 → wp E (f a) (λ _ _ h, undoable h = n) g' h') →
  wp E (bind p f) (λ _ _ h, undoable h = n) g h.
Proof.
  intros Hp Hc Hh Hf. eapply wp_seq; [by apply (only_returns_wp _ (λ c, negb (hasUndo c)))|].
  intros ? g' h' (a & t & -> & -> & Ht). apply Hf. by rewrite undoable_other.
Qed.

Lemma not_undo_keyword s : isUndoKeyword (Str (s +:+ "post_install.cmd")) = false.
Proof.
  apply bool_decide_eq_false. intros Heq. apply (f_equal String.length) in Heq.
  rewrite slength_app in Heq. simpl in Heq. lia.
Qed.

Lemma noUndo_addShortcut elevated folder :
  only (λ c, negb (hasUndo c)) folder → only (λ c, negb (hasUndo c)) (addShortcut elevated folder).
Proof.
  intros Hf. unfold addShortcut, appExecutableFileName, runningOnWindows, kernelTypeIs, appName.
  solve_only. destruct elevated; (split; [done|]); intro; exact I.
Qed.

Lemma noUndo_addRedistributable : only (λ c, negb (hasUndo c)) addRedistributable.
Proof.
  unfold addRedistributable, vcRuntimeIsInstalled. cbv zeta. solve_only.
Qed.

Lemma completes_addShortcut elevated folder :
  completes false folder → completes false (addShortcut elevated folder).
Proof.
  intros Hf. unfold addShortcut, appExecutableFileName, runningOnWindows, kernelTypeIs, appName.
  solve_completes.
Qed.

Lemma completes_addRedistributable : completes false addRedistributable.
Proof. unfold addRedistributable, vcRuntimeIsInstalled. cbv zeta. solve_completes. Qed.
#[export] Hint Resolve completes_addRedistributable : vpn.

Lemma addService_undoable E g h :
  undoable h = 0 → wp E addService (λ _ _ h, undoable h = 1) g h.
Proof.
  intros Hh. unfold addService, serviceName, appName. cbn [bind wp request]. intros.
  rewrite !undoable_snoc, Hh. cbn [evCall hasUndo existsb]. rewrite not_undo_keyword. done.
Qed.
Definition isKnownKernel (k : string) : bool :=
  bool_decide (k = "winnt") || bool_decide (k = "darwin") || bool_decide (k = "linux").

(** ** Properties *)


(** On Windows, macOS and Linux exactly one of the operations of the component
    runs a program that names its undo program (the removal script, which stops and
    removes the service); on another system there is none. *)
Lemma createOperations_undo o k :
  (∀ h, o h (SystemInfo "kernelType") = k) →
  undoable (resTrace (run o createOperations tt [])) = if isKnownKernel k then 1 else 0.
Proof.
  intros Hk.
  apply (wp_exactly o createOperations (λ _ _ h, undoable h = _)).
  unfold createOperations, runningOnWindows, runningOnMacOS, runningOnLinux, kernelTypeIs.
  cbn [bind wp request]. intros [] _ k1 ->. rewrite Hk. case_bool_decide.
  - subst k. change (isKnownKernel _) with true.
    apply undoable_seq; [apply noUndo_addShortcut; solve_only|apply completes_addShortcut; solve_completes|done|].
    intros _ g1 h1 Hh1.
    apply undoable_seq; [apply noUndo_addShortcut; solve_only|apply completes_addShortcut; solve_completes|done|].
    intros _ g2 h2 Hh2.
    apply undoable_seq; [apply noUndo_addRedistributable|solve_completes|done|].
    intros _ g3 h3 Hh3. by apply addService_undoable.
  - cbn [bind wp request]. intros k2 ->. rewrite Hk.
    case_bool_decide; [subst k; by intros [] _|].
    cbn [bind wp request]. intros k3 ->. rewrite Hk.
    case_bool_decide; [subst k; by intros [] _|].
    cbn [wp]. unfold isKnownKernel. by rewrite !bool_decide_eq_false_2.
Qed.

(** ** Witnesses *)

Definition linuxOracle : oracle ifw := λ h c,
  match c as c return ifwAns c with
  | Value _ => "AmneziaVPN"
  | FileExists _ => false
  | FindPath _ _ => ""
  | Execute _ _ => Some ("", 0%Z)
  | IsInstaller => true
  | IsUpdater => false
  | IsUninstaller => false
  | GainAdminRights => true
  | PageById _ => true
  | CurrentPageWidget => true
  | LineEditText => "/opt"
  | SystemInfo _ => "linux"
  | DesktopLocation => "/home/user/Desktop"
  | QsTr s => s
  | Status => Success
  | MessageBox _ _ _ _ _ => Ok
  | Now => Z.of_nat (length h)
  | _ => tt
  end.

Lemma createOperations_undo_example :
  undoable (resTrace (run linuxOracle createOperations tt [])) = 1.
Proof. apply (createOperations_undo linuxOracle "linux"). reflexivity. Defined.
